(* ===== verification/_CoqProject ===== *)
-Q . S2P
Prelude.v
Machine.v
Ring.v
CMem.v
Mmu.v
Spinlock.v
Kalloc.v
ConsOut.v
Vm.v
PageTable.v
AddrSpace.v
Proc.v
SleepWake.v
Scheduler.v
Stride.v
DiskFmt.v
Bio.v
BufSpec.v
Log.v
LogSpec.v
LogCommit.v
LogCrash.v
LogTxn.v
BufCache.v
Boot.v
Mp.v
Devices.v
Main.v
Ide.v
Inode.v
Kbd.v
ConsIn.v
Fs.v
FsSpec.v
BlockSpec.v
GrowSpec.v
TruncSpec.v
DirSpec.v
Mkfs.v
Umem.v
Pipe.v
File.v
ProcLife.v
Exec.v
Syscall.v
Sysfile.v
Trap.v
Umalloc.v
User.v
Grep.v
Utils.v
Sh.v
ShGrammar.v
