(* ===== verification/Prelude.v ===== *)
(** * StrideXV6: a verification development

    StrideXV6 is the xv6 operating system for the i386 with a stride scheduler in place
    of round robin: fork() takes a number of tickets and scheduler() runs the process
    whose pass is smallest. The C code of src/ is translated here into executable
    functions and theorems are proved about them.

    ** The program and its model

    The system has three layers. The boot loader puts the kernel into memory. The kernel
    keeps processes, address spaces, files on a logged disk, pipes and a console, and is
    entered by traps. User programs use it through system calls only. A program of the
    host, mkfs, builds the disk image.

    Kernel code is written in a monad [M S A] of this file: state, a normal return [Ok],
    the kernel's [Panic], a [Fault] of the hardware or of C, and [Hang]. Integers are [Z]
    with the wrap-around of their C type written out ([u32], [s32], ...). The file-scope
    variables of the kernel are the record [kstate] of Machine.v, and [K] is the monad
    over it; pointers into static arrays are indices, pointers to pages are addresses of
    the byte memory [k_mem]. Files, in the order of _CoqProject:

    - Prelude: integers, the monad, loops, shared lemmas and tactics.
    - Machine: structs and variables of the kernel; the interface of locks; [Env], what
      runs while a process is switched out (swtch.S) and the linker's symbols.
    - Ring: counters of circular buffers. CMem: string.c and memory. Mmu: mmu.h,
      memlayout.h.
    - Spinlock: spinlock.c on several processors.
    - Kalloc: kalloc.c. Vm: vm.c, with PageTable and AddrSpace for its theorems.
    - ConsOut, ConsIn, Kbd: console.c, uart.c, kbd.c, kbd.h.
    - Proc, Scheduler, ProcLife: proc.c. SleepWake: sleep() and wakeup() on several
      processors. Stride: theorems about schedules.
    - DiskFmt: fs.h. Bio: bio.c and memide.c, with BufSpec and BufCache for what they
      promise. Log: log.c, with LogSpec, LogCommit, LogCrash, LogTxn.
    - Inode, Fs: fs.c. FsSpec: the contents of files. BlockSpec: the bitmap as a list of
      free blocks, and operations inside a transaction. GrowSpec: files that grow.
      TruncSpec: itrunc(). DirSpec: directories. Mkfs: mkfs.c.
    - Boot: bootmain.c. Mp: mp.c. Main: main.c. Ide: ide.c. Devices: lapic.c, ioapic.c,
      picirq.c, timer.c, uartinit(), tvinit(), seginit().
    - Umem: user memory through the page table. Pipe: pipe.c. File: file.c. Exec: exec.c.
      Syscall, Sysfile: syscall.c, sysproc.c, sysfile.c. Trap: trap.c.
    - Umalloc: umalloc.c. User: ulib.c, printf.c, user.h. Grep: grep.c. Sh, ShGrammar:
      sh.c. Utils: the small programs.

    Every operation keeps the name it has in C; a loop or a branch that is a definition of
    its own has the function's name as a prefix where possible.

    ** What the theorems show

    - Crash safety. A commit() cut short at any disk write is all or nothing once
      recover_from_log() has run, and recovery may itself be cut short (LogCrash); a block
      is logged once (LogTxn); hence a write over the bytes of a file is atomic across
      crashes and reads return what was written (FsSpec). The cache underneath returns
      what was written and replaces the least recently used buffer (BufCache).
    - Files. balloc() and bfree() implement a list of free blocks (BlockSpec); writei()
      extends a file through direct and indirect blocks and readi() returns its bytes
      (GrowSpec); itrunc() frees exactly the blocks of a file (TruncSpec); dirlink() and
      dirlookup() implement a map from names to inodes (DirSpec). They hold inside a
      transaction with room for the blocks in the log and on the disk, on a disk whose
      bitmap is one block, as mkfs builds it; [no_ind] and [cost] count what is needed.
    - Scheduling. For processes that use their whole time slices and have positive passes
      close together, far from overflow: a round picks the smallest pass, the processor is
      shared in inverse proportion to the strides, that is in proportion to the tickets up
      to the truncation in 10000 / tickets, and nobody starves. Two flaws of the code are
      proved as well: a pass of 0 starves, and a round with nobody runnable runs the
      process of an earlier round (Stride).
    - Concurrency. The actions of acquire() and release() on any number of processors,
      interleaved in any order, give a lock to one of them at a time; run on one processor
      the routines implement the interface the kernel model uses: acquire() panics, returns
      with the lock, or does not return while another processor holds it (Spinlock). The
      actions of sleep() and wakeup(), interleaved in any order, lose no wakeup, given locks
      that exclude and a scheduler that only runs RUNNABLE processes (SleepWake).
    - Memory. kalloc() and kfree() lose no page and never hand out one in use (Kalloc); setupkvm() and copyuvm()
      build the page tables they should (AddrSpace); argptr() accepts the pointers inside
      the process (Syscall); malloc(), for sizes that do not wrap around, and free() keep
      the user heap well formed (Umalloc).
    - Queues and devices. Pipes, console input and the queue of the disk driver implement
      queues, and a writer waits while a pipe is full (Pipe, ConsIn, Ide); mpinit() finds
      the processors, and the messages startothers() sends to their local APICs start each
      of the others at the boot code with a stack of its own (Mp, Main); the boot loader
      loads the kernel (Boot).
    - Formats and programs. On-disk inodes have the types of their fields (DiskFmt); mkfs
      adds files the kernel reads back (Mkfs); the shell parses its grammar and always
      terminates (ShGrammar, Sh); grep decides its patterns and prints the matching lines
      of files (Grep).

    A theorem with hypotheses is followed by a lemma named [_witness] that applies it to
    concrete data.

    ** Bounds and fuel

    Loops whose length the data fixes recurse on it. Loops over a table or a range run
    over the list of its indices. The others take fuel computed from the arguments, one
    unit per round of the C loop: the pages of a range in freerange() and mappages(), the
    blocks of a range plus two in readi() and writei() ([blocks_of]), four times the
    length of the line plus eight in the shell's parser, twice the headers in malloc()
    and free(). The theorems about them conclude that they return, so the fuel is enough.
    Waits of the kernel go round at most [wakeups] times, a parameter; scheduler(),
    mpinit() and the loops of user programs that end with their input take the number of
    rounds as an argument, and the theorems say how many are enough or hold for all.

    ** Assumptions

    [EnvOk] says that a process is resumed as the running one with the locks it gave up
    the processor with. [LinkOk] of AddrSpace says where kernel.ld puts the kernel.
    [Stream] of User says what reading and writing a file does to a program: a read
    returns all the bytes asked for while there are as many, which pipes and the console do
    not promise; the file system of ufs in the same file has it. [drains] of Pipe says that
    readers take bytes out while a writer sleeps. startothers() assumes that a processor
    started as it should be comes up; what an INIT or STARTUP message does is [apic_write]
    of Main. Kernel code is sequential between the points
    where it sleeps, yields or waits for a lock; only Spinlock, SleepWake and Ide
    interleave.

    ** Not modelled

    - The assembly files (bootasm.S, entry.S, entryother.S, swtch.S, trapasm.S, vectors.S,
      initcode.S, usys.S) change processor mode, stack and registers, which have no
      counterpart in the C-level state; their effect on it is in [Env] and in the trap
      frame given to trap().
    - main(), mpenter() and mpmain() call the initialisation functions in order, over the
      states of all components, which are separate records here; lcr3(), lgdt(), lidt()
      and ltr() load processor registers.
    - trap() runs with the interrupt handler of memide.c, which does nothing; the driver
      of ide.c has its own state. The image that memide.c links into the kernel is an
      argument of its ideinit().
    - usertests.c is a test program without behaviour beyond the calls it makes; perl
      scripts, build files and the binaries beside the sources are no part of the system.
    - The interrupt flag outside Spinlock: sti() at the top of scheduler()'s loop, and the
      intena that sched() saves and restores. lapiceoi() at the end of trap()'s device
      cases is modelled in Devices but not called from Trap, whose state has no local APIC.
    - Addresses that wrap around 2^32 while the boot loader copies a segment: its theorem is
      about segments inside memory. The counters ref of an inode and outstanding of the
      log are integers without a bound: begin_op() keeps the second at LOGSIZE /
      MAXOPBLOCKS at most, and an int overflow of the first is undefined in C.
    - Where piperead() and readi() store into user memory byte by byte or block by block, the
      bytes are stored when they return. malloc() of the shell's parser does not fail.
    - Caches, timing and the order of memory accesses of the processor. *)

From Stdlib Require Export ZArith Lia.
From stdpp Require Export prelude strings numbers gmap list.
From stdpp Require Import options.

#[global] Open Scope Z_scope.

(** ** Machine integers

    Every C integer is a [Z] together with the wrap-around of its width.
    [uint], [int], [ushort], [short], [uchar] are the types of types.h; the
    signed types wrap in two's complement, as the i386 code gcc emits does. *)

Definition u32 (z : Z) : Z := z mod 4294967296.
Definition s32 (z : Z) : Z := (z + 2147483648) mod 4294967296 - 2147483648.
Definition u16 (z : Z) : Z := z mod 65536.
Definition s16 (z : Z) : Z := (z + 32768) mod 65536 - 32768.
Definition u8 (z : Z) : Z := z mod 256.

Definition is_u32 (z : Z) : Prop := 0 <= z < 4294967296.
Definition is_u8 (z : Z) : Prop := 0 <= z < 256.

(** ** The state, error and divergence monad

    [Ok a s] is a normal return; [Panic msg] is a call of the kernel's
    panic(); [Fault] is an access the hardware would refuse or C leaves
    undefined; [Hang] is a computation that does not come back (a sleeper
    nobody wakes, an exhausted bound on a loop). *)

Inductive res (S A : Type) : Type :=
| Ok (a : A) (s : S)
| Panic (msg : string)
| Fault
| Hang.
Arguments Ok {S A} _ _.
Arguments Panic {S A} _.
Arguments Fault {S A}.
Arguments Hang {S A}.

Definition M (S A : Type) : Type := S → res S A.

#[global] Instance M_ret {S} : MRet (M S) := λ A a s, Ok a s.
#[global] Instance M_bind {S} : MBind (M S) := λ A B f m s,
  match m s with
  | Ok a s' => f a s'
  | Panic msg => Panic msg
  | Fault => Fault
  | Hang => Hang
  end.

Section Monad.
Context {S : Type}.

Definition panic {A} (msg : string) : M S A := λ _, Panic msg.
Definition fault {A} : M S A := λ _, Fault.
Definition hang {A} : M S A := λ _, Hang.
Definition gets {A} (f : S → A) : M S A := λ s, Ok (f s) s.
Definition modify (f : S → S) : M S unit := λ s, Ok tt (f s).
Definition skip : M S unit := mret tt.

(** [when c m] is the C statement [if(c) m;]. *)
Definition when (c : bool) (m : M S unit) : M S unit := if c then m else skip.

(** [from_option] with a fault: dereferencing a null or wild pointer. *)
Definition deref {A} (o : option A) : M S A :=
  match o with Some a => mret a | None => fault end.

(** [for(x in l) f(x)] where the body may return early with [Some b]. *)
Fixpoint for_ret {A B} (l : list A) (f : A → M S (option B)) : M S (option B) :=
  match l with
  | [] => mret None
  | x :: l' => r ← f x; match r with Some b => mret (Some b) | None => for_ret l' f end
  end.

(** [for(x in l) f(x)] without early exit. *)
Fixpoint for_each {A} (l : list A) (f : A → M S unit) : M S unit :=
  match l with
  | [] => skip
  | x :: l' => f x ;; for_each l' f
  end.

(** A loop whose body either goes round again with [inl] or leaves with
    [inr]; [fuel] bounds the number of rounds. *)
Fixpoint loop {A B} (fuel : nat) (body : A → M S (A + B)) (a : A) : M S B :=
  match fuel with
  | O => hang
  | Datatypes.S n =>
    r ← body a;
    match r with inl a' => loop n body a' | inr b => mret b end
  end.

(** Total-correctness weakest precondition. *)
Definition wp {A} (m : M S A) (Q : A → S → Prop) (s : S) : Prop :=
  match m s with Ok a s' => Q a s' | _ => False end.

(** Partial correctness: what holds if the call returns at all. *)
Definition wlp {A} (m : M S A) (Q : A → S → Prop) (s : S) : Prop :=
  match m s with Ok a s' => Q a s' | _ => True end.

Lemma wp_ret {A} (a : A) Q s : Q a s → wp (mret a) Q s.
Proof. done. Qed.

Lemma wp_bind {A B} (m : M S A) (f : A → M S B) Q s :
  wp m (λ a s', wp (f a) Q s') s → wp (m ≫= f) Q s.
Proof. unfold wp, mbind, M_bind. by destruct (m s). Qed.

Lemma wlp_bind {A B} (m : M S A) (f : A → M S B) Q s :
  wlp m (λ a s', wlp (f a) Q s') s → wlp (m ≫= f) Q s.
Proof. unfold wlp, mbind, M_bind. by destruct (m s). Qed.

Lemma wp_wand {A} (m : M S A) (P Q : A → S → Prop) s :
  wp m P s → (∀ a s', P a s' → Q a s') → wp m Q s.
Proof. unfold wp. destruct (m s); auto. Qed.

Lemma wlp_wand {A} (m : M S A) (P Q : A → S → Prop) s :
  wlp m P s → (∀ a s', P a s' → Q a s') → wlp m Q s.
Proof. unfold wlp. destruct (m s); auto. Qed.

Lemma wp_wlp {A} (m : M S A) Q s : wp m Q s → wlp m Q s.
Proof. unfold wp, wlp. by destruct (m s). Qed.

Lemma wp_Ok {A} (m : M S A) Q s :
  wp m Q s → ∃ a s', m s = Ok a s' ∧ Q a s'.
Proof. unfold wp. destruct (m s); naive_solver. Qed.

Lemma wlp_Ok {A} (m : M S A) Q s a s' :
  wlp m Q s → m s = Ok a s' → Q a s'.
Proof. unfold wlp. intros H E. by rewrite E in H. Qed.

Lemma bind_Ok {A B} (m : M S A) (f : A → M S B) s a s' :
  m s = Ok a s' → (m ≫= f) s = f a s'.
Proof. intros E. unfold mbind, M_bind. by rewrite E. Qed.

Lemma bind_Ok_inv {A B} (m : M S A) (f : A → M S B) s b s' :
  (m ≫= f) s = Ok b s' → ∃ a s1, m s = Ok a s1 ∧ f a s1 = Ok b s'.
Proof. unfold mbind, M_bind. destruct (m s); naive_solver. Qed.

(** A search passes over what it does not find without changing the state. *)
Lemma for_ret_skip {A B} (l1 l2 : list A) (f : A → M S (option B)) s :
  (∀ x, x ∈ l1 → f x s = Ok None s) → for_ret (l1 ++ l2) f s = for_ret l2 f s.
Proof.
  induction l1 as [|x l1 IH]; intros H; [done|]. cbn [app for_ret].
  rewrite (bind_Ok _ _ _ _ _ (H x ltac:(left))). apply IH. intros y Hy. apply H. by right.
Qed.

(** Invariant rule for [for_each]. *)
Lemma wp_for_each {A} (l : list A) (f : A → M S unit) (I : list A → S → Prop) s :
  I [] s →
  (∀ d x rest s, l = d ++ x :: rest → I d s → wp (f x) (λ _, I (d ++ [x])) s) →
  wp (for_each l f) (λ _, I l) s.
Proof.
  intros HI Hstep.
  cut (∀ rest d s, l = d ++ rest → I d s → wp (for_each rest f) (λ _, I l) s).
  { intros H. by apply (H l [] s). }
  clear s HI. intros rest. induction rest as [|x rest IH]; intros d s -> HI; simpl.
  - apply wp_ret. by rewrite app_nil_r.
  - apply wp_bind. eapply wp_wand; [by apply (Hstep d x rest)|].
    intros [] s' HI'. apply (IH (d ++ [x])); [|done]. by rewrite <- (assoc_L (++)).
Qed.

Lemma wlp_for_each {A} (l : list A) (f : A → M S unit) (I : S → Prop) s :
  I s → (∀ x s, x ∈ l → I s → wlp (f x) (λ _, I) s) →
  wlp (for_each l f) (λ _, I) s.
Proof.
  revert s. induction l as [|x l IH]; intros s HI Hstep; simpl; [done|].
  apply wlp_bind. eapply wlp_wand; [apply Hstep; [set_solver|done]|].
  intros [] s' HI'. apply IH; [done|]. intros y s'' Hy. apply Hstep. set_solver.
Qed.

Lemma loop_mono {A B} (body : A → M S (A + B)) n m a s b s' :
  loop n body a s = Ok b s' → (n ≤ m)%nat → loop m body a s = Ok b s'.
Proof.
  revert m a s. induction n as [|n IH]; intros m a s H Hle; [done|].
  destruct m as [|m]; [lia|]. simpl in *.
  apply bind_Ok_inv in H as ([a'|b'] & s1 & E & H);
    rewrite (bind_Ok _ _ _ _ _ E); [apply IH; [done|lia]|done].
Qed.
End Monad.

Arguments wp : simpl never.
Arguments wlp : simpl never.

(** Step through a monadic program whose pieces compute. *)
Ltac wp_step :=
  match goal with
  | |- wp (mbind _ _) _ _ => apply wp_bind
  | |- wlp (mbind _ _) _ _ => apply wlp_bind
  end.

(** Run a monadic program as far as its operations compute. *)
Ltac mrun := cbv beta iota delta [mbind M_bind mret M_ret gets modify skip when deref].

Ltac case_match_goal :=
  match goal with
  | |- context [match ?x with _ => _ end] => destruct x eqn:?
  end.

(** ** Hint databases of the development *)

Create HintDb xv6 discriminated.
Create HintDb xv6_len.

(** ** Generic lemmas: integers *)

Lemma u32_small z : is_u32 z → u32 z = z.
Proof. unfold is_u32, u32. apply Z.mod_small. Qed.
Lemma u32_range z : is_u32 (u32 z).
Proof. unfold is_u32, u32. apply Z.mod_pos_bound. lia. Qed.
Lemma u8_range z : is_u8 (u8 z).
Proof. unfold is_u8, u8. apply Z.mod_pos_bound. lia. Qed.
Lemma u8_small z : is_u8 z → u8 z = z.
Proof. unfold is_u8, u8. apply Z.mod_small. Qed.
Lemma s32_small z : -2147483648 <= z < 2147483648 → s32 z = z.
Proof. intros H. unfold s32. rewrite Z.mod_small; lia. Qed.
Lemma s32_range z : -2147483648 <= s32 z < 2147483648.
Proof. unfold s32. pose proof (Z.mod_pos_bound (z + 2147483648) 4294967296). lia. Qed.

#[export] Hint Resolve u32_range u8_range : xv6.

(** Clearing low bits: [x & ~(2^k - 1)] on a 32-bit word. *)
Lemma land_lnot_ones x k : 0 <= k → Z.land x (Z.lnot (2 ^ k - 1)) = x - x mod 2 ^ k.
Proof.
  intros Hk.
  replace (2 ^ k - 1) with (Z.ones k) by (rewrite Z.ones_equiv; lia).
  rewrite <- Z.ldiff_land, Z.ldiff_ones_r, Z.shiftl_mul_pow2, Z.shiftr_div_pow2 by lia.
  pose proof (Z.div_mod x (2 ^ k)) as H. lia.
Qed.

Lemma land_ones_mod x k : 0 <= k → Z.land x (2 ^ k - 1) = x mod 2 ^ k.
Proof.
  intros Hk. replace (2 ^ k - 1) with (Z.ones k) by (rewrite Z.ones_equiv; lia).
  by apply Z.land_ones.
Qed.

(** Disjoint bit fields: or-ing low flags into an aligned word adds them. *)
Lemma lor_aligned x f k :
  0 <= k → x mod 2 ^ k = 0 → 0 <= f < 2 ^ k → Z.lor x f = x + f.
Proof.
  intros Hk Hx Hf. symmetry.
  assert (Z.land x f = 0) as Hl.
  { apply Z.bits_inj'. intros i Hi. rewrite Z.land_spec, Z.bits_0.
    destruct (decide (i < k)).
    - replace x with ((x / 2 ^ k) * 2 ^ k) by (pose proof (Z.div_mod x (2 ^ k)); lia).
      rewrite Z.mul_pow2_bits_low by lia. done.
    - rewrite <- (Z.mod_small f (2 ^ k)) by lia.
      rewrite Z.mod_pow2_bits_high by lia. apply andb_false_r. }
  rewrite <- Z.lxor_lor by done. by apply Z.add_nocarry_lxor.
Qed.

(** ** Generic lemmas: lists *)

Section Lists.
Context {A : Type}.
Implicit Types l : list A.

Lemma lookup_lt_is_Some_1' l i : (i < length l)%nat → ∃ x, l !! i = Some x.
Proof. intros H. apply lookup_lt_is_Some_2 in H as [x Hx]. eauto. Qed.

(** [alter] on a list at an index that exists. *)
Lemma list_lookup_alter_case (f : A → A) l i j :
  alter f i l !! j = if decide (i = j) then f <$> l !! j else l !! j.
Proof.
  destruct (decide (i = j)) as [->|Hne].
  - apply list_lookup_alter_eq.
  - by apply list_lookup_alter_ne.
Qed.

Lemma list_alter_lookup (f : A → A) l i x : l !! i = Some x → alter f i l = <[i := f x]> l.
Proof.
  intros H. apply list_eq. intros j. rewrite list_lookup_alter_case, list_lookup_insert.
  apply lookup_lt_Some in H as Hlt.
  destruct (decide (i = j)) as [->|]; [rewrite H|]; simpl; repeat case_decide; naive_solver.
Qed.
Lemma list_alter_compose (f g : A → A) l i : alter f i (alter g i l) = alter (λ x, f (g x)) i l.
Proof. revert i. induction l as [|x l IH]; intros [|i]; csimpl; [done..|]. f_equal. apply IH. Qed.

(** [filter] depends on the elements of the list only. *)
Lemma filter_ext_in (P Q : A → Prop) `{!∀ x, Decision (P x), !∀ x, Decision (Q x)} l :
  (∀ x, x ∈ l → P x ↔ Q x) → filter P l = filter Q l.
Proof.
  induction l as [|x l IH]; intros Hl; [done|]. rewrite !filter_cons, IH by (intros y Hy; apply Hl; by right).
  pose proof (Hl x ltac:(left)). by destruct (decide (P x)), (decide (Q x)); try tauto.
Qed.
Lemma filter_none (P : A → Prop) `{!∀ x, Decision (P x)} l : (∀ x, x ∈ l → ¬ P x) → filter P l = [].
Proof.
  induction l as [|x l IH]; intros Hl; [done|]. rewrite filter_cons, decide_False by (apply Hl; left).
  apply IH. intros y Hy. apply Hl. by right.
Qed.
End Lists.
