(* ===== verification/Machine.v ===== *)
(** * Machine: the kernel's data structures and its global state

    The structs of param.h, proc.h, file.h, fs.h, buf.h, spinlock.h, and the
    file-scope variables of the kernel's C files, collected in one record
    [kstate]; the monad [K] of kernel code over it; the locking interface of
    spinlock.c as the rest of the kernel uses it (its implementation is
    modelled, and shown to meet this interface, in Spinlock.v).

    Pointers into a static array are indices of that array ([option nat] where
    the pointer may be null); pointers into memory handed out by kalloc() are
    kernel virtual addresses in [Z], and [k_mem] holds the bytes behind
    them. *)

From S2P Require Import Prelude.
From stdpp Require Import options.

(** ** Constants (param.h, proc.h, fs.h, stat.h, fcntl.h, buf.h, file.h) *)

Definition NPROC : Z := 64.
Definition KSTACKSIZE : Z := 4096.
Definition NCPU : Z := 8.
Definition NOFILE : Z := 16.
Definition NFILE : Z := 100.
Definition NINODE : Z := 50.
Definition NDEV : Z := 10.
Definition ROOTDEV : Z := 1.
Definition MAXARG : Z := 32.
Definition MAXOPBLOCKS : Z := 10.
Definition LOGSIZE : Z := MAXOPBLOCKS * 3.
Definition NBUF : Z := MAXOPBLOCKS * 3.
Definition FSSIZE : Z := 1000.

Definition MAX_TICKETS : Z := 2000.
Definition MIN_TICKETS : Z := 25.
Definition DEFAULT_TICKETS : Z := 50.

Definition ROOTINO : Z := 1.
Definition BSIZE : Z := 512.
Definition NDIRECT : Z := 12.
Definition NINDIRECT : Z := BSIZE / 4.
Definition MAXFILE : Z := NDIRECT + NINDIRECT.
Definition DIRSIZ : Z := 14.
Definition T_DIR : Z := 1.
Definition T_FILE : Z := 2.
Definition T_DEV : Z := 3.

Definition B_BUSY : Z := 1.
Definition B_VALID : Z := 2.
Definition B_DIRTY : Z := 4.
Definition I_BUSY : Z := 1.
Definition I_VALID : Z := 2.
Definition CONSOLE : Z := 1.

Definition O_RDONLY : Z := 0.
Definition O_WRONLY : Z := 1.
Definition O_RDWR : Z := 2.
Definition O_CREATE : Z := 512.

(** C truth value of [x & m]. *)
Definition has (x m : Z) : bool := negb (Z.land x m =? 0).

(** ** Locks and sleep channels *)

(** The spin locks of the kernel. *)
Inductive lockid :=
| Lkmem | Lptable | Lftable | Licache | Lbcache | Llog | Ltickslock | Lcons | Lide
| Lpipe (a : Z).

#[global] Instance lockid_eq_dec : EqDecision lockid.
Proof. solve_decision. Defined.

Definition lockid_enc (l : lockid) : Z + Z :=
  match l with
  | Lkmem => inl 0 | Lptable => inl 1 | Lftable => inl 2 | Licache => inl 3
  | Lbcache => inl 4 | Llog => inl 5 | Ltickslock => inl 6 | Lcons => inl 7
  | Lide => inl 8 | Lpipe a => inr a
  end.
Definition lockid_dec (z : Z + Z) : option lockid :=
  match z with
  | inl 0 => Some Lkmem | inl 1 => Some Lptable | inl 2 => Some Lftable
  | inl 3 => Some Licache | inl 4 => Some Lbcache | inl 5 => Some Llog
  | inl 6 => Some Ltickslock | inl 7 => Some Lcons | inl 8 => Some Lide
  | inl _ => None | inr a => Some (Lpipe a)
  end.
#[global] Program Instance lockid_countable : Countable lockid :=
  inj_countable lockid_enc lockid_dec _.
Next Obligation. by intros []. Qed.

(** The addresses the kernel sleeps on. *)
Inductive chan :=
| Cproc (i : nat)      (* a struct proc: wait() *)
| Cticks               (* &ticks *)
| Cbuf (i : nat)       (* a struct buf *)
| Cinode (i : nat)     (* a struct inode *)
| Clog                 (* &log *)
| Cpiper (a : Z)       (* &p->nread *)
| Cpipew (a : Z)       (* &p->nwrite *)
| Cinput.              (* &input.r *)

#[global] Instance chan_eq_dec : EqDecision chan.
Proof. solve_decision. Defined.

(** ** Processes (proc.h) *)

Inductive procstate := UNUSED | EMBRYO | SLEEPING | RUNNABLE | RUNNING | ZOMBIE.

#[global] Instance procstate_eq_dec : EqDecision procstate.
Proof. solve_decision. Defined.

Definition state_eqb (a b : procstate) : bool := bool_decide (a = b).

(** struct proc. [p_tf] and [p_context] are the addresses, on the kernel stack,
    of the trap frame and of the saved context; [p_passo] and [p_passada] are
    the stride and the pass of the scheduler. *)
Record proc := mkproc {
  p_sz : Z;
  p_pgdir : Z;
  p_kstack : Z;
  p_state : procstate;
  p_pid : Z;
  p_parent : option nat;
  p_tf : Z;
  p_context : Z;
  p_chan : option chan;
  p_killed : Z;
  p_ofile : list (option nat);
  p_cwd : option nat;
  p_name : list Z;
  p_passo : Z;
  p_passada : Z
}.

(** ** Files and file system (file.h, fs.h, buf.h, log.c) *)

Inductive ftype := FD_NONE | FD_PIPE | FD_INODE.

#[global] Instance ftype_eq_dec : EqDecision ftype.
Proof. solve_decision. Defined.

(** struct file. *)
Record file := mkfile {
  f_type : ftype;
  f_ref : Z;
  f_readable : Z;
  f_writable : Z;
  f_pipe : Z;
  f_ip : option nat;
  f_off : Z
}.

(** In-memory copy of an inode (struct inode). *)
Record inode := mkinode {
  i_dev : Z;
  i_inum : Z;
  i_ref : Z;
  i_flags : Z;
  i_type : Z;
  i_major : Z;
  i_minor : Z;
  i_nlink : Z;
  i_size : Z;
  i_addrs : list Z
}.

(** struct buf. The list head bcache.head is the buffer with index NBUF. *)
Record buf := mkbuf {
  b_flags : Z;
  b_dev : Z;
  b_blockno : Z;
  b_prev : nat;
  b_next : nat;
  b_qnext : option nat;
  b_data : list Z
}.

(** struct superblock. *)
Record superblock := mksb {
  sb_size : Z;
  sb_nblocks : Z;
  sb_ninodes : Z;
  sb_nlog : Z;
  sb_logstart : Z;
  sb_inodestart : Z;
  sb_bmapstart : Z
}.

(** struct log, with its struct logheader lh inlined as [lh_n], [lh_block]. *)
Record log := mklog {
  l_start : Z;
  l_size : Z;
  l_outstanding : Z;
  l_committing : Z;
  l_dev : Z;
  lh_n : Z;
  lh_block : list Z
}.

(** struct pipe (its lock is [Lpipe] of the page that holds it). *)
Record pipe := mkpipe {
  pi_data : list Z;
  pi_nread : Z;
  pi_nwrite : Z;
  pi_readopen : Z;
  pi_writeopen : Z
}.

(** The console's line buffer. *)
Record input := mkinput {
  in_buf : list Z;
  in_r : Z;
  in_w : Z;
  in_e : Z
}.

(** ** Console and memory (console.c, kalloc.c) *)

(** The console: cons.locking, panicked, the uart flag, the bytes sent to the
    serial port so far, CGA memory (one 16-bit cell per position) and the cursor
    position the CRT controller holds. *)
Record console := mkcons {
  c_locking : Z;
  c_panicked : Z;
  c_uart : Z;
  c_serial : list Z;
  c_crt : gmap Z Z;
  c_pos : Z
}.

(** The physical page allocator's kmem; the run list is threaded through the
    free pages themselves, in [k_mem]. *)
Record kmem := mkkmem {
  use_lock : Z;
  freelist : Z
}.

(** ** The kernel state *)

(** The kernel's variables as one CPU sees them: memory, the locks this CPU
    holds, one field per file-scope variable, and the machine registers the
    code sets. [k_disk] is the disk, [k_dwrites] the writes it received, most
    recent first. *)
Record kstate := mkstate {
  k_mem : gmap Z Z;
  k_held : gset lockid;
  k_kmem : kmem;
  k_procs : list proc;
  k_nextpid : Z;
  k_initproc : option nat;
  k_proc : option nat;
  k_ticks : Z;
  k_files : list file;
  k_pipes : gmap Z pipe;
  k_inodes : list inode;
  k_bufs : list buf;
  k_log : log;
  k_sb : superblock;
  k_disk : gmap Z (list Z);
  k_dwrites : list (Z * list Z);
  k_input : input;
  k_cons : console;
  k_kpgdir : Z;
  k_cr3 : Z;
  k_esp0 : Z;
  k_cpuid : Z
}.

(** ** Field updates *)

Definition set_p_sz (v : Z) (x : proc) : proc :=
  mkproc v (p_pgdir x) (p_kstack x) (p_state x) (p_pid x) (p_parent x) (p_tf x) (p_context x) (p_chan x) (p_killed x) (p_ofile x) (p_cwd x) (p_name x) (p_passo x) (p_passada x).
Definition set_p_pgdir (v : Z) (x : proc) : proc :=
  mkproc (p_sz x) v (p_kstack x) (p_state x) (p_pid x) (p_parent x) (p_tf x) (p_context x) (p_chan x) (p_killed x) (p_ofile x) (p_cwd x) (p_name x) (p_passo x) (p_passada x).
Definition set_p_kstack (v : Z) (x : proc) : proc :=
  mkproc (p_sz x) (p_pgdir x) v (p_state x) (p_pid x) (p_parent x) (p_tf x) (p_context x) (p_chan x) (p_killed x) (p_ofile x) (p_cwd x) (p_name x) (p_passo x) (p_passada x).
Definition set_p_state (v : procstate) (x : proc) : proc :=
  mkproc (p_sz x) (p_pgdir x) (p_kstack x) v (p_pid x) (p_parent x) (p_tf x) (p_context x) (p_chan x) (p_killed x) (p_ofile x) (p_cwd x) (p_name x) (p_passo x) (p_passada x).
Definition set_p_pid (v : Z) (x : proc) : proc :=
  mkproc (p_sz x) (p_pgdir x) (p_kstack x) (p_state x) v (p_parent x) (p_tf x) (p_context x) (p_chan x) (p_killed x) (p_ofile x) (p_cwd x) (p_name x) (p_passo x) (p_passada x).
Definition set_p_parent (v : option nat) (x : proc) : proc :=
  mkproc (p_sz x) (p_pgdir x) (p_kstack x) (p_state x) (p_pid x) v (p_tf x) (p_context x) (p_chan x) (p_killed x) (p_ofile x) (p_cwd x) (p_name x) (p_passo x) (p_passada x).
Definition set_p_tf (v : Z) (x : proc) : proc :=
  mkproc (p_sz x) (p_pgdir x) (p_kstack x) (p_state x) (p_pid x) (p_parent x) v (p_context x) (p_chan x) (p_killed x) (p_ofile x) (p_cwd x) (p_name x) (p_passo x) (p_passada x).
Definition set_p_context (v : Z) (x : proc) : proc :=
  mkproc (p_sz x) (p_pgdir x) (p_kstack x) (p_state x) (p_pid x) (p_parent x) (p_tf x) v (p_chan x) (p_killed x) (p_ofile x) (p_cwd x) (p_name x) (p_passo x) (p_passada x).
Definition set_p_chan (v : option chan) (x : proc) : proc :=
  mkproc (p_sz x) (p_pgdir x) (p_kstack x) (p_state x) (p_pid x) (p_parent x) (p_tf x) (p_context x) v (p_killed x) (p_ofile x) (p_cwd x) (p_name x) (p_passo x) (p_passada x).
Definition set_p_killed (v : Z) (x : proc) : proc :=
  mkproc (p_sz x) (p_pgdir x) (p_kstack x) (p_state x) (p_pid x) (p_parent x) (p_tf x) (p_context x) (p_chan x) v (p_ofile x) (p_cwd x) (p_name x) (p_passo x) (p_passada x).
Definition set_p_ofile (v : list (option nat)) (x : proc) : proc :=
  mkproc (p_sz x) (p_pgdir x) (p_kstack x) (p_state x) (p_pid x) (p_parent x) (p_tf x) (p_context x) (p_chan x) (p_killed x) v (p_cwd x) (p_name x) (p_passo x) (p_passada x).
Definition set_p_cwd (v : option nat) (x : proc) : proc :=
  mkproc (p_sz x) (p_pgdir x) (p_kstack x) (p_state x) (p_pid x) (p_parent x) (p_tf x) (p_context x) (p_chan x) (p_killed x) (p_ofile x) v (p_name x) (p_passo x) (p_passada x).
Definition set_p_name (v : list Z) (x : proc) : proc :=
  mkproc (p_sz x) (p_pgdir x) (p_kstack x) (p_state x) (p_pid x) (p_parent x) (p_tf x) (p_context x) (p_chan x) (p_killed x) (p_ofile x) (p_cwd x) v (p_passo x) (p_passada x).
Definition set_p_passo (v : Z) (x : proc) : proc :=
  mkproc (p_sz x) (p_pgdir x) (p_kstack x) (p_state x) (p_pid x) (p_parent x) (p_tf x) (p_context x) (p_chan x) (p_killed x) (p_ofile x) (p_cwd x) (p_name x) v (p_passada x).
Definition set_p_passada (v : Z) (x : proc) : proc :=
  mkproc (p_sz x) (p_pgdir x) (p_kstack x) (p_state x) (p_pid x) (p_parent x) (p_tf x) (p_context x) (p_chan x) (p_killed x) (p_ofile x) (p_cwd x) (p_name x) (p_passo x) v.

Definition set_f_type (v : ftype) (x : file) : file :=
  mkfile v (f_ref x) (f_readable x) (f_writable x) (f_pipe x) (f_ip x) (f_off x).
Definition set_f_ref (v : Z) (x : file) : file :=
  mkfile (f_type x) v (f_readable x) (f_writable x) (f_pipe x) (f_ip x) (f_off x).
Definition set_f_readable (v : Z) (x : file) : file :=
  mkfile (f_type x) (f_ref x) v (f_writable x) (f_pipe x) (f_ip x) (f_off x).
Definition set_f_writable (v : Z) (x : file) : file :=
  mkfile (f_type x) (f_ref x) (f_readable x) v (f_pipe x) (f_ip x) (f_off x).
Definition set_f_pipe (v : Z) (x : file) : file :=
  mkfile (f_type x) (f_ref x) (f_readable x) (f_writable x) v (f_ip x) (f_off x).
Definition set_f_ip (v : option nat) (x : file) : file :=
  mkfile (f_type x) (f_ref x) (f_readable x) (f_writable x) (f_pipe x) v (f_off x).
Definition set_f_off (v : Z) (x : file) : file :=
  mkfile (f_type x) (f_ref x) (f_readable x) (f_writable x) (f_pipe x) (f_ip x) v.

Definition set_i_dev (v : Z) (x : inode) : inode :=
  mkinode v (i_inum x) (i_ref x) (i_flags x) (i_type x) (i_major x) (i_minor x) (i_nlink x) (i_size x) (i_addrs x).
Definition set_i_inum (v : Z) (x : inode) : inode :=
  mkinode (i_dev x) v (i_ref x) (i_flags x) (i_type x) (i_major x) (i_minor x) (i_nlink x) (i_size x) (i_addrs x).
Definition set_i_ref (v : Z) (x : inode) : inode :=
  mkinode (i_dev x) (i_inum x) v (i_flags x) (i_type x) (i_major x) (i_minor x) (i_nlink x) (i_size x) (i_addrs x).
Definition set_i_flags (v : Z) (x : inode) : inode :=
  mkinode (i_dev x) (i_inum x) (i_ref x) v (i_type x) (i_major x) (i_minor x) (i_nlink x) (i_size x) (i_addrs x).
Definition set_i_type (v : Z) (x : inode) : inode :=
  mkinode (i_dev x) (i_inum x) (i_ref x) (i_flags x) v (i_major x) (i_minor x) (i_nlink x) (i_size x) (i_addrs x).
Definition set_i_major (v : Z) (x : inode) : inode :=
  mkinode (i_dev x) (i_inum x) (i_ref x) (i_flags x) (i_type x) v (i_minor x) (i_nlink x) (i_size x) (i_addrs x).
Definition set_i_minor (v : Z) (x : inode) : inode :=
  mkinode (i_dev x) (i_inum x) (i_ref x) (i_flags x) (i_type x) (i_major x) v (i_nlink x) (i_size x) (i_addrs x).
Definition set_i_nlink (v : Z) (x : inode) : inode :=
  mkinode (i_dev x) (i_inum x) (i_ref x) (i_flags x) (i_type x) (i_major x) (i_minor x) v (i_size x) (i_addrs x).
Definition set_i_size (v : Z) (x : inode) : inode :=
  mkinode (i_dev x) (i_inum x) (i_ref x) (i_flags x) (i_type x) (i_major x) (i_minor x) (i_nlink x) v (i_addrs x).
Definition set_i_addrs (v : list Z) (x : inode) : inode :=
  mkinode (i_dev x) (i_inum x) (i_ref x) (i_flags x) (i_type x) (i_major x) (i_minor x) (i_nlink x) (i_size x) v.

Definition set_b_flags (v : Z) (x : buf) : buf :=
  mkbuf v (b_dev x) (b_blockno x) (b_prev x) (b_next x) (b_qnext x) (b_data x).
Definition set_b_dev (v : Z) (x : buf) : buf :=
  mkbuf (b_flags x) v (b_blockno x) (b_prev x) (b_next x) (b_qnext x) (b_data x).
Definition set_b_blockno (v : Z) (x : buf) : buf :=
  mkbuf (b_flags x) (b_dev x) v (b_prev x) (b_next x) (b_qnext x) (b_data x).
Definition set_b_prev (v : nat) (x : buf) : buf :=
  mkbuf (b_flags x) (b_dev x) (b_blockno x) v (b_next x) (b_qnext x) (b_data x).
Definition set_b_next (v : nat) (x : buf) : buf :=
  mkbuf (b_flags x) (b_dev x) (b_blockno x) (b_prev x) v (b_qnext x) (b_data x).
Definition set_b_qnext (v : option nat) (x : buf) : buf :=
  mkbuf (b_flags x) (b_dev x) (b_blockno x) (b_prev x) (b_next x) v (b_data x).
Definition set_b_data (v : list Z) (x : buf) : buf :=
  mkbuf (b_flags x) (b_dev x) (b_blockno x) (b_prev x) (b_next x) (b_qnext x) v.

Definition set_sb_size (v : Z) (x : superblock) : superblock :=
  mksb v (sb_nblocks x) (sb_ninodes x) (sb_nlog x) (sb_logstart x) (sb_inodestart x) (sb_bmapstart x).
Definition set_sb_nblocks (v : Z) (x : superblock) : superblock :=
  mksb (sb_size x) v (sb_ninodes x) (sb_nlog x) (sb_logstart x) (sb_inodestart x) (sb_bmapstart x).
Definition set_sb_ninodes (v : Z) (x : superblock) : superblock :=
  mksb (sb_size x) (sb_nblocks x) v (sb_nlog x) (sb_logstart x) (sb_inodestart x) (sb_bmapstart x).
Definition set_sb_nlog (v : Z) (x : superblock) : superblock :=
  mksb (sb_size x) (sb_nblocks x) (sb_ninodes x) v (sb_logstart x) (sb_inodestart x) (sb_bmapstart x).
Definition set_sb_logstart (v : Z) (x : superblock) : superblock :=
  mksb (sb_size x) (sb_nblocks x) (sb_ninodes x) (sb_nlog x) v (sb_inodestart x) (sb_bmapstart x).
Definition set_sb_inodestart (v : Z) (x : superblock) : superblock :=
  mksb (sb_size x) (sb_nblocks x) (sb_ninodes x) (sb_nlog x) (sb_logstart x) v (sb_bmapstart x).
Definition set_sb_bmapstart (v : Z) (x : superblock) : superblock :=
  mksb (sb_size x) (sb_nblocks x) (sb_ninodes x) (sb_nlog x) (sb_logstart x) (sb_inodestart x) v.

Definition set_l_start (v : Z) (x : log) : log :=
  mklog v (l_size x) (l_outstanding x) (l_committing x) (l_dev x) (lh_n x) (lh_block x).
Definition set_l_size (v : Z) (x : log) : log :=
  mklog (l_start x) v (l_outstanding x) (l_committing x) (l_dev x) (lh_n x) (lh_block x).
Definition set_l_outstanding (v : Z) (x : log) : log :=
  mklog (l_start x) (l_size x) v (l_committing x) (l_dev x) (lh_n x) (lh_block x).
Definition set_l_committing (v : Z) (x : log) : log :=
  mklog (l_start x) (l_size x) (l_outstanding x) v (l_dev x) (lh_n x) (lh_block x).
Definition set_l_dev (v : Z) (x : log) : log :=
  mklog (l_start x) (l_size x) (l_outstanding x) (l_committing x) v (lh_n x) (lh_block x).
Definition set_lh_n (v : Z) (x : log) : log :=
  mklog (l_start x) (l_size x) (l_outstanding x) (l_committing x) (l_dev x) v (lh_block x).
Definition set_lh_block (v : list Z) (x : log) : log :=
  mklog (l_start x) (l_size x) (l_outstanding x) (l_committing x) (l_dev x) (lh_n x) v.

Definition set_pi_data (v : list Z) (x : pipe) : pipe :=
  mkpipe v (pi_nread x) (pi_nwrite x) (pi_readopen x) (pi_writeopen x).
Definition set_pi_nread (v : Z) (x : pipe) : pipe :=
  mkpipe (pi_data x) v (pi_nwrite x) (pi_readopen x) (pi_writeopen x).
Definition set_pi_nwrite (v : Z) (x : pipe) : pipe :=
  mkpipe (pi_data x) (pi_nread x) v (pi_readopen x) (pi_writeopen x).
Definition set_pi_readopen (v : Z) (x : pipe) : pipe :=
  mkpipe (pi_data x) (pi_nread x) (pi_nwrite x) v (pi_writeopen x).
Definition set_pi_writeopen (v : Z) (x : pipe) : pipe :=
  mkpipe (pi_data x) (pi_nread x) (pi_nwrite x) (pi_readopen x) v.

Definition set_in_buf (v : list Z) (x : input) : input :=
  mkinput v (in_r x) (in_w x) (in_e x).
Definition set_in_r (v : Z) (x : input) : input :=
  mkinput (in_buf x) v (in_w x) (in_e x).
Definition set_in_w (v : Z) (x : input) : input :=
  mkinput (in_buf x) (in_r x) v (in_e x).
Definition set_in_e (v : Z) (x : input) : input :=
  mkinput (in_buf x) (in_r x) (in_w x) v.

Definition set_c_locking (v : Z) (x : console) : console :=
  mkcons v (c_panicked x) (c_uart x) (c_serial x) (c_crt x) (c_pos x).
Definition set_c_panicked (v : Z) (x : console) : console :=
  mkcons (c_locking x) v (c_uart x) (c_serial x) (c_crt x) (c_pos x).
Definition set_c_uart (v : Z) (x : console) : console :=
  mkcons (c_locking x) (c_panicked x) v (c_serial x) (c_crt x) (c_pos x).
Definition set_c_serial (v : list Z) (x : console) : console :=
  mkcons (c_locking x) (c_panicked x) (c_uart x) v (c_crt x) (c_pos x).
Definition set_c_crt (v : gmap Z Z) (x : console) : console :=
  mkcons (c_locking x) (c_panicked x) (c_uart x) (c_serial x) v (c_pos x).
Definition set_c_pos (v : Z) (x : console) : console :=
  mkcons (c_locking x) (c_panicked x) (c_uart x) (c_serial x) (c_crt x) v.

Definition set_use_lock (v : Z) (x : kmem) : kmem :=
  mkkmem v (freelist x).
Definition set_freelist (v : Z) (x : kmem) : kmem :=
  mkkmem (use_lock x) v.

Definition set_k_mem (v : gmap Z Z) (x : kstate) : kstate :=
  mkstate v (k_held x) (k_kmem x) (k_procs x) (k_nextpid x) (k_initproc x) (k_proc x) (k_ticks x) (k_files x) (k_pipes x) (k_inodes x) (k_bufs x) (k_log x) (k_sb x) (k_disk x) (k_dwrites x) (k_input x) (k_cons x) (k_kpgdir x) (k_cr3 x) (k_esp0 x) (k_cpuid x).
Definition set_k_held (v : gset lockid) (x : kstate) : kstate :=
  mkstate (k_mem x) v (k_kmem x) (k_procs x) (k_nextpid x) (k_initproc x) (k_proc x) (k_ticks x) (k_files x) (k_pipes x) (k_inodes x) (k_bufs x) (k_log x) (k_sb x) (k_disk x) (k_dwrites x) (k_input x) (k_cons x) (k_kpgdir x) (k_cr3 x) (k_esp0 x) (k_cpuid x).
Definition set_k_kmem (v : kmem) (x : kstate) : kstate :=
  mkstate (k_mem x) (k_held x) v (k_procs x) (k_nextpid x) (k_initproc x) (k_proc x) (k_ticks x) (k_files x) (k_pipes x) (k_inodes x) (k_bufs x) (k_log x) (k_sb x) (k_disk x) (k_dwrites x) (k_input x) (k_cons x) (k_kpgdir x) (k_cr3 x) (k_esp0 x) (k_cpuid x).
Definition set_k_procs (v : list proc) (x : kstate) : kstate :=
  mkstate (k_mem x) (k_held x) (k_kmem x) v (k_nextpid x) (k_initproc x) (k_proc x) (k_ticks x) (k_files x) (k_pipes x) (k_inodes x) (k_bufs x) (k_log x) (k_sb x) (k_disk x) (k_dwrites x) (k_input x) (k_cons x) (k_kpgdir x) (k_cr3 x) (k_esp0 x) (k_cpuid x).
Definition set_k_nextpid (v : Z) (x : kstate) : kstate :=
  mkstate (k_mem x) (k_held x) (k_kmem x) (k_procs x) v (k_initproc x) (k_proc x) (k_ticks x) (k_files x) (k_pipes x) (k_inodes x) (k_bufs x) (k_log x) (k_sb x) (k_disk x) (k_dwrites x) (k_input x) (k_cons x) (k_kpgdir x) (k_cr3 x) (k_esp0 x) (k_cpuid x).
Definition set_k_initproc (v : option nat) (x : kstate) : kstate :=
  mkstate (k_mem x) (k_held x) (k_kmem x) (k_procs x) (k_nextpid x) v (k_proc x) (k_ticks x) (k_files x) (k_pipes x) (k_inodes x) (k_bufs x) (k_log x) (k_sb x) (k_disk x) (k_dwrites x) (k_input x) (k_cons x) (k_kpgdir x) (k_cr3 x) (k_esp0 x) (k_cpuid x).
Definition set_k_proc (v : option nat) (x : kstate) : kstate :=
  mkstate (k_mem x) (k_held x) (k_kmem x) (k_procs x) (k_nextpid x) (k_initproc x) v (k_ticks x) (k_files x) (k_pipes x) (k_inodes x) (k_bufs x) (k_log x) (k_sb x) (k_disk x) (k_dwrites x) (k_input x) (k_cons x) (k_kpgdir x) (k_cr3 x) (k_esp0 x) (k_cpuid x).
Definition set_k_ticks (v : Z) (x : kstate) : kstate :=
  mkstate (k_mem x) (k_held x) (k_kmem x) (k_procs x) (k_nextpid x) (k_initproc x) (k_proc x) v (k_files x) (k_pipes x) (k_inodes x) (k_bufs x) (k_log x) (k_sb x) (k_disk x) (k_dwrites x) (k_input x) (k_cons x) (k_kpgdir x) (k_cr3 x) (k_esp0 x) (k_cpuid x).
Definition set_k_files (v : list file) (x : kstate) : kstate :=
  mkstate (k_mem x) (k_held x) (k_kmem x) (k_procs x) (k_nextpid x) (k_initproc x) (k_proc x) (k_ticks x) v (k_pipes x) (k_inodes x) (k_bufs x) (k_log x) (k_sb x) (k_disk x) (k_dwrites x) (k_input x) (k_cons x) (k_kpgdir x) (k_cr3 x) (k_esp0 x) (k_cpuid x).
Definition set_k_pipes (v : gmap Z pipe) (x : kstate) : kstate :=
  mkstate (k_mem x) (k_held x) (k_kmem x) (k_procs x) (k_nextpid x) (k_initproc x) (k_proc x) (k_ticks x) (k_files x) v (k_inodes x) (k_bufs x) (k_log x) (k_sb x) (k_disk x) (k_dwrites x) (k_input x) (k_cons x) (k_kpgdir x) (k_cr3 x) (k_esp0 x) (k_cpuid x).
Definition set_k_inodes (v : list inode) (x : kstate) : kstate :=
  mkstate (k_mem x) (k_held x) (k_kmem x) (k_procs x) (k_nextpid x) (k_initproc x) (k_proc x) (k_ticks x) (k_files x) (k_pipes x) v (k_bufs x) (k_log x) (k_sb x) (k_disk x) (k_dwrites x) (k_input x) (k_cons x) (k_kpgdir x) (k_cr3 x) (k_esp0 x) (k_cpuid x).
Definition set_k_bufs (v : list buf) (x : kstate) : kstate :=
  mkstate (k_mem x) (k_held x) (k_kmem x) (k_procs x) (k_nextpid x) (k_initproc x) (k_proc x) (k_ticks x) (k_files x) (k_pipes x) (k_inodes x) v (k_log x) (k_sb x) (k_disk x) (k_dwrites x) (k_input x) (k_cons x) (k_kpgdir x) (k_cr3 x) (k_esp0 x) (k_cpuid x).
Definition set_k_log (v : log) (x : kstate) : kstate :=
  mkstate (k_mem x) (k_held x) (k_kmem x) (k_procs x) (k_nextpid x) (k_initproc x) (k_proc x) (k_ticks x) (k_files x) (k_pipes x) (k_inodes x) (k_bufs x) v (k_sb x) (k_disk x) (k_dwrites x) (k_input x) (k_cons x) (k_kpgdir x) (k_cr3 x) (k_esp0 x) (k_cpuid x).
Definition set_k_sb (v : superblock) (x : kstate) : kstate :=
  mkstate (k_mem x) (k_held x) (k_kmem x) (k_procs x) (k_nextpid x) (k_initproc x) (k_proc x) (k_ticks x) (k_files x) (k_pipes x) (k_inodes x) (k_bufs x) (k_log x) v (k_disk x) (k_dwrites x) (k_input x) (k_cons x) (k_kpgdir x) (k_cr3 x) (k_esp0 x) (k_cpuid x).
Definition set_k_disk (v : gmap Z (list Z)) (x : kstate) : kstate :=
  mkstate (k_mem x) (k_held x) (k_kmem x) (k_procs x) (k_nextpid x) (k_initproc x) (k_proc x) (k_ticks x) (k_files x) (k_pipes x) (k_inodes x) (k_bufs x) (k_log x) (k_sb x) v (k_dwrites x) (k_input x) (k_cons x) (k_kpgdir x) (k_cr3 x) (k_esp0 x) (k_cpuid x).
Definition set_k_dwrites (v : list (Z * list Z)) (x : kstate) : kstate :=
  mkstate (k_mem x) (k_held x) (k_kmem x) (k_procs x) (k_nextpid x) (k_initproc x) (k_proc x) (k_ticks x) (k_files x) (k_pipes x) (k_inodes x) (k_bufs x) (k_log x) (k_sb x) (k_disk x) v (k_input x) (k_cons x) (k_kpgdir x) (k_cr3 x) (k_esp0 x) (k_cpuid x).
Definition set_k_input (v : input) (x : kstate) : kstate :=
  mkstate (k_mem x) (k_held x) (k_kmem x) (k_procs x) (k_nextpid x) (k_initproc x) (k_proc x) (k_ticks x) (k_files x) (k_pipes x) (k_inodes x) (k_bufs x) (k_log x) (k_sb x) (k_disk x) (k_dwrites x) v (k_cons x) (k_kpgdir x) (k_cr3 x) (k_esp0 x) (k_cpuid x).
Definition set_k_cons (v : console) (x : kstate) : kstate :=
  mkstate (k_mem x) (k_held x) (k_kmem x) (k_procs x) (k_nextpid x) (k_initproc x) (k_proc x) (k_ticks x) (k_files x) (k_pipes x) (k_inodes x) (k_bufs x) (k_log x) (k_sb x) (k_disk x) (k_dwrites x) (k_input x) v (k_kpgdir x) (k_cr3 x) (k_esp0 x) (k_cpuid x).
Definition set_k_kpgdir (v : Z) (x : kstate) : kstate :=
  mkstate (k_mem x) (k_held x) (k_kmem x) (k_procs x) (k_nextpid x) (k_initproc x) (k_proc x) (k_ticks x) (k_files x) (k_pipes x) (k_inodes x) (k_bufs x) (k_log x) (k_sb x) (k_disk x) (k_dwrites x) (k_input x) (k_cons x) v (k_cr3 x) (k_esp0 x) (k_cpuid x).
Definition set_k_cr3 (v : Z) (x : kstate) : kstate :=
  mkstate (k_mem x) (k_held x) (k_kmem x) (k_procs x) (k_nextpid x) (k_initproc x) (k_proc x) (k_ticks x) (k_files x) (k_pipes x) (k_inodes x) (k_bufs x) (k_log x) (k_sb x) (k_disk x) (k_dwrites x) (k_input x) (k_cons x) (k_kpgdir x) v (k_esp0 x) (k_cpuid x).
Definition set_k_esp0 (v : Z) (x : kstate) : kstate :=
  mkstate (k_mem x) (k_held x) (k_kmem x) (k_procs x) (k_nextpid x) (k_initproc x) (k_proc x) (k_ticks x) (k_files x) (k_pipes x) (k_inodes x) (k_bufs x) (k_log x) (k_sb x) (k_disk x) (k_dwrites x) (k_input x) (k_cons x) (k_kpgdir x) (k_cr3 x) v (k_cpuid x).
Definition set_k_cpuid (v : Z) (x : kstate) : kstate :=
  mkstate (k_mem x) (k_held x) (k_kmem x) (k_procs x) (k_nextpid x) (k_initproc x) (k_proc x) (k_ticks x) (k_files x) (k_pipes x) (k_inodes x) (k_bufs x) (k_log x) (k_sb x) (k_disk x) (k_dwrites x) (k_input x) (k_cons x) (k_kpgdir x) (k_cr3 x) (k_esp0 x) v.

(** Two records are equal when their fields are. *)

Lemma proc_ext (x y : proc) :
  p_sz x = p_sz y → p_pgdir x = p_pgdir y → p_kstack x = p_kstack y → p_state x = p_state y →
  p_pid x = p_pid y → p_parent x = p_parent y → p_tf x = p_tf y → p_context x = p_context y →
  p_chan x = p_chan y → p_killed x = p_killed y → p_ofile x = p_ofile y → p_cwd x = p_cwd y →
  p_name x = p_name y → p_passo x = p_passo y → p_passada x = p_passada y → x = y.
Proof. destruct x, y; simpl; intros; subst; reflexivity. Qed.

Lemma file_ext (x y : file) :
  f_type x = f_type y → f_ref x = f_ref y → f_readable x = f_readable y → f_writable x =
  f_writable y → f_pipe x = f_pipe y → f_ip x = f_ip y → f_off x = f_off y → x = y.
Proof. destruct x, y; simpl; intros; subst; reflexivity. Qed.

Lemma inode_ext (x y : inode) :
  i_dev x = i_dev y → i_inum x = i_inum y → i_ref x = i_ref y → i_flags x = i_flags y → i_type x
  = i_type y → i_major x = i_major y → i_minor x = i_minor y → i_nlink x = i_nlink y → i_size x
  = i_size y → i_addrs x = i_addrs y → x = y.
Proof. destruct x, y; simpl; intros; subst; reflexivity. Qed.

Lemma buf_ext (x y : buf) :
  b_flags x = b_flags y → b_dev x = b_dev y → b_blockno x = b_blockno y → b_prev x = b_prev y →
  b_next x = b_next y → b_qnext x = b_qnext y → b_data x = b_data y → x = y.
Proof. destruct x, y; simpl; intros; subst; reflexivity. Qed.

Lemma superblock_ext (x y : superblock) :
  sb_size x = sb_size y → sb_nblocks x = sb_nblocks y → sb_ninodes x = sb_ninodes y → sb_nlog x
  = sb_nlog y → sb_logstart x = sb_logstart y → sb_inodestart x = sb_inodestart y → sb_bmapstart
  x = sb_bmapstart y → x = y.
Proof. destruct x, y; simpl; intros; subst; reflexivity. Qed.

Lemma log_ext (x y : log) :
  l_start x = l_start y → l_size x = l_size y → l_outstanding x = l_outstanding y → l_committing
  x = l_committing y → l_dev x = l_dev y → lh_n x = lh_n y → lh_block x = lh_block y → x = y.
Proof. destruct x, y; simpl; intros; subst; reflexivity. Qed.

Lemma pipe_ext (x y : pipe) :
  pi_data x = pi_data y → pi_nread x = pi_nread y → pi_nwrite x = pi_nwrite y → pi_readopen x =
  pi_readopen y → pi_writeopen x = pi_writeopen y → x = y.
Proof. destruct x, y; simpl; intros; subst; reflexivity. Qed.

Lemma input_ext (x y : input) :
  in_buf x = in_buf y → in_r x = in_r y → in_w x = in_w y → in_e x = in_e y → x = y.
Proof. destruct x, y; simpl; intros; subst; reflexivity. Qed.

Lemma console_ext (x y : console) :
  c_locking x = c_locking y → c_panicked x = c_panicked y → c_uart x = c_uart y → c_serial x =
  c_serial y → c_crt x = c_crt y → c_pos x = c_pos y → x = y.
Proof. destruct x, y; simpl; intros; subst; reflexivity. Qed.

Lemma kmem_ext (x y : kmem) :
  use_lock x = use_lock y → freelist x = freelist y → x = y.
Proof. destruct x, y; simpl; intros; subst; reflexivity. Qed.

Lemma kstate_ext (x y : kstate) :
  k_mem x = k_mem y → k_held x = k_held y → k_kmem x = k_kmem y → k_procs x = k_procs y →
  k_nextpid x = k_nextpid y → k_initproc x = k_initproc y → k_proc x = k_proc y → k_ticks x =
  k_ticks y → k_files x = k_files y → k_pipes x = k_pipes y → k_inodes x = k_inodes y → k_bufs x
  = k_bufs y → k_log x = k_log y → k_sb x = k_sb y → k_disk x = k_disk y → k_dwrites x =
  k_dwrites y → k_input x = k_input y → k_cons x = k_cons y → k_kpgdir x = k_kpgdir y → k_cr3 x
  = k_cr3 y → k_esp0 x = k_esp0 y → k_cpuid x = k_cpuid y → x = y.
Proof. destruct x, y; simpl; intros; subst; reflexivity. Qed.

(** Solve an equation between records by comparing fields. *)
Ltac rec_eq :=
  first [apply kstate_ext | apply kmem_ext | apply console_ext | apply input_ext | apply pipe_ext | apply log_ext | apply superblock_ext | apply buf_ext | apply inode_ext | apply file_ext | apply proc_ext]; simpl; try reflexivity.

(** ** Kernel code *)

Abbreviation K := (M kstate).

(** Read and update the current process, a process, a file, an inode, a
    buffer: [p->f] and [p->f = v] of the C code. *)
Definition curproc : K nat := λ s, deref (k_proc s) s.
Definition get_proc (i : nat) : K proc := λ s, deref (k_procs s !! i) s.
Definition upd_proc (i : nat) (f : proc → proc) : K unit :=
  modify (λ s, set_k_procs (alter f i (k_procs s)) s).
Definition get_file (i : nat) : K file := λ s, deref (k_files s !! i) s.
Definition upd_file (i : nat) (f : file → file) : K unit :=
  modify (λ s, set_k_files (alter f i (k_files s)) s).
Definition get_inode (i : nat) : K inode := λ s, deref (k_inodes s !! i) s.
Definition upd_inode (i : nat) (f : inode → inode) : K unit :=
  modify (λ s, set_k_inodes (alter f i (k_inodes s)) s).
Definition get_buf (i : nat) : K buf := λ s, deref (k_bufs s !! i) s.
Definition upd_buf (i : nat) (f : buf → buf) : K unit :=
  modify (λ s, set_k_bufs (alter f i (k_bufs s)) s).
Definition upd_log (f : log → log) : K unit := modify (λ s, set_k_log (f (k_log s)) s).

(** ** The locking interface

    What the kernel relies on in spinlock.c, for the CPU that runs the code:
    acquire() panics on a lock this CPU already holds and otherwise ends up
    holding it; release() panics on a lock it does not hold. *)

Definition holding (l : lockid) : K bool := gets (λ s, bool_decide (l ∈ k_held s)).
Definition acquire (l : lockid) : K unit := λ s,
  if bool_decide (l ∈ k_held s) then Panic "acquire"
  else Ok tt (set_k_held ({[ l ]} ∪ k_held s) s).
Definition release (l : lockid) : K unit := λ s,
  if bool_decide (l ∈ k_held s) then Ok tt (set_k_held (k_held s ∖ {[ l ]}) s)
  else Panic "release".

Definition initlock (l : lockid) : K unit := modify (λ s, set_k_held (k_held s ∖ {[ l ]}) s).

Lemma acquire_free l s :
  l ∉ k_held s → acquire l s = Ok tt (set_k_held ({[ l ]} ∪ k_held s) s).
Proof. intros H. unfold acquire. by rewrite bool_decide_eq_false_2. Qed.

Lemma release_held l s :
  l ∈ k_held s → release l s = Ok tt (set_k_held (k_held s ∖ {[ l ]}) s).
Proof. intros H. unfold release. by rewrite bool_decide_eq_true_2. Qed.

(** Setting and clearing a lock that was free leaves the held set alone. *)
Lemma held_roundtrip l (H : gset lockid) : l ∉ H → ({[ l ]} ∪ H) ∖ {[ l ]} = H.
Proof. set_solver. Qed.

Lemma held_inside l (H : gset lockid) : l ∈ {[ l ]} ∪ H.
Proof. set_solver. Qed.

#[export] Hint Resolve held_inside : xv6.

(** A critical section around code that leaves the set of held locks as it
    found it leaves it as it found it. *)
Lemma wp_acquire l (Q : unit → kstate → Prop) s :
  l ∉ k_held s → Q tt (set_k_held ({[ l ]} ∪ k_held s) s) → wp (acquire l) Q s.
Proof. intros H HQ. unfold wp. by rewrite acquire_free. Qed.

Lemma wp_release l (Q : unit → kstate → Prop) s :
  l ∈ k_held s → Q tt (set_k_held (k_held s ∖ {[ l ]}) s) → wp (release l) Q s.
Proof. intros H HQ. unfold wp. by rewrite release_held. Qed.

Lemma set_k_held_id s : set_k_held (k_held s) s = s.
Proof. by destruct s. Qed.

(** ** The rest of the machine

    [swtch_out] is what happens between the moment a process gives up the
    processor in sched() and the moment the scheduler resumes it: other
    processes, interrupt handlers and the scheduler itself run ([None] when it
    is never resumed). [swtch_run] is what a process does from the moment
    scheduler() switches to it until it calls sched(). [wakeups] bounds how
    often one wait loop goes round. The linker's symbols are the kernel's load
    addresses. *)
Class Env := {
  swtch_out : kstate → option kstate;
  swtch_run : kstate → option kstate;
  wakeups : nat;
  sym_end : Z;
  sym_data : Z;
  sym_trapret : Z;
  sym_forkret : Z;
  sym_initcode : list Z
}.

(** What swtch() guarantees a process that gave up the processor: it comes back
    as the running process of this CPU, holding just ptable.lock. *)
Class EnvOk (E : Env) := {
  swtch_out_proc s s' : swtch_out s = Some s' → k_proc s' = k_proc s;
  swtch_out_held s s' : swtch_out s = Some s' → k_held s' = k_held s
}.

(** ** A concrete machine for examples

    An environment in which nothing else runs, with the kernel loaded at
    KERNLINK, and the state of the kernel's variables before main() runs. *)
Definition env_idle : Env := {|
  swtch_out := Some; swtch_run := Some; wakeups := 8;
  sym_end := 2148630528; sym_data := 2148564992;
  sym_trapret := 2148556800; sym_forkret := 2148548608; sym_initcode := [] |}.

Definition proc0 : proc :=
  mkproc 0 0 0 UNUSED 0 None 0 0 None 0 (replicate 16 None) None (replicate 16 0) 0 0.

Definition kstate0 : kstate :=
  mkstate ∅ ∅ (mkkmem 0 0) (replicate 64 proc0) 1 None None 0
    (replicate 100 (mkfile FD_NONE 0 0 0 0 None 0)) ∅
    (replicate 50 (mkinode 0 0 0 0 0 0 0 0 0 (replicate 13 0)))
    (replicate 31 (mkbuf 0 0 0 0 0 None (replicate 512 0)))
    (mklog 0 0 0 0 0 0 (replicate 30 0)) (mksb 0 0 0 0 0 0 0)
    ∅ [] (mkinput (replicate 128 0) 0 0 0) (mkcons 0 0 1 [] ∅ 0) 0 0 0 0.
