(* ===== verification/Ring.v ===== *)
(** * Ring: circular buffers with counters modulo 2^32

    The console's input buffer and pipes store byte number [i] at [i mod N] and count
    bytes in unsigned integers that wrap around. [N] divides 2^32, so the wrap-around
    does not disturb the position. *)

From S2P Require Import Prelude.
From stdpp Require Import options.

(** [buf[i % N]] and [buf[i % N] = c]. *)
Definition rget (N : Z) (l : list Z) (i : Z) : Z := default 0 (l !! Z.to_nat (i mod N)).
Definition rput (N : Z) (l : list Z) (i c : Z) : list Z := <[Z.to_nat (i mod N) := u8 c]> l.

(** The bytes numbered from [a] to [b - 1]. *)
Definition rqueue (N : Z) (l : list Z) (a b : Z) : list Z := rget N l <$> seqZ a (b - a).

Lemma length_rput N l i c : length (rput N l i c) = length l.
Proof. apply length_insert. Qed.

(** ** Counters *)

Lemma u32_inj_near a b : - 4294967296 < a - b < 4294967296 → u32 a = u32 b → a = b.
Proof. unfold u32. intros H Hm. pose proof (Z.div_mod a 4294967296). pose proof (Z.div_mod b 4294967296). lia. Qed.
Lemma u32_sub a b : u32 (u32 a - u32 b) = u32 (a - b).
Proof. unfold u32. by rewrite <- Zminus_mod. Qed.
Lemma u32_add_l a b : u32 (u32 a + b) = u32 (a + b).
Proof. unfold u32. by rewrite Zplus_mod_idemp_l. Qed.
Lemma u32_sub_l a b : u32 (u32 a - b) = u32 (a - b).
Proof. unfold u32. by rewrite Zminus_mod_idemp_l. Qed.

(** ** Queues *)

Section Ring.
Context (N : Z) (HN : 0 < N) (k : Z) (Hdiv : 4294967296 = k * N).

Lemma mod_u32 a : u32 a mod N = a mod N.
Proof using HN Hdiv.
  unfold u32. rewrite Hdiv, (Z.mul_comm k N). assert (0 < k) by nia.
  rewrite Z.rem_mul_r by lia. rewrite (Z.mul_comm N), Z_mod_plus_full. apply Z.mod_mod. lia.
Qed.

Lemma rget_u32 l a : rget N l (u32 a) = rget N l a.
Proof using HN Hdiv. unfold rget. by rewrite mod_u32. Qed.

Lemma rput_u32 l a c : rput N l (u32 a) c = rput N l a c.
Proof using HN Hdiv. unfold rput. by rewrite mod_u32. Qed.

Lemma length_rqueue l a b : Z.of_nat (length (rqueue N l a b)) = Z.max 0 (b - a).
Proof. unfold rqueue. rewrite length_fmap, length_seqZ. lia. Qed.

Lemma rqueue_nil l a : rqueue N l a a = [].
Proof. unfold rqueue. by rewrite Z.sub_diag. Qed.

Lemma rqueue_app l a b c : a <= b <= c → rqueue N l a b ++ rqueue N l b c = rqueue N l a c.
Proof.
  intros H. unfold rqueue. rewrite <- fmap_app. f_equal.
  replace (c - a) with ((b - a) + (c - b)) by lia. rewrite seqZ_app by lia.
  by replace (a + (b - a)) with b by lia.
Qed.

Lemma rqueue_snoc l a b : a <= b → rqueue N l a (b + 1) = rqueue N l a b ++ [rget N l b].
Proof.
  intros H. rewrite <- (rqueue_app l a b (b + 1)) by lia. f_equal. unfold rqueue.
  by replace (b + 1 - b) with 1 by lia.
Qed.

Lemma rqueue_cons l a b : a < b → rqueue N l a b = rget N l a :: rqueue N l (a + 1) b.
Proof.
  intros H. unfold rqueue. rewrite seqZ_cons by lia. cbn. do 2 f_equal.
  by replace (Z.pred (b - a)) with (b - (a + 1)) by lia.
Qed.

(** Positions less than [N] apart are different cells. *)
Lemma rget_rput l i c j :
  Z.of_nat (length l) = N → - N < i - j < N →
  rget N (rput N l i c) j = if decide (j = i) then u8 c else rget N l j.
Proof using HN.
  intros Hl Hij. unfold rget, rput. pose proof (Z.mod_pos_bound i N HN). pose proof (Z.mod_pos_bound j N HN).
  rewrite list_lookup_insert. case_decide as Hc; case_decide as Hc'; [done| | |done].
  - exfalso. apply Hc'. destruct Hc as [Hc _]. apply Z2Nat.inj in Hc; [|lia..].
    pose proof (Z.div_mod i N ltac:(lia)) as Hi. pose proof (Z.div_mod j N ltac:(lia)) as Hj.
    assert (N * (i / N - j / N) = i - j) as Hd by lia.
    destruct (Z.lt_trichotomy (i / N - j / N) 0) as [?|[Hq|?]]; [nia| |nia].
    rewrite Hq in Hd. lia.
  - exfalso. apply Hc. subst j. split; [done|lia].
Qed.

Lemma rqueue_rput l i c a b :
  Z.of_nat (length l) = N → i - N < a → b <= i → rqueue N (rput N l i c) a b = rqueue N l a b.
Proof using HN.
  intros Hl Ha Hb. unfold rqueue. apply list_fmap_ext. intros n z Hn. apply lookup_seqZ in Hn as [-> Hn].
  rewrite rget_rput by (done || lia). by rewrite decide_False by lia.
Qed.

(** Adding byte [c] at the end of a queue that is not full. *)
Lemma rqueue_add l c a b :
  Z.of_nat (length l) = N → a <= b < a + N → 0 <= c < 256 →
  rqueue N (rput N l b c) a (b + 1) = rqueue N l a b ++ [c].
Proof using HN.
  intros Hl Hab Hc. rewrite rqueue_snoc by lia. rewrite rqueue_rput by (done || lia).
  rewrite rget_rput, decide_True by (done || lia). unfold u8. by rewrite Z.mod_small by lia.
Qed.

End Ring.
