(* ===== verification/CMem.v ===== *)
(** * CMem: byte-addressed memory and the routines of string.c

    Memory is a finite map from addresses to bytes; an address with no entry
    reads as 0. Words are little-endian. Each routine of string.c is the loop
    the C code runs; the theorems give its effect on every byte. *)

From S2P Require Import Prelude.
From stdpp Require Import options.

Definition rd (m : gmap Z Z) (a : Z) : Z := default 0 (m !! a).
Definition wr (m : gmap Z Z) (a v : Z) : gmap Z Z := <[a := u8 v]> m.

(** 32-bit loads and stores. *)
Definition read32 (m : gmap Z Z) (a : Z) : Z :=
  rd m a + 256 * rd m (a + 1) + 65536 * rd m (a + 2) + 16777216 * rd m (a + 3).
Definition write32 (m : gmap Z Z) (a v : Z) : gmap Z Z :=
  wr (wr (wr (wr m a v) (a + 1) (Z.shiftr v 8)) (a + 2) (Z.shiftr v 16)) (a + 3) (Z.shiftr v 24).

(** rep stosb / rep stosl (x86.h). *)
Fixpoint stosb (m : gmap Z Z) (a v : Z) (cnt : nat) : gmap Z Z :=
  match cnt with O => m | S n => stosb (wr m a v) (a + 1) v n end.
Fixpoint stosl (m : gmap Z Z) (a v : Z) (cnt : nat) : gmap Z Z :=
  match cnt with O => m | S n => stosl (write32 m a v) (a + 4) v n end.

(** memset of string.c: whole words when address and length allow it. *)
Definition memset (m : gmap Z Z) (dst c n : Z) : gmap Z Z :=
  if (Z.rem dst 4 =? 0) && (n mod 4 =? 0) then
    let c := Z.land c 255 in
    stosl m dst (Z.lor (Z.lor (Z.lor (Z.shiftl c 24) (Z.shiftl c 16)) (Z.shiftl c 8)) c)
      (Z.to_nat (n / 4))
  else stosb m dst c (Z.to_nat n).

Fixpoint memcmp_loop (m : gmap Z Z) (s1 s2 : Z) (n : nat) : Z :=
  match n with
  | O => 0
  | S n =>
    if negb (rd m s1 =? rd m s2) then rd m s1 - rd m s2
    else memcmp_loop m (s1 + 1) (s2 + 1) n
  end.
Definition memcmp (m : gmap Z Z) (v1 v2 n : Z) : Z := memcmp_loop m v1 v2 (Z.to_nat n).

(** [while(n-- > 0) *--d = *--s;] and [while(n-- > 0) *d++ = *s++;] *)
Fixpoint copy_backward (m : gmap Z Z) (d s : Z) (n : nat) : gmap Z Z :=
  match n with
  | O => m
  | S n => copy_backward (wr m (d - 1) (rd m (s - 1))) (d - 1) (s - 1) n
  end.
Fixpoint copy_forward (m : gmap Z Z) (d s : Z) (n : nat) : gmap Z Z :=
  match n with
  | O => m
  | S n => copy_forward (wr m d (rd m s)) (d + 1) (s + 1) n
  end.
Definition memmove (m : gmap Z Z) (dst src n : Z) : gmap Z Z :=
  if (src <? dst) && (src + n >? dst) then copy_backward m (dst + n) (src + n) (Z.to_nat n)
  else copy_forward m dst src (Z.to_nat n).
Definition memcpy (m : gmap Z Z) (dst src n : Z) : gmap Z Z := memmove m dst src n.

Fixpoint strncmp_loop (m : gmap Z Z) (p q : Z) (n : nat) : Z :=
  match n with
  | O => 0
  | S n =>
    if negb (rd m p =? 0) && (rd m p =? rd m q) then strncmp_loop m (p + 1) (q + 1) n
    else rd m p - rd m q
  end.
Definition strncmp (m : gmap Z Z) (p q n : Z) : Z := strncmp_loop m p q (Z.to_nat n).

(** [while(n-- > 0 && ( *s++ = *t++) != 0);] then [while(n-- > 0) *s++ = 0;] *)
Fixpoint strncpy_loop (m : gmap Z Z) (s t : Z) (n : nat) : gmap Z Z :=
  match n with
  | O => m
  | S n =>
    let m := wr m s (rd m t) in
    if negb (rd m s =? 0) then strncpy_loop m (s + 1) (t + 1) n
    else stosb m (s + 1) 0 n
  end.
Definition strncpy (m : gmap Z Z) (s t n : Z) : gmap Z Z := strncpy_loop m s t (Z.to_nat n).

(** [while(--n > 0 && ( *s++ = *t++) != 0); *s = 0;] *)
Fixpoint safestrcpy_loop (m : gmap Z Z) (s t : Z) (n : nat) : gmap Z Z :=
  match n with
  | O => wr m s 0
  | S n =>
    let m := wr m s (rd m t) in
    if negb (rd m s =? 0) then safestrcpy_loop m (s + 1) (t + 1) n
    else wr m (s + 1) 0
  end.
Definition safestrcpy (m : gmap Z Z) (s t n : Z) : gmap Z Z :=
  if n <=? 0 then m else safestrcpy_loop m s t (Z.to_nat (n - 1)).

(** [for(n = 0; s[n]; n++)]; [bound] limits how far the scan may go. *)
Fixpoint strlen_loop (m : gmap Z Z) (s n : Z) (bound : nat) : option Z :=
  match bound with
  | O => None
  | S b => if rd m (s + n) =? 0 then Some n else strlen_loop m s (n + 1) b
  end.
Definition strlen (m : gmap Z Z) (s : Z) (bound : nat) : option Z := strlen_loop m s 0 bound.

(** A run of bytes as a list. *)
Definition bytes (m : gmap Z Z) (a : Z) (n : nat) : list Z :=
  (λ i, rd m (a + Z.of_nat i)) <$> seq 0 n.

(** Memory holds bytes. *)
Definition mem_ok (m : gmap Z Z) : Prop := ∀ a, is_u8 (rd m a).

Arguments read32 : simpl never.
Arguments write32 : simpl never.
Arguments memset : simpl never.
Arguments memmove : simpl never.

(** ** Reading back *)

Lemma rd_wr m a v b : rd (wr m a v) b = if decide (a = b) then u8 v else rd m b.
Proof. unfold rd, wr. rewrite lookup_insert. by case_decide. Qed.

Lemma mem_ok_wr m a v : mem_ok m → mem_ok (wr m a v).
Proof. intros H b. rewrite rd_wr. case_decide; [apply u8_range|apply H]. Qed.

Lemma u8_rd m a : mem_ok m → u8 (rd m a) = rd m a.
Proof. intros H. apply u8_small, H. Qed.

#[export] Hint Resolve mem_ok_wr : xv6.

Lemma rd_write32 m a v b :
  rd (write32 m a v) b =
    if decide (b = a) then u8 v
    else if decide (b = a + 1) then u8 (Z.shiftr v 8)
    else if decide (b = a + 2) then u8 (Z.shiftr v 16)
    else if decide (b = a + 3) then u8 (Z.shiftr v 24)
    else rd m b.
Proof. unfold write32. rewrite !rd_wr. repeat case_decide; try done; lia. Qed.

Lemma mem_ok_write32 m a v : mem_ok m → mem_ok (write32 m a v).
Proof. intros H. unfold write32. auto with xv6. Qed.
#[export] Hint Resolve mem_ok_write32 : xv6.

Lemma read32_range m a : mem_ok m → is_u32 (read32 m a).
Proof.
  intros H. pose proof (H a). pose proof (H (a + 1)).
  pose proof (H (a + 2)). pose proof (H (a + 3)).
  unfold is_u8, is_u32, read32 in *. lia.
Qed.

Lemma le_bytes v :
  u8 v + 256 * u8 (Z.shiftr v 8) + 65536 * u8 (Z.shiftr v 16)
    + 16777216 * u8 (Z.shiftr v 24) = u32 v.
Proof.
  unfold u8, u32. rewrite !Z.shiftr_div_pow2 by lia.
  change (2 ^ 8) with 256. change (2 ^ 16) with 65536. change (2 ^ 24) with 16777216.
  replace (v / 65536) with (v / 256 / 256) by (rewrite Z.div_div by lia; done).
  replace (v / 16777216) with (v / 256 / 256 / 256) by (rewrite !Z.div_div by lia; done).
  apply (Z.mod_unique _ _ (v / 256 / 256 / 256 / 256)); [left|]; Z.div_mod_to_equations; lia.
Qed.

(** A word stored is the word loaded, modulo 2^32. *)
Lemma read32_write32 m a v : read32 (write32 m a v) a = u32 v.
Proof.
  unfold read32. rewrite !rd_write32.
  repeat (case_decide; try lia). apply le_bytes.
Qed.

Lemma read32_write32_ne m a b v :
  b + 4 <= a ∨ a + 4 <= b → read32 (write32 m a v) b = read32 m b.
Proof. intros H. unfold read32. rewrite !rd_write32. repeat (case_decide; try lia). Qed.

(** ** Fills and copies *)

Lemma rd_stosb m a v n b :
  rd (stosb m a v n) b = if decide (a <= b < a + Z.of_nat n) then u8 v else rd m b.
Proof.
  revert m a. induction n as [|n IH]; intros m a; simpl.
  - case_decide; [lia|done].
  - rewrite IH, rd_wr. repeat case_decide; try done; lia.
Qed.

Lemma rd_stosl m a v n b :
  u8 (Z.shiftr v 8) = u8 v → u8 (Z.shiftr v 16) = u8 v → u8 (Z.shiftr v 24) = u8 v →
  rd (stosl m a v n) b = if decide (a <= b < a + 4 * Z.of_nat n) then u8 v else rd m b.
Proof.
  intros H1 H2 H3. revert m a. induction n as [|n IH]; intros m a; simpl.
  - case_decide; [lia|done].
  - rewrite IH, rd_write32. repeat case_decide; try done; try congruence; lia.
Qed.

(** The byte repeated four times: every lane of the word is the byte (checked
    on all 256 bytes). *)
Definition splat (c : Z) : Z :=
  Z.lor (Z.lor (Z.lor (Z.shiftl c 24) (Z.shiftl c 16)) (Z.shiftl c 8)) c.

Lemma splat_byte c k :
  0 <= c < 256 → k ∈ [0; 8; 16; 24] → u8 (Z.shiftr (splat c) k) = c.
Proof.
  intros Hc Hk.
  assert (forallb (λ c, forallb (λ k, u8 (Z.shiftr (splat c) k) =? c) [0; 8; 16; 24])
    (seqZ 0 256) = true) as H by (vm_compute; done).
  rewrite forallb_forall in H. specialize (H c).
  rewrite <- list_elem_of_In, elem_of_seqZ, forallb_forall in H.
  specialize (H ltac:(lia) k). rewrite <- list_elem_of_In in H. specialize (H Hk). lia.
Qed.

Lemma land_255 c : Z.land c 255 = u8 c.
Proof. apply (land_ones_mod c 8). lia. Qed.

(** memset's word path and byte path have the same effect. *)
Lemma rd_memset m dst c n b :
  0 <= n →
  rd (memset m dst c n) b = if decide (dst <= b < dst + n) then u8 c else rd m b.
Proof.
  intros Hn. unfold memset. destruct (_ && _) eqn:E.
  - rewrite land_255. fold (splat (u8 c)).
    assert (u8 (splat (u8 c)) = u8 c) as E0.
    { rewrite <- (Z.shiftr_0_r (splat (u8 c))) at 1. apply splat_byte; [apply u8_range|set_solver]. }
    rewrite rd_stosl; rewrite ?E0; try (apply splat_byte; [apply u8_range|set_solver]).
    assert (4 * Z.of_nat (Z.to_nat (n / 4)) = n) as ->; [|done].
    apply andb_prop in E as [_ E]. Z.div_mod_to_equations. lia.
  - rewrite rd_stosb. by rewrite Z2Nat.id by lia.
Qed.

Lemma mem_ok_memset m dst c n : 0 <= n → mem_ok m → mem_ok (memset m dst c n).
Proof.
  intros Hn H b. rewrite rd_memset by done. case_decide; [apply u8_range|apply H].
Qed.
#[export] Hint Resolve mem_ok_memset : xv6.

(** The forward loop is right unless it overwrites source bytes it has still to
    read, the backward loop unless it does so from the other end. *)
Lemma rd_copy_forward m d s n b :
  mem_ok m → (d <= s ∨ s + Z.of_nat n <= d) →
  rd (copy_forward m d s n) b =
    if decide (d <= b < d + Z.of_nat n) then rd m (s + (b - d)) else rd m b.
Proof.
  revert m d s. induction n as [|n IH]; intros m d s Hm Hd; simpl.
  - case_decide; [lia|done].
  - rewrite IH; [|auto with xv6|lia]. rewrite !rd_wr, u8_rd by done.
    repeat (case_decide; try lia); try done; f_equal; lia.
Qed.

Lemma rd_copy_backward m d s n b :
  mem_ok m → (s <= d ∨ d + Z.of_nat n <= s) →
  rd (copy_backward m (d + Z.of_nat n) (s + Z.of_nat n) n) b =
    if decide (d <= b < d + Z.of_nat n) then rd m (s + (b - d)) else rd m b.
Proof.
  revert m. induction n as [|n IH]; intros m Hm Hd; simpl.
  - case_decide; [lia|done].
  - replace (d + Z.of_nat (S n) - 1) with (d + Z.of_nat n) by lia.
    replace (s + Z.of_nat (S n) - 1) with (s + Z.of_nat n) by lia.
    rewrite IH; [|auto with xv6|lia]. rewrite !rd_wr, u8_rd by done.
    repeat (case_decide; try lia); try done; f_equal; lia.
Qed.

(** memmove copies correctly whatever the overlap. *)
Lemma rd_memmove m dst src n b :
  mem_ok m → 0 <= n →
  rd (memmove m dst src n) b =
    if decide (dst <= b < dst + n) then rd m (src + (b - dst)) else rd m b.
Proof.
  intros Hm Hn. unfold memmove.
  destruct (Z_of_nat_complete n Hn) as [k ->]. rewrite Nat2Z.id. destruct (_ && _) eqn:E.
  - apply rd_copy_backward; [done|lia].
  - apply rd_copy_forward; [done|lia].
Qed.

Lemma mem_ok_memmove m dst src n : 0 <= n → mem_ok m → mem_ok (memmove m dst src n).
Proof. intros Hn H b. rewrite rd_memmove by done. case_decide; apply H. Qed.
#[export] Hint Resolve mem_ok_memmove : xv6.

(** Loads that a fill or a copy does not touch. *)
Lemma read32_memset_ne m dst c n a :
  0 <= n → a + 4 <= dst ∨ dst + n <= a → read32 (memset m dst c n) a = read32 m a.
Proof.
  intros Hn H. unfold read32. rewrite !rd_memset by done. repeat (case_decide; try lia).
Qed.

Lemma read32_memset m dst n a :
  0 <= n → dst <= a → a + 4 <= dst + n → read32 (memset m dst 0 n) a = 0.
Proof.
  intros Hn H1 H2. unfold read32. rewrite !rd_memset by done. repeat (case_decide; try lia).
  done.
Qed.

Lemma read32_memmove m dst src n a :
  mem_ok m → 0 <= n → dst <= a → a + 4 <= dst + n →
  read32 (memmove m dst src n) a = read32 m (src + (a - dst)).
Proof.
  intros Hm Hn H1 H2. unfold read32. rewrite !rd_memmove by done.
  repeat (case_decide; try lia).
  assert (∀ i, src + (a + i - dst) = src + (a - dst) + i) as E by lia. by rewrite !E.
Qed.

Lemma read32_memmove_ne m dst src n a :
  mem_ok m → 0 <= n → a + 4 <= dst ∨ dst + n <= a →
  read32 (memmove m dst src n) a = read32 m a.
Proof.
  intros Hm Hn H. unfold read32. rewrite !rd_memmove by done. repeat (case_decide; try lia).
Qed.

(** ** Strings *)

(** The C string at [a]: [k] bytes that are not NUL, then a NUL. *)
Definition cstr_len (m : gmap Z Z) (a k : Z) : Prop :=
  0 <= k ∧ rd m (a + k) = 0 ∧ ∀ j, 0 <= j < k → rd m (a + j) ≠ 0.

Lemma strlen_loop_spec m s n k b :
  0 <= n <= k → rd m (s + k) = 0 → (∀ j, n <= j < k → rd m (s + j) ≠ 0) →
  (Z.to_nat (k - n) < b)%nat → strlen_loop m s n b = Some k.
Proof.
  revert n. induction b as [|b IH]; intros n Hn H0 Hj Hb; [lia|]. simpl.
  destruct (Z.eqb_spec (rd m (s + n)) 0) as [E|E].
  - f_equal. destruct (decide (n = k)); [done|]. exfalso. apply (Hj n); [lia|done].
  - assert (n ≠ k) by (intros ->; done). apply IH; [lia|done| |lia]. intros j Hj'. apply Hj. lia.
Qed.

Lemma strncmp_loop_eq m p q n :
  strncmp_loop m p q n = 0 ↔
  (∃ k, 0 <= k < Z.of_nat n ∧ rd m (p + k) = 0 ∧ ∀ j, 0 <= j <= k → rd m (p + j) = rd m (q + j))
  ∨ (∀ j, 0 <= j < Z.of_nat n → rd m (p + j) = rd m (q + j) ∧ rd m (p + j) ≠ 0).
Proof.
  revert p q. induction n as [|n IH]; intros p q; simpl.
  { split; [intros _; right; lia|done]. }
  destruct (Z.eqb_spec (rd m p) 0) as [E0|E0]; simpl.
  - split.
    + intros H. left. exists 0. rewrite !Z.add_0_r. split_and!; [lia|lia|done|].
      intros j Hj. replace j with 0 by lia. rewrite !Z.add_0_r. lia.
    + intros [(k & Hk & Hz & Hj)|H].
      * specialize (Hj 0 ltac:(lia)). rewrite !Z.add_0_r in Hj. lia.
      * destruct (H 0 ltac:(lia)) as [? []]. by rewrite Z.add_0_r.
  - destruct (Z.eqb_spec (rd m p) (rd m q)) as [E|E].
    + rewrite IH. split; (intros [(k & Hk & Hz & Hj)|H]; [left|right]).
      * exists (k + 1). replace (p + (k + 1)) with (p + 1 + k) by lia.
        split_and!; [lia|lia|done|]. intros j Hj'. destruct (decide (j = 0)) as [->|].
        { by rewrite !Z.add_0_r. }
        specialize (Hj (j - 1) ltac:(lia)).
        by replace (p + 1 + (j - 1)) with (p + j) in Hj by lia;
          replace (q + 1 + (j - 1)) with (q + j) in Hj by lia.
      * intros j Hj'. destruct (decide (j = 0)) as [->|]; [by rewrite !Z.add_0_r|].
        specialize (H (j - 1) ltac:(lia)).
        by replace (p + 1 + (j - 1)) with (p + j) in H by lia;
          replace (q + 1 + (j - 1)) with (q + j) in H by lia.
      * destruct (decide (k = 0)) as [->|]; [by rewrite Z.add_0_r in Hz|].
        exists (k - 1). replace (p + 1 + (k - 1)) with (p + k) by lia.
        split_and!; [lia|lia|done|]. intros j Hj'. specialize (Hj (j + 1) ltac:(lia)).
        by rewrite !Z.add_assoc, !(Z.add_shuffle0 _ j) in Hj.
      * intros j Hj'. specialize (H (j + 1) ltac:(lia)).
        by rewrite !Z.add_assoc, !(Z.add_shuffle0 _ j) in H.
    + split; [lia|]. intros [(k & Hk & Hz & Hj)|H]; exfalso; apply E.
      * specialize (Hj 0 ltac:(lia)). by rewrite !Z.add_0_r in Hj.
      * destruct (H 0 ltac:(lia)) as [H0 _]. by rewrite !Z.add_0_r in H0.
Qed.

Lemma safestrcpy_loop_spec m s t n :
  mem_ok m → (s <= t ∨ t + Z.of_nat n <= s) →
  ∃ k, 0 <= k <= Z.of_nat n ∧ rd (safestrcpy_loop m s t n) (s + k) = 0 ∧
    (∀ j, 0 <= j < k →
       rd (safestrcpy_loop m s t n) (s + j) = rd m (t + j) ∧ rd m (t + j) ≠ 0) ∧
    (k < Z.of_nat n → rd m (t + k) = 0) ∧
    (∀ b, b < s ∨ s + Z.of_nat n < b → rd (safestrcpy_loop m s t n) b = rd m b).
Proof.
  revert m s t. induction n as [|n IH]; intros m s t Hm Hd; simpl.
  { exists 0. rewrite Z.add_0_r, rd_wr. case_decide; [|done].
    split_and!; try (done || lia). intros b Hb. rewrite rd_wr. case_decide; [lia|done]. }
  rewrite rd_wr, decide_True, u8_rd by done.
  destruct (Z.eqb_spec (rd m t) 0) as [E|E]; simpl.
  - exists 0. rewrite !Z.add_0_r, E. split_and!; try (done || lia).
    + rewrite !rd_wr. repeat case_decide; done.
    + intros b Hb. rewrite !rd_wr. repeat case_decide; try done; lia.
  - destruct (IH (wr m s (rd m t)) (s + 1) (t + 1)) as (k & Hk & H0 & Hj & Ht & Hb);
      [auto with xv6|lia|].
    assert (∀ j, 0 <= j < Z.of_nat n → rd (wr m s (rd m t)) (t + 1 + j) = rd m (t + (j + 1))) as Hsrc.
    { intros j Hj'. rewrite rd_wr, decide_False by lia. f_equal. lia. }
    exists (k + 1). replace (s + (k + 1)) with (s + 1 + k) by lia.
    split; [lia|]. split; [done|]. split; [|split].
    + intros j Hj'. destruct (decide (j = 0)) as [->|].
      { rewrite !Z.add_0_r, Hb, rd_wr, decide_True, u8_rd by (done || lia). done. }
      specialize (Hj (j - 1) ltac:(lia)). rewrite Hsrc in Hj by lia.
      by replace (s + 1 + (j - 1)) with (s + j) in Hj by lia;
        replace (j - 1 + 1) with j in Hj by lia.
    + intros Hk'. rewrite <- Hsrc by lia. apply Ht. lia.
    + intros b Hb'. rewrite Hb, rd_wr, decide_False by lia. done.
Qed.

(** ** Properties *)

(** memmove() copies the [n] source bytes as they were before the call, for
    every overlap of source and destination, and changes nothing else. *)
Theorem memmove_any_overlap (m : gmap Z Z) (dst src n : Z) :
  mem_ok m → 0 <= n →
  bytes (memmove m dst src n) dst (Z.to_nat n) = bytes m src (Z.to_nat n)
  ∧ ∀ b, b < dst ∨ dst + n <= b → rd (memmove m dst src n) b = rd m b.
Proof.
  intros Hm Hn. split.
  - unfold bytes. apply list_fmap_ext. intros i j Hj.
    apply lookup_seq in Hj as [-> Hj]. rewrite rd_memmove by done. rewrite decide_True by lia. f_equal. lia.
  - intros b Hb. rewrite rd_memmove, decide_False by (done || lia). done.
Qed.

(** memset()'s word-at-a-time path (taken when address and length are
    multiples of 4) writes exactly what the byte loop writes. *)
Theorem memset_word_path (m : gmap Z Z) (dst c n : Z) :
  0 <= n → ∀ b, rd (memset m dst c n) b = rd (stosb m dst c (Z.to_nat n)) b.
Proof. intros Hn b. rewrite rd_memset, rd_stosb, Z2Nat.id by lia. done. Qed.

(** safestrcpy() into a buffer of [n > 0] bytes leaves a NUL-terminated
    string there: the longest prefix of the source that fits in [n - 1] bytes,
    and it writes nothing outside the buffer. *)
Theorem safestrcpy_prefix (m : gmap Z Z) (s t n : Z) :
  mem_ok m → 0 < n → s <= t ∨ t + n <= s →
  ∃ k, cstr_len (safestrcpy m s t n) s k ∧ k < n ∧
    (∀ j, 0 <= j < k → rd (safestrcpy m s t n) (s + j) = rd m (t + j)) ∧
    (k < n - 1 → rd m (t + k) = 0) ∧
    (∀ b, b < s ∨ s + n <= b → rd (safestrcpy m s t n) b = rd m b).
Proof.
  intros Hm Hn Hd. unfold safestrcpy. rewrite (proj2 (Z.leb_gt n 0)) by lia.
  destruct (safestrcpy_loop_spec m s t (Z.to_nat (n - 1))) as (k & Hk & H0 & Hj & Ht & Hb);
    [done|lia|].
  exists k. split; [|split; [lia|split; [|split]]].
  - split; [lia|split; [done|]]. intros j Hj'. destruct (Hj j Hj') as [-> ?]. done.
  - intros j Hj'. by apply Hj.
  - intros Hk'. apply Ht. lia.
  - intros b Hb'. apply Hb. lia.
Qed.

(** strncmp() returns 0 exactly when the two strings agree up to a common
    NUL or on all of the first [n] bytes. *)
Theorem strncmp_zero_iff (m : gmap Z Z) (p q n : Z) :
  0 <= n →
  strncmp m p q n = 0 ↔
  (∃ k, 0 <= k < n ∧ rd m (p + k) = 0 ∧ ∀ j, 0 <= j <= k → rd m (p + j) = rd m (q + j))
  ∨ (∀ j, 0 <= j < n → rd m (p + j) = rd m (q + j) ∧ rd m (p + j) ≠ 0).
Proof. intros Hn. unfold strncmp. by rewrite strncmp_loop_eq, Z2Nat.id by lia. Qed.

(** Concrete memories for the witnesses. *)
Definition mem_of (a : Z) (l : list Z) : gmap Z Z :=
  list_to_map (zip (seqZ a (Z.of_nat (length l))) l).

Lemma mem_ok_list_to_map (l : list (Z * Z)) :
  Forall (λ kv, is_u8 kv.2) l → mem_ok (list_to_map l).
Proof.
  intros H a. unfold rd. destruct (list_to_map l !! a) as [v|] eqn:E; [|done].
  apply elem_of_list_to_map_2 in E. rewrite Forall_forall in H. exact (H _ E).
Qed.

Lemma memmove_any_overlap_witness :
  bytes (memmove (mem_of 100 [1; 2; 3; 4; 5]) 102 100 3) 102 3 = [1; 2; 3].
Proof.
  etrans; [apply (memmove_any_overlap (mem_of 100 [1; 2; 3; 4; 5]) 102 100 3)|].
  - apply mem_ok_list_to_map. repeat constructor; simpl; lia.
  - lia.
  - vm_compute. reflexivity.
Defined.

Lemma memset_word_path_witness : rd (memset (mem_of 96 [1; 2; 3; 4]) 96 7 4) 98 = 7.
Proof.
  etrans; [apply (memset_word_path (mem_of 96 [1; 2; 3; 4]) 96 7 4); lia|].
  vm_compute. reflexivity.
Defined.

Lemma safestrcpy_prefix_witness :
  ∃ k, cstr_len (safestrcpy (mem_of 100 [104; 105; 106; 0]) 200 100 3) 200 k ∧ k < 3.
Proof.
  destruct (safestrcpy_prefix (mem_of 100 [104; 105; 106; 0]) 200 100 3) as (k & H1 & H2 & _).
  - apply mem_ok_list_to_map. repeat constructor; simpl; lia.
  - lia.
  - lia.
  - exists k. split; [exact H1|exact H2].
Defined.

Lemma strncmp_zero_iff_witness : strncmp (mem_of 100 [97; 0; 97; 0]) 100 102 14 = 0.
Proof.
  apply (strncmp_zero_iff (mem_of 100 [97; 0; 97; 0]) 100 102 14); [lia|].
  left. exists 1. split; [lia|]. split; [vm_compute; reflexivity|].
  intros j Hj. assert (j = 0 ∨ j = 1) as [-> | ->] by lia; vm_compute; reflexivity.
Defined.
