(* ===== verification/Mmu.v ===== *)
(** * Mmu: mmu.h and memlayout.h

    Address arithmetic of the paging hardware and of the kernel's memory layout,
    on 32-bit addresses. *)

From S2P Require Import Prelude.
From stdpp Require Import options.

Definition PGSIZE : Z := 4096.
Definition NPDENTRIES : Z := 1024.
Definition NPTENTRIES : Z := 1024.
Definition PTXSHIFT : Z := 12.
Definition PDXSHIFT : Z := 22.

Definition PTE_P : Z := 1.
Definition PTE_W : Z := 2.
Definition PTE_U : Z := 4.
Definition PTE_PS : Z := 128.

Definition EXTMEM : Z := 1048576.
Definition PHYSTOP : Z := 234881024.
Definition DEVSPACE : Z := 4261412864.
Definition KERNBASE : Z := 2147483648.
Definition KERNLINK : Z := KERNBASE + EXTMEM.

Definition v2p (a : Z) : Z := u32 (a - KERNBASE).
Definition p2v (a : Z) : Z := u32 (a + KERNBASE).

Definition PDX (va : Z) : Z := Z.land (Z.shiftr va PDXSHIFT) 1023.
Definition PTX (va : Z) : Z := Z.land (Z.shiftr va PTXSHIFT) 1023.
Definition PGADDR (d t o : Z) : Z := Z.lor (Z.lor (Z.shiftl d PDXSHIFT) (Z.shiftl t PTXSHIFT)) o.
Definition PGROUNDUP (sz : Z) : Z := Z.land (u32 (sz + PGSIZE - 1)) (Z.lnot (PGSIZE - 1)).
Definition PGROUNDDOWN (a : Z) : Z := Z.land a (Z.lnot (PGSIZE - 1)).
Definition PTE_ADDR (pte : Z) : Z := Z.land pte (Z.lnot 4095).
Definition PTE_FLAGS (pte : Z) : Z := Z.land pte 4095.

(** ** Arithmetic readings of the bit operations *)

Lemma PGROUNDDOWN_eq a : PGROUNDDOWN a = a - a mod PGSIZE.
Proof. exact (land_lnot_ones a 12 ltac:(lia)). Qed.

Lemma PGROUNDUP_eq a :
  0 <= a → a + 4095 < 4294967296 → PGROUNDUP a = (a + 4095) - (a + 4095) mod PGSIZE.
Proof.
  intros H1 H2. unfold PGROUNDUP, PGSIZE. rewrite u32_small by (unfold is_u32; lia).
  replace (a + 4096 - 1) with (a + 4095) by lia. exact (land_lnot_ones (a + 4095) 12 ltac:(lia)).
Qed.

Lemma PTE_ADDR_eq p : PTE_ADDR p = p - p mod 4096.
Proof. exact (land_lnot_ones p 12 ltac:(lia)). Qed.

Lemma PTE_FLAGS_eq p : PTE_FLAGS p = p mod 4096.
Proof. exact (land_ones_mod p 12 ltac:(lia)). Qed.

Lemma PDX_eq va : PDX va = (va / 4194304) mod 1024.
Proof.
  unfold PDX, PDXSHIFT. rewrite Z.shiftr_div_pow2 by lia. exact (land_ones_mod _ 10 ltac:(lia)).
Qed.

Lemma PTX_eq va : PTX va = (va / 4096) mod 1024.
Proof.
  unfold PTX, PTXSHIFT. rewrite Z.shiftr_div_pow2 by lia. exact (land_ones_mod _ 10 ltac:(lia)).
Qed.

Ltac mmu :=
  unfold is_u32, is_u8, v2p, p2v, PGSIZE, KERNLINK, KERNBASE, PHYSTOP, NPDENTRIES, NPTENTRIES, PTE_P,
    PTE_W, PTE_U, EXTMEM, DEVSPACE, u32 in *;
  rewrite ?PGROUNDDOWN_eq, ?PTE_ADDR_eq, ?PTE_FLAGS_eq, ?PDX_eq, ?PTX_eq in *;
  unfold PGSIZE in *.

Lemma v2p_p2v a : 0 <= a < KERNBASE → v2p (p2v a) = a.
Proof. mmu. intros. rewrite (Z.mod_small (a + _)) by lia. rewrite Z.mod_small; lia. Qed.

Lemma p2v_v2p a : KERNBASE <= a < 4294967296 → p2v (v2p a) = a.
Proof. mmu. intros. rewrite (Z.mod_small (a - _)) by lia. rewrite Z.mod_small; lia. Qed.

(** A page table entry is an aligned address plus flags. *)
Lemma PTE_lor pa f : pa mod PGSIZE = 0 → 0 <= f < PGSIZE → Z.lor pa f = pa + f.
Proof. intros. by apply (lor_aligned _ _ 12). Qed.

Lemma PTE_ADDR_lor pa f : pa mod PGSIZE = 0 → 0 <= f < PGSIZE → PTE_ADDR (Z.lor pa f) = pa.
Proof.
  intros H1 H2. rewrite PTE_lor by done. rewrite PTE_ADDR_eq. unfold PGSIZE in *.
  rewrite Z.add_mod, H1, Z.add_0_l, !(Z.mod_small f) by lia. lia.
Qed.

Lemma PTE_FLAGS_lor pa f : pa mod PGSIZE = 0 → 0 <= f < PGSIZE → PTE_FLAGS (Z.lor pa f) = f.
Proof.
  intros H1 H2. rewrite PTE_lor by done. rewrite PTE_FLAGS_eq. unfold PGSIZE in *.
  by rewrite Z.add_mod, H1, Z.add_0_l, !(Z.mod_small f) by lia.
Qed.

Lemma PDX_range va : 0 <= PDX va < 1024.
Proof. rewrite PDX_eq. apply Z.mod_pos_bound. lia. Qed.
Lemma PTX_range va : 0 <= PTX va < 1024.
Proof. rewrite PTX_eq. apply Z.mod_pos_bound. lia. Qed.

(** Splitting an address into directory index, table index and offset and
    putting it together again with PGADDR is the identity. *)
Theorem PGADDR_split (va : Z) :
  is_u32 va → PGADDR (PDX va) (PTX va) (va mod PGSIZE) = va.
Proof.
  intros H. unfold PGADDR, PDXSHIFT, PTXSHIFT.
  pose proof (PDX_range va). pose proof (PTX_range va).
  rewrite !Z.shiftl_mul_pow2 by lia.
  change (2 ^ 22) with 4194304. change (2 ^ 12) with 4096.
  rewrite (lor_aligned (PDX va * 4194304) (PTX va * 4096) 22)
    by (try change (2 ^ 22) with 4194304; try apply Z.mod_mul; lia).
  rewrite (lor_aligned _ (va mod PGSIZE) 12); mmu.
  - rewrite Z.mod_small in * by (Z.div_mod_to_equations; lia). Z.div_mod_to_equations. lia.
  - lia.
  - change (2 ^ 12) with 4096. replace 4194304 with (1024 * 4096) by lia.
    rewrite Z.mul_assoc, <- Z.mul_add_distr_r. apply Z.mod_mul. lia.
  - change (2 ^ 12) with 4096. apply Z.mod_pos_bound. lia.
Qed.

Lemma PGADDR_split_witness : PGADDR (PDX 3735928559) (PTX 3735928559) (3735928559 mod PGSIZE) = 3735928559.
Proof. apply (PGADDR_split 3735928559). unfold is_u32. lia. Defined.
