(* ===== verification/Spinlock.v ===== *)
(** * Spinlock: spinlock.c on a multiprocessor

    The locks and the per-CPU interrupt state, at the grain of spinlock.c: the
    atomic exchange, the nesting count of pushcli(), the interrupt flag. acquire()
    and release() are trees of actions, read in two ways: [run] executes one of
    them on one CPU without interruption, [step] lets the actions of any number
    of CPUs interleave. Two results: the routines run by one CPU implement the
    locking interface of Machine.v, including that acquire() does not return
    while another CPU holds the lock; and in every interleaving at most one CPU
    has a given lock. *)

From S2P Require Import Prelude Machine CMem Mmu.
From stdpp Require Import functions.
#[local] Open Scope Z_scope.
From stdpp Require Import options.

Module Spin.

Definition FL_IF : Z := 512.

(** The part of struct cpu that spinlock.c uses, and the interrupt flag of
    %eflags. *)
Record cpu := mkcpu { ncli : Z; intena : Z; iflag : bool }.

(** struct spinlock. *)
Record spinlock := mklock { locked : Z; lk_name : string; lk_cpu : option nat; lk_pcs : list Z }.

Record smp := mksmp { m_cpus : list cpu; m_locks : gmap lockid spinlock }.

Definition unlocked : spinlock := mklock 0 "lock" None (replicate 10 0).
Definition lk (m : smp) (l : lockid) : spinlock := default unlocked (m_locks m !! l).
Definition get_cpu (c : nat) : M smp cpu := λ m, deref (m_cpus m !! c) m.
Definition upd_cpu (c : nat) (f : cpu → cpu) : M smp unit :=
  modify (λ m, mksmp (alter f c (m_cpus m)) (m_locks m)).
Definition upd_lock (l : lockid) (f : spinlock → spinlock) : M smp unit :=
  modify (λ m, mksmp (m_cpus m) (<[l := f (lk m l)]> (m_locks m))).

Definition set_locked (v : Z) (x : spinlock) : spinlock := mklock v (lk_name x) (lk_cpu x) (lk_pcs x).
Definition set_lk_cpu (v : option nat) (x : spinlock) : spinlock := mklock (locked x) (lk_name x) v (lk_pcs x).
Definition set_lk_pcs (v : list Z) (x : spinlock) : spinlock := mklock (locked x) (lk_name x) (lk_cpu x) v.

(** cli, sti, readeflags, xchg (x86.h). *)
Definition cli (c : nat) : M smp unit := upd_cpu c (λ x, mkcpu (ncli x) (intena x) false).
Definition sti (c : nat) : M smp unit := upd_cpu c (λ x, mkcpu (ncli x) (intena x) true).
Definition readeflags (c : nat) : M smp Z :=
  x ← get_cpu c; mret (if iflag x then FL_IF else 0).
Definition xchg (l : lockid) (v : Z) : M smp Z :=
  old ← gets (λ m, locked (lk m l)); upd_lock l (set_locked v) ;; mret old.

Definition initlock (l : lockid) (name : string) : M smp unit :=
  upd_lock l (λ x, mklock 0 name None (lk_pcs x)).

Definition pushcli (c : nat) : M smp unit :=
  eflags ← readeflags c;
  cli c ;;
  x ← get_cpu c;
  upd_cpu c (λ x, mkcpu (s32 (ncli x + 1)) (intena x) (iflag x)) ;;
  when (ncli x =? 0) (upd_cpu c (λ x, mkcpu (ncli x) (Z.land eflags FL_IF) (iflag x))).

Definition popcli (c : nat) : M smp unit :=
  eflags ← readeflags c;
  if has eflags FL_IF then panic "popcli - interruptible" else
  upd_cpu c (λ x, mkcpu (s32 (ncli x - 1)) (intena x) (iflag x)) ;;
  x ← get_cpu c;
  if ncli x <? 0 then panic "popcli" else
  when ((ncli x =? 0) && negb (intena x =? 0)) (sti c).

(** [lock->locked && lock->cpu == cpu]: two loads, the second only if the first
    is not zero. *)
Definition is_locked (l : lockid) : M smp bool := gets (λ m, negb (locked (lk m l) =? 0)).
Definition is_holder (c : nat) (l : lockid) : M smp bool :=
  gets (λ m, bool_decide (lk_cpu (lk m l) = Some c)).
Definition holding (c : nat) (l : lockid) : M smp bool :=
  a ← is_locked l; if (a : bool) then is_holder c l else mret false.

(** Code as a tree of actions, so that other CPUs can act between any two of
    them: an action, a test with two continuations, and [while(test);], which
    repeats the test until it is false. *)
Inductive prog :=
| Ret
| Act (a : M smp unit) (k : prog)
| Branch (b : M smp bool) (yes no : prog)
| While (b : M smp bool) (k : prog).

(** [if(holding(lk)) yes else no]. *)
Definition if_holding (c : nat) (l : lockid) (yes no : prog) : prog :=
  Branch (is_locked l) (Branch (is_holder c l) yes no) no.

(** acquire() and release() by CPU [c]; [pcs] is the call chain getcallerpcs()
    records. pushcli() and popcli() touch only the CPU's own flags and count, and
    are one action each. *)
Definition acquire_record (pcs : list Z) (c : nat) (l : lockid) : prog :=
  Act (upd_lock l (set_lk_cpu (Some c))) (Act (upd_lock l (set_lk_pcs pcs)) Ret).
Definition acquire_take (pcs : list Z) (c : nat) (l : lockid) : prog :=
  While (old ← xchg l 1; mret (negb (old =? 0))) (acquire_record pcs c l).
Definition acquire_prog (pcs : list Z) (c : nat) (l : lockid) : prog :=
  Act (pushcli c) (if_holding c l (Act (panic "acquire") Ret) (acquire_take pcs c l)).

Definition release_free (c : nat) (l : lockid) : prog :=
  Act (_ ← xchg l 0; mret tt) (Act (popcli c) Ret).
Definition release_clear (c : nat) (l : lockid) : prog :=
  Act (upd_lock l (λ x, set_lk_pcs (<[0%nat := 0]> (lk_pcs x)) x))
    (Act (upd_lock l (set_lk_cpu None)) (release_free c l)).
Definition release_prog (c : nat) (l : lockid) : prog :=
  if_holding c l (release_clear c l) (Act (panic "release") Ret).

(** Run by one CPU without interruption; [spins] bounds the rounds of a loop. *)
Fixpoint run (spins : nat) (p : prog) : M smp unit :=
  match p with
  | Ret => mret tt
  | Act a k => a ;; run spins k
  | Branch b yes no => v ← b; if (v : bool) then run spins yes else run spins no
  | While b k =>
    loop spins (λ _ : unit, v ← b; mret (if (v : bool) then inl tt else inr tt)) tt ;; run spins k
  end.
Definition acquire (spins : nat) (pcs : list Z) (c : nat) (l : lockid) : M smp unit :=
  run spins (acquire_prog pcs c l).
Definition release (c : nat) (l : lockid) : M smp unit := run 1 (release_prog c l).

(** One action of the code, with the code left to run. *)
Definition pstep (p : prog) (m : smp) : option (prog * smp) :=
  match p with
  | Ret => None
  | Act a k => match a m with Ok _ m' => Some (k, m') | _ => None end
  | Branch b yes no =>
    match b m with Ok v m' => Some (if (v : bool) then yes else no, m') | _ => None end
  | While b k =>
    match b m with Ok v m' => Some (if (v : bool) then While b k else k, m') | _ => None end
  end.

(** getcallerpcs: follow the saved-%ebp chain in memory. *)
Fixpoint getcallerpcs_loop (m : gmap Z Z) (ebp : Z) (n : nat) : list Z :=
  match n with
  | O => []
  | S n =>
    if (ebp =? 0) || (ebp <? KERNBASE) || (ebp =? 4294967295) then replicate (S n) 0
    else read32 m (ebp + 4) :: getcallerpcs_loop m (read32 m ebp) n
  end.
Definition getcallerpcs (m : gmap Z Z) (v : Z) : list Z := getcallerpcs_loop m (v - 8) 10.

Lemma getcallerpcs_length m v : length (getcallerpcs m v) = 10%nat.
Proof.
  unfold getcallerpcs. generalize (v - 8). generalize 10%nat. induction n as [|n IH]; intros e; [done|].
  simpl. destruct (_ || _); simpl; [by rewrite length_replicate|by rewrite IH].
Qed.

(** ** One CPU: the routines implement the interface

    [repr c m H]: on machine [m], CPU [c] holds exactly the locks [H]. *)
Definition repr (c : nat) (m : smp) (H : gset lockid) : Prop :=
  (∃ x, m_cpus m !! c = Some x ∧ ncli x = Z.of_nat (size H) ∧ (H ≠ ∅ → iflag x = false)) ∧
  (∀ l, l ∈ H ↔ locked (lk m l) ≠ 0 ∧ lk_cpu (lk m l) = Some c).

Lemma lk_insert m l x l' cs :
  lk (mksmp cs (<[l := x]> (m_locks m))) l' = if decide (l = l') then x else lk m l'.
Proof. unfold lk. simpl. rewrite lookup_insert. by case_decide. Qed.

Lemma lk_cpus cs m l : lk (mksmp cs (m_locks m)) l = lk m l.
Proof. done. Qed.

Lemma wp_get_cpu c m x (Q : cpu → smp → Prop) :
  m_cpus m !! c = Some x → Q x m → wp (get_cpu c) Q m.
Proof. intros Hx HQ. unfold wp, get_cpu. by rewrite Hx. Qed.

Definition set_cpu (c : nat) (x : cpu) (m : smp) : smp := mksmp (<[c := x]> (m_cpus m)) (m_locks m).

Lemma upd_cpu_eq c f m x : m_cpus m !! c = Some x → upd_cpu c f m = Ok tt (set_cpu c (f x) m).
Proof.
  intros Hx. unfold upd_cpu, modify, set_cpu. do 2 f_equal.
  apply list_eq. intros j. rewrite list_lookup_alter_case. case_decide as E.
  - subst. rewrite Hx, list_lookup_insert_eq by (by eapply lookup_lt_Some). done.
  - by rewrite list_lookup_insert_ne.
Qed.

Lemma set_cpu_lookup c x y m : m_cpus m !! c = Some y → m_cpus (set_cpu c x m) !! c = Some x.
Proof. intros H. apply list_lookup_insert_eq. by eapply lookup_lt_Some. Qed.

Lemma set_cpu_twice c x y m : set_cpu c x (set_cpu c y m) = set_cpu c x m.
Proof. unfold set_cpu. simpl. by rewrite list_insert_insert_eq. Qed.

Lemma pushcli_eq c m x :
  m_cpus m !! c = Some x →
  pushcli c m = Ok tt (set_cpu c
    (mkcpu (s32 (ncli x + 1))
       (if ncli x =? 0 then (if iflag x then FL_IF else 0) else intena x) false) m).
Proof.
  intros Hx. unfold pushcli, readeflags.
  rewrite (bind_Ok _ _ m (if iflag x then FL_IF else 0) m)
    by (unfold get_cpu, mbind, M_bind; by rewrite Hx).
  unfold cli. rewrite (bind_Ok _ _ _ _ _ (upd_cpu_eq _ _ _ _ Hx)). simpl.
  set (m1 := set_cpu c _ m).
  assert (m_cpus m1 !! c = Some (mkcpu (ncli x) (intena x) false)) as H1
    by (by eapply set_cpu_lookup).
  rewrite (bind_Ok _ _ m1 (mkcpu (ncli x) (intena x) false) m1)
    by (unfold get_cpu; by rewrite H1).
  rewrite (bind_Ok _ _ _ _ _ (upd_cpu_eq _ _ _ _ H1)). simpl.
  unfold m1. rewrite set_cpu_twice. destruct (ncli x =? 0) eqn:E; simpl; [|done].
  erewrite upd_cpu_eq by (by eapply set_cpu_lookup). rewrite set_cpu_twice. simpl.
  by destruct (iflag x).
Qed.

Lemma popcli_eq c m x :
  m_cpus m !! c = Some x → iflag x = false → 0 < ncli x < 2147483648 →
  popcli c m = Ok tt (set_cpu c
    (mkcpu (ncli x - 1) (intena x) ((ncli x =? 1) && negb (intena x =? 0))) m).
Proof.
  intros Hx Hif Hn. unfold popcli, readeflags.
  rewrite (bind_Ok _ _ m 0 m)
    by (unfold get_cpu, mbind, M_bind; rewrite Hx; simpl; by rewrite Hif).
  simpl. rewrite (bind_Ok _ _ _ _ _ (upd_cpu_eq _ _ _ _ Hx)).
  rewrite s32_small, Hif by lia. set (m1 := set_cpu c _ m).
  assert (m_cpus m1 !! c = Some (mkcpu (ncli x - 1) (intena x) false)) as H1
    by (by eapply set_cpu_lookup).
  rewrite (bind_Ok _ _ m1 (mkcpu (ncli x - 1) (intena x) false) m1)
    by (unfold get_cpu; by rewrite H1).
  simpl. rewrite (proj2 (Z.ltb_ge _ _)) by lia.
  replace (ncli x - 1 =? 0) with (ncli x =? 1) by lia.
  destruct (_ && _); simpl; [|done].
  unfold sti. erewrite upd_cpu_eq by done. unfold m1. by rewrite set_cpu_twice.
Qed.

(** Effects on the lock table, one lock at a time. *)
Definition put_lock (l : lockid) (x : spinlock) (m : smp) : smp :=
  mksmp (m_cpus m) (<[l := x]> (m_locks m)).

Lemma lk_put l x m l' : lk (put_lock l x m) l' = if decide (l = l') then x else lk m l'.
Proof. apply lk_insert. Qed.

Lemma lk_set_cpu c x m l : lk (set_cpu c x m) l = lk m l.
Proof. done. Qed.

Lemma xchg_eq l v m : xchg l v m = Ok (locked (lk m l)) (put_lock l (set_locked v (lk m l)) m).
Proof. done. Qed.

Lemma record_eq n pcs c l m :
  run n (acquire_record pcs c l) m =
    Ok tt (put_lock l (mklock (locked (lk m l)) (lk_name (lk m l)) (Some c) pcs) m).
Proof.
  cbn [run acquire_record]. unfold upd_lock, modify, mbind, M_bind. simpl. unfold put_lock. simpl.
  rewrite lk_insert, decide_True, insert_insert_eq by done. done.
Qed.

Lemma clear_eq n c l m :
  run n (release_clear c l) m =
    run n (release_free c l) (put_lock l (mklock (locked (lk m l)) (lk_name (lk m l)) None
      (<[0%nat := 0]> (lk_pcs (lk m l)))) m).
Proof.
  cbn [run release_clear]. unfold upd_lock, modify. unfold mbind at 1 2, M_bind at 1 2. simpl. unfold put_lock.
  do 2 f_equal. simpl. rewrite lk_insert, decide_True, insert_insert_eq by done. done.
Qed.

Lemma holding_eq c l m :
  holding c l m = Ok (negb (locked (lk m l) =? 0) && bool_decide (lk_cpu (lk m l) = Some c)) m.
Proof. unfold holding, is_locked, is_holder, gets, mbind, M_bind. by destruct (locked (lk m l) =? 0). Qed.

Lemma run_if_holding n c l yes no m :
  run n (if_holding c l yes no) m = (h ← holding c l; if (h : bool) then run n yes else run n no) m.
Proof.
  cbn [run if_holding]. unfold holding, is_locked, is_holder, gets, mbind, M_bind.
  by destruct (locked (lk m l) =? 0).
Qed.

Lemma holding_repr c m H l : repr c m H → holding c l m = Ok (bool_decide (l ∈ H)) m.
Proof.
  intros [_ HR]. rewrite holding_eq. f_equal. specialize (HR l).
  destruct (Z.eqb_spec (locked (lk m l)) 0); simpl.
  - symmetry. apply bool_decide_eq_false_2. naive_solver.
  - apply bool_decide_ext. naive_solver.
Qed.

Lemma repr_pushcli c m H x :
  repr c m H → m_cpus m !! c = Some x → Z.of_nat (size H) < 2147483647 →
  pushcli c m = Ok tt (set_cpu c
    (mkcpu (Z.of_nat (size H) + 1)
       (if decide (H = ∅) then (if iflag x then FL_IF else 0) else intena x) false) m).
Proof.
  intros [(y & Hy & Hn & Hi) HR] Hx Hs. rewrite Hx in Hy. injection Hy as <-.
  rewrite (pushcli_eq _ _ x), Hn, s32_small by (done || lia). do 3 f_equal.
  destruct (decide (H = ∅)) as [->|Hne]; [done|].
  rewrite (proj2 (Z.eqb_neq _ _)); [done|]. intros E.
  apply Hne, leibniz_equiv, size_empty_inv. lia.
Qed.

(** A CPU that holds [H] and takes the free lock [l] holds [l] and [H]. *)
Lemma acquire_repr c m H l spins pcs :
  repr c m H → l ∉ H → locked (lk m l) = 0 → (0 < spins)%nat →
  Z.of_nat (size H) < 2147483647 →
  ∃ m', acquire spins pcs c l m = Ok tt m' ∧ repr c m' ({[ l ]} ∪ H).
Proof.
  intros HR Hl Hfree Hsp Hs. destruct spins as [|n]; [lia|].
  pose proof HR as [(x & Hx & Hn & Hi) Hlk].
  pose proof (repr_pushcli _ _ _ _ HR Hx Hs) as Hp.
  match type of Hp with _ = Ok _ ?y => set (m1 := y) in Hp end.
  unfold acquire, acquire_prog. cbn [run]. rewrite (bind_Ok _ _ _ _ _ Hp), run_if_holding.
  rewrite (bind_Ok _ _ m1 false m1) by (unfold m1; by rewrite holding_eq, lk_set_cpu, Hfree).
  unfold acquire_take. cbn [run]. rewrite (bind_Ok _ _ m1 tt (put_lock l (set_locked 1 (lk m1 l)) m1)).
  2: { cbn [loop]. rewrite (bind_Ok _ _ m1 (inr tt) (put_lock l (set_locked 1 (lk m1 l)) m1)); [done|].
       rewrite (bind_Ok _ _ m1 false (put_lock l (set_locked 1 (lk m1 l)) m1)); [done|].
       rewrite (bind_Ok _ _ _ _ _ (xchg_eq _ _ _)). unfold m1. by rewrite lk_set_cpu, Hfree. }
  rewrite record_eq. eexists. split; [done|]. split.
  - eexists. split; [by eapply set_cpu_lookup|]. simpl. split; [|done].
    rewrite size_union, size_singleton by set_solver. lia.
  - intros l'. rewrite !lk_put. rewrite (decide_True (P := l = l)) by done.
    destruct (decide (l = l')) as [<-|E]; simpl; [set_solver|].
    unfold m1. rewrite lk_set_cpu, <- Hlk. set_solver.
Qed.

(** While the lock word is not zero the exchange loop goes round. *)
Lemma take_busy n pcs c l m : locked (lk m l) ≠ 0 → run n (acquire_take pcs c l) m = Hang.
Proof.
  intros Hl. unfold acquire_take. cbn [run]. unfold mbind at 1, M_bind at 1.
  assert (∀ f : M smp bool, f = (old ← xchg l 1; mret (negb (old =? 0))) →
    loop n (λ _ : unit, v ← f; mret (if (v : bool) then inl tt else inr tt)) tt m = (Hang : res smp unit)) as H;
    [|by rewrite H].
  intros f ->. revert m Hl. induction n as [|n IH]; intros m Hl; [done|]. cbn [loop].
  rewrite (bind_Ok _ _ m (inl tt) (put_lock l (set_locked 1 (lk m l)) m)).
  - apply IH. by rewrite lk_put, decide_True.
  - rewrite (bind_Ok _ _ m true (put_lock l (set_locked 1 (lk m l)) m)); [done|].
    rewrite (bind_Ok _ _ _ _ _ (xchg_eq _ _ _)). by rewrite (proj2 (Z.eqb_neq _ _)).
Qed.

Lemma acquire_busy c m H l spins pcs :
  repr c m H → l ∉ H → locked (lk m l) ≠ 0 → Z.of_nat (size H) < 2147483647 →
  acquire spins pcs c l m = Hang.
Proof.
  intros HR Hl Hbusy Hs. pose proof HR as [(x & Hx & _) _].
  unfold acquire, acquire_prog. cbn [run].
  rewrite (bind_Ok _ _ _ _ _ (repr_pushcli _ _ _ _ HR Hx Hs)), run_if_holding.
  pose proof (holding_repr _ _ _ l HR) as Hh. rewrite holding_eq, (bool_decide_eq_false_2 _ Hl) in Hh.
  injection Hh as Hh. erewrite (bind_Ok _ _ _ false) by (by rewrite holding_eq, lk_set_cpu, Hh).
  by apply take_busy.
Qed.

(** A CPU that holds [l] gives it up; with its last lock it gets back the
    interrupt flag it had saved. *)
Lemma release_repr c m H l x :
  repr c m H → l ∈ H → m_cpus m !! c = Some x → Z.of_nat (size H) < 2147483647 →
  ∃ m' x', release c l m = Ok tt m' ∧ repr c m' (H ∖ {[ l ]}) ∧ m_cpus m' !! c = Some x' ∧
    locked (lk m' l) = 0 ∧
    iflag x' = bool_decide (H = {[ l ]}) && negb (intena x =? 0).
Proof.
  intros HR Hl Hx Hs. pose proof HR as [(y & Hy & Hn & Hi) Hlk].
  rewrite Hx in Hy. injection Hy as <-.
  assert (size H = S (size (H ∖ {[ l ]}))) as Hsz.
  { rewrite (union_difference_L {[ l ]} H) at 1 by set_solver.
    by rewrite size_union, size_singleton by set_solver. }
  assert (iflag x = false) as Hif by (apply Hi; set_solver).
  unfold release, release_prog. rewrite run_if_holding, (bind_Ok _ _ _ _ _ (holding_repr _ _ _ l HR)).
  rewrite bool_decide_eq_true_2, clear_eq by done. unfold release_free. cbn [run].
  rewrite (bind_Ok _ _ _ tt _ (bind_Ok _ _ _ _ _ (xchg_eq _ _ _))).
  match goal with |- context [(popcli c ≫= _) ?m2] =>
    rewrite (bind_Ok _ _ _ _ _ (popcli_eq c m2 x Hx Hif ltac:(lia))) end.
  eexists _, _. split; [done|]. split; [|split; [by eapply set_cpu_lookup|split]].
  - split.
    + eexists. split; [by eapply set_cpu_lookup|]. simpl. split; [lia|].
      intros Hne. rewrite (proj2 (Z.eqb_neq (ncli x) 1)); [done|].
      intros E. apply Hne, leibniz_equiv, size_empty_inv. lia.
    + intros l'. rewrite lk_set_cpu, !lk_put. rewrite (decide_True (P := l = l)) by done.
      destruct (decide (l = l')) as [<-|E]; simpl; [set_solver|].
      rewrite elem_of_difference, <- Hlk. set_solver.
  - rewrite lk_set_cpu, lk_put, decide_True by done. done.
  - simpl. f_equal. rewrite Hn, Hsz. destruct (decide (size (H ∖ {[ l ]}) = 0%nat)) as [E|E].
    + rewrite E. symmetry. apply bool_decide_eq_true_2.
      apply size_empty_inv, leibniz_equiv in E.
      by rewrite (union_difference_L {[ l ]} H), E, union_empty_r_L by set_solver.
    + rewrite bool_decide_eq_false_2; [apply Z.eqb_neq; lia|]. intros ->. apply E.
      by rewrite difference_diag_L, size_empty.
Qed.

(** ** Several CPUs

    Every CPU is outside spinlock.c or in the middle of a call, with the code
    left to run. [w_has c] are the locks for which acquire() has returned to CPU
    [c] and which it has not yet passed to release(). A CPU outside may call
    acquire() or release() on any lock, whether it holds it or not; the CPUs
    take turns, one action at a time, in any order. *)
Inductive call := Acquiring (l : lockid) | Releasing (l : lockid).
Definition call_lock (k : call) : lockid := match k with Acquiring l | Releasing l => l end.

Record world := mkworld {
  w_smp : smp;
  w_run : nat → option (call * prog);
  w_has : nat → gset lockid
}.

Inductive step : world → world → Prop :=
| step_acquire c l pcs w :
    w_run w c = None →
    step w (mkworld (w_smp w) (<[c := Some (Acquiring l, acquire_prog pcs c l)]> (w_run w)) (w_has w))
| step_release c l w :
    w_run w c = None →
    step w (mkworld (w_smp w) (<[c := Some (Releasing l, release_prog c l)]> (w_run w))
      (<[c := w_has w c ∖ {[ l ]}]> (w_has w)))
| step_action c k p w p' m :
    w_run w c = Some (k, p) → pstep p (w_smp w) = Some (p', m) →
    step w (mkworld m (<[c := Some (k, p')]> (w_run w)) (w_has w))
| step_acquired c l w :
    w_run w c = Some (Acquiring l, Ret) →
    step w (mkworld (w_smp w) (<[c := None]> (w_run w)) (<[c := {[ l ]} ∪ w_has w c]> (w_has w)))
| step_released c l w :
    w_run w c = Some (Releasing l, Ret) →
    step w (mkworld (w_smp w) (<[c := None]> (w_run w)) (w_has w)).

(** All locks free, nobody inside. *)
Definition initial (w : world) : Prop :=
  (∀ l, locked (lk (w_smp w) l) = 0 ∧ lk_cpu (lk (w_smp w) l) = None) ∧
  (∀ c, w_run w c = None ∧ w_has w c = ∅).

(** The sequential routines are runs of these actions. *)
Lemma run_steps n p m m' :
  run n p m = Ok tt m' → rtc (λ x y, pstep x.1 x.2 = Some y) (p, m) (Ret, m').
Proof.
  revert m. induction p as [|a k IH|b yes IHy no IHn|b k IH]; intros m H; cbn [run] in H.
  - injection H as <-. apply rtc_refl.
  - apply bind_Ok_inv in H as ([] & m1 & E & H). eapply rtc_l; [|by apply IH]. simpl. by rewrite E.
  - apply bind_Ok_inv in H as (v & m1 & E & H).
    eapply rtc_l; [simpl; by rewrite E|]. destruct v; [by apply IHy|by apply IHn].
  - apply bind_Ok_inv in H as ([] & m1 & E & H). transitivity (k, m1); [|by apply IH].
    clear H IH. revert m E. induction n as [|n IHl]; intros m E; [done|]. cbn [loop] in E.
    apply bind_Ok_inv in E as (r & m2 & E1 & E). apply bind_Ok_inv in E1 as (v & m3 & Eb & E1).
    injection E1 as <- <-. eapply rtc_l; [simpl; by rewrite Eb|].
    destruct v; [by apply IHl|]. injection E as <-. apply rtc_refl.
Qed.

(** Who owns a lock is decided by the exchanges. [code_ok O m c k p]: [p] is a
    place CPU [c] can be at in the call [k], with what is known there: past the
    exchange of acquire() it owns the lock, and up to that of release(). *)
Inductive code_ok (O : lockid → option nat) (m : smp) (c : nat) : call → prog → Prop :=
| at_acquire pcs l : code_ok O m c (Acquiring l) (acquire_prog pcs c l)
| at_acquire_check pcs l :
    code_ok O m c (Acquiring l) (if_holding c l (Act (panic "acquire") Ret) (acquire_take pcs c l))
| at_acquire_holder pcs l :
    code_ok O m c (Acquiring l)
      (Branch (is_holder c l) (Act (panic "acquire") Ret) (acquire_take pcs c l))
| at_acquire_panic l : code_ok O m c (Acquiring l) (Act (panic "acquire") Ret)
| at_acquire_take pcs l : code_ok O m c (Acquiring l) (acquire_take pcs c l)
| at_acquire_record pcs l : O l = Some c → code_ok O m c (Acquiring l) (acquire_record pcs c l)
| at_acquire_pcs pcs l :
    O l = Some c → lk_cpu (lk m l) = Some c →
    code_ok O m c (Acquiring l) (Act (upd_lock l (set_lk_pcs pcs)) Ret)
| at_acquired l : O l = Some c → lk_cpu (lk m l) = Some c → code_ok O m c (Acquiring l) Ret
| at_release l : code_ok O m c (Releasing l) (release_prog c l)
| at_release_holder l :
    code_ok O m c (Releasing l) (Branch (is_holder c l) (release_clear c l) (Act (panic "release") Ret))
| at_release_panic l : code_ok O m c (Releasing l) (Act (panic "release") Ret)
| at_release_clear l : O l = Some c → code_ok O m c (Releasing l) (release_clear c l)
| at_release_cpu l :
    O l = Some c → code_ok O m c (Releasing l) (Act (upd_lock l (set_lk_cpu None)) (release_free c l))
| at_release_free l :
    O l = Some c → lk_cpu (lk m l) ≠ Some c → code_ok O m c (Releasing l) (release_free c l)
| at_release_popcli l : lk_cpu (lk m l) ≠ Some c → code_ok O m c (Releasing l) (Act (popcli c) Ret)
| at_released l : lk_cpu (lk m l) ≠ Some c → code_ok O m c (Releasing l) Ret.

Record inv_with (O : lockid → option nat) (w : world) : Prop := {
  inv_locked l : locked (lk (w_smp w) l) = 0 ↔ O l = None;
  inv_cpu l c : lk_cpu (lk (w_smp w) l) = Some c → O l = Some c;
  inv_has l c : l ∈ w_has w c → O l = Some c ∧ lk_cpu (lk (w_smp w) l) = Some c;
  inv_code c k p : w_run w c = Some (k, p) → code_ok O (w_smp w) c k p;
  inv_gone c l p : w_run w c = Some (Releasing l, p) → l ∉ w_has w c;
  inv_record c l : lk_cpu (lk (w_smp w) l) = Some c →
    l ∈ w_has w c ∨ ∃ k p, w_run w c = Some (k, p) ∧ call_lock k = l
}.
Definition inv (w : world) : Prop := ∃ O, inv_with O w.

(** What the other CPUs know of their locks is not touched. *)
Definition keeps (c : nat) (O : lockid → option nat) (m : smp) (O' : lockid → option nat) (m' : smp) : Prop :=
  ∀ l, (O l = Some c ↔ O' l = Some c) ∧ (lk_cpu (lk m l) = Some c ↔ lk_cpu (lk m' l) = Some c).

Lemma code_ok_keeps c O m O' m' k p : keeps c O m O' m' → code_ok O m c k p → code_ok O' m' c k p.
Proof. intros K []; constructor; match goal with l : lockid |- _ => destruct (K l); tauto end. Qed.

(** ** One action keeps the invariant *)

(** What an action of CPU [c] in the call [k] must leave behind. *)
Definition acts_well (O : lockid → option nat) (m : smp) (c : nat) (k : call) (p' : prog) (m' : smp) : Prop :=
  ∃ O', (∀ l, locked (lk m' l) = 0 ↔ O' l = None) ∧
    (∀ l c', lk_cpu (lk m' l) = Some c' → O' l = Some c') ∧
    code_ok O' m' c k p' ∧
    (∀ c', c' ≠ c → keeps c' O m O' m') ∧
    (∀ l, l ≠ call_lock k → O' l = O l ∧ lk_cpu (lk m' l) = lk_cpu (lk m l)) ∧
    (∀ l, k = Acquiring l → O l = Some c → lk_cpu (lk m l) = Some c →
       O' l = Some c ∧ lk_cpu (lk m' l) = Some c).

Section Action.
Context (O : lockid → option nat) (m : smp) (c : nat) (l : lockid).
Context (Hlocked : ∀ l, locked (lk m l) = 0 ↔ O l = None).
Context (Hcpu : ∀ l c, lk_cpu (lk m l) = Some c → O l = Some c).

(** Actions that leave lk->locked and lk->cpu of every lock alone. *)
Lemma quiet_ok k p' m' :
  (∀ l, (locked (lk m' l) = 0 ↔ locked (lk m l) = 0) ∧ lk_cpu (lk m' l) = lk_cpu (lk m l)) →
  code_ok O m c k p' → acts_well O m c k p' m'.
Proof using Hcpu Hlocked.
  intros Hs Hp. exists O. split_and!.
  - intros l'. by rewrite (proj1 (Hs l')).
  - intros l' c'. rewrite (proj2 (Hs l')). apply Hcpu.
  - apply (code_ok_keeps _ O m); [|done]. intros l'. by rewrite (proj2 (Hs l')).
  - intros c' _ l'. by rewrite (proj2 (Hs l')).
  - intros l' _. split; [done|apply Hs].
  - intros l' _ ?. by rewrite (proj2 (Hs l')).
Qed.

(** The exchange of acquire(): the lock stays with its owner, or is taken. *)
Lemma take_ok pcs p' m' :
  pstep (acquire_take pcs c l) m = Some (p', m') → acts_well O m c (Acquiring l) p' m'.
Proof using Hcpu Hlocked.
  unfold acquire_take. cbn [pstep]. rewrite (bind_Ok _ _ _ _ _ (xchg_eq l 1 m)). cbn.
  destruct (Z.eqb_spec (locked (lk m l)) 0) as [E|E]; intros H; injection H as <- <-; cbn.
  - pose proof (proj1 (Hlocked l) E) as HO. exists (λ l', if decide (l = l') then Some c else O l').
    split_and!.
    + intros l'. rewrite lk_put. case_decide; [subst|apply Hlocked]. by cbn.
    + intros l' c'. rewrite lk_put. case_decide; [subst; cbn; intros ?%Hcpu; congruence|apply Hcpu].
    + apply at_acquire_record. by rewrite decide_True.
    + intros c' Hne l'. rewrite lk_put. case_decide; [subst; cbn|done]. split; [|done]. rewrite HO. naive_solver.
    + intros l' Hne. cbn in Hne. by rewrite lk_put, !decide_False by congruence.
    + intros l' [= <-]. congruence.
  - apply quiet_ok; [|apply at_acquire_take]. intros l'. rewrite lk_put. case_decide; [subst; cbn|done]. split; [done|done].
Qed.

(** [lk->cpu = cpu] and [lk->cpu = 0] by the owner. *)
Lemma set_cpu_ok k v p' :
  O l = Some c → call_lock k = l → v = Some c ∨ v = None ∧ k = Releasing l →
  (lk_cpu (lk (put_lock l (set_lk_cpu v (lk m l)) m) l) = v →
    code_ok O (put_lock l (set_lk_cpu v (lk m l)) m) c k p') →
  acts_well O m c k p' (put_lock l (set_lk_cpu v (lk m l)) m).
Proof using Hcpu Hlocked.
  intros HO Hk Hv Hp. exists O. split_and!.
  - intros l'. rewrite lk_put. case_decide; [subst|]; apply Hlocked.
  - intros l' c'. rewrite lk_put. case_decide; [subst; cbn|apply Hcpu]. naive_solver.
  - apply Hp. by rewrite lk_put, decide_True.
  - intros c' Hne l'. rewrite lk_put. case_decide as E; [|done]. subst l'. split; [done|]. cbn.
    split; [intros ?%Hcpu; congruence|]. naive_solver.
  - intros l' Hne. rewrite lk_put, decide_False by congruence. done.
  - intros l' -> _ _. cbn in Hk. subst l'. split; [done|]. rewrite lk_put, decide_True by done. cbn.
    destruct Hv as [?|[_ ?]]; [done|done].
Qed.

(** The exchange of release(). *)
Lemma free_ok p' m' :
  O l = Some c → lk_cpu (lk m l) ≠ Some c →
  pstep (release_free c l) m = Some (p', m') → acts_well O m c (Releasing l) p' m'.
Proof using Hcpu Hlocked.
  intros HO Hn. unfold release_free. cbn [pstep]. rewrite (bind_Ok _ _ _ _ _ (xchg_eq l 0 m)). cbn.
  intros H. injection H as <- <-. assert (lk_cpu (lk m l) = None) as HN.
  { destruct (lk_cpu (lk m l)) as [c'|] eqn:E; [|done]. apply Hcpu in E. congruence. }
  exists (λ l', if decide (l = l') then None else O l'). split_and!.
  - intros l'. rewrite lk_put. case_decide; [subst|apply Hlocked]. by cbn.
  - intros l' c'. rewrite lk_put. case_decide; [subst; cbn; congruence|apply Hcpu].
  - apply at_release_popcli. rewrite lk_put, decide_True by done. done.
  - intros c' Hne l'. rewrite lk_put. case_decide; [subst; cbn|done]. split; [|done]. rewrite HO. naive_solver.
  - intros l' Hne. cbn in Hne. by rewrite lk_put, !decide_False by congruence.
  - done.
Qed.

End Action.

Lemma pushcli_locks c m m' : pushcli c m = Ok tt m' → ∀ l, lk m' l = lk m l.
Proof.
  intros H l. destruct (m_cpus m !! c) as [x|] eqn:Hx.
  - rewrite (pushcli_eq _ _ _ Hx) in H. by injection H as <-.
  - exfalso. revert H. unfold pushcli, readeflags, get_cpu, mbind, M_bind. by rewrite Hx.
Qed.

Lemma popcli_locks c m m' : popcli c m = Ok tt m' → ∀ l, lk m' l = lk m l.
Proof.
  intros H l. unfold popcli in H.
  apply bind_Ok_inv in H as (e & m1 & He & H).
  apply bind_Ok_inv in He as (x & m2 & Hx & He). injection He as <- <-.
  unfold get_cpu in Hx. destruct (m_cpus m !! c); [|done]. injection Hx as -> ->.
  destruct (has _ _); [done|].
  apply bind_Ok_inv in H as ([] & m3 & H1 & H). injection H1 as <-.
  apply bind_Ok_inv in H as (y & m4 & H2 & H). unfold get_cpu in H2.
  destruct (_ !! c); [|done]. injection H2 as -> <-.
  destruct (ncli y <? 0); [done|]. unfold when in H. destruct (_ && _); by injection H as <-.
Qed.

Lemma code_step O m c k p p' m' :
  (∀ l, locked (lk m l) = 0 ↔ O l = None) → (∀ l c, lk_cpu (lk m l) = Some c → O l = Some c) →
  code_ok O m c k p → pstep p m = Some (p', m') → acts_well O m c k p' m'.
Proof.
  intros HL HC Hp Hs. destruct Hp as [pcs l|pcs l|pcs l|l|pcs l|pcs l HO|pcs l HO Hc|l HO Hc
    |l|l|l|l HO|l HO|l HO Hc|l Hc|l Hc]; try done.
  - unfold acquire_prog in Hs. cbn [pstep] in Hs. destruct (pushcli c m) as [[] m1| | |] eqn:E; simplify_eq.
    apply quiet_ok; [done..| |apply at_acquire_check]. intros l'. by rewrite (pushcli_locks _ _ _ E).
  - cbn in Hs. apply quiet_ok; [done..|intros l'; by simplify_eq|].
    injection Hs as <- <-. destruct (negb _); [apply at_acquire_holder|apply at_acquire_take].
  - cbn in Hs. apply quiet_ok; [done..|intros l'; by simplify_eq|].
    injection Hs as <- <-. case_bool_decide; [apply at_acquire_panic|apply at_acquire_take].
  - by eapply take_ok.
  - cbn in Hs. injection Hs as <- <-. apply set_cpu_ok; [done..|by left|]. intros Hcpu. by apply at_acquire_pcs.
  - cbn in Hs. injection Hs as <- <-. apply quiet_ok; [done..| |by apply at_acquired].
    intros l'. rewrite lk_insert. case_decide; by subst.
  - cbn in Hs. apply quiet_ok; [done..|intros l'; by simplify_eq|].
    injection Hs as <- <-. destruct (negb _); [apply at_release_holder|apply at_release_panic].
  - cbn in Hs. apply quiet_ok; [done..|intros l'; by simplify_eq|].
    injection Hs as <- <-. case_bool_decide; [by apply at_release_clear, HC|apply at_release_panic].
  - cbn in Hs. injection Hs as <- <-. apply quiet_ok; [done..| |by apply at_release_cpu].
    intros l'. rewrite lk_insert. case_decide; by subst.
  - cbn in Hs. injection Hs as <- <-. apply set_cpu_ok; [done..|by right|]. intros Hcpu.
    apply at_release_free; [done|by rewrite Hcpu].
  - by eapply free_ok.
  - cbn [pstep] in Hs. destruct (popcli c m) as [[] m1| | |] eqn:E; simplify_eq.
    apply quiet_ok; [done..| |by apply at_released]. intros l'. by rewrite (popcli_locks _ _ _ E).
Qed.

Lemma ins_case {B} (f : nat → B) c v c' :
  (<[c := v]> f) c' = if decide (c = c') then v else f c'.
Proof.
  destruct (decide (c = c')) as [->|]; [by rewrite fn_lookup_insert|by rewrite fn_lookup_insert_ne].
Qed.

Lemma inv_initial w : initial w → inv w.
Proof.
  intros [HL HC]. exists (λ _, None). split.
  - intros l. destruct (HL l) as [-> _]. done.
  - intros l c. destruct (HL l) as [_ ->]. done.
  - intros l c. destruct (HC c) as [_ ->]. by intros ?%not_elem_of_empty.
  - intros c k p. destruct (HC c) as [-> _]. done.
  - intros c l p. destruct (HC c) as [-> _]. done.
  - intros c l. destruct (HL l) as [_ ->]. done.
Qed.

(** A call starts: its code is at the beginning, and a lock given to release()
    is no longer counted among those the CPU has. *)
Lemma inv_call O w c k p H has :
  (∀ c', has c' = if decide (c = c') then H else w_has w c') →
  inv_with O w → w_run w c = None → code_ok O (w_smp w) c k p →
  H ⊆ w_has w c → (∀ l, l ∈ w_has w c → l ∈ H ∨ call_lock k = l) → (∀ l, k = Releasing l → l ∉ H) →
  inv_with O (mkworld (w_smp w) (<[c := Some (k, p)]> (w_run w)) has).
Proof.
  intros Hhas I Hc Hp Hsub Hout Hgone. split; cbn.
  - apply I.
  - apply I.
  - intros l c'. rewrite Hhas. case_decide; [subst; intros ?%Hsub|]; by apply I.
  - intros c' k' p'. rewrite ins_case. case_decide; [intros [= <- <-]; by subst|apply I].
  - intros c' l p'. rewrite ins_case, Hhas. case_decide; [intros [= -> <-]; by apply Hgone|apply I].
  - intros c' l Hl. rewrite ins_case, Hhas. destruct (inv_record _ _ I c' l Hl) as [Hin|(k' & p' & Hr & <-)].
    + case_decide; [subst|by left]. destruct (Hout l Hin) as [?|?]; [by left|right; eauto].
    + case_decide; [congruence|right; eauto].
Qed.

Lemma inv_action O w c k p p' m :
  inv_with O w → w_run w c = Some (k, p) → pstep p (w_smp w) = Some (p', m) →
  inv (mkworld m (<[c := Some (k, p')]> (w_run w)) (w_has w)).
Proof.
  intros I Hc Hs.
  destruct (code_step _ _ _ _ _ _ _ (inv_locked _ _ I) (inv_cpu _ _ I) (inv_code _ _ I _ _ _ Hc) Hs)
    as (O' & HL & HC & Hp & Hk & Hother & Hacq).
  exists O'. split; cbn; [done|done|..].
  - intros l c' Hin. destruct (inv_has _ _ I l c' Hin) as [HO Hcpu].
    destruct (decide (c' = c)) as [->|Hne]; [|by destruct (Hk c' Hne l); naive_solver].
    destruct (decide (l = call_lock k)) as [->|Hl]; [|by destruct (Hother l Hl) as [-> ->]].
    destruct k as [l|l]; [by apply Hacq|]. by destruct (inv_gone _ _ I _ _ _ Hc).
  - intros c' k' q. rewrite ins_case. case_decide as E; [subst; by intros [= <- <-]|].
    intros Hq. apply (code_ok_keeps _ O (w_smp w)); [by apply Hk|by apply I].
  - intros c' l q. rewrite ins_case. case_decide; [|apply I]. intros [= -> <-]. subst. by apply (inv_gone _ _ I _ _ p).
  - intros c' l Hl. rewrite ins_case. case_decide as E; [subst c'|].
    + destruct (decide (l = call_lock k)) as [->|Hne]; [right; eauto|]. left.
      destruct (Hother l Hne) as [_ Hx]. rewrite Hx in Hl.
      destruct (inv_record _ _ I c l Hl) as [?|(k' & q & Hr & <-)]; [done|congruence].
    + apply (inv_record _ _ I). by apply (Hk c').
Qed.

(** A call returns: acquire() with the lock owned and recorded, release()
    with the record gone. *)
Lemma inv_return O w c k H has :
  (∀ c', has c' = if decide (c = c') then H else w_has w c') →
  inv_with O w → w_run w c = Some (k, Ret) →
  H = match k with Acquiring l => {[ l ]} ∪ w_has w c | Releasing _ => w_has w c end →
  inv_with O (mkworld (w_smp w) (<[c := None]> (w_run w)) has).
Proof.
  intros Hhas I Hc HH. pose proof (inv_code _ _ I _ _ _ Hc) as Hp. split; cbn.
  - apply I.
  - apply I.
  - intros l c'. rewrite Hhas. case_decide; [subst c' H|apply I].
    inversion Hp; subst; [|apply I]. intros [->%elem_of_singleton|?]%elem_of_union; [done|by apply I].
  - intros c' k' q. rewrite ins_case. case_decide; [done|apply I].
  - intros c' l q. rewrite ins_case, Hhas. case_decide; [done|apply I].
  - intros c' l Hl. rewrite ins_case, Hhas. destruct (inv_record _ _ I c' l Hl) as [Hin|(k' & q & Hr & <-)].
    + left. case_decide; [subst c' H|done]. destruct k; set_solver.
    + case_decide as E; [|right; eauto]. subst c' H. assert (k' = k) as -> by congruence.
      left. inversion Hp; subst; cbn in *; [set_solver|done].
Qed.

Lemma inv_step w w' : step w w' → inv w → inv w'.
Proof.
  intros Hs [O I]. destruct Hs as [c l pcs w Hc|c l w Hc|c k p w p' m Hc Hp|c l w Hc|c l w Hc].
  - exists O. apply (inv_call O w c _ _ (w_has w c)); [|done|done|apply at_acquire|done|by left|done].
    intros c'. by case_decide; subst.
  - exists O. apply (inv_call O w c _ _ (w_has w c ∖ {[ l ]})); [apply ins_case|done|done|apply at_release|set_solver|..].
    + intros l' Hin. destruct (decide (l = l')); [by right|left; set_solver].
    + intros l' [= ->]. set_solver.
  - by eapply inv_action.
  - exists O. apply (inv_return O w c (Acquiring l) ({[ l ]} ∪ w_has w c)); [apply ins_case|done..].
  - exists O. apply (inv_return O w c (Releasing l) (w_has w c)); [|done..]. intros c'. by case_decide; subst.
Qed.

Lemma inv_reachable w w' : initial w → rtc step w w' → inv w'.
Proof.
  intros H0 Hr. apply inv_initial in H0. induction Hr; [done|]. by eauto using inv_step.
Qed.

(** [n] times pushcli, [n] times popcli. *)
Fixpoint times (n : nat) (f : M smp unit) : M smp unit :=
  match n with O => skip | S n => f ;; times n f end.

Lemma times_S_r n f m m1 :
  times n f m = Ok tt m1 → times (S n) f m = f m1.
Proof.
  revert m. induction n as [|n IH]; intros m H.
  - simpl in *. injection H as <-. unfold mbind, M_bind. by destruct (f m) as [[]| | |].
  - change (times (S (S n)) f m) with ((f ;; times (S n) f) m).
    simpl in H. apply bind_Ok_inv in H as ([] & m2 & E & H).
    rewrite (bind_Ok _ _ _ _ _ E). by apply IH.
Qed.

Lemma times_push c m x n :
  m_cpus m !! c = Some x → ncli x = 0 → Z.of_nat n < 2147483647 →
  times (S n) (pushcli c) m =
    Ok tt (set_cpu c (mkcpu (Z.of_nat n + 1) (if iflag x then FL_IF else 0) false) m).
Proof.
  intros Hx H0. induction n as [|n IH]; intros Hn.
  - simpl. rewrite (bind_Ok _ _ _ _ _ (pushcli_eq _ _ _ Hx)). by rewrite H0, s32_small by lia.
  - rewrite (times_S_r _ _ _ _ (IH ltac:(lia))).
    erewrite pushcli_eq by (by eapply set_cpu_lookup). rewrite set_cpu_twice. simpl.
    rewrite s32_small by lia. rewrite (proj2 (Z.eqb_neq _ 0)) by lia. do 4 f_equal. lia.
Qed.

Lemma times_pop c m n f i :
  m_cpus m !! c = Some (mkcpu (Z.of_nat n + 1) i false) → Z.of_nat n < 2147483647 →
  f = negb (i =? 0) →
  times (S n) (popcli c) m = Ok tt (set_cpu c (mkcpu 0 i f) m).
Proof.
  intros Hx Hn ->. revert m Hx Hn. induction n as [|n IH]; intros m Hx Hn;
    (change (times (S ?k) (popcli c) m) with ((popcli c ;; times k (popcli c)) m);
     rewrite (bind_Ok _ _ _ _ _ (popcli_eq _ _ _ Hx ltac:(done) ltac:(simpl; lia)))).
  - simpl. done.
  - rewrite IH; [by rewrite set_cpu_twice| |lia]. erewrite set_cpu_lookup by done.
    cbv [ncli intena]. rewrite (proj2 (Z.eqb_neq _ 1)) by lia. rewrite andb_false_l.
    do 2 f_equal. lia.
Qed.

(** ** Properties *)

(** C4. Mutual exclusion of acquire() and release(), run action by action on any
    number of CPUs. Every CPU may call them on any lock at any time, also release()
    on a lock it does not hold, and the CPUs' actions interleave in any order. In no
    reachable state has acquire() of the same lock returned to two CPUs without a
    release() in between. *)
Theorem mutual_exclusion (w w' : world) (l : lockid) (c c' : nat) :
  initial w → rtc step w w' → l ∈ w_has w' c → l ∈ w_has w' c' → c = c'.
Proof.
  intros H0 Hr H1 H2. destruct (inv_reachable _ _ H0 Hr) as [O I].
  destruct (inv_has _ _ I _ _ H1), (inv_has _ _ I _ _ H2). congruence.
Qed.

(** In every interleaving, holding() called by a CPU that is not in the
    middle of acquire() or release() says exactly whether that CPU has the
    lock; so release() by a holder never panics, and acquire()'s "already
    holding" panic never blames a CPU for a lock another one holds. *)
Theorem holding_exact (w w' : world) (l : lockid) (c : nat) :
  initial w → rtc step w w' → w_run w' c = None →
  holding c l (w_smp w') = Ok (bool_decide (l ∈ w_has w' c)) (w_smp w').
Proof.
  intros H0 Hr Hc. destruct (inv_reachable _ _ H0 Hr) as [O I]. rewrite holding_eq. f_equal.
  destruct (Z.eqb_spec (locked (lk (w_smp w') l)) 0) as [E|E]; simpl.
  - symmetry. apply bool_decide_eq_false_2. apply (inv_locked _ _ I) in E.
    intros [? _]%(inv_has _ _ I). congruence.
  - apply bool_decide_ext. split; [|by intros [_ ?]%(inv_has _ _ I)].
    intros [?|(k & p & ? & _)]%(inv_record _ _ I); [done|congruence].
Qed.

(** C26. acquire() implements the interface the rest of the kernel is modelled
    with. It panics exactly when the interface panics, on a lock the CPU holds
    already. On a free lock it returns with the lock added to the CPU's held set.
    On a lock that somebody else holds it does not return, however many rounds its
    loop is given. *)
Theorem acquire_implements (c : nat) (m : smp) (s : kstate) (l : lockid) (spins : nat) (pcs : list Z) :
  repr c m (k_held s) → Z.of_nat (size (k_held s)) < 2147483647 → (0 < spins)%nat →
  match Machine.acquire l s with
  | Ok _ s' =>
      (locked (lk m l) = 0 → ∃ m', acquire spins pcs c l m = Ok tt m' ∧ repr c m' (k_held s')) ∧
      (locked (lk m l) ≠ 0 → acquire spins pcs c l m = Hang)
  | Panic msg => acquire spins pcs c l m = Panic msg
  | _ => False
  end.
Proof.
  intros HR Hs Hsp. unfold Machine.acquire. case_bool_decide as Hin; simpl.
  - pose proof HR as [(x & Hx & _) _]. unfold acquire, acquire_prog. cbn [run].
    rewrite (bind_Ok _ _ _ _ _ (repr_pushcli _ _ _ _ HR Hx Hs)), run_if_holding.
    pose proof (holding_repr _ _ _ l HR) as Hh. rewrite holding_eq, (bool_decide_eq_true_2 _ Hin) in Hh.
    injection Hh as Hh. by erewrite (bind_Ok _ _ _ true) by (by rewrite holding_eq, lk_set_cpu, Hh).
  - split; intros; [by apply acquire_repr|by eapply acquire_busy].
Qed.

(** C27. release() implements the interface: it panics on a lock the CPU does not
    hold; otherwise the lock becomes free and leaves the CPU's held set. *)
Theorem release_implements (c : nat) (m : smp) (s : kstate) (l : lockid) :
  repr c m (k_held s) → Z.of_nat (size (k_held s)) < 2147483647 →
  match Machine.release l s with
  | Ok _ s' => ∃ m', release c l m = Ok tt m' ∧ repr c m' (k_held s') ∧ locked (lk m' l) = 0
  | Panic msg => release c l m = Panic msg
  | _ => False
  end.
Proof.
  intros HR Hs. unfold Machine.release. case_bool_decide as Hin; simpl.
  - pose proof HR as [(x & Hx & _) _].
    destruct (release_repr _ _ _ _ _ HR Hin Hx Hs) as (m' & x' & ? & ? & ? & ? & _). eauto.
  - unfold release, release_prog. rewrite run_if_holding, (bind_Ok _ _ _ _ _ (holding_repr _ _ _ l HR)).
    by rewrite bool_decide_eq_false_2.
Qed.

(** pushcli/popcli nest: after [n] pushcli and [n] popcli the interrupt flag
    is what it was before, on or off. *)
Theorem pushcli_popcli_nest (c : nat) (m : smp) (x : cpu) (n : nat) :
  m_cpus m !! c = Some x → ncli x = 0 → Z.of_nat n < 2147483647 →
  ∃ m' x', (times (S n) (pushcli c) ;; times (S n) (popcli c)) m = Ok tt m' ∧
    m_cpus m' !! c = Some x' ∧ ncli x' = 0 ∧ iflag x' = iflag x ∧ m_locks m' = m_locks m.
Proof.
  intros Hx H0 Hn. rewrite (bind_Ok _ _ _ _ _ (times_push _ _ _ _ Hx H0 Hn)).
  erewrite times_pop; [|by eapply set_cpu_lookup|done|done].
  eexists _, _. split; [done|]. split; [eapply set_cpu_lookup; by eapply set_cpu_lookup|].
  by destruct (iflag x).
Qed.

(** CPU [c] does its next action, or returns from its call. *)
Definition turn (w : world) (c : nat) : world :=
  match w_run w c with
  | Some (Acquiring l, Ret) =>
    mkworld (w_smp w) (<[c := None]> (w_run w)) (<[c := {[ l ]} ∪ w_has w c]> (w_has w))
  | Some (Releasing l, Ret) => mkworld (w_smp w) (<[c := None]> (w_run w)) (w_has w)
  | Some (k, p) =>
    match pstep p (w_smp w) with
    | Some (p', m) => mkworld m (<[c := Some (k, p')]> (w_run w)) (w_has w)
    | None => w
    end
  | None => w
  end.

Lemma turn_step w c : rtc step w (turn w c).
Proof.
  unfold turn. destruct (w_run w c) as [[k p]|] eqn:E; [|done].
  destruct (pstep p (w_smp w)) as [[p' m]|] eqn:Ep.
  - destruct k as [l|l], p; try done; by apply rtc_once, (step_action c _ _ _ _ _ E).
  - destruct k as [l|l], p; try done; apply rtc_once; [by apply (step_acquired c l)|by apply (step_released c l)].
Qed.

Lemma turns_steps w cs : rtc step w (fold_left turn cs w).
Proof.
  revert w. induction cs as [|c cs IH]; intros w; [done|]. cbn. etrans; [apply turn_step|apply IH].
Qed.

(** Two CPUs, all locks free. CPU 0 goes through acquire(&ptable.lock); CPU 1 calls
    it in between, passes its check while the lock is still free, and spins. *)
Definition boot2 : world :=
  mkworld (mksmp [mkcpu 0 0 true; mkcpu 0 0 false] ∅) (λ _, None) (λ _, ∅).
Definition boot2_call (c : nat) (w : world) : world :=
  mkworld (w_smp w) (<[c := Some (Acquiring Lptable, acquire_prog [] c Lptable)]> (w_run w)) (w_has w).
Definition boot2_spin : world :=
  fold_left turn [1; 0; 1; 0; 0; 1; 0; 0; 1; 0; 1]%nat (boot2_call 1 (boot2_call 0 boot2)).

Lemma boot2_run : rtc step boot2 boot2_spin.
Proof.
  eapply rtc_l; [by apply (step_acquire 0 Lptable [])|].
  eapply rtc_l; [by apply (step_acquire 1 Lptable [])|]. apply turns_steps.
Qed.

Lemma boot2_initial : initial boot2.
Proof. split; [intros l|intros c]; split; reflexivity. Qed.

Definition smp1 : smp := mksmp [mkcpu 1 512 false] {[ Lptable := mklock 1 "lock" (Some 0%nat) [] ]}.

Lemma smp1_repr : repr 0 smp1 {[ Lptable ]}.
Proof.
  split; [eexists; split; [reflexivity|]; split; [by rewrite size_singleton|done]|].
  intros l. unfold smp1, lk. simpl. rewrite elem_of_singleton.
  destruct (decide (l = Lptable)) as [->|Hne].
  - rewrite lookup_singleton_eq. simpl. naive_solver.
  - rewrite lookup_singleton_ne by done. simpl. naive_solver.
Qed.

(** CPU 1 holds the console lock. *)
Definition smp2 : smp :=
  mksmp [mkcpu 1 512 false; mkcpu 1 0 false]
    (<[Lcons := mklock 1 "lock" (Some 1%nat) []]> {[ Lptable := mklock 1 "lock" (Some 0%nat) [] ]}).

Lemma smp2_repr : repr 0 smp2 {[ Lptable ]}.
Proof.
  split; [eexists; split; [reflexivity|]; split; [by rewrite size_singleton|done]|].
  intros l. unfold smp2, lk. simpl. rewrite elem_of_singleton.
  destruct (decide (l = Lcons)) as [->|Hc]; [rewrite lookup_insert_eq; simpl; naive_solver|].
  rewrite lookup_insert_ne by done. destruct (decide (l = Lptable)) as [->|Hne].
  - rewrite lookup_singleton_eq. simpl. naive_solver.
  - rewrite lookup_singleton_ne by done. simpl. naive_solver.
Qed.

Lemma acquire_implements_witness :
  (∃ m', acquire 5 [] 0 Lkmem smp2 = Ok tt m' ∧ repr 0 m' ({[ Lkmem ]} ∪ {[ Lptable ]})) ∧
  acquire 5 [] 0 Lcons smp2 = Hang.
Proof.
  split.
  - pose proof (acquire_implements 0 smp2 (set_k_held {[ Lptable ]} kstate0) Lkmem 5 [] smp2_repr
      ltac:(vm_compute; reflexivity) ltac:(lia)) as H.
    rewrite acquire_free in H by (simpl; set_solver). apply H. vm_compute. reflexivity.
  - pose proof (acquire_implements 0 smp2 (set_k_held {[ Lptable ]} kstate0) Lcons 5 [] smp2_repr
      ltac:(vm_compute; reflexivity) ltac:(lia)) as H.
    rewrite acquire_free in H by (simpl; set_solver). apply H. vm_compute. done.
Defined.

Lemma release_implements_witness :
  ∃ m', release 0 Lptable smp1 = Ok tt m' ∧ repr 0 m' ({[ Lptable ]} ∖ {[ Lptable ]})
    ∧ locked (lk m' Lptable) = 0.
Proof.
  pose proof (release_implements 0 smp1 (set_k_held {[ Lptable ]} kstate0) Lptable smp1_repr
    ltac:(vm_compute; reflexivity)) as H.
  rewrite release_held in H by (simpl; set_solver). apply H.
Defined.

Lemma pushcli_popcli_nest_witness :
  ∃ m' x', (times 3 (pushcli 0) ;; times 3 (popcli 0)) (w_smp boot2) = Ok tt m' ∧
    m_cpus m' !! 0%nat = Some x' ∧ ncli x' = 0 ∧ iflag x' = true ∧ m_locks m' = ∅.
Proof.
  apply (pushcli_popcli_nest 0 (w_smp boot2) (mkcpu 0 0 true) 2); [reflexivity|reflexivity|lia].
Defined.

(** CPU 0 has the lock; by exclusion CPU 1 does not. *)
Lemma mutual_exclusion_witness :
  Lptable ∈ w_has boot2_spin 0 ∧ ¬ Lptable ∈ w_has boot2_spin 1.
Proof.
  assert (Lptable ∈ w_has boot2_spin 0) as H by (by apply (bool_decide_eq_true_1 _); vm_compute).
  split; [exact H|]. intros H1.
  discriminate (mutual_exclusion boot2 boot2_spin Lptable 0 1 boot2_initial boot2_run H H1).
Defined.

Lemma holding_exact_witness :
  holding 0 Lptable (w_smp boot2_spin) = Ok true (w_smp boot2_spin).
Proof.
  rewrite (holding_exact boot2 boot2_spin Lptable 0 boot2_initial boot2_run) by reflexivity. reflexivity.
Defined.

End Spin.
