(* ===== verification/Kalloc.v ===== *)
(** * Kalloc: the physical page allocator (kalloc.c)

    The free pages form a singly linked list threaded through the pages
    themselves: the first word of a free page is the address of the next one.
    [free_list] relates that memory layout to the list of free pages. *)

From S2P Require Import Prelude Machine CMem Mmu.
From stdpp Require Import options.

Section Kalloc.
Context {E : Env}.

Definition set_mem (m : gmap Z Z) : K unit := modify (set_k_mem m).
Definition upd_kmem (f : kmem → kmem) : K unit := modify (λ s, set_k_kmem (f (k_kmem s)) s).

(** Free the page of physical memory pointed at by [v]. *)
Definition kfree (v : Z) : K unit :=
  if negb (v mod PGSIZE =? 0) || (v <? sym_end) || (v2p v >=? PHYSTOP) then panic "kfree" else
  m ← gets k_mem;
  set_mem (memset m v 1 PGSIZE) ;;
  lk ← gets (λ s, use_lock (k_kmem s));
  when (negb (lk =? 0)) (acquire Lkmem) ;;
  m ← gets k_mem;
  fl ← gets (λ s, freelist (k_kmem s));
  set_mem (write32 m v fl) ;;
  upd_kmem (set_freelist v) ;;
  when (negb (lk =? 0)) (release Lkmem).

(** Allocate one 4096-byte page of physical memory; 0 if there is none. *)
Definition kalloc : K Z :=
  lk ← gets (λ s, use_lock (k_kmem s));
  when (negb (lk =? 0)) (acquire Lkmem) ;;
  r ← gets (λ s, freelist (k_kmem s));
  m ← gets k_mem;
  when (negb (r =? 0)) (upd_kmem (set_freelist (read32 m r))) ;;
  when (negb (lk =? 0)) (release Lkmem) ;;
  mret r.

Fixpoint freerange_loop (fuel : nat) (p vend : Z) : K unit :=
  match fuel with
  | O => hang
  | S n =>
    if u32 (p + PGSIZE) <=? vend then kfree p ;; freerange_loop n (u32 (p + PGSIZE)) vend
    else skip
  end.

(** The loop frees one page per round, so [(vend - vstart) / PGSIZE + 1] rounds
    are enough. *)
Definition freerange (vstart vend : Z) : K unit :=
  freerange_loop (S (Z.to_nat ((vend - vstart) / PGSIZE))) (PGROUNDUP vstart) vend.

Definition kinit1 (vstart vend : Z) : K unit :=
  initlock Lkmem ;;
  upd_kmem (set_use_lock 0) ;;
  freerange vstart vend.

Definition kinit2 (vstart vend : Z) : K unit :=
  freerange vstart vend ;;
  upd_kmem (set_use_lock 1).

(** ** The free list in memory *)

(** A page the allocator may manage. *)
Definition page_ok (a : Z) : Prop :=
  a mod PGSIZE = 0 ∧ sym_end <= a ∧ 0 < a < 4294967296 ∧ v2p a < PHYSTOP.

Fixpoint free_list (m : gmap Z Z) (p : Z) (l : list Z) : Prop :=
  match l with
  | [] => p = 0
  | a :: l' => p = a ∧ free_list m (read32 m a) l'
  end.

(** The allocator's invariant: [l] is the list of free pages. *)
Definition kmem_ok (s : kstate) (l : list Z) : Prop :=
  mem_ok (k_mem s) ∧ free_list (k_mem s) (freelist (k_kmem s)) l ∧ NoDup l ∧ Forall page_ok l.

(** kmem.lock can be taken, if it is in use. *)
Definition kmem_free (s : kstate) : Prop := use_lock (k_kmem s) ≠ 0 → Lkmem ∉ k_held s.

Lemma free_list_ext m m' p l :
  (∀ a, a ∈ l → read32 m' a = read32 m a) → free_list m p l → free_list m' p l.
Proof.
  revert p. induction l as [|a l IH]; intros p Hext; simpl; [done|].
  intros [-> H]. split; [done|]. rewrite Hext by set_solver. apply IH; [|done]. set_solver.
Qed.

(** Distinct pages do not overlap. *)
Lemma pages_disjoint a b :
  a mod PGSIZE = 0 → b mod PGSIZE = 0 → a ≠ b → a + PGSIZE <= b ∨ b + PGSIZE <= a.
Proof. unfold PGSIZE. intros. Z.div_mod_to_equations. lia. Qed.

(** Storing into one page leaves the words of the others alone. *)
Definition same_outside (v : Z) (m m' : gmap Z Z) : Prop :=
  ∀ b, b < v ∨ v + PGSIZE <= b → rd m' b = rd m b.

Lemma same_outside_read32 v m m' a :
  same_outside v m m' → a + 4 <= v ∨ v + PGSIZE <= a → read32 m' a = read32 m a.
Proof. intros H Ha. unfold read32. rewrite !H by lia. done. Qed.

Lemma free_list_frame v m m' p l :
  v mod PGSIZE = 0 → v ∉ l → Forall page_ok l → same_outside v m m' →
  free_list m p l → free_list m' p l.
Proof.
  intros Hv Hnin Hl Hs. apply free_list_ext. intros a Ha.
  rewrite Forall_forall in Hl. destruct (Hl a Ha) as [Ha' _].
  apply (same_outside_read32 v); [done|].
  destruct (pages_disjoint a v); [done|done|by intros ->| |]; unfold PGSIZE in *; lia.
Qed.

(** The effect of kfree on memory: junk, then the link word. *)
Definition freed_mem (m : gmap Z Z) (v next : Z) : gmap Z Z :=
  write32 (memset m v 1 PGSIZE) v next.

Lemma freed_mem_outside m v next : same_outside v m (freed_mem m v next).
Proof.
  intros b Hb. unfold freed_mem. rewrite rd_write32, rd_memset by (unfold PGSIZE; lia).
  unfold PGSIZE in *. repeat (case_decide; try lia).
Qed.

Lemma kfree_eq v s :
  page_ok v → kmem_free s →
  kfree v s = Ok tt (set_k_kmem (set_freelist v (k_kmem s))
                (set_k_mem (freed_mem (k_mem s) v (freelist (k_kmem s))) s)).
Proof.
  intros (Hal & Hend & Hr & Hp) Hf. unfold kfree.
  rewrite Hal, (proj2 (Z.ltb_ge _ _) Hend). rewrite Z.geb_leb, (proj2 (Z.leb_gt _ _) Hp). simpl.
  unfold set_mem, upd_kmem, modify, gets, mbind, M_bind, when, skip, mret, M_ret. simpl.
  destruct (Z.eqb_spec (use_lock (k_kmem s)) 0) as [E0|E0]; simpl; [done|].
  rewrite acquire_free by (simpl; auto). simpl.
  rewrite release_held by (simpl; auto with xv6). simpl.
  f_equal. rec_eq. by rewrite held_roundtrip by auto.
Qed.

Lemma kalloc_eq s :
  kmem_free s →
  kalloc s = Ok (freelist (k_kmem s))
    (if freelist (k_kmem s) =? 0 then s
     else set_k_kmem (set_freelist (read32 (k_mem s) (freelist (k_kmem s))) (k_kmem s)) s).
Proof.
  intros Hf. unfold kalloc, upd_kmem, modify, gets, mbind, M_bind, when, skip, mret, M_ret.
  destruct (Z.eqb_spec (use_lock (k_kmem s)) 0) as [E0|E0]; simpl.
  - by destruct (freelist (k_kmem s) =? 0).
  - rewrite acquire_free by auto. simpl.
    destruct (freelist (k_kmem s) =? 0); simpl;
      (rewrite release_held by (simpl; auto with xv6));
      (f_equal; rec_eq; by rewrite held_roundtrip by auto).
Qed.

(** What the kernel gets from kalloc: a page off the front of the free list. *)
Lemma kalloc_spec s l :
  kmem_ok s l → kmem_free s →
  match l with
  | [] => kalloc s = Ok 0 s
  | a :: l' => ∃ s', kalloc s = Ok a s' ∧ kmem_ok s' l' ∧ kmem_free s' ∧ page_ok a ∧ a ∉ l' ∧
      k_mem s' = k_mem s ∧ s' = set_k_kmem (k_kmem s') s
  end.
Proof.
  intros (Hm & Hl & Hnd & Hok) Hf. rewrite kalloc_eq by done.
  destruct l as [|a l]; simpl in Hl.
  - by rewrite Hl.
  - destruct Hl as [Ha Hl]. apply NoDup_cons in Hnd as [Hnin Hnd].
    apply Forall_cons in Hok as [Hpa Hok]. rewrite Ha.
    rewrite (proj2 (Z.eqb_neq a 0)) by (destruct Hpa as (_ & _ & ? & _); lia).
    eexists. split; [done|]. split; [|by split_and!].
    by split_and!.
Qed.

(** What the kernel gives to kfree: the page goes to the front. *)
Lemma kfree_spec s l v :
  kmem_ok s l → kmem_free s → page_ok v → v ∉ l →
  ∃ s', kfree v s = Ok tt s' ∧ kmem_ok s' (v :: l) ∧ kmem_free s' ∧
    same_outside v (k_mem s) (k_mem s') ∧ s' = set_k_kmem (k_kmem s') (set_k_mem (k_mem s') s).
Proof.
  intros (Hm & Hl & Hnd & Hok) Hf Hv Hnin. rewrite kfree_eq by done.
  eexists. split; [done|]. split; [|split; [done|split; [apply freed_mem_outside|done]]].
  pose proof Hv as (Hal & _ & Hr & _).
  split_and!; simpl.
  - unfold freed_mem, PGSIZE. auto with xv6 lia.
  - split; [done|]. unfold freed_mem at 2. rewrite read32_write32.
    rewrite u32_small.
    + apply (free_list_frame v (k_mem s)); [done..|apply freed_mem_outside|done].
    + unfold is_u32. destruct l as [|a l]; simpl in Hl; [lia|]. destruct Hl as [-> _].
      apply Forall_cons in Hok as [(_ & _ & ? & _) _]. lia.
  - by apply NoDup_cons.
  - by apply Forall_cons.
Qed.

(** ** The allocator and its clients

    [owned] are the pages handed out and not yet returned. A client allocates,
    returns a page it owns, or stores into a page it owns. *)
Inductive kstep : kstate * list Z → kstate * list Z → Prop :=
| kstep_alloc s owned a s' :
    kalloc s = Ok a s' → kstep (s, owned) (s', if a =? 0 then owned else a :: owned)
| kstep_free s owned1 a owned2 s' :
    kfree a s = Ok tt s' → kstep (s, owned1 ++ a :: owned2) (s', owned1 ++ owned2)
| kstep_store s owned a m :
    a ∈ owned → mem_ok m → same_outside a (k_mem s) m → kstep (s, owned) (set_k_mem m s, owned).

(** The pages of the pool are divided between the free list and the clients. *)
Definition kinv (pool : list Z) (so : kstate * list Z) : Prop :=
  ∃ l, kmem_ok so.1 l ∧ kmem_free so.1 ∧ l ++ so.2 ≡ₚ pool ∧ NoDup pool ∧ Forall page_ok pool.

Lemma kinv_owned pool owned l a :
  l ++ owned ≡ₚ pool → NoDup pool → Forall page_ok pool → a ∈ owned → page_ok a ∧ a ∉ l.
Proof.
  intros Hp Hnd Hok Ha. rewrite <- Hp in Hnd, Hok. apply NoDup_app in Hnd as (_ & Hd & _).
  apply Forall_app in Hok as [_ Hok]. rewrite Forall_forall in Hok. split; [by apply Hok|].
  intros Hin. by apply (Hd a Hin).
Qed.

Lemma kinv_step pool x y : kstep x y → kinv pool x → kinv pool y.
Proof.
  intros Hst (l & Hk & Hf & Hp & Hnd & Hok).
  destruct Hst as [s owned a s' H|s o1 a o2 s' H|s owned a m Ha Hm Hs]; simpl in *.
  - pose proof (kalloc_spec _ _ Hk Hf) as Hs. destruct l as [|b l].
    + rewrite Hs in H. injection H as <- <-. by exists [].
    + destruct Hs as (s1 & Hs & Hk' & Hf' & Hpb & _). rewrite Hs in H. injection H as <- <-.
      assert (b ≠ 0) by (destruct Hpb as (_ & _ & ? & _); lia).
      rewrite (proj2 (Z.eqb_neq b 0)) by done. exists l. split_and!; try done.
      rewrite <- Hp. simpl. by rewrite Permutation_middle.
  - destruct (kinv_owned pool (o1 ++ a :: o2) l a Hp Hnd Hok) as [Hpa Hnin]; [set_solver|].
    destruct (kfree_spec _ _ _ Hk Hf Hpa Hnin) as (s1 & Hs & Hk' & Hf' & _).
    rewrite Hs in H. injection H as <-. exists (a :: l). split_and!; try done.
    rewrite <- Hp. simpl. rewrite !(assoc_L (++)). by rewrite <- Permutation_middle.
  - destruct (kinv_owned pool owned l a Hp Hnd Hok Ha) as [[Hal _] Hnin].
    destruct Hk as (Hm0 & Hl & Hndl & Hokl). exists l. unfold kmem_ok. split_and!; simpl; try done.
    by apply (free_list_frame a (k_mem s)).
Qed.

Lemma kinv_reachable pool x y : kinv pool x → rtc kstep x y → kinv pool y.
Proof. intros H Hr. induction Hr; [done|]. eauto using kinv_step. Qed.

(** ** Filling the free list *)

Definition pages_from (p : Z) (n : nat) : list Z := (λ i, p + PGSIZE * Z.of_nat i) <$> seq 0 n.

Lemma pages_from_S p n : pages_from p (S n) = p :: pages_from (p + PGSIZE) n.
Proof.
  unfold pages_from. simpl. f_equal; [lia|]. rewrite <- fmap_S_seq, <- list_fmap_compose.
  apply list_fmap_ext. intros i j _. simpl. lia.
Qed.

Lemma elem_of_pages_from p n a :
  a ∈ pages_from p n → p <= a < p + PGSIZE * Z.of_nat n.
Proof.
  unfold pages_from. intros (i & -> & Hi)%list_elem_of_fmap. apply elem_of_seq in Hi.
  unfold PGSIZE. lia.
Qed.

Lemma freerange_loop_spec fuel s p vend l n :
  kmem_ok s l → kmem_free s → p mod PGSIZE = 0 → sym_end <= p → KERNBASE <= p →
  vend <= KERNBASE + PHYSTOP → p + PGSIZE < 4294967296 → (∀ a, a ∈ l → a < p) →
  n = Z.to_nat ((vend - p) / PGSIZE) → (n < fuel)%nat →
  ∃ s', freerange_loop fuel p vend s = Ok tt s' ∧
    kmem_ok s' (reverse (pages_from p n) ++ l) ∧ kmem_free s'.
Proof.
  revert s p l n. induction fuel as [|fuel IH];
    intros s p l n Hk Hf Hal Hend Hkb Hve Hno Hlt Hn Hfu; [lia|]. simpl.
  destruct (decide (p + PGSIZE <= vend)) as [Hle|Hgt].
  - assert (u32 (p + PGSIZE) = p + PGSIZE) as Eu by (mmu; apply Z.mod_small; lia).
    rewrite Eu, (proj2 (Z.leb_le _ _)) by done.
    assert (page_ok p) as Hp.
    { split_and!; [done|done|mmu; lia|mmu; lia|mmu; rewrite (Z.mod_small (p - _)); lia]. }
    destruct (kfree_spec s l p Hk Hf Hp) as (s1 & Hs1 & Hk1 & Hf1 & _).
    { intros Hin. apply Hlt in Hin. lia. }
    rewrite (bind_Ok _ _ _ _ _ Hs1).
    destruct n as [|n]; [unfold PGSIZE in *; Z.div_mod_to_equations; lia|].
    destruct (IH s1 (p + PGSIZE) (p :: l) n) as (s2 & Hs2 & Hk2 & Hf2);
      [done|done| |unfold PGSIZE; lia|unfold PGSIZE; lia|done|mmu; lia| |
       unfold PGSIZE in *; Z.div_mod_to_equations; lia|lia|].
    { unfold PGSIZE in *. by rewrite <- Zplus_mod_idemp_r, Z_mod_same_full, Z.add_0_r. }
    { intros a [->|Ha]%elem_of_cons; [unfold PGSIZE; lia|]. apply Hlt in Ha. unfold PGSIZE; lia. }
    exists s2. split; [done|]. split; [|done].
    rewrite pages_from_S, reverse_cons, <- (assoc_L (++)). done.
  - replace n with 0%nat by (unfold PGSIZE in *; Z.div_mod_to_equations; lia).
    destruct (decide (u32 (p + PGSIZE) <= vend)) as [Hle|].
    { exfalso. apply Hgt. revert Hle. mmu. by rewrite Z.mod_small by lia. }
    rewrite (proj2 (Z.leb_gt _ _)) by lia. simpl. eauto.
Qed.

(** ** Properties *)

(** C19. Let the pages of a pool be divided between the free list and the pages in
    use. Whatever sequence of kalloc, kfree of pages in use and stores into pages in
    use the kernel performs, they stay so divided: no page is lost or duplicated. A
    page kalloc returns is a valid page that is not in use and overlaps no page in
    use, and kalloc returns 0 only when every page of the pool is in use. kfree of a
    page in use returns, and the page is back in the pool: the next kalloc gives it
    out again. *)
Theorem kalloc_never_shares (pool : list Z) (x : kstate * list Z) (s : kstate) (owned : list Z) :
  kinv pool x → rtc kstep x (s, owned) →
  (∃ l, kmem_ok s l ∧ l ++ owned ≡ₚ pool) ∧
  (∃ a s', kalloc s = Ok a s' ∧ (a = 0 → owned ≡ₚ pool) ∧
     (a ≠ 0 → page_ok a ∧ a ∉ owned ∧ ∀ b, b ∈ owned → a + PGSIZE <= b ∨ b + PGSIZE <= a)) ∧
  (∀ a, a ∈ owned → ∃ s' s'', kfree a s = Ok tt s' ∧ kalloc s' = Ok a s'').
Proof.
  intros H0 Hr. destruct (kinv_reachable _ _ _ H0 Hr) as (l & Hk & Hf & Hp & Hnd & Hok). simpl in *.
  split; [by exists l|]. split.
  - pose proof (kalloc_spec _ _ Hk Hf) as Hs. destruct l as [|c l]; [by exists 0, s|].
    destruct Hs as (s1 & Hs & _ & _ & Hpc & _). exists c, s1. split; [done|].
    split; [intros ->; destruct Hpc as (_ & _ & ? & _); lia|]. intros _.
    assert (c ∉ owned) as Hnin.
    { intros Hc. destruct (kinv_owned pool owned _ c Hp Hnd Hok Hc) as [_ Hc']. set_solver. }
    split_and!; [done|done|]. intros b Hb. destruct (kinv_owned pool owned _ b Hp Hnd Hok Hb) as [[Hbal _] _].
    apply pages_disjoint; [by destruct Hpc|done|by intros ->].
  - intros a Ha. destruct (kinv_owned pool owned l a Hp Hnd Hok Ha) as [Hpa Hnin].
    destruct (kfree_spec _ _ _ Hk Hf Hpa Hnin) as (s' & -> & Hk' & Hf' & _).
    destruct (kalloc_spec _ _ Hk' Hf') as (s'' & H2 & _). eauto.
Qed.

(** kinit1 over [vstart, vend) terminates without panic and leaves exactly
    the whole pages of that range on the free list, highest first. *)
Theorem kinit1_free_pages (s : kstate) (vstart vend : Z) :
  mem_ok (k_mem s) → freelist (k_kmem s) = 0 →
  sym_end <= vstart → KERNBASE <= vstart → vstart <= vend → vend <= KERNBASE + PHYSTOP →
  ∃ s', kinit1 vstart vend s = Ok tt s' ∧
    kmem_ok s' (reverse (pages_from (PGROUNDUP vstart) (Z.to_nat ((vend - PGROUNDUP vstart) / PGSIZE)))).
Proof.
  intros Hm Hfl Hend Hkb Hle Hve.
  assert (0 <= vstart ∧ vstart + 4095 < 4294967296) as [Hv0 Hv1] by (mmu; lia).
  pose proof (PGROUNDUP_eq vstart Hv0 Hv1) as Eup.
  assert (vstart <= PGROUNDUP vstart <= vstart + 4095) as Hup.
  { rewrite Eup. pose proof (Z.mod_pos_bound (vstart + 4095) PGSIZE ltac:(mmu; lia)). mmu. lia. }
  unfold kinit1, freerange, initlock, upd_kmem, modify, mbind, M_bind. simpl.
  set (s1 := set_k_kmem _ _).
  destruct (freerange_loop_spec (S (Z.to_nat ((vend - vstart) / PGSIZE))) s1
    (PGROUNDUP vstart) vend [] (Z.to_nat ((vend - PGROUNDUP vstart) / PGSIZE)))
    as (s' & Hs' & Hk' & _).
  - split_and!; try done. by constructor.
  - unfold kmem_free. done.
  - rewrite Eup. mmu. by rewrite <- Zminus_mod_idemp_l, Z.sub_diag.
  - lia.
  - lia.
  - done.
  - mmu. lia.
  - set_solver.
  - done.
  - assert ((vend - PGROUNDUP vstart) / PGSIZE <= (vend - vstart) / PGSIZE)
      by (apply Z.div_le_mono; mmu; lia). lia.
  - exists s'. by rewrite app_nil_r in Hk'.
Qed.

End Kalloc.

(** A page-sized range of memory for the witnesses: the page after sym_end. *)
Section Witness.
#[local] Existing Instance env_idle.

Definition kalloc_ex : kstate := set_k_kmem (mkkmem 0 2148630528) kstate0.

Lemma kalloc_ex_ok : kmem_ok kalloc_ex [2148630528].
Proof.
  split_and!.
  - intros a. unfold rd. simpl. rewrite lookup_empty. done.
  - split; [done|]. vm_compute. done.
  - apply NoDup_singleton.
  - constructor; [|constructor]. split_and!; done.
Qed.

(** Two free pages; one of them is taken. *)
Definition kfree_ex : kstate :=
  match kfree 2148634624 kalloc_ex with Ok _ s => s | _ => kalloc_ex end.
Definition owned_ex : kstate :=
  match kalloc kfree_ex with Ok _ s => s | _ => kfree_ex end.

Lemma owned_ex_run :
  kinv [2148634624; 2148630528] (kfree_ex, []) ∧ rtc kstep (kfree_ex, []) (owned_ex, [2148634624]).
Proof.
  assert (page_ok 2148634624) as Hp by (split_and!; done).
  assert (kmem_free kalloc_ex) as Hf by done.
  destruct (kfree_spec kalloc_ex _ 2148634624 kalloc_ex_ok Hf Hp) as (s1 & H1 & K1 & F1 & _); [set_solver|].
  destruct (kalloc_spec _ _ K1 F1) as (s2 & H2 & _).
  assert (kfree_ex = s1) as -> by (unfold kfree_ex; by rewrite H1).
  split.
  - exists [2148634624; 2148630528]. destruct K1 as (? & ? & Hnd & Hok). by split_and!.
  - unfold owned_ex, kfree_ex. rewrite H1, H2. apply rtc_once, (kstep_alloc s1 [] 2148634624 s2 H2).
Qed.

(** The other page is apart from the one in use, which kfree() gives back. *)
Lemma kalloc_never_shares_witness :
  (∃ a s', kalloc owned_ex = Ok a s' ∧ (a = 0 → [2148634624] ≡ₚ [2148634624; 2148630528]) ∧
     (a ≠ 0 → page_ok a ∧ a ∉ [2148634624] ∧
        ∀ b, b ∈ [2148634624] → a + PGSIZE <= b ∨ b + PGSIZE <= a)) ∧
  ∃ s' s'', kfree 2148634624 owned_ex = Ok tt s' ∧ kalloc s' = Ok 2148634624 s''.
Proof.
  destruct (kalloc_never_shares [2148634624; 2148630528] (kfree_ex, []) owned_ex [2148634624]
    (proj1 owned_ex_run) (proj2 owned_ex_run)) as (_ & H1 & H2).
  split; [exact H1|]. apply H2. apply elem_of_cons. by left.
Defined.

Lemma kinit1_free_pages_witness :
  ∃ s', kinit1 2148630529 2148642816 kstate0 = Ok tt s' ∧
    kmem_ok s' (reverse (pages_from (PGROUNDUP 2148630529)
      (Z.to_nat ((2148642816 - PGROUNDUP 2148630529) / PGSIZE)))).
Proof.
  apply (kinit1_free_pages kstate0 2148630529 2148642816).
  - intros a. unfold rd. simpl. rewrite lookup_empty. done.
  - reflexivity.
  - simpl. lia.
  - unfold KERNBASE. lia.
  - lia.
  - unfold KERNBASE, PHYSTOP. lia.
Defined.

End Witness.
