(* ===== verification/ConsOut.v ===== *)
(** * ConsOut: console output (console.c, uart.c)

    cprintf() down to the serial port and CGA memory, and panic(). The wait for
    the uart to drain has no effect the kernel can see and is left out; the CRT
    controller's cursor registers are the field [c_pos]. *)

From S2P Require Import Prelude Machine.
From stdpp Require Import options.

(** The bytes of a string literal. *)
Definition str (s : string) : list Z :=
  (λ a, Z.of_nat (Ascii.nat_of_ascii a)) <$> String.list_ascii_of_string s.

Definition BACKSPACE : Z := 256.

Definition upd_cons (f : console → console) : K unit := modify (λ s, set_k_cons (f (k_cons s)) s).

Definition uartputc (c : Z) : K unit :=
  u ← gets (λ s, c_uart (k_cons s));
  if u =? 0 then skip
  else upd_cons (λ x, set_c_serial (c_serial x ++ [u8 c]) x).

(** [memmove(crt, crt+80, 23*80 cells)] and [memset(crt+pos, 0, n cells)]. *)
Definition crt_scroll (crt : gmap Z Z) : gmap Z Z :=
  foldl (λ m i, <[i := default 0 (crt !! (i + 80))]> m) crt (seqZ 0 (23 * 80)).
Definition crt_clear (crt : gmap Z Z) (pos n : Z) : gmap Z Z :=
  foldl (λ m i, <[i := 0]> m) crt (seqZ pos n).

(** The character itself, then the scroll, then the cursor. *)
Definition cga_place (c pos : Z) : K Z :=
  if c =? 10 then mret (pos + (80 - Z.rem pos 80))
  else if c =? BACKSPACE then mret (if pos >? 0 then pos - 1 else pos)
  else upd_cons (λ x, set_c_crt (<[pos := Z.lor (Z.land c 255) 1792]> (c_crt x)) x) ;;
       mret (pos + 1).
Definition cga_scroll (pos : Z) : K Z :=
  if Z.quot pos 80 >=? 24 then
    upd_cons (λ x, set_c_crt (crt_scroll (c_crt x)) x) ;;
    upd_cons (λ x, set_c_crt (crt_clear (c_crt x) (pos - 80) (24 * 80 - (pos - 80))) x) ;;
    mret (pos - 80)
  else mret pos.
Definition cgaputc (c : Z) : K unit :=
  pos ← gets (λ s, c_pos (k_cons s));
  pos ← cga_place c pos;
  if (pos <? 0) || (pos >? 25 * 80) then panic "pos under/overflow" else
  pos ← cga_scroll pos;
  upd_cons (λ x, set_c_pos (u8 (Z.shiftr pos 8) * 256 + u8 pos) x) ;;
  upd_cons (λ x, set_c_crt (<[pos := Z.lor 32 1792]> (c_crt x)) x).

Definition consputc (c : Z) : K unit :=
  p ← gets (λ s, c_panicked (k_cons s));
  if negb (p =? 0) then hang else
  (if c =? BACKSPACE then uartputc 8 ;; uartputc 32 ;; uartputc 8 else uartputc c) ;;
  cgaputc c.

(** ** Numbers *)

Definition digits : list Z := str "0123456789abcdef".

(** [do{ buf[i++] = digits[x % base]; }while((x /= base) != 0);] A 32-bit number
    has at most 32 digits in any base the code uses. *)
Fixpoint digits_loop (ds : list Z) (fuel : nat) (x base : Z) : list Z :=
  match fuel with
  | O => []
  | S n =>
    ds !!! Z.to_nat (x mod base) ::
    (if x / base =? 0 then [] else digits_loop ds n (x / base) base)
  end.

(** The characters printint() sends, in the order it sends them. *)
Definition printint_chars (ds : list Z) (xx base sign : Z) : list Z :=
  let neg := negb (sign =? 0) && (xx <? 0) in
  let x := if neg then u32 (- xx) else u32 xx in
  let buf := digits_loop ds 32 x base in
  reverse (if neg then buf ++ [45] else buf).

Definition printint (xx base sign : Z) : K unit :=
  for_each (printint_chars digits xx base sign) consputc.

(** ** cprintf *)

(** The words on the stack after the format: an int, or a pointer to a
    NUL-terminated string (given without its NUL), null for [None]. *)
Inductive carg := Aint (z : Z) | Astr (s : option (list Z)).

Fixpoint cprintf_loop (fmt : list Z) (args : list carg) : K unit :=
  match fmt with
  | [] => skip
  | c :: fmt =>
    if negb (c =? 37) then consputc c ;; cprintf_loop fmt args else
    match fmt with
    | [] => skip
    | c :: fmt =>
      if c =? 100 then
        match args with
        | Aint z :: args => printint z 10 1 ;; cprintf_loop fmt args
        | _ => fault
        end
      else if (c =? 120) || (c =? 112) then
        match args with
        | Aint z :: args => printint z 16 0 ;; cprintf_loop fmt args
        | _ => fault
        end
      else if c =? 115 then
        match args with
        | Astr s :: args => for_each (default (str "(null)") s) consputc ;; cprintf_loop fmt args
        | _ => fault
        end
      else if c =? 37 then consputc 37 ;; cprintf_loop fmt args
      else consputc 37 ;; consputc c ;; cprintf_loop fmt args
    end
  end.

Definition cprintf (fmt : option (list Z)) (args : list carg) : K unit :=
  locking ← gets (λ s, c_locking (k_cons s));
  when (negb (locking =? 0)) (acquire Lcons) ;;
  match fmt with
  | None => panic "null fmt"
  | Some fmt => cprintf_loop fmt args
  end ;;
  when (negb (locking =? 0)) (release Lcons).

(** panic() of console.c up to its endless loop; [pcs] is the call chain
    getcallerpcs() finds. In the model of every other function a call of panic
    is the outcome [Panic]. *)
Definition panic_stop (msg : list Z) (pcs : list Z) : K unit :=
  upd_cons (set_c_locking 0) ;;
  cpu ← gets k_cpuid;
  cprintf (Some (str "cpu%d: panic: ")) [Aint cpu] ;;
  cprintf (Some msg) [] ;;
  cprintf (Some [10]) [] ;;
  for_each pcs (λ pc, cprintf (Some (str " %p")) [Aint pc]) ;;
  upd_cons (set_c_panicked 1).

(** ** Lemmas *)

(** The console is usable: the cursor is on one of the first 24 rows and no CPU
    has panicked. *)
Definition cons_ok (s : kstate) : Prop :=
  0 <= c_pos (k_cons s) < 24 * 80 ∧ c_panicked (k_cons s) = 0.

(** Output changes the console and nothing else. *)
Definition only_cons (s s' : kstate) : Prop := s' = set_k_cons (k_cons s') s.

Lemma only_cons_refl s : only_cons s s.
Proof. unfold only_cons. by destruct s. Qed.

Lemma only_cons_trans s1 s2 s3 : only_cons s1 s2 → only_cons s2 s3 → only_cons s1 s3.
Proof. unfold only_cons. intros -> ->. rec_eq. Qed.

Lemma only_cons_held s s' : only_cons s s' → k_held s' = k_held s.
Proof. by intros ->. Qed.

(** What a piece of output code does to a usable console. *)
Definition prints (m : K unit) : Prop :=
  ∀ s, cons_ok s → wp m (λ _ s', cons_ok s' ∧ only_cons s s' ∧
    c_locking (k_cons s') = c_locking (k_cons s)) s.

Lemma prints_bind m m' : prints m → prints m' → prints (m ;; m').
Proof.
  intros H H' s Hs. apply wp_bind. eapply wp_wand; [by apply H|].
  intros _ s1 (H1 & O1 & L1). eapply wp_wand; [by apply H'|].
  intros _ s2 (H2 & O2 & L2). split_and!; [done|by eapply only_cons_trans|congruence].
Qed.

Lemma prints_skip : prints skip.
Proof. intros s Hs. apply wp_ret. split_and!; [done..|apply only_cons_refl|done]. Qed.

Lemma prints_for_each {A} (l : list A) f : (∀ x, prints (f x)) → prints (for_each l f).
Proof.
  intros H. induction l as [|x l IH]; simpl; [apply prints_skip|]. by apply prints_bind.
Qed.

Lemma prints_uartputc c : prints (uartputc c).
Proof.
  intros s Hs. unfold uartputc, wp, gets, mbind, M_bind, upd_cons, modify.
  destruct (_ =? 0); [apply prints_skip, Hs|]. split_and!; [apply Hs..|rec_eq|done].
Qed.

Lemma cursor_bytes pos : 0 <= pos < 65536 → u8 (Z.shiftr pos 8) * 256 + u8 pos = pos.
Proof.
  intros H. unfold u8. rewrite Z.shiftr_div_pow2 by lia. change (2 ^ 8) with 256.
  Z.div_mod_to_equations. lia.
Qed.

(** The state after changing the console by [f]. *)
Definition with_cons (f : console → console) (s : kstate) : kstate := set_k_cons (f (k_cons s)) s.

Lemma only_cons_with f s : only_cons s (with_cons f s).
Proof. rec_eq. Qed.

Lemma cga_place_spec c s :
  cons_ok s →
  wp (cga_place c (c_pos (k_cons s)))
    (λ pos s', 0 <= pos <= 24 * 80 ∧ cons_ok s' ∧ only_cons s s' ∧
       c_locking (k_cons s') = c_locking (k_cons s)) s.
Proof.
  intros Hs. pose proof Hs as [Hpos Hp]. unfold cga_place.
  destruct (c =? 10); [|destruct (c =? BACKSPACE)].
  - apply wp_ret. rewrite Z.rem_mod_nonneg by lia.
    pose proof (Z.mod_pos_bound (c_pos (k_cons s)) 80 ltac:(lia)).
    split_and!; [lia|Z.div_mod_to_equations; lia|done|apply only_cons_refl|done].
  - apply wp_ret. split_and!; [..|done|apply only_cons_refl|done];
      destruct (Z.gtb_spec (c_pos (k_cons s)) 0); lia.
  - apply wp_bind. unfold wp, upd_cons, modify. split_and!; [lia|lia|done|apply only_cons_with|done].
Qed.

Lemma cga_scroll_spec pos s :
  0 <= pos <= 24 * 80 → cons_ok s →
  wp (cga_scroll pos)
    (λ pos' s', 0 <= pos' < 24 * 80 ∧ cons_ok s' ∧ only_cons s s' ∧
       c_locking (k_cons s') = c_locking (k_cons s)) s.
Proof.
  intros Hpos Hs. unfold cga_scroll. destruct (Z.geb_spec (Z.quot pos 80) 24) as [E|E].
  - do 2 apply wp_bind. unfold wp, upd_cons, modify, mret, M_ret.
    split_and!; [|lia|done| |done].
    + rewrite Z.quot_div_nonneg in E by lia. Z.div_mod_to_equations. lia.
    + eapply only_cons_trans; apply only_cons_with.
  - apply wp_ret. split_and!; [lia| |done|apply only_cons_refl|done].
    rewrite Z.quot_div_nonneg in E by lia. Z.div_mod_to_equations. lia.
Qed.

(** cgaputc never takes its panic branch from a cursor on the first 24 rows. *)
Lemma prints_cgaputc c : prints (cgaputc c).
Proof.
  intros s Hs. unfold cgaputc. apply wp_bind. unfold gets at 1, wp at 1.
  apply wp_bind. eapply wp_wand; [by apply cga_place_spec|].
  intros pos s1 (Hp1 & Hs1 & O1 & L1).
  rewrite (proj2 (Z.ltb_ge pos 0)) by lia. rewrite Z.gtb_ltb, (proj2 (Z.ltb_ge (25 * 80) pos)) by lia.
  simpl. apply wp_bind. eapply wp_wand; [by apply cga_scroll_spec|].
  intros pos' s2 (Hp2 & Hs2 & O2 & L2). apply wp_bind. unfold wp, upd_cons, modify.
  split_and!; [split; simpl; [rewrite cursor_bytes by lia; lia|apply Hs2]| |simpl; congruence].
  eapply only_cons_trans; [done|]. eapply only_cons_trans; [done|].
  eapply only_cons_trans; apply only_cons_with.
Qed.

Lemma prints_consputc c : prints (consputc c).
Proof.
  intros s Hs. unfold consputc. apply wp_bind. unfold gets at 1, wp at 1.
  destruct Hs as [Hs1 Hs2]. rewrite Hs2. simpl.
  apply prints_bind; [|apply prints_cgaputc|done].
  destruct (c =? BACKSPACE); repeat apply prints_bind; apply prints_uartputc.
Qed.

Lemma prints_printint xx base sign : prints (printint xx base sign).
Proof. apply prints_for_each, prints_consputc. Qed.

(** Formats whose directives are matched by arguments of the right kind. *)
Fixpoint fmt_ok (fmt : list Z) (args : list carg) : bool :=
  match fmt with
  | [] => true
  | c :: fmt =>
    if negb (c =? 37) then fmt_ok fmt args else
    match fmt with
    | [] => true
    | c :: fmt =>
      if (c =? 100) || ((c =? 120) || (c =? 112)) then
        match args with Aint _ :: args => fmt_ok fmt args | _ => false end
      else if c =? 115 then
        match args with Astr _ :: args => fmt_ok fmt args | _ => false end
      else fmt_ok fmt args
    end
  end.

Lemma prints_cprintf_loop n fmt args :
  (length fmt < n)%nat → fmt_ok fmt args = true → prints (cprintf_loop fmt args).
Proof.
  revert fmt args. induction n as [|n IH]; intros fmt args Hn Hok; [lia|].
  destruct fmt as [|c fmt]; simpl in *; [apply prints_skip|].
  destruct (negb (c =? 37)).
  { apply prints_bind; [apply prints_consputc|]. apply IH; [lia|done]. }
  destruct fmt as [|c' fmt]; simpl in *; [apply prints_skip|].
  destruct (c' =? 100); simpl in Hok.
  { destruct args as [|[]]; [done| |done].
    apply prints_bind; [apply prints_printint|]. apply IH; [lia|done]. }
  destruct ((c' =? 120) || (c' =? 112)).
  { destruct args as [|[]]; [done| |done].
    apply prints_bind; [apply prints_printint|]. apply IH; [lia|done]. }
  destruct (c' =? 115).
  { destruct args as [|[]]; [done|done|].
    apply prints_bind; [apply prints_for_each, prints_consputc|]. apply IH; [lia|done]. }
  destruct (c' =? 37).
  { apply prints_bind; [apply prints_consputc|]. apply IH; [lia|done]. }
  repeat (apply prints_bind; [apply prints_consputc|]). apply IH; [lia|done].
Qed.

(** A well-typed cprintf returns, changes only the console, and gives back the
    console lock. *)
Lemma prints_cprintf fmt args s :
  fmt_ok fmt args = true → cons_ok s → (c_locking (k_cons s) ≠ 0 → Lcons ∉ k_held s) →
  wp (cprintf (Some fmt) args) (λ _ s', cons_ok s' ∧ only_cons s s' ∧
    c_locking (k_cons s') = c_locking (k_cons s)) s.
Proof.
  intros Hok Hs Hl. unfold cprintf. apply wp_bind. unfold gets at 1, wp at 1.
  destruct (Z.eqb_spec (c_locking (k_cons s)) 0) as [E|E]; simpl.
  - apply wp_bind, wp_ret, wp_bind. eapply wp_wand; [by apply (prints_cprintf_loop (S (length fmt))); [lia|..]|].
    done.
  - apply wp_bind, wp_acquire; [auto|]. apply wp_bind.
    eapply wp_wand; [apply (prints_cprintf_loop (S (length fmt))); [lia|done|done]|].
    intros _ s1 (H1 & O1 & L1). apply wp_release.
    + rewrite (only_cons_held _ _ O1). simpl. auto with xv6.
    + split_and!; [apply H1| |done]. unfold only_cons in *. rewrite O1. rec_eq.
      rewrite held_roundtrip by auto. done.
Qed.

(** ** Reading numbers back *)

Definition hexval (c : Z) : Z :=
  if c <=? 57 then c - 48 else if c <=? 70 then c - 55 else c - 87.

(** Read an optional minus sign and digits, most significant first. *)
Definition parse_digits (base : Z) (l : list Z) : Z := foldl (λ acc c, acc * base + hexval c) 0 l.
Definition parse_int (base : Z) (l : list Z) : Z :=
  match l with
  | 45 :: l => - parse_digits base l
  | _ => parse_digits base l
  end.

(** [ds] is a table of digit characters. *)
Definition digit_table (ds : list Z) : Prop :=
  ∀ i, 0 <= i < 16 → hexval (ds !!! Z.to_nat i) = i ∧ ds !!! Z.to_nat i ≠ 45.

Lemma digit_table_check ds :
  forallb (λ i, (hexval (ds !!! Z.to_nat i) =? i) && negb (ds !!! Z.to_nat i =? 45)) (seqZ 0 16) = true →
  digit_table ds.
Proof.
  intros H i Hi. rewrite forallb_forall in H. specialize (H i). rewrite <- list_elem_of_In, elem_of_seqZ in H.
  specialize (H ltac:(lia)). apply andb_prop in H as [H1%Z.eqb_eq H2%negb_true_iff%Z.eqb_neq]. done.
Qed.

Lemma digits_table : digit_table digits.
Proof. apply digit_table_check. by vm_compute. Qed.

Lemma parse_digits_snoc base l c : parse_digits base (l ++ [c]) = parse_digits base l * base + hexval c.
Proof. unfold parse_digits. by rewrite foldl_app. Qed.

Lemma digits_loop_value ds fuel x base :
  digit_table ds → 2 <= base <= 16 → 0 <= x < 2 ^ Z.of_nat fuel →
  parse_digits base (reverse (digits_loop ds fuel x base)) = x.
Proof.
  intros Hds Hb. revert x. induction fuel as [|n IH]; intros x Hx.
  { change (2 ^ Z.of_nat 0) with 1 in Hx. change (0 = x). lia. }
  cbn [digits_loop]. pose proof (Z.mod_pos_bound x base ltac:(lia)) as Hm.
  rewrite reverse_cons, parse_digits_snoc, (proj1 (Hds (x mod base) ltac:(lia))).
  destruct (Z.eqb_spec (x / base) 0) as [E|E].
  - unfold parse_digits. simpl. Z.div_mod_to_equations. lia.
  - rewrite IH; [Z.div_mod_to_equations; lia|].
    rewrite Nat2Z.inj_succ, Z.pow_succ_r in Hx by lia. split; [apply Z.div_pos; lia|].
    apply Z.div_lt_upper_bound; nia.
Qed.

Lemma digits_loop_length ds fuel x base k :
  2 <= base → 0 <= x < base ^ Z.of_nat (S k) → (length (digits_loop ds fuel x base) ≤ S k)%nat.
Proof.
  intros Hb. revert x k. induction fuel as [|n IH]; intros x k Hx; simpl; [lia|].
  destruct (Z.eqb_spec (x / base) 0) as [E|E]; simpl; [lia|]. apply le_n_S.
  destruct k as [|k].
  { exfalso. apply E. apply Z.div_small. change (Z.of_nat 1) with 1 in Hx. by rewrite Z.pow_1_r in Hx. }
  apply IH. split; [apply Z.div_pos; lia|]. apply Z.div_lt_upper_bound; [lia|].
  rewrite <- Z.pow_succ_r, <- Nat2Z.inj_succ by lia. lia.
Qed.

Lemma digits_loop_no_minus ds fuel x base :
  digit_table ds → 2 <= base <= 16 → 45 ∉ digits_loop ds fuel x base.
Proof.
  intros Hds Hb. revert x. induction fuel as [|n IH]; intros x; simpl; [set_solver|].
  pose proof (Hds (x mod base) ltac:(pose proof (Z.mod_pos_bound x base); lia)) as [_ ?].
  destruct (_ =? 0); set_solver.
Qed.

Lemma parse_int_digits base l : 45 ∉ l → parse_int base (reverse l) = parse_digits base (reverse l).
Proof.
  intros H. unfold parse_int. destruct (reverse l) as [|c r] eqn:E; [done|].
  assert (c ≠ 45). { intros ->. apply H. rewrite <- (reverse_involutive l), E, elem_of_reverse. set_solver. }
  repeat case_match; try done; congruence.
Qed.

Lemma printint_chars_value ds xx base sign :
  digit_table ds → 10 <= base <= 16 → -2147483648 <= xx < 4294967296 →
  (sign ≠ 0 → xx < 2147483648) →
  parse_int base (printint_chars ds xx base sign) = (if sign =? 0 then u32 xx else xx) ∧
  (length (printint_chars ds xx base sign) ≤ 16)%nat.
Proof.
  intros Hds Hb Hx Hs. unfold printint_chars.
  assert (∀ x, 0 <= x < 4294967296 → 0 <= x < 2 ^ Z.of_nat 32) as H32.
  { intros x H. change (2 ^ Z.of_nat 32) with 4294967296. lia. }
  assert (∀ x, 0 <= x < 4294967296 → (length (digits_loop ds 32 x base) ≤ 10)%nat) as Hlen.
  { intros x H. apply (digits_loop_length ds 32 x base 9); [lia|]. split; [lia|].
    apply Z.lt_le_trans with (10 ^ Z.of_nat 10); [|apply Z.pow_le_mono_l; lia].
    change (10 ^ Z.of_nat 10) with 10000000000. lia. }
  destruct (Z.eqb_spec sign 0) as [E|E]; cbn [negb andb]; [|destruct (Z.ltb_spec xx 0)].
  - pose proof (u32_range xx) as Hu. rewrite parse_int_digits by (apply digits_loop_no_minus; [done|lia]).
    rewrite digits_loop_value by (done || lia || apply H32, Hu). rewrite length_reverse.
    split; [done|]. specialize (Hlen (u32 xx) Hu). lia.
  - rewrite u32_small by (unfold is_u32; lia). rewrite length_reverse, length_app, reverse_app.
    specialize (Hlen (- xx) ltac:(lia)). split; [|cbn [length]; lia].
    change (reverse [45]) with [45]. cbn [app parse_int].
    rewrite digits_loop_value by (done || lia || apply H32; lia). lia.
  - rewrite u32_small by (unfold is_u32; lia).
    rewrite parse_int_digits by (apply digits_loop_no_minus; [done|lia]).
    rewrite digits_loop_value by (done || lia || apply H32; lia). rewrite length_reverse.
    split; [done|]. specialize (Hlen xx ltac:(lia)). lia.
Qed.

(** ** Properties *)

(** What the kernel's printint() prints reads back as the number it was given
    (signed for sign = 1, as a 32-bit word for sign = 0), in base 10 and 16, and
    it never fills more than the 16 bytes of its buffer. *)
Theorem printint_roundtrip (xx base sign : Z) :
  base = 10 ∨ base = 16 → -2147483648 <= xx < 2147483648 →
  parse_int base (printint_chars digits xx base sign) = (if sign =? 0 then u32 xx else xx) ∧
  (length (printint_chars digits xx base sign) ≤ 16)%nat.
Proof. intros Hb Hx. apply printint_chars_value; [apply digits_table|lia..]. Qed.

(** Console output never runs off the screen: from a cursor on the first 24
    rows, cprintf() of a format that matches its arguments returns (it does not
    reach cgaputc's panic), the cursor is again on the first 24 rows, the console
    lock is released and nothing but the console has changed. *)
Theorem cprintf_returns (fmt : list Z) (args : list carg) (s : kstate) :
  fmt_ok fmt args = true → cons_ok s → (c_locking (k_cons s) ≠ 0 → Lcons ∉ k_held s) →
  ∃ s', cprintf (Some fmt) args s = Ok tt s' ∧ cons_ok s' ∧ only_cons s s'.
Proof.
  intros Hok Hs Hl.
  destruct (wp_Ok _ _ _ (prints_cprintf fmt args s Hok Hs Hl)) as ([] & s' & ? & ? & ? & _). eauto.
Qed.

Lemma printint_roundtrip_witness :
  parse_int 10 (printint_chars digits (-2147483648) 10 1) = -2147483648.
Proof.
  exact (proj1 (printint_roundtrip (-2147483648) 10 1 (or_introl eq_refl) ltac:(lia))).
Defined.

Lemma cprintf_returns_witness :
  ∃ s', cprintf (Some (str "Iniciando Id: %d Passo calculado %d")) [Aint 3; Aint 200] kstate0 = Ok tt s'
    ∧ cons_ok s' ∧ only_cons kstate0 s'.
Proof.
  apply (cprintf_returns (str "Iniciando Id: %d Passo calculado %d") [Aint 3; Aint 200] kstate0).
  - vm_compute. reflexivity.
  - split; [simpl; lia|reflexivity].
  - intros H. destruct H. reflexivity.
Defined.
