(* ===== verification/Vm.v ===== *)
(** * Vm: page tables (vm.c)

    Page directories and page tables live in memory as the hardware reads them: 1024
    little-endian words per page; PageTable.v says what they mean. Switching address
    spaces sets [k_cr3] and the stack pointer [k_esp0] of the task state segment; the
    segment descriptors are in Devices.v; loaduvm() is with exec() in Exec.v, as it
    reads a file. *)

From S2P Require Import Prelude Machine CMem Mmu Kalloc ConsOut.
From stdpp Require Import options.

Section Vm.
Context {E : Env}.

Definition load (a : Z) : K Z := gets (λ s, read32 (k_mem s) a).
Definition store (a v : Z) : K unit := modify (λ s, set_k_mem (write32 (k_mem s) a v) s).
Definition do_memset (a c n : Z) : K unit := modify (λ s, set_k_mem (memset (k_mem s) a c n) s).
Definition do_memmove (d a n : Z) : K unit := modify (λ s, set_k_mem (memmove (k_mem s) d a n) s).

(** Store a list of bytes: memmove() from outside the modelled memory. *)
Fixpoint wr_list (m : gmap Z Z) (a : Z) (l : list Z) : gmap Z Z :=
  match l with [] => m | x :: l => wr_list (wr m a x) (a + 1) l end.
Definition put_bytes (a : Z) (l : list Z) : K unit :=
  modify (λ s, set_k_mem (wr_list (k_mem s) a l) s).

(** The address of the PTE for [va] in [pgdir], 0 for none. *)
Definition walkpgdir (pgdir va : Z) (alloc : bool) : K Z :=
  let pde := pgdir + 4 * PDX va in
  e ← load pde;
  if has e PTE_P then mret (p2v (PTE_ADDR e) + 4 * PTX va) else
  if negb alloc then mret 0 else
  pgtab ← kalloc;
  if pgtab =? 0 then mret 0 else
  do_memset pgtab 0 PGSIZE ;;
  store pde (Z.lor (Z.lor (Z.lor (v2p pgtab) PTE_P) PTE_W) PTE_U) ;;
  mret (pgtab + 4 * PTX va).

Fixpoint mappages_loop (fuel : nat) (pgdir a last pa perm : Z) : K Z :=
  match fuel with
  | O => hang
  | S n =>
    pte ← walkpgdir pgdir a true;
    if pte =? 0 then mret (-1) else
    e ← load pte;
    if has e PTE_P then panic "remap" else
    store pte (Z.lor (Z.lor pa perm) PTE_P) ;;
    if a =? last then mret 0
    else mappages_loop n pgdir (u32 (a + PGSIZE)) last (u32 (pa + PGSIZE)) perm
  end.

(** One round per page from the page of [va] to the page of [va + size - 1]. *)
Definition mappages (pgdir va size pa perm : Z) : K Z :=
  let a := PGROUNDDOWN va in
  let last := PGROUNDDOWN (u32 (va + size - 1)) in
  mappages_loop (S (Z.to_nat (u32 (last - a) / PGSIZE))) pgdir a last pa perm.

(** The kernel's mappings: virt, phys_start, phys_end, perm. *)
Definition kmap : list (Z * Z * Z * Z) :=
  [ (KERNBASE, 0, EXTMEM, PTE_W);
    (KERNLINK, v2p KERNLINK, v2p sym_data, 0);
    (sym_data, v2p sym_data, PHYSTOP, PTE_W);
    (DEVSPACE, DEVSPACE, 0, PTE_W) ].

Definition setupkvm : K Z :=
  pgdir ← kalloc;
  if pgdir =? 0 then mret 0 else
  do_memset pgdir 0 PGSIZE ;;
  if p2v PHYSTOP >? DEVSPACE then panic "PHYSTOP too high" else
  r ← for_ret kmap (λ '(virt, phys_start, phys_end, perm),
    x ← mappages pgdir virt (u32 (phys_end - phys_start)) phys_start perm;
    mret (if x <? 0 then Some 0 else None));
  mret (default pgdir r).

Definition switchkvm : K unit := modify (λ s, set_k_cr3 (v2p (k_kpgdir s)) s).

Definition kvmalloc : K unit :=
  d ← setupkvm;
  modify (set_k_kpgdir d) ;;
  switchkvm.

(** pushcli() and popcli() around the body have no net effect (Spinlock.v). *)
Definition switchuvm (p : nat) : K unit :=
  c ← curproc;
  cp ← get_proc c;
  modify (set_k_esp0 (u32 (p_kstack cp + KSTACKSIZE))) ;;
  pp ← get_proc p;
  if p_pgdir pp =? 0 then panic "switchuvm: no pgdir" else
  modify (set_k_cr3 (v2p (p_pgdir pp))).

Definition inituvm (pgdir : Z) (init : list Z) : K unit :=
  let sz := Z.of_nat (length init) in
  if sz >=? PGSIZE then panic "inituvm: more than a page" else
  mem ← kalloc;
  do_memset mem 0 PGSIZE ;;
  mappages pgdir 0 PGSIZE (v2p mem) (Z.lor PTE_W PTE_U) ;;
  put_bytes mem init.

(** In deallocuvm a missing page table skips the rest of its 4MB: [a] moves by
    [(NPTENTRIES - 1) * PGSIZE] and then by the loop's [PGSIZE]. *)
Fixpoint deallocuvm_loop (fuel : nat) (pgdir a oldsz : Z) : K unit :=
  match fuel with
  | O => hang
  | S n =>
    if negb (a <? oldsz) then skip else
    pte ← walkpgdir pgdir a false;
    if pte =? 0 then
      deallocuvm_loop n pgdir (u32 (u32 (a + (NPTENTRIES - 1) * PGSIZE) + PGSIZE)) oldsz
    else
      e ← load pte;
      (if has e PTE_P then
         let pa := PTE_ADDR e in
         if pa =? 0 then panic "kfree" else
         kfree (p2v pa) ;;
         store pte 0
       else skip) ;;
      deallocuvm_loop n pgdir (u32 (a + PGSIZE)) oldsz
  end.

Definition deallocuvm (pgdir oldsz newsz : Z) : K Z :=
  if newsz >=? oldsz then mret oldsz else
  deallocuvm_loop (S (Z.to_nat (oldsz / PGSIZE + 1))) pgdir (PGROUNDUP newsz) oldsz ;;
  mret newsz.

Fixpoint allocuvm_loop (fuel : nat) (pgdir a oldsz newsz : Z) : K Z :=
  match fuel with
  | O => hang
  | S n =>
    if negb (a <? newsz) then mret newsz else
    mem ← kalloc;
    if mem =? 0 then
      cprintf (Some (str "allocuvm out of memory" ++ [10])) [] ;;
      deallocuvm pgdir newsz oldsz ;;
      mret 0
    else
      do_memset mem 0 PGSIZE ;;
      mappages pgdir a PGSIZE (v2p mem) (Z.lor PTE_W PTE_U) ;;
      allocuvm_loop n pgdir (u32 (a + PGSIZE)) oldsz newsz
  end.

Definition allocuvm (pgdir oldsz newsz : Z) : K Z :=
  if newsz >=? KERNBASE then mret 0 else
  if newsz <? oldsz then mret oldsz else
  allocuvm_loop (S (Z.to_nat (newsz / PGSIZE + 1))) pgdir (PGROUNDUP oldsz) oldsz newsz.

Definition freevm (pgdir : Z) : K unit :=
  if pgdir =? 0 then panic "freevm: no pgdir" else
  deallocuvm pgdir KERNBASE 0 ;;
  for_each (seqZ 0 NPDENTRIES) (λ i,
    e ← load (pgdir + 4 * i);
    if has e PTE_P then kfree (p2v (PTE_ADDR e)) else skip) ;;
  kfree pgdir.

Definition clearpteu (pgdir uva : Z) : K unit :=
  pte ← walkpgdir pgdir uva false;
  if pte =? 0 then panic "clearpteu" else
  e ← load pte;
  store pte (Z.land e (Z.lnot PTE_U)).

Fixpoint copyuvm_loop (fuel : nat) (pgdir d i sz : Z) : K Z :=
  match fuel with
  | O => hang
  | S n =>
    if negb (i <? sz) then mret d else
    pte ← walkpgdir pgdir i false;
    if pte =? 0 then panic "copyuvm: pte should exist" else
    e ← load pte;
    if negb (has e PTE_P) then panic "copyuvm: page not present" else
    let pa := PTE_ADDR e in
    let flags := PTE_FLAGS e in
    mem ← kalloc;
    if mem =? 0 then freevm d ;; mret 0 else
    do_memmove mem (p2v pa) PGSIZE ;;
    r ← mappages d i PGSIZE (v2p mem) flags;
    if r <? 0 then freevm d ;; mret 0 else
    copyuvm_loop n pgdir d (u32 (i + PGSIZE)) sz
  end.

Definition copyuvm (pgdir sz : Z) : K Z :=
  d ← setupkvm;
  if d =? 0 then mret 0 else
  copyuvm_loop (S (Z.to_nat (sz / PGSIZE + 1))) pgdir d 0 sz.

(** walkpgdir's result is dereferenced without a test. *)
Definition uva2ka (pgdir uva : Z) : K Z :=
  pte ← walkpgdir pgdir uva false;
  if pte =? 0 then fault else
  e ← load pte;
  if negb (has e PTE_P) then mret 0 else
  if negb (has e PTE_U) then mret 0 else
  mret (p2v (PTE_ADDR e)).

(** Copy the bytes [buf] to user address [va]; each round finishes a page. *)
Fixpoint copyout_loop (fuel : nat) (pgdir va : Z) (buf : list Z) : K Z :=
  match fuel with
  | O => hang
  | S f =>
    match buf with
    | [] => mret 0
    | _ =>
      let va0 := PGROUNDDOWN va in
      pa0 ← uva2ka pgdir va0;
      if pa0 =? 0 then mret (-1) else
      let len := Z.of_nat (length buf) in
      let n := if PGSIZE - (va - va0) >? len then len else PGSIZE - (va - va0) in
      put_bytes (pa0 + (va - va0)) (take (Z.to_nat n) buf) ;;
      copyout_loop f pgdir (u32 (va0 + PGSIZE)) (drop (Z.to_nat n) buf)
    end
  end.

Definition copyout (pgdir va : Z) (buf : list Z) : K Z :=
  copyout_loop (S (length buf)) pgdir va buf.

End Vm.
