(* ===== verification/PageTable.v ===== *)
(** * PageTable: what the page-table code of vm.c guarantees

    [pte_at m d va] is the entry the hardware finds for [va] in directory [d] (0
    when there is none); [pt_ok m d T] says that [d] is a page directory whose
    page tables are the pages [T], indexed by PDX. The theorems say what
    walkpgdir(), mappages(), setupkvm() and copyuvm() do to [pte_at]. *)

From S2P Require Import Prelude Machine CMem Mmu Kalloc ConsOut Vm.
From stdpp Require Import options.

Section PageTable.
Context {E : Env}.

Definition pde_at (m : gmap Z Z) (d i : Z) : Z := read32 m (d + 4 * i).

Definition pte_at (m : gmap Z Z) (d va : Z) : Z :=
  let e := pde_at m d (PDX va) in
  if has e PTE_P then read32 m (p2v (PTE_ADDR e) + 4 * PTX va) else 0.

(** The directory entry for table [t]. *)
Definition pde_of (t : Z) : Z := Z.lor (Z.lor (Z.lor (v2p t) PTE_P) PTE_W) PTE_U.

Definition pt_ok (m : gmap Z Z) (d : Z) (T : gmap Z Z) : Prop :=
  page_ok d ∧
  (∀ i, 0 <= i < 1024 →
     match T !! i with
     | Some t => pde_at m d i = pde_of t ∧ page_ok t ∧ t ≠ d
     | None => has (pde_at m d i) PTE_P = false
     end) ∧
  (∀ i j t, T !! i = Some t → T !! j = Some t → i = j) ∧
  (∀ i t, T !! i = Some t → 0 <= i < 1024).

(** ** Pages *)

Lemma page_kern a : page_ok a → KERNBASE <= a < KERNBASE + PHYSTOP.
Proof. intros (_ & _ & ? & H). revert H. mmu. intros H. Z.div_mod_to_equations. lia. Qed.

Lemma v2p_page a : page_ok a → v2p a = a - KERNBASE.
Proof. intros H. apply page_kern in H. mmu. rewrite Z.mod_small; lia. Qed.

Lemma p2v_v2p_page a : page_ok a → p2v (v2p a) = a.
Proof. intros H. apply page_kern in H. apply p2v_v2p. mmu. lia. Qed.

Lemma page_aligned a : page_ok a → a mod PGSIZE = 0.
Proof. by intros (? & _). Qed.

Lemma v2p_aligned a : page_ok a → v2p a mod PGSIZE = 0.
Proof.
  intros H. rewrite v2p_page by done. apply page_aligned in H. mmu.
  rewrite Zminus_mod, H. done.
Qed.

Lemma pages_apart a b :
  page_ok a → page_ok b → a ≠ b → a + PGSIZE <= b ∨ b + PGSIZE <= a.
Proof. intros Ha Hb. apply pages_disjoint; by apply page_aligned. Qed.

Lemma pde_of_eq t : page_ok t → pde_of t = v2p t + 7.
Proof.
  intros H. unfold pde_of. rewrite <- !Z.lor_assoc. rewrite PTE_lor; [done|by apply v2p_aligned|by split].
Qed.

Lemma pde_of_P t : page_ok t → has (pde_of t) PTE_P = true.
Proof.
  intros H. unfold has, pde_of. rewrite <- !Z.lor_assoc, Z.land_lor_distr_l.
  change (Z.land (Z.lor PTE_P (Z.lor PTE_W PTE_U)) PTE_P) with 1.
  destruct (Z.eqb_spec (Z.lor (Z.land (v2p t) PTE_P) 1) 0) as [Hz|]; [|done].
  apply Z.lor_eq_0_iff in Hz. lia.
Qed.

Lemma pde_of_addr t : page_ok t → p2v (PTE_ADDR (pde_of t)) = t.
Proof.
  intros H. unfold pde_of. rewrite <- !Z.lor_assoc, PTE_ADDR_lor;
    [by apply p2v_v2p_page|by apply v2p_aligned|by split].
Qed.

Lemma pde_of_u32 t : page_ok t → is_u32 (pde_of t).
Proof.
  intros H. rewrite pde_of_eq by done. rewrite v2p_page by done.
  apply page_kern in H. mmu. lia.
Qed.

(** A page table entry is present. *)
Definition present (e : Z) : bool := has e PTE_P.

Lemma present_0 : has 0 PTE_P = false.
Proof. done. Qed.

Lemma pte_at_table m d T va t :
  pt_ok m d T → T !! PDX va = Some t → pte_at m d va = read32 m (t + 4 * PTX va).
Proof.
  intros (_ & Hp & _) Ht. specialize (Hp _ (PDX_range va)). rewrite Ht in Hp.
  destruct Hp as (He & Hok & _). unfold pte_at. rewrite He, pde_of_P, pde_of_addr by done. done.
Qed.

Lemma pte_at_none m d T va : pt_ok m d T → T !! PDX va = None → pte_at m d va = 0.
Proof.
  intros (_ & Hp & _) Ht. specialize (Hp _ (PDX_range va)). rewrite Ht in Hp.
  unfold pte_at. by rewrite Hp.
Qed.

(** ** Frames: stores confined to a set of pages *)

Definition outside (S : gset Z) (b : Z) : Prop := ∀ p, p ∈ S → b < p ∨ p + PGSIZE <= b.
Definition same_out (S : gset Z) (m m' : gmap Z Z) : Prop := ∀ b, outside S b → rd m' b = rd m b.

Lemma same_out_refl S m : same_out S m m.
Proof. done. Qed.
Lemma same_out_trans S m1 m2 m3 : same_out S m1 m2 → same_out S m2 m3 → same_out S m1 m3.
Proof. intros H1 H2 b Hb. by rewrite H2, H1. Qed.
Lemma same_out_mono S S' m m' : S ⊆ S' → same_out S m m' → same_out S' m m'.
Proof. intros HS H b Hb. apply H. intros p Hp. apply Hb. set_solver. Qed.

Lemma same_out_write32 S m p a v :
  p ∈ S → p <= a → a + 4 <= p + PGSIZE → same_out S m (write32 m a v).
Proof.
  intros Hp H1 H2 b Hb. specialize (Hb p Hp). rewrite rd_write32. repeat (case_decide; try lia).
Qed.

Lemma same_out_memset S m p c : p ∈ S → same_out S m (memset m p c PGSIZE).
Proof.
  intros Hp b Hb. specialize (Hb p Hp). rewrite rd_memset by (mmu; lia). case_decide; [lia|done].
Qed.

Lemma same_out_memmove S m p src : mem_ok m → p ∈ S → same_out S m (memmove m p src PGSIZE).
Proof.
  intros Hm Hp b Hb. specialize (Hb p Hp). rewrite rd_memmove by (done || mmu; lia).
  case_decide; [lia|done].
Qed.

Lemma same_out_read32 S m m' a :
  same_out S m m' → (∀ p, p ∈ S → a + 4 <= p ∨ p + PGSIZE <= a) → read32 m' a = read32 m a.
Proof.
  intros H Ha. unfold read32. rewrite !H; [done|..]; intros p Hp; specialize (Ha p Hp); lia.
Qed.

(** A word inside page [q], which is not one of [S]. *)
Lemma same_out_page S m m' q a :
  same_out S m m' → (∀ p, p ∈ S → page_ok p) → page_ok q → q ∉ S →
  q <= a → a + 4 <= q + PGSIZE → read32 m' a = read32 m a.
Proof.
  intros H HS Hq Hnin H1 H2. apply (same_out_read32 S); [done|]. intros p Hp.
  destruct (pages_apart q p Hq (HS p Hp)) as [|]; [by intros ->|lia|lia].
Qed.

Lemma free_list_same_out S m m' p l :
  same_out S m m' → (∀ q, q ∈ S → page_ok q) → (∀ q, q ∈ l → q ∉ S) → Forall page_ok l →
  free_list m p l → free_list m' p l.
Proof.
  intros H HS Hd Hl. apply free_list_ext. intros a Ha. rewrite Forall_forall in Hl.
  apply (same_out_page S m m' a); auto; [lia|mmu; lia].
Qed.

(** ** Changing a page table *)

Definition pt_pages (d : Z) (T : gmap Z Z) : gset Z := {[ d ]} ∪ map_img T.

Lemma elem_of_pt_pages d T p : p ∈ pt_pages d T ↔ p = d ∨ ∃ i, T !! i = Some p.
Proof. unfold pt_pages. rewrite elem_of_union, elem_of_singleton, elem_of_map_img. done. Qed.

Lemma pt_pages_ok m d T p : pt_ok m d T → p ∈ pt_pages d T → page_ok p.
Proof.
  intros (Hd & Hp & _ & Hr) [->|[i Hi]]%elem_of_pt_pages; [done|].
  specialize (Hp i (Hr i p Hi)). rewrite Hi in Hp. tauto.
Qed.

Lemma pt_table m d T i t : pt_ok m d T → T !! i = Some t → page_ok t ∧ t ≠ d ∧ 0 <= i < 1024.
Proof.
  intros (Hd & Hp & _ & Hr) Hi. specialize (Hp i (Hr i t Hi)). rewrite Hi in Hp.
  destruct Hp as (_ & ? & ?). eauto.
Qed.

(** The walk reads only the pages of the page table. *)
Lemma pt_ok_ext m m' d T :
  (∀ q a, q ∈ pt_pages d T → q <= a → a + 4 <= q + PGSIZE → read32 m' a = read32 m a) →
  pt_ok m d T → pt_ok m' d T ∧ ∀ va, pte_at m' d va = pte_at m d va.
Proof.
  intros Hext Hpt. pose proof Hpt as (Hd & Hp & Hinj & Hr).
  assert (∀ i, 0 <= i < 1024 → pde_at m' d i = pde_at m d i) as Hde.
  { intros i Hi. apply (Hext d); [apply elem_of_pt_pages; by left|mmu; lia..]. }
  assert (pt_ok m' d T) as Hpt'.
  { split_and!; try done. intros i Hi. rewrite Hde by done. by apply Hp. }
  split; [done|]. intros va. destruct (T !! PDX va) as [t|] eqn:Et.
  - rewrite (pte_at_table m' d T va t), (pte_at_table m d T va t) by done.
    apply (Hext t); [apply elem_of_pt_pages; eauto|pose proof (PTX_range va); mmu; lia..].
  - by rewrite (pte_at_none m' d T), (pte_at_none m d T).
Qed.

Lemma pt_ok_frame S m m' d T :
  same_out S m m' → (∀ p, p ∈ S → page_ok p ∧ p ∉ pt_pages d T) → pt_ok m d T →
  pt_ok m' d T ∧ ∀ va, pte_at m' d va = pte_at m d va.
Proof.
  intros H HS Hpt. apply pt_ok_ext; [|done]. intros q a Hq H1 H2.
  apply (same_out_page S m m' q); auto.
  - intros p Hp. by apply HS.
  - by eapply pt_pages_ok.
  - intros Hin. by apply (HS q).
Qed.

(** A new, empty table for directory index [i]. *)
Definition new_table (m : gmap Z Z) (d i t : Z) : gmap Z Z :=
  write32 (memset m t 0 PGSIZE) (d + 4 * i) (pde_of t).

Lemma pt_ok_new_table m d T i t :
  pt_ok m d T → 0 <= i < 1024 → T !! i = None → page_ok t → t ∉ pt_pages d T →
  pt_ok (new_table m d i t) d (<[i := t]> T) ∧
  ∀ va, pte_at (new_table m d i t) d va = pte_at m d va.
Proof.
  intros Hpt Hi HT Ht Hnew. pose proof Hpt as (Hd & Hp & Hinj & Hr).
  rewrite elem_of_pt_pages in Hnew.
  assert (t ≠ d ∧ ∀ j, T !! j ≠ Some t) as [Htd HtT] by (split; [intros ->|intros j Hj]; apply Hnew; eauto).
  pose proof (pages_apart t d Ht Hd Htd) as Hap.
  assert (∀ j, 0 <= j < 1024 →
    pde_at (new_table m d i t) d j = if decide (j = i) then pde_of t else pde_at m d j) as Hde.
  { intros j Hj. unfold pde_at, new_table. case_decide as Hji; [subst j|].
    - by rewrite read32_write32, u32_small by (by apply pde_of_u32).
    - rewrite read32_write32_ne by lia. apply read32_memset_ne; mmu; lia. }
  assert (pt_ok (new_table m d i t) d (<[i := t]> T)) as Hpt'.
  { split_and!; [done|..].
    - intros j Hj. rewrite Hde, lookup_insert by done. repeat case_decide; simplify_eq; [done|].
      by apply Hp.
    - intros j k x. rewrite !lookup_insert. repeat case_decide; naive_solver.
    - intros j x. rewrite lookup_insert. case_decide; naive_solver. }
  split; [done|]. intros va. pose proof (PTX_range va). destruct (decide (PDX va = i)) as [<-|Hne].
  - rewrite (pte_at_table _ _ _ va t Hpt') by apply lookup_insert_eq.
    rewrite (pte_at_none m d T) by done. unfold new_table.
    rewrite read32_write32_ne by (mmu; lia). apply read32_memset; mmu; lia.
  - destruct (T !! PDX va) as [t'|] eqn:Et.
    + rewrite (pte_at_table _ _ _ va t' Hpt') by (by rewrite lookup_insert_ne).
      rewrite (pte_at_table m d T va t') by done. destruct (pt_table m d T _ t' Hpt Et) as (Ht' & Hd' & _).
      pose proof (pages_apart t' d Ht' Hd Hd'). assert (t' ≠ t) as Hn by (intros ->; by apply (HtT (PDX va))).
      destruct (pages_apart t' t Ht' Ht Hn);
        unfold new_table; (rewrite read32_write32_ne by (mmu; lia)); apply read32_memset_ne; mmu; lia.
    + rewrite (pte_at_none _ _ _ va Hpt') by (by rewrite lookup_insert_ne). by rewrite (pte_at_none m d T).
Qed.

(** Storing an entry. *)
Lemma pt_ok_store m d T t va v :
  pt_ok m d T → T !! PDX va = Some t → is_u32 v →
  pt_ok (write32 m (t + 4 * PTX va) v) d T ∧
  ∀ va', pte_at (write32 m (t + 4 * PTX va) v) d va' =
    if decide (PDX va' = PDX va ∧ PTX va' = PTX va) then v else pte_at m d va'.
Proof.
  intros Hpt Et Hv. pose proof Hpt as (Hd & Hp & Hinj & Hr).
  destruct (pt_table m d T _ t Hpt Et) as (Ht & Htd & _). pose proof (PTX_range va).
  assert (pt_ok (write32 m (t + 4 * PTX va) v) d T) as Hpt'.
  { split_and!; try done. intros i Hi. specialize (Hp i Hi).
    assert (pde_at (write32 m (t + 4 * PTX va) v) d i = pde_at m d i) as ->; [|done].
    apply read32_write32_ne. destruct (pages_apart t d Ht Hd Htd); mmu; lia. }
  split; [done|]. intros va'. pose proof (PTX_range va'). destruct (T !! PDX va') as [t'|] eqn:Et'.
  - rewrite (pte_at_table _ _ _ va' t' Hpt') by done. rewrite (pte_at_table m d T va' t') by done.
    case_decide as Hc.
    + destruct Hc as [E1 E2]. rewrite E1, Et in Et'. injection Et' as <-. rewrite E2.
      by rewrite read32_write32, u32_small.
    + apply read32_write32_ne. destruct (decide (t' = t)) as [->|Hne].
      * assert (PDX va' = PDX va) by (by eapply Hinj). assert (PTX va' ≠ PTX va) by tauto. lia.
      * destruct (pt_table m d T _ t' Hpt Et') as (Ht' & _).
        destruct (pages_apart t' t Ht' Ht Hne); mmu; lia.
  - rewrite (pte_at_none _ _ _ va' Hpt') by done. rewrite (pte_at_none m d T) by done.
    case_decide as Hc; [|done]. destruct Hc as [E1 _]. congruence.
Qed.

(** ** walkpgdir *)

(** Directory [d] is well formed, the allocator's invariant holds, and the
    page-table pages are not free. *)
Definition vm_inv (s : kstate) (d : Z) (T : gmap Z Z) (l : list Z) : Prop :=
  pt_ok (k_mem s) d T ∧ kmem_ok s l ∧ kmem_free s ∧ ∀ p, p ∈ l → p ∉ pt_pages d T.

(** Only memory and the allocator have changed. *)
Definition only_vm (s s' : kstate) : Prop := s' = set_k_kmem (k_kmem s') (set_k_mem (k_mem s') s).

Lemma only_vm_refl s : only_vm s s.
Proof. unfold only_vm. by destruct s. Qed.
Lemma only_vm_trans s1 s2 s3 : only_vm s1 s2 → only_vm s2 s3 → only_vm s1 s3.
Proof. unfold only_vm. intros -> ->. rec_eq. Qed.

Lemma kmem_ok_frame S s l m' :
  kmem_ok s l → same_out S (k_mem s) m' → (∀ q, q ∈ S → page_ok q) → (∀ q, q ∈ l → q ∉ S) →
  mem_ok m' → kmem_ok (set_k_mem m' s) l.
Proof.
  intros (Hm & Hl & Hnd & Hok) HS HSp Hd Hm'. split_and!; try done. simpl.
  by apply (free_list_same_out S (k_mem s)).
Qed.

Lemma walkpgdir_lookup s d T va :
  pt_ok (k_mem s) d T →
  walkpgdir d va false s =
    Ok (match T !! PDX va with Some t => t + 4 * PTX va | None => 0 end) s.
Proof.
  intros (Hd & Hp & _). specialize (Hp _ (PDX_range va)). unfold walkpgdir, load. mrun.
  change (read32 (k_mem s) (d + 4 * PDX va)) with (pde_at (k_mem s) d (PDX va)).
  destruct (T !! PDX va) as [t|].
  - destruct Hp as (-> & Ht & _). by rewrite pde_of_P, pde_of_addr.
  - by rewrite Hp.
Qed.

(** What walkpgdir with allocation did: it used up the pages [used]. *)
Record grown (s s' : kstate) (d : Z) (T T' : gmap Z Z) (used l' : list Z) : Prop := {
  g_inv : vm_inv s' d T' l';
  g_sub : T ⊆ T';
  g_new : ∀ i t, T' !! i = Some t → T !! i = Some t ∨ t ∈ used;
  g_only : only_vm s s';
  g_mem : same_out (pt_pages d T') (k_mem s) (k_mem s')
}.

Lemma pt_pages_sub d T T' : T ⊆ T' → pt_pages d T ⊆ pt_pages d T'.
Proof.
  intros H p. rewrite !elem_of_pt_pages. intros [->|[i Hi]]; [by left|].
  right. exists i. by eapply lookup_weaken.
Qed.

Lemma grown_trans s1 s2 s3 d T1 T2 T3 u1 u2 l2 l3 :
  grown s1 s2 d T1 T2 u1 l2 → grown s2 s3 d T2 T3 u2 l3 → grown s1 s3 d T1 T3 (u1 ++ u2) l3.
Proof.
  intros G1 G2. split.
  - apply G2.
  - etrans; [apply G1|apply G2].
  - intros i t Hi. apply (g_new _ _ _ _ _ _ _ G2) in Hi as [Hi|]; [|rewrite elem_of_app; auto].
    apply (g_new _ _ _ _ _ _ _ G1) in Hi as [|]; rewrite elem_of_app; auto.
  - eapply only_vm_trans; [apply G1|apply G2].
  - eapply same_out_trans; [|apply G2]. eapply same_out_mono; [|apply G1].
    apply pt_pages_sub, G2.
Qed.

Lemma walkpgdir_alloc_spec s d T l va :
  vm_inv s d T l → (T !! PDX va = None → l ≠ []) →
  ∃ s' T' used l' t, walkpgdir d va true s = Ok (t + 4 * PTX va) s' ∧ l = used ++ l' ∧
    (length used ≤ if T !! PDX va then 0 else 1)%nat ∧ T' !! PDX va = Some t ∧
    grown s s' d T T' used l' ∧ ∀ va', pte_at (k_mem s') d va' = pte_at (k_mem s) d va'.
Proof.
  intros Hinv Hl. pose proof Hinv as (Hpt & Hk & Hf & Hd). pose proof Hpt as (Hdok & Hp & _).
  specialize (Hp _ (PDX_range va)). unfold walkpgdir, load.
  change (λ s0, read32 (k_mem s0) (d + 4 * PDX va)) with (λ s0, pde_at (k_mem s0) d (PDX va)).
  destruct (T !! PDX va) as [t|] eqn:Et.
  - destruct Hp as (He & Ht & _). exists s, T, [], l, t. mrun. rewrite He, pde_of_P, pde_of_addr by done.
    split_and!; try done. split; try done; [by left|apply only_vm_refl].
  - specialize (Hl eq_refl). destruct l as [|t l']; [done|].
    destruct (kalloc_spec _ _ Hk Hf) as (s1 & Ha & Hk1 & Hf1 & Ht & Hnin & Hm1 & Es1).
    assert (t ∉ pt_pages d T) as Hnew by (apply Hd, elem_of_cons; by left).
    destruct (pt_ok_new_table _ d T (PDX va) t Hpt (PDX_range va) Et Ht Hnew) as [Hpt' Hsame].
    set (m' := new_table (k_mem s) d (PDX va) t) in *.
    assert (same_out (pt_pages d (<[PDX va := t]> T)) (k_mem s) m') as Hout.
    { eapply same_out_trans; [apply (same_out_memset _ _ t)|apply (same_out_write32 _ _ d)];
        [apply elem_of_pt_pages; right; exists (PDX va); apply lookup_insert_eq|
         apply elem_of_pt_pages; by left|pose proof (PDX_range va); mmu; lia..]. }
    exists (set_k_mem m' s1), (<[PDX va := t]> T), [t], l', t. split_and!; try done.
    + mrun. rewrite Hp. simpl. rewrite Ha. destruct Ht as (_ & _ & ? & _).
      rewrite (proj2 (Z.eqb_neq t 0)) by lia. unfold do_memset, store. mrun. simpl. rewrite Hm1. done.
    + apply lookup_insert_eq.
    + split; cbn [k_mem set_k_mem].
      * assert (∀ q, q ∈ l' → q ∉ pt_pages d (<[PDX va:=t]> T)) as Hd'.
        { intros q Hq. assert (q ≠ t) by (by intros ->). assert (q ∉ pt_pages d T) as Hq' by (apply Hd, elem_of_cons; by right).
          rewrite elem_of_pt_pages in Hq' |- *. intros [->|[i Hi]]; [apply Hq'; by left|].
          rewrite lookup_insert in Hi. case_decide; [congruence|]. apply Hq'. eauto. }
        split_and!; try done. rewrite <- Hm1 in Hout.
        apply (kmem_ok_frame _ _ _ _ Hk1 Hout); [|done|].
        -- intros q Hq. by eapply pt_pages_ok.
        -- unfold m', new_table. destruct Hk as (Hm & _). apply mem_ok_write32, mem_ok_memset; [mmu; lia|done].
      * by apply insert_subseteq.
      * intros i x. rewrite lookup_insert. case_decide; [|auto]. intros [= ->]. right. apply elem_of_cons. by left.
      * unfold only_vm. rewrite Es1. rec_eq.
      * done.
Qed.

(** ** mappages *)

Lemma PDX_u32 va : is_u32 va → PDX va = va / 4194304.
Proof. intros H. mmu. apply Z.mod_small. Z.div_mod_to_equations. lia. Qed.

(** Two addresses have the same entry iff they are in the same page. *)
Lemma same_entry va va' :
  is_u32 va → is_u32 va' →
  PDX va' = PDX va ∧ PTX va' = PTX va ↔ va' - va' mod 4096 = va - va mod 4096.
Proof.
  intros H H'. rewrite !PDX_u32 by done. rewrite !PTX_eq. unfold is_u32 in *.
  split; intros; Z.div_mod_to_equations; lia.
Qed.

Lemma perm_pte pa perm :
  pa mod PGSIZE = 0 → 0 <= perm < PGSIZE → 0 <= pa < 4294967296 →
  is_u32 (Z.lor (Z.lor pa perm) PTE_P) ∧ has (Z.lor (Z.lor pa perm) PTE_P) PTE_P = true ∧
  PTE_ADDR (Z.lor (Z.lor pa perm) PTE_P) = pa ∧
  PTE_FLAGS (Z.lor (Z.lor pa perm) PTE_P) = Z.lor perm PTE_P.
Proof.
  intros Hpa Hperm Hr. assert (0 <= Z.lor perm PTE_P < PGSIZE) as Hf.
  { split; [apply Z.lor_nonneg; mmu; lia|]. change PGSIZE with (2 ^ 12).
    destruct (Z.eq_dec (Z.lor perm PTE_P) 0) as [->|]; [done|].
    apply Z.log2_lt_pow2; [pose proof (Z.lor_nonneg perm PTE_P); mmu; lia|].
    rewrite Z.log2_lor by (mmu; lia). apply Z.max_lub_lt; [|done].
    destruct (Z.eq_dec perm 0) as [->|]; [done|]. apply Z.log2_lt_pow2; [lia|]. exact (proj2 Hperm). }
  rewrite <- Z.lor_assoc. split_and!.
  - rewrite PTE_lor by done. clear Hperm. revert Hf. generalize (Z.lor perm PTE_P). intros f Hf.
    mmu. Z.div_mod_to_equations. lia.
  - unfold has. rewrite !Z.land_lor_distr_l. change (Z.land PTE_P PTE_P) with 1.
    destruct (Z.eqb_spec (Z.lor (Z.land pa PTE_P) (Z.lor (Z.land perm PTE_P) 1)) 0) as [Hz|]; [|done].
    apply Z.lor_eq_0_iff in Hz as [_ Hz]. apply Z.lor_eq_0_iff in Hz. lia.
  - by apply PTE_ADDR_lor.
  - by apply PTE_FLAGS_lor.
Qed.

(** Page tables still missing for the pages from [a] to [last]. *)
Definition tables_needed (T : gmap Z Z) (a last : Z) : Z :=
  PDX last - PDX a + (if T !! PDX a then 0 else 1).

(** The entry that mapping [a] to [pa] gives the page of [va]. *)
Definition mapped_pte (a pa perm va : Z) : Z :=
  Z.lor (Z.lor (pa + (va - va mod 4096 - a)) perm) PTE_P.

(** [mapped s s' ... a n pa perm]: the [n] pages from [a] are mapped to [pa]. *)
Definition maps (m m' : gmap Z Z) (d a n pa perm : Z) : Prop :=
  ∀ va, is_u32 va →
    pte_at m' d va = if decide (a <= va < a + n * 4096) then mapped_pte a pa perm va else pte_at m d va.

Lemma map_one s d T l a pa perm :
  vm_inv s d T l → is_u32 a → a mod 4096 = 0 → pa mod 4096 = 0 → is_u32 pa → 0 <= perm < 4096 →
  has (pte_at (k_mem s) d a) PTE_P = false → (T !! PDX a = None → l ≠ []) →
  ∃ s1 T' used l' t, walkpgdir d a true s = Ok (t + 4 * PTX a) s1 ∧
    t + 4 * PTX a ≠ 0 ∧ has (read32 (k_mem s1) (t + 4 * PTX a)) PTE_P = false ∧
    l = used ++ l' ∧ (length used ≤ if T !! PDX a then 0 else 1)%nat ∧ is_Some (T' !! PDX a) ∧
    let s' := set_k_mem (write32 (k_mem s1) (t + 4 * PTX a) (Z.lor (Z.lor pa perm) PTE_P)) s1 in
    grown s s' d T T' used l' ∧ maps (k_mem s) (k_mem s') d a 1 pa perm.
Proof.
  intros Hinv Ha Hal Hpal Hpa Hperm Hnp Hl.
  destruct (walkpgdir_alloc_spec s d T l a Hinv Hl) as (s1 & T' & used & l' & t & Hw & -> & Hu & Ht & G & Hsame).
  destruct (g_inv _ _ _ _ _ _ _ G) as (Hpt1 & Hk1 & Hf1 & Hd1).
  destruct (perm_pte pa perm) as (Hv & _); [done|done|done|].
  destruct (pt_ok_store _ d T' t a _ Hpt1 Ht Hv) as [Hpt2 Hpte2].
  destruct (pt_table _ _ _ _ _ Hpt1 Ht) as (Htok & _). pose proof (PTX_range a) as HX.
  exists s1, T', used, l', t. split_and!; try done.
  - destruct Htok as (_ & _ & ? & _). lia.
  - rewrite <- (pte_at_table _ d T' a t Hpt1 Ht), Hsame. done.
  - assert (same_out (pt_pages d T') (k_mem s1)
      (write32 (k_mem s1) (t + 4 * PTX a) (Z.lor (Z.lor pa perm) PTE_P))) as Hout.
    { apply (same_out_write32 _ _ t); [apply elem_of_pt_pages; eauto|mmu; lia..]. }
    split.
    + split; cbn [k_mem set_k_mem]; try apply G.
      * unfold vm_inv. split_and!; [done| |done|done]. apply (kmem_ok_frame (pt_pages d T')); try done.
        -- intros q Hq. by eapply pt_pages_ok.
        -- apply mem_ok_write32. by destruct Hk1.
      * eapply only_vm_trans; [apply G|]. unfold only_vm. rec_eq.
      * eapply same_out_trans; [apply G|done].
    + intros va Hva. cbn [k_mem set_k_mem]. rewrite Hpte2, Hsame.
      destruct (decide (PDX va = PDX a ∧ PTX va = PTX a)) as [Hc|Hc].
      * apply same_entry in Hc; [|done|done]. rewrite decide_True by (Z.div_mod_to_equations; lia).
        unfold mapped_pte. do 2 f_equal. lia.
      * rewrite same_entry in Hc by done. rewrite decide_False; [done|].
        intros Hr. apply Hc. Z.div_mod_to_equations. lia.
Qed.

Lemma PDX_next a : is_u32 (a + 4096) → 0 <= a → a mod 4096 = 0 → PDX (a + 4096) = PDX a ∨ PDX (a + 4096) = PDX a + 1.
Proof.
  intros H H0 Hal. rewrite !PDX_u32 by (unfold is_u32 in *; lia). Z.div_mod_to_equations. lia.
Qed.

Lemma maps_cons m m1 m2 d a n pa perm :
  0 <= n → a mod 4096 = 0 → maps m m1 d a 1 pa perm → maps m1 m2 d (a + 4096) n (pa + 4096) perm →
  maps m m2 d a (n + 1) pa perm.
Proof.
  intros Hn Hal H1 H2 va Hva. rewrite H2, H1 by done. unfold mapped_pte.
  repeat case_decide; try lia; try done. do 2 f_equal. lia.
Qed.

Lemma mappages_loop_spec n fuel s d T l a pa perm :
  (n < fuel)%nat → vm_inv s d T l → a mod 4096 = 0 → pa mod 4096 = 0 →
  0 <= a → a + (Z.of_nat n + 1) * 4096 <= 4294967296 →
  0 <= pa → pa + (Z.of_nat n + 1) * 4096 <= 4294967296 → 0 <= perm < 4096 →
  (∀ va, a <= va < a + (Z.of_nat n + 1) * 4096 → has (pte_at (k_mem s) d va) PTE_P = false) →
  tables_needed T a (a + Z.of_nat n * 4096) <= Z.of_nat (length l) →
  ∃ s' T' used l', mappages_loop fuel d a (a + Z.of_nat n * 4096) pa perm s = Ok 0 s' ∧
    l = used ++ l' ∧ Z.of_nat (length used) <= tables_needed T a (a + Z.of_nat n * 4096) ∧
    grown s s' d T T' used l' ∧ maps (k_mem s) (k_mem s') d a (Z.of_nat n + 1) pa perm.
Proof.
  revert fuel s T l a pa. induction n as [|n IH]; intros [|fuel] s T l a pa Hfuel Hinv Hal Hpal Ha Ha' Hp Hp'
    Hperm Hnp Hneed; try lia; cbn [mappages_loop].
  - unfold tables_needed in *. rewrite Z.add_0_r, Z.sub_diag in *.
    destruct (map_one s d T l a pa perm) as (s1 & T' & used & l' & t & Hw & Hnz & Hnp1 & -> & Hu & _ & G & Hm);
      [done|split; lia|done|done|split; lia|done|apply Hnp; lia| |].
    { intros HT ->. rewrite HT in Hneed. simpl in Hneed. lia. }
    rewrite (bind_Ok _ _ _ _ _ Hw), (proj2 (Z.eqb_neq _ _) Hnz). unfold load, store. mrun.
    rewrite Hnp1. rewrite Z.eqb_refl. do 4 eexists. split; [done|]. split; [done|].
    split; [destruct (T !! PDX a); simpl in *; lia|]. split; [done|]. simpl. done.
  - set (last := a + Z.of_nat (S n) * 4096) in *.
    assert (is_u32 (a + 4096)) as Hu32 by (split; lia).
    destruct (map_one s d T l a pa perm) as (s1 & T1 & used & l1 & t & Hw & Hnz & Hnp1 & -> & Hu & HT1 & G & Hm);
      [done|split; lia|done|done|split; lia|done|apply Hnp; lia| |].
    { intros HT ->. unfold tables_needed in Hneed. rewrite HT in Hneed. simpl in Hneed.
      assert (PDX a <= PDX last); [|lia]. rewrite !PDX_u32 by (unfold is_u32, last; lia).
      apply Z.div_le_mono; unfold last; lia. }
    rewrite (bind_Ok _ _ _ _ _ Hw), (proj2 (Z.eqb_neq _ _) Hnz). unfold load, store. mrun.
    rewrite Hnp1, (proj2 (Z.eqb_neq a last)) by (unfold last; lia).
    rewrite (u32_small (a + PGSIZE)), (u32_small (pa + PGSIZE)) by (mmu; lia).
    set (s2 := set_k_mem _ s1) in *.
    assert (last = a + PGSIZE + Z.of_nat n * 4096) as Hlast by (unfold last; mmu; lia).
    assert (tables_needed T1 (a + 4096) last <= tables_needed T a last - Z.of_nat (length used)) as Hstep.
    { unfold tables_needed. destruct (PDX_next a Hu32 Ha Hal) as [-> | ->].
      - destruct HT1 as [t1 ->]. destruct (T !! PDX a); simpl in Hu; lia.
      - destruct (T1 !! (PDX a + 1)), (T !! PDX a); simpl in Hu; lia. }
    rewrite length_app in Hneed.
    destruct (IH fuel s2 T1 l1 (a + PGSIZE) (pa + PGSIZE)) as (s3 & T3 & used3 & l3 & Hr & -> & Hu3 & G3 & Hm3).
    + lia.
    + apply G.
    + mmu. Z.div_mod_to_equations. lia.
    + mmu. Z.div_mod_to_equations. lia.
    + mmu. lia.
    + mmu. lia.
    + mmu. lia.
    + mmu. lia.
    + done.
    + intros va Hva. unfold PGSIZE in Hva. rewrite Hm by (unfold is_u32; lia).
      rewrite decide_False by lia. apply Hnp. lia.
    + rewrite <- Hlast. unfold PGSIZE. lia.
    + rewrite <- Hlast in *. exists s3, T3, (used ++ used3), l3. rewrite Hr.
      split; [done|]. split; [by rewrite (assoc_L (++))|]. rewrite length_app. unfold PGSIZE in *.
      split; [lia|]. split; [by eapply grown_trans|].
      replace (Z.of_nat (S n) + 1) with (Z.of_nat n + 1 + 1) by lia.
      apply (maps_cons _ (k_mem s2)); [lia|done..].
Qed.

End PageTable.
