(* ===== verification/AddrSpace.v ===== *)
(** * AddrSpace: address spaces built by vm.c

    setupkvm() gives every page directory the kernel's mappings, and copyuvm()
    copies a process's memory into a new address space. [LinkOk] states what the
    linker script kernel.ld says about the symbols data and end. *)

From S2P Require Import Prelude Machine CMem Mmu Kalloc ConsOut Vm PageTable.
From stdpp Require Import options.

Class LinkOk (E : Env) := {
  data_aligned : sym_data mod 4096 = 0;
  data_above_text : KERNLINK < sym_data;
  data_below_end : sym_data <= sym_end;
  end_in_memory : sym_end < KERNBASE + PHYSTOP
}.

Section AddrSpace.
Context {E : Env}.

(** ** mappages on whole pages *)

Lemma mappages_spec s d T l va k pa perm :
  vm_inv s d T l → va mod 4096 = 0 → pa mod 4096 = 0 → 1 <= k →
  0 <= va → va + k * 4096 <= 4294967296 → 0 <= pa → pa + k * 4096 <= 4294967296 → 0 <= perm < 4096 →
  (∀ a, va <= a < va + k * 4096 → has (pte_at (k_mem s) d a) PTE_P = false) →
  tables_needed T va (va + (k - 1) * 4096) <= Z.of_nat (length l) →
  ∃ s' T' used l', mappages d va (k * 4096) pa perm s = Ok 0 s' ∧
    l = used ++ l' ∧ Z.of_nat (length used) <= tables_needed T va (va + (k - 1) * 4096) ∧
    grown s s' d T T' used l' ∧ maps (k_mem s) (k_mem s') d va k pa perm.
Proof.
  intros Hinv Hva Hpa Hk Hva0 Hva1 Hpa0 Hpa1 Hperm Hnp Hneed. unfold mappages.
  rewrite (u32_small (va + k * 4096 - 1)) by (unfold is_u32; lia). rewrite !PGROUNDDOWN_eq. unfold PGSIZE.
  rewrite Hva, Z.sub_0_r.
  assert (va + k * 4096 - 1 - (va + k * 4096 - 1) mod 4096 = va + (k - 1) * 4096) as ->
    by (Z.div_mod_to_equations; lia).
  replace (va + (k - 1) * 4096 - va) with ((k - 1) * 4096) by lia.
  rewrite u32_small by (unfold is_u32; lia). rewrite Z.div_mul by lia.
  pose proof (mappages_loop_spec (Z.to_nat (k - 1)) (S (Z.to_nat (k - 1))) s d T l va pa perm) as H.
  rewrite Z2Nat.id in H by lia. replace (k - 1 + 1) with k in H by lia. apply H; auto; lia.
Qed.

(** ** setupkvm *)

(** The kernel's part of every address space. *)
Definition kernel_pte (va : Z) : Z :=
  let page := va - va mod 4096 in
  if decide (va < KERNBASE) then 0
  else if decide (va < KERNBASE + PHYSTOP) then
    Z.lor (Z.lor (page - KERNBASE) (if decide (KERNLINK <= va < sym_data) then 0 else PTE_W)) PTE_P
  else if decide (va < DEVSPACE) then 0
  else Z.lor (Z.lor page PTE_W) PTE_P.

Lemma empty_dir m d :
  page_ok d → pt_ok (memset m d 0 PGSIZE) d ∅ ∧ ∀ va, pte_at (memset m d 0 PGSIZE) d va = 0.
Proof.
  intros Hd. assert (pt_ok (memset m d 0 PGSIZE) d ∅) as Hpt.
  { split_and!; [done| |by intros ???..]. intros i Hi. rewrite lookup_empty. unfold pde_at.
    rewrite read32_memset by (mmu; lia). done. }
  split; [done|]. intros va. by apply (pte_at_none _ _ ∅).
Qed.

Lemma tables_bound T a b lo hi :
  is_u32 a → is_u32 b → lo * 4194304 <= a → b < (hi + 1) * 4194304 →
  tables_needed T a b <= hi - lo + 1.
Proof.
  intros Ha Hb H1 H2. unfold tables_needed. rewrite !PDX_u32 by done. unfold is_u32 in *.
  destruct (T !! _); Z.div_mod_to_equations; lia.
Qed.

(** One entry of [kmap], as setupkvm maps it. *)
Definition map_entry (d : Z) : Z * Z * Z * Z → K (option Z) := λ '(virt, phys_start, phys_end, perm),
  x ← mappages d virt (u32 (phys_end - phys_start)) phys_start perm;
  mret (if x <? 0 then Some 0 else None).

Lemma map_entry_spec s d T l virt ps pe perm k lo hi :
  vm_inv s d T l → u32 (pe - ps) = k * 4096 → virt mod 4096 = 0 → ps mod 4096 = 0 → 1 <= k →
  0 <= virt → virt + k * 4096 <= 4294967296 → 0 <= ps → ps + k * 4096 <= 4294967296 → 0 <= perm < 4096 →
  (∀ a, virt <= a < virt + k * 4096 → pte_at (k_mem s) d a = 0) →
  lo * 4194304 <= virt → virt + (k - 1) * 4096 < (hi + 1) * 4194304 →
  hi - lo + 1 <= Z.of_nat (length l) →
  ∃ s' T' used l', map_entry d (virt, ps, pe, perm) s = Ok None s' ∧
    l = used ++ l' ∧ Z.of_nat (length used) <= hi - lo + 1 ∧
    grown s s' d T T' used l' ∧ maps (k_mem s) (k_mem s') d virt k ps perm.
Proof.
  intros Hinv Hsz H1 H2 H3 H4 H5 H6 H7 H8 H9 Hlo Hhi Hlen. unfold map_entry. rewrite Hsz.
  assert (tables_needed T virt (virt + (k - 1) * 4096) <= hi - lo + 1) as Hb
    by (apply tables_bound; unfold is_u32; lia).
  destruct (mappages_spec s d T l virt k ps perm) as (s' & T' & used & l' & Hm & -> & Hu & G & Hmap); auto.
  - intros a Ha. by rewrite H9.
  - lia.
  - exists s', T', used, l'. rewrite (bind_Ok _ _ _ _ _ Hm). split_and!; try done. lia.
Qed.

(** The directory before anything is mapped. *)
Lemma setupkvm_start s l d :
  kmem_ok s (d :: l) → kmem_free s →
  ∃ s1, kalloc s = Ok d s1 ∧ only_vm s (set_k_mem (memset (k_mem s1) d 0 PGSIZE) s1) ∧ d ≠ 0 ∧
    let s2 := set_k_mem (memset (k_mem s1) d 0 PGSIZE) s1 in
    vm_inv s2 d ∅ l ∧ same_out {[ d ]} (k_mem s) (k_mem s2) ∧ ∀ va, pte_at (k_mem s2) d va = 0.
Proof.
  intros Hk Hf. destruct (kalloc_spec _ _ Hk Hf) as (s1 & Ha & Hk1 & Hf1 & Hd & Hnin & Hm1 & Es1).
  exists s1. destruct (empty_dir (k_mem s1) d Hd) as [Hpt Hz].
  assert (same_out {[ d ]} (k_mem s1) (memset (k_mem s1) d 0 PGSIZE)) as Hout
    by (apply (same_out_memset _ _ d); set_solver).
  split; [done|]. split; [unfold only_vm; rewrite Es1; rec_eq|]. split; [destruct Hd as (_ & _ & ? & _); lia|].
  cbn [k_mem set_k_mem]. split; [|by rewrite <- Hm1].
  unfold vm_inv. split_and!; [done| |done|].
  - apply (kmem_ok_frame {[ d ]}); try done.
    + by intros q ->%elem_of_singleton.
    + intros q Hq ->%elem_of_singleton. done.
    + apply mem_ok_memset; [mmu; lia|]. by destruct Hk1.
  - intros q Hq [->|[i Hi]]%elem_of_pt_pages; [done|]. by rewrite lookup_empty in Hi.
Qed.

(** The four mappings cover the kernel's part of the address space. *)
Lemma kernel_pte_maps {LO : LinkOk E} m0 m1 m2 m3 m4 d :
  (∀ va, pte_at m0 d va = 0) →
  maps m0 m1 d KERNBASE 256 0 PTE_W →
  maps m1 m2 d KERNLINK ((sym_data - KERNLINK) / 4096) EXTMEM 0 →
  maps m2 m3 d sym_data ((KERNBASE + PHYSTOP - sym_data) / 4096) (sym_data - KERNBASE) PTE_W →
  maps m3 m4 d DEVSPACE 8192 DEVSPACE PTE_W →
  ∀ va, is_u32 va → pte_at m4 d va = kernel_pte va.
Proof.
  intros H0 H1 H2 H3 H4 va Hva. rewrite H4, H3, H2, H1, H0 by done.
  pose proof data_aligned. pose proof data_above_text. pose proof data_below_end. pose proof end_in_memory.
  assert ((sym_data - KERNLINK) / 4096 * 4096 = sym_data - KERNLINK) as E1 by (mmu; Z.div_mod_to_equations; lia).
  assert ((KERNBASE + PHYSTOP - sym_data) / 4096 * 4096 = KERNBASE + PHYSTOP - sym_data) as E2
    by (mmu; Z.div_mod_to_equations; lia).
  rewrite E1, E2. unfold kernel_pte, mapped_pte, is_u32, KERNLINK, KERNBASE, PHYSTOP, EXTMEM, DEVSPACE in *.
  repeat case_decide; try lia; do 2 f_equal; lia.
Qed.

Lemma setupkvm_spec {LO : LinkOk E} s l :
  kmem_ok s l → kmem_free s → 130 <= Z.of_nat (length l) →
  ∃ d s' T used l', setupkvm s = Ok d s' ∧ d ≠ 0 ∧ l = used ++ l' ∧ Z.of_nat (length used) <= 130 ∧
    vm_inv s' d T l' ∧ d ∈ used ∧ (∀ i t, T !! i = Some t → t ∈ used) ∧ only_vm s s' ∧
    same_out (pt_pages d T) (k_mem s) (k_mem s') ∧
    ∀ va, is_u32 va → pte_at (k_mem s') d va = kernel_pte va.
Proof using Type*.
  intros Hk Hf Hlen. destruct l as [|d l]; [simpl in Hlen; lia|].
  pose proof data_aligned as HA. pose proof data_above_text as HB.
  pose proof data_below_end as HC. pose proof end_in_memory as HD.
  destruct (setupkvm_start s l d Hk Hf) as (s1 & Ha & Ho & Hd0 & Hinv & Hout & Hz).
  set (s2 := set_k_mem _ s1) in *. simpl length in Hlen.
  unfold setupkvm. rewrite (bind_Ok _ _ _ _ _ Ha), (proj2 (Z.eqb_neq d 0)) by done.
  rewrite (bind_Ok (do_memset d 0 PGSIZE) _ s1 tt s2 eq_refl).
  change (p2v PHYSTOP >? DEVSPACE) with false. cbv iota.
  change (λ '(virt, phys_start, phys_end, perm), _) with (map_entry d).
  assert (v2p sym_data = sym_data - KERNBASE) as Ev by (mmu; rewrite Z.mod_small; lia).
  destruct (map_entry_spec s2 d ∅ l KERNBASE 0 EXTMEM PTE_W 256 512 512) as
    (t1 & T1 & u1 & l1 & R1 & -> & U1 & G1 & M1);
    [done|done|done|done|lia|mmu; lia|mmu; lia|lia|mmu; lia|mmu; lia|auto|mmu; lia|mmu; lia|lia|].
  rewrite length_app in Hlen.
  assert ((sym_data - KERNLINK) / 4096 * 4096 = sym_data - KERNLINK) as E1 by (mmu; Z.div_mod_to_equations; lia).
  assert ((KERNBASE + PHYSTOP - sym_data) / 4096 * 4096 = KERNBASE + PHYSTOP - sym_data) as E2
    by (mmu; Z.div_mod_to_equations; lia).
  set (k1 := (sym_data - KERNLINK) / 4096) in *. set (k2 := (KERNBASE + PHYSTOP - sym_data) / 4096) in *.
  destruct (map_entry_spec t1 d T1 l1 KERNLINK EXTMEM (sym_data - KERNBASE) 0 k1 512 567)
    as (t2 & T2 & u2 & l2 & R2 & -> & U2 & G2 & M2); try (mmu; lia); try done; [apply G1|..].
  { rewrite E1. mmu. rewrite Z.mod_small; lia. }
  { intros a Ha'. cbn beta. rewrite M1 by (mmu; lia). rewrite decide_False by (mmu; lia). apply Hz. }
  rewrite length_app in Hlen.
  destruct (map_entry_spec t2 d T2 l2 sym_data (sym_data - KERNBASE) PHYSTOP PTE_W k2 512 567)
    as (t3 & T3 & u3 & l3 & R3 & -> & U3 & G3 & M3); try (mmu; lia); try done; [apply G2|..].
  { rewrite E2. mmu. rewrite Z.mod_small; lia. }
  { mmu. Z.div_mod_to_equations. lia. }
  { intros a Ha'. rewrite M2, M1 by (mmu; lia). rewrite !decide_False by (mmu; lia). apply Hz. }
  rewrite length_app in Hlen.
  destruct (map_entry_spec t3 d T3 l3 DEVSPACE DEVSPACE 0 PTE_W 8192 1016 1023)
    as (t4 & T4 & u4 & l4 & R4 & -> & U4 & G4 & M4); try (mmu; lia); try done; [apply G3|..].
  { intros a Ha'. rewrite M3, M2, M1 by (mmu; lia). rewrite !decide_False by (mmu; lia). apply Hz. }
  pose proof (grown_trans _ _ _ _ _ _ _ _ _ _ _ G1 (grown_trans _ _ _ _ _ _ _ _ _ _ _ G2
    (grown_trans _ _ _ _ _ _ _ _ _ _ _ G3 G4))) as G.
  exists d, t4, T4, (d :: u1 ++ u2 ++ u3 ++ u4), l4.
  assert (for_ret kmap (map_entry d) s2 = Ok None t4) as Hr.
  { unfold kmap. rewrite Ev. change (v2p KERNLINK) with EXTMEM. cbn [for_ret].
    rewrite (bind_Ok _ _ _ _ _ R1), (bind_Ok _ _ _ _ _ R2), (bind_Ok _ _ _ _ _ R3), (bind_Ok _ _ _ _ _ R4). done. }
  rewrite (bind_Ok _ _ _ _ _ Hr).
  split_and!; [done|done|simpl; by rewrite <- !(assoc_L (++))|simpl length; rewrite !length_app; lia|apply G|..].
  - by apply elem_of_cons; left.
  - intros i t Hi. apply (g_new _ _ _ _ _ _ _ G) in Hi as [Hi|Hi]; [by rewrite lookup_empty in Hi|].
    apply elem_of_cons. by right.
  - eapply only_vm_trans; [exact Ho|apply G].
  - eapply same_out_trans; [|apply G]. eapply same_out_mono; [|exact Hout].
    intros p ->%elem_of_singleton. apply elem_of_pt_pages. by left.
  - exact (kernel_pte_maps _ _ _ _ _ d Hz M1 M2 M3 M4).
Qed.

(** ** copyuvm *)

(** The page of memory behind a present entry. *)
Definition frame_of (e : Z) : Z := p2v (PTE_ADDR e).

(** A user page of the address space [d]: present, and a page that is in use. *)
Definition user_page (m : gmap Z Z) (l : list Z) (d va : Z) : Prop :=
  has (pte_at m d va) PTE_P = true ∧ page_ok (frame_of (pte_at m d va)) ∧
  frame_of (pte_at m d va) ∉ l.

(** [va] of address space [d'] in [m'] is a copy of [va] of [d] in [m], in a
    page taken from [used]. *)
Definition copied (m m' : gmap Z Z) (d d' : Z) (used : list Z) (va : Z) : Prop :=
  let e := pte_at m d va in
  let e' := pte_at m' d' va in
  has e' PTE_P = true ∧ PTE_FLAGS e' = Z.lor (PTE_FLAGS e) PTE_P ∧ frame_of e' ∈ used ∧
  ∀ o, 0 <= o < 4096 → rd m' (frame_of e' + o) = rd m (frame_of e + o).

Lemma same_out_rd S m m' q b :
  same_out S m m' → (∀ p, p ∈ S → page_ok p) → page_ok q → q ∉ S → q <= b < q + 4096 → rd m' b = rd m b.
Proof.
  intros H HS Hq Hnin Hb. apply H. intros p Hp. unfold PGSIZE.
  destruct (pages_apart q p Hq (HS p Hp)) as [H1|H1]; [by intros ->|..]; unfold PGSIZE in H1; lia.
Qed.

(** One round of the copy loop: a fresh page [q], filled from the parent's page
    [src] and mapped at [i]. *)
Lemma copy_one s d T q l i e :
  vm_inv s d T (q :: l) → i mod 4096 = 0 → 0 <= i < KERNBASE → page_ok (frame_of e) →
  frame_of e ∉ q :: l → frame_of e ∉ pt_pages d T →
  (∀ a, i <= a < i + 4096 → has (pte_at (k_mem s) d a) PTE_P = false) → (1 <= length l)%nat →
  ∃ s1 s3 T' used l', kalloc s = Ok q s1 ∧ q ≠ 0 ∧ k_mem s1 = k_mem s ∧
    mappages d i PGSIZE (v2p q) (PTE_FLAGS e) (set_k_mem (memmove (k_mem s1) q (frame_of e) PGSIZE) s1) = Ok 0 s3 ∧
    l = used ++ l' ∧ (length used ≤ 1)%nat ∧ vm_inv s3 d T' l' ∧ T ⊆ T' ∧
    (∀ j t, T' !! j = Some t → T !! j = Some t ∨ t ∈ used) ∧ only_vm s s3 ∧ q ∉ pt_pages d T' ∧
    same_out ({[ q ]} ∪ pt_pages d T') (k_mem s) (k_mem s3) ∧
    maps (k_mem s) (k_mem s3) d i 1 (v2p q) (PTE_FLAGS e) ∧
    (∀ o, 0 <= o < 4096 → rd (k_mem s3) (q + o) = rd (k_mem s) (frame_of e + o)).
Proof.
  intros (Hpt & Hk & Hf & Hd) Hi Hir He Hel Hep Hnp Hlen.
  destruct (kalloc_spec _ _ Hk Hf) as (s1 & Ha & Hk1 & Hf1 & Hq & Hnin & Hm1 & Es1).
  assert (q ∉ pt_pages d T) as Hqd by (apply Hd, elem_of_cons; by left).
  assert (mem_ok (k_mem s)) as Hmok by (by destruct Hk).
  set (m2 := memmove (k_mem s1) q (frame_of e) PGSIZE). set (s2 := set_k_mem m2 s1).
  assert (same_out {[ q ]} (k_mem s) m2) as Hout2.
  { unfold m2. rewrite Hm1. apply same_out_memmove; [done|]. by apply elem_of_singleton. }
  destruct (pt_ok_frame {[ q ]} (k_mem s) m2 d T Hout2) as [Hpt2 Hpte2]; [by intros p ->%elem_of_singleton|done|].
  assert (vm_inv s2 d T l) as Hinv2.
  { unfold vm_inv. split_and!; [done| |done|].
    - apply (kmem_ok_frame {[ q ]}); [done|by rewrite Hm1|by intros p ->%elem_of_singleton| |].
      + intros p Hp ->%elem_of_singleton. done.
      + unfold m2. rewrite Hm1. apply mem_ok_memmove; [mmu; lia|done].
    - intros p Hp. apply Hd, elem_of_cons. by right. }
  assert (0 <= PTE_FLAGS e < 4096) as Hfl by (rewrite PTE_FLAGS_eq; apply Z.mod_pos_bound; lia).
  pose proof (page_kern q Hq) as Hqk.
  assert (tables_needed T i (i + (1 - 1) * 4096) <= 1) as Hneed.
  { unfold tables_needed. replace (i + (1 - 1) * 4096) with i by lia. destruct (T !! PDX i); lia. }
  destruct (mappages_spec s2 d T l i 1 (v2p q) (PTE_FLAGS e)) as (s3 & T' & used & l' & Hmap & -> & Hu & G & Hmaps);
    try done; try (unfold KERNBASE in *; lia); [by apply v2p_aligned|rewrite v2p_page by done; mmu; lia..| |].
  { intros a Hav. rewrite Hpte2. apply Hnp. lia. }
  assert (q ∉ pt_pages d T') as HqT'.
  { rewrite elem_of_pt_pages. intros [->|[j Hj]]; [apply Hqd, elem_of_pt_pages; by left|].
    apply (g_new _ _ _ _ _ _ _ G) in Hj as [Hj|Hj]; [apply Hqd, elem_of_pt_pages; eauto|].
    apply Hnin, elem_of_app. by left. }
  exists s1, s3, T', used, l'. split_and!; try done; try apply G.
  - destruct Hq as (_ & _ & ? & _). lia.
  - lia.
  - eapply only_vm_trans; [|apply G]. unfold only_vm, s2. rewrite Es1. rec_eq.
  - eapply same_out_trans; [apply (same_out_mono {[ q ]}); [|exact Hout2]|apply (same_out_mono (pt_pages d T')); [|apply G]];
      set_solver.
  - intros va Hva. rewrite (Hmaps va Hva). case_decide; [done|]. apply Hpte2.
  - intros o Ho. rewrite (same_out_rd (pt_pages d T') m2 (k_mem s3) q); [|apply G| |done|done|lia].
    + unfold m2. rewrite Hm1. rewrite rd_memmove by (done || mmu; lia). rewrite decide_True by (mmu; lia).
      f_equal. lia.
    + intros p Hp. eapply pt_pages_ok; [apply G|done].
Qed.

Lemma pte_at_page m d va : is_u32 va → pte_at m d va = pte_at m d (va - va mod 4096).
Proof.
  intros H. unfold pte_at. pose proof (Z.mod_pos_bound va 4096 ltac:(lia)) as Hm.
  assert ((va - va mod 4096) mod 4096 = 0) as H0 by (by rewrite Zminus_mod_idemp_r, Z.sub_diag).
  assert (is_u32 (va - va mod 4096)) as Hu by (unfold is_u32 in *; Z.div_mod_to_equations; lia).
  destruct (proj2 (same_entry (va - va mod 4096) va Hu H) ltac:(rewrite H0; lia)) as [-> ->]. done.
Qed.

(** What the copy loop leaves behind, for the [k] pages from [i]. *)
Record copies (s s' : kstate) (dp d : Z) (T' : gmap Z Z) (used l' : list Z) (i k : Z) : Prop := {
  c_inv : vm_inv s' d T' l';
  c_only : only_vm s s';
  c_mem : same_out (pt_pages d T' ∪ list_to_set used) (k_mem s) (k_mem s');
  c_copied va : is_u32 va → i <= va < i + k * 4096 →
    copied (k_mem s) (k_mem s') dp d used va ∧ frame_of (pte_at (k_mem s') d va) ∉ pt_pages d T';
  c_rest va : is_u32 va → ¬ (i <= va < i + k * 4096) → pte_at (k_mem s') d va = pte_at (k_mem s) d va;
  c_inj va va' : is_u32 va → is_u32 va' → i <= va < i + k * 4096 → i <= va' < i + k * 4096 →
    frame_of (pte_at (k_mem s') d va) = frame_of (pte_at (k_mem s') d va') →
    va - va mod 4096 = va' - va' mod 4096
}.

(** The entry of the page mapped by one round. *)
Lemma mapped_frame m m' d i q e va :
  maps m m' d i 1 (v2p q) (PTE_FLAGS e) → page_ok q → is_u32 va → i <= va < i + 4096 → i mod 4096 = 0 →
  has (pte_at m' d va) PTE_P = true ∧ PTE_FLAGS (pte_at m' d va) = Z.lor (PTE_FLAGS e) PTE_P ∧
  frame_of (pte_at m' d va) = q.
Proof.
  intros Hm Hq Hva Hr Hi. rewrite Hm by done. rewrite decide_True by lia. unfold mapped_pte, frame_of.
  replace (va - va mod 4096 - i) with 0 by (Z.div_mod_to_equations; lia). rewrite Z.add_0_r.
  destruct (perm_pte (v2p q) (PTE_FLAGS e)) as (_ & H1 & H2 & H3).
  - by apply v2p_aligned.
  - rewrite PTE_FLAGS_eq. unfold PGSIZE. apply Z.mod_pos_bound. lia.
  - rewrite v2p_page by done. pose proof (page_kern q Hq). mmu. lia.
  - rewrite H2. split_and!; [done|done|by apply p2v_v2p_page].
Qed.

(** Putting a round in front of the remaining ones. *)
Lemma copies_cons s s1 s' dp d T1 T' q used1 used2 l1 l' i k :
  page_ok q → Forall page_ok used2 → 0 <= k → is_u32 i → i mod 4096 = 0 →
  q ∉ used2 → q ∉ pt_pages d T1 → q ∉ pt_pages d T' → T1 ⊆ T' →
  vm_inv s1 d T1 l1 → only_vm s s1 → same_out ({[ q ]} ∪ pt_pages d T1) (k_mem s) (k_mem s1) →
  maps (k_mem s) (k_mem s1) d i 1 (v2p q) (PTE_FLAGS (pte_at (k_mem s) dp i)) →
  (∀ o, 0 <= o < 4096 → rd (k_mem s1) (q + o) = rd (k_mem s) (frame_of (pte_at (k_mem s) dp i) + o)) →
  (∀ va, pte_at (k_mem s1) dp va = pte_at (k_mem s) dp va) →
  (∀ va, is_u32 va → i + 4096 <= va < i + 4096 + k * 4096 →
     page_ok (frame_of (pte_at (k_mem s) dp va)) ∧
     frame_of (pte_at (k_mem s) dp va) ∉ ({[ q ]} ∪ pt_pages d T1 : gset Z)) →
  copies s1 s' dp d T' used2 l' (i + 4096) k →
  copies s s' dp d T' (q :: used1 ++ used2) l' i (k + 1).
Proof.
  intros Hq Hu2 Hk Hiu Hi Hq2 Hq1 HqT Hsub (Hpt1 & _) Ho1 Hs1 Hmaps Hcont Hpar Hfr C.
  assert (∀ p, p ∈ pt_pages d T' ∪ list_to_set used2 → page_ok p) as HS2.
  { intros p [Hp|Hp]%elem_of_union; [eapply pt_pages_ok; [apply C|done]|].
    rewrite elem_of_list_to_set in Hp. rewrite Forall_forall in Hu2. auto. }
  assert (∀ p, p ∈ ({[ q ]} ∪ pt_pages d T1 : gset Z) → page_ok p) as HS1.
  { intros p [->%elem_of_singleton|Hp]%elem_of_union; [done|by eapply pt_pages_ok]. }
  assert (∀ va, is_u32 va → i <= va < i + 4096 →
    has (pte_at (k_mem s') d va) PTE_P = true ∧
    PTE_FLAGS (pte_at (k_mem s') d va) = Z.lor (PTE_FLAGS (pte_at (k_mem s) dp va)) PTE_P ∧
    frame_of (pte_at (k_mem s') d va) = q) as Hhead.
  { intros va Hva Hr. rewrite (c_rest _ _ _ _ _ _ _ _ _ C) by (done || lia).
    rewrite (pte_at_page (k_mem s) dp va Hva). replace (va - va mod 4096) with i by (Z.div_mod_to_equations; lia).
    exact (mapped_frame _ _ _ _ _ _ va Hmaps Hq Hva Hr Hi). }
  split; try apply C.
  - eapply only_vm_trans; [exact Ho1|apply C].
  - eapply same_out_trans; eapply same_out_mono; [|exact Hs1| |apply C].
    + intros p. rewrite !elem_of_union, elem_of_list_to_set, elem_of_singleton.
      intros [->|Hp]; [right; by left|left; revert p Hp; by apply pt_pages_sub].
    + intros p. rewrite !elem_of_union, !elem_of_list_to_set, elem_of_cons, elem_of_app. tauto.
  - intros va Hva Hr. destruct (decide (va < i + 4096)) as [Hlt|Hge].
    + destruct (Hhead va Hva ltac:(lia)) as (H1 & H2 & H3). rewrite H3. split; [|done].
      unfold copied. rewrite H3. split_and!; [done|done|by apply elem_of_cons; left|].
      intros o Ho. rewrite (same_out_rd _ _ _ q _ (c_mem _ _ _ _ _ _ _ _ _ C) HS2 Hq); [|set_solver|lia].
      rewrite Hcont by done. rewrite (pte_at_page (k_mem s) dp va Hva).
      replace (va - va mod 4096) with i by (Z.div_mod_to_equations; lia). done.
    + destruct (c_copied _ _ _ _ _ _ _ _ _ C va Hva ltac:(lia)) as [(H1 & H2 & H3 & H4) H5].
      split; [|done]. rewrite Hpar in *. destruct (Hfr va Hva ltac:(lia)) as [F1 F2].
      unfold copied. split_and!; [done|done|apply elem_of_cons; right; apply elem_of_app; by right|].
      intros o Ho. rewrite H4 by done. apply (same_out_rd _ _ _ (frame_of (pte_at (k_mem s) dp va)) _ Hs1 HS1 F1 F2). lia.
  - intros va Hva Hr. rewrite (c_rest _ _ _ _ _ _ _ _ _ C) by (done || lia).
    rewrite Hmaps by done. by rewrite decide_False by lia.
  - assert (∀ va, is_u32 va → i + 4096 <= va < i + (k + 1) * 4096 →
      frame_of (pte_at (k_mem s') d va) ≠ q) as Hnq.
    { intros va Hva Hr. destruct (c_copied _ _ _ _ _ _ _ _ _ C va Hva ltac:(lia)) as [(_ & _ & H3 & _) _].
      intros Heq. by rewrite Heq in H3. }
    intros va va' Hva Hva' Hr Hr' Heq.
    destruct (decide (va < i + 4096)), (decide (va' < i + 4096)).
    + Z.div_mod_to_equations. lia.
    + exfalso. apply (Hnq va'); [done|lia|]. rewrite <- Heq. apply Hhead; [done|lia].
    + exfalso. apply (Hnq va); [done|lia|]. rewrite Heq. apply Hhead; [done|lia].
    + apply (c_inj _ _ _ _ _ _ _ _ _ C); try done; lia.
Qed.

(** The parent's side: its page table and user pages are neither free nor part
    of the child's page table. *)
Definition parent_ok (m : gmap Z Z) (dp : Z) (Tp : gmap Z Z) (d : Z) (T : gmap Z Z) (l : list Z) (i k : Z) : Prop :=
  pt_ok m dp Tp ∧ (∀ p, p ∈ pt_pages dp Tp → p ∉ l ∧ p ∉ pt_pages d T) ∧
  ∀ va, i <= va < i + k * 4096 →
    user_page m l dp va ∧ frame_of (pte_at m dp va) ∉ pt_pages d T.

Lemma parent_ok_step m m' dp Tp d T T' q used l' i k :
  parent_ok m dp Tp d T (q :: used ++ l') i (k + 1) → 0 <= k →
  page_ok q → pt_ok m' d T' → (∀ j t, T' !! j = Some t → T !! j = Some t ∨ t ∈ used) →
  same_out ({[ q ]} ∪ pt_pages d T') m m' →
  parent_ok m' dp Tp d T' l' (i + 4096) k ∧ (∀ va, pte_at m' dp va = pte_at m dp va) ∧
  ∀ va, i <= va < i + (k + 1) * 4096 →
    page_ok (frame_of (pte_at m dp va)) ∧ frame_of (pte_at m dp va) ∉ ({[ q ]} ∪ pt_pages d T' : gset Z).
Proof.
  intros (Hpt & Hpp & Hu) Hk Hq Hd' Hnew Hout.
  assert (∀ p, p ∉ q :: used ++ l' → p ∉ pt_pages d T → p ∉ ({[ q ]} ∪ pt_pages d T' : gset Z)) as Hfresh.
  { intros p Hp1 Hp2 [->%elem_of_singleton|Hp]%elem_of_union; [apply Hp1, elem_of_cons; by left|].
    apply elem_of_pt_pages in Hp as [->|[j Hj]]; [apply Hp2, elem_of_pt_pages; by left|].
    apply Hnew in Hj as [Hj|Hj]; [apply Hp2, elem_of_pt_pages; eauto|].
    apply Hp1, elem_of_cons. right. apply elem_of_app. by left. }
  destruct (pt_ok_frame ({[ q ]} ∪ pt_pages d T') m m' dp Tp Hout) as [Hpt' Hsame]; [|done|].
  { intros p Hp. split; [|intros Hin; by apply (Hfresh p); [apply Hpp..|]].
    apply elem_of_union in Hp as [->%elem_of_singleton|Hp]; [done|by eapply pt_pages_ok]. }
  assert (∀ p, p ∉ q :: used ++ l' → p ∉ l') as Htail.
  { intros p Hp Hin. apply Hp, elem_of_cons. right. apply elem_of_app. by right. }
  assert (∀ p, p ∉ ({[ q ]} ∪ pt_pages d T' : gset Z) → p ∉ pt_pages d T') as Hw by set_solver.
  split_and!; [|done|].
  - split_and!; [done|intros p Hp; destruct (Hpp p Hp); auto|].
    intros va Hva. destruct (Hu va ltac:(lia)) as [(U1 & U2 & U3) U4]. unfold user_page. rewrite Hsame. auto.
  - intros va Hva. destruct (Hu va Hva) as [(U1 & U2 & U3) U4]. auto.
Qed.

Lemma copyuvm_loop_spec k fuel s d T l dp Tp i sz :
  (k < fuel)%nat → vm_inv s d T l → parent_ok (k_mem s) dp Tp d T l i (Z.of_nat k) →
  i mod 4096 = 0 → 0 <= i → i + Z.of_nat k * 4096 <= KERNBASE →
  sz <= i + Z.of_nat k * 4096 → (k ≠ 0%nat → i + (Z.of_nat k - 1) * 4096 < sz) →
  (∀ va, i <= va < i + Z.of_nat k * 4096 → has (pte_at (k_mem s) d va) PTE_P = false) →
  2 * Z.of_nat k <= Z.of_nat (length l) →
  ∃ s' T' used l', copyuvm_loop fuel dp d i sz s = Ok d s' ∧ l = used ++ l' ∧
    (∀ j t, T' !! j = Some t → T !! j = Some t ∨ t ∈ used) ∧ T ⊆ T' ∧
    copies s s' dp d T' used l' i (Z.of_nat k).
Proof.
  revert fuel s T l i. induction k as [|k IH]; intros [|fuel] s T l i Hfuel Hinv Hpar Hi Hi0 Hik Hsz Hsz' Hnp Hlen;
    try lia; cbn [copyuvm_loop].
  - rewrite (proj2 (Z.ltb_ge i sz)) by lia. exists s, T, [], l. split_and!; try done; [by left|].
    split; try done; [apply only_vm_refl|intros; lia..].
  - rewrite (proj2 (Z.ltb_lt i sz)) by lia. cbn [negb].
    destruct l as [|q l]; [simpl in Hlen; lia|]. simpl length in Hlen.
    pose proof Hpar as (Hptp & _ & Hup). destruct (Hup i ltac:(lia)) as [(U1 & U2 & U3) U4].
    set (e := pte_at (k_mem s) dp i) in *.
    assert (is_u32 i) as Hiu by (mmu; lia).
    destruct (copy_one s d T q l i e) as (s1 & s3 & T1 & used1 & l1 & Ha & Hq0 & Hm1 & Hmap & -> & Hu1 & Hinv3 & Hsub &
      Hnew & Ho & HqT & Hout & Hmaps & Hcont); try done; [mmu; lia|intros a Ha; apply Hnp; lia|lia|].
    assert (page_ok q) as Hq by (destruct Hinv as (_ & (_ & _ & _ & Hok) & _); by apply Forall_cons in Hok as [? _]).
    replace (Z.of_nat (S k)) with (Z.of_nat k + 1) in * by lia.
    destruct (parent_ok_step _ _ _ _ _ _ _ _ _ _ _ _ Hpar ltac:(lia) Hq (proj1 Hinv3) Hnew Hout) as (Hpar3 & Hsame & Hfr).
    rewrite length_app in Hlen.
    destruct (IH fuel s3 T1 l1 (i + 4096)) as (s' & T' & used2 & l' & Hr & -> & Hnew2 & Hsub2 & C);
      [lia|done|done|Z.div_mod_to_equations; lia|lia|lia|lia|lia| |lia|].
    { intros va Hva. rewrite Hmaps by (mmu; lia). rewrite decide_False by lia. apply Hnp. lia. }
    exists s', T', (q :: used1 ++ used2), l'. split.
    { assert (walkpgdir dp i false s = Ok (match Tp !! PDX i with Some t => t + 4 * PTX i | None => 0 end) s)
        as Hw by (by apply walkpgdir_lookup).
      rewrite (bind_Ok _ _ _ _ _ Hw). destruct (Tp !! PDX i) as [t|] eqn:Et.
      2: { unfold e in U1. rewrite (pte_at_none _ _ _ _ Hptp Et) in U1. done. }
      destruct (pt_table _ _ _ _ _ Hptp Et) as ((_ & _ & ? & _) & _). pose proof (PTX_range i).
      rewrite (proj2 (Z.eqb_neq (t + 4 * PTX i) 0)) by lia.
      rewrite (bind_Ok (load (t + 4 * PTX i)) _ s e s) by (unfold load, gets; f_equal; symmetry; by apply (pte_at_table _ _ Tp)).
      rewrite U1. cbn [negb]. rewrite (bind_Ok _ _ _ _ _ Ha), (proj2 (Z.eqb_neq q 0)) by done.
      rewrite (bind_Ok (do_memmove q (p2v (PTE_ADDR e)) PGSIZE) _ s1 tt _ eq_refl).
      rewrite (bind_Ok _ _ _ _ _ Hmap). rewrite (u32_small (i + PGSIZE)) by (mmu; lia). exact Hr. }
    split; [simpl; by rewrite <- (assoc_L (++))|]. split.
    { intros j t Hj. rewrite elem_of_cons, elem_of_app. apply Hnew2 in Hj as [Hj|Hj]; [|tauto].
      apply Hnew in Hj as [Hj|Hj]; tauto. }
    split; [by etrans|].
    destruct Hinv as (_ & (_ & _ & Hnd & Hok) & _ & _). apply NoDup_cons in Hnd as [Hqn Hnd].
    apply Forall_cons in Hok as [_ Hok]. apply Forall_app in Hok as [_ Hok]. apply Forall_app in Hok as [Hok2 _].
    eapply (copies_cons s s3); try done; [lia|..].
    + intros Hin. apply Hqn. rewrite !elem_of_app. tauto.
    + rewrite elem_of_pt_pages. intros [->|[j Hj]]; [apply HqT, elem_of_pt_pages; by left|].
      apply Hnew2 in Hj as [Hj|Hj]; [apply HqT, elem_of_pt_pages; eauto|].
      apply Hqn. rewrite !elem_of_app. tauto.
    + intros va Hva Hr'. apply Hfr. lia.
Qed.

(** ** Properties *)

(** C22. Every address space has the kernel's mappings. If 130 pages are
    free, setupkvm() returns a page directory in which every address below
    KERNBASE is unmapped, KERNBASE..KERNBASE+PHYSTOP is mapped to physical memory
    (read-only for the kernel's text, writable elsewhere, never for the user),
    the device range is mapped to itself, and everything else is unmapped. *)
Theorem setupkvm_maps_kernel {LO : LinkOk E} (s : kstate) (l : list Z) :
  kmem_ok s l → kmem_free s → 130 <= Z.of_nat (length l) →
  ∃ d s' T l', setupkvm s = Ok d s' ∧ d ≠ 0 ∧ vm_inv s' d T l' ∧
    ∀ va, is_u32 va → pte_at (k_mem s') d va = kernel_pte va.
Proof using Type*.
  intros Hk Hf Hl. destruct (setupkvm_spec s l Hk Hf Hl) as (d & s' & T & used & l' & H).
  exists d, s', T, l'. tauto.
Qed.

(** C6. fork() copies memory faithfully. Let [dp] be the page directory of
    a process of size sz whose user pages are present and in use. If memory
    suffices, copyuvm(dp, sz) returns a new directory d such that every page below
    sz is present in d with the parent's flags and holds the parent's bytes, in a
    page that was free before, distinct pages in distinct frames; addresses from
    KERNBASE up have the kernel's mappings; and the parent's page table and
    memory are unchanged. *)
Theorem copyuvm_copies {LO : LinkOk E} (s : kstate) (l : list Z) (dp : Z) (Tp : gmap Z Z) (n sz : Z) :
  kmem_ok s l → kmem_free s → 130 + 2 * n <= Z.of_nat (length l) →
  pt_ok (k_mem s) dp Tp → (∀ p, p ∈ pt_pages dp Tp → p ∉ l) →
  n = (sz + 4095) / 4096 → 0 <= sz <= KERNBASE → (∀ va, 0 <= va < n * 4096 → user_page (k_mem s) l dp va) →
  ∃ d s', copyuvm dp sz s = Ok d s' ∧ d ≠ 0 ∧
    (∀ va, 0 <= va < n * 4096 → copied (k_mem s) (k_mem s') dp d l va) ∧
    (∀ va va', 0 <= va < n * 4096 → 0 <= va' < n * 4096 →
       frame_of (pte_at (k_mem s') d va) = frame_of (pte_at (k_mem s') d va') →
       va - va mod 4096 = va' - va' mod 4096) ∧
    (∀ va, is_u32 va → KERNBASE <= va → pte_at (k_mem s') d va = kernel_pte va) ∧
    (∀ b, (∀ q, q ∈ l → b < q ∨ q + 4096 <= b) → rd (k_mem s') b = rd (k_mem s) b).
Proof using Type*.
  intros Hk Hf Hl Hpt Hpl Hn Hsz Hup.
  assert (n * 4096 <= KERNBASE ∧ 0 <= n ∧ sz <= n * 4096 ∧ (n ≠ 0 → (n - 1) * 4096 < sz)) as (Hn1 & Hn0 & Hn2 & Hn3)
    by (mmu; Z.div_mod_to_equations; lia).
  destruct (setupkvm_spec s l Hk Hf ltac:(lia)) as
    (d & s1 & T & used & l1 & Hset & Hd0 & -> & Hul & Hinv & Hdu & HTu & Ho & Hout & Hkp).
  assert (∀ p, p ∈ pt_pages d T → p ∈ used) as Hsub by (intros p [->|[i Hi]]%elem_of_pt_pages; eauto).
  assert (∀ p, p ∉ used ++ l1 → p ∉ l1 ∧ p ∉ pt_pages d T) as Hapart.
  { intros p Hp. rewrite elem_of_app in Hp. split; [tauto|]. intros Hin. apply Hsub in Hin. tauto. }
  assert (∀ p, p ∈ pt_pages d T → page_ok p) as Hpk by (intros p; apply (pt_pages_ok _ _ _ _ (proj1 Hinv))).
  destruct (pt_ok_frame (pt_pages d T) _ _ dp Tp Hout) as [Hpt1 Hsame]; [|done|].
  { intros p Hp. split; [by apply Hpk|]. intros Hin. by destruct (Hapart p (Hpl p Hin)). }
  rewrite length_app in Hl.
  destruct (copyuvm_loop_spec (Z.to_nat n) (S (Z.to_nat (sz / PGSIZE + 1))) s1 d T l1 dp Tp 0 sz)
    as (s2 & T2 & used2 & l2 & Hr & -> & Hnew & _ & C); rewrite ?Z2Nat.id in * by lia.
  - unfold PGSIZE. rewrite Hn. Z.div_mod_to_equations. lia.
  - done.
  - split_and!; [done|intros p Hp; by apply Hapart, Hpl|]. intros va Hva.
    destruct (Hup va Hva) as (U1 & U2 & U3). unfold user_page. rewrite Hsame.
    destruct (Hapart _ U3). auto.
  - done.
  - lia.
  - lia.
  - lia.
  - lia.
  - intros va Hva. rewrite Hkp by (mmu; lia). unfold kernel_pte. by rewrite decide_True by (mmu; lia).
  - lia.
  - exists d, s2. split_and!; try done.
    + unfold copyuvm. rewrite (bind_Ok _ _ _ _ _ Hset), (proj2 (Z.eqb_neq d 0)) by done. exact Hr.
    + intros va Hva. destruct (c_copied _ _ _ _ _ _ _ _ _ C va) as [(H1 & H2 & H3 & H4) _]; [mmu; lia|lia|].
      rewrite Hsame in *. unfold copied. split_and!; try done; [rewrite !elem_of_app; tauto|].
      intros o Ho'. rewrite H4 by done. destruct (Hup va Hva) as (_ & U2 & U3).
      apply (same_out_rd (pt_pages d T) _ _ _ _ Hout Hpk U2); [by apply Hapart|lia].
    + intros va va' Hva Hva'. apply (c_inj _ _ _ _ _ _ _ _ _ C); mmu; lia.
    + intros va Hva Hge. rewrite (c_rest _ _ _ _ _ _ _ _ _ C) by (done || lia). by apply Hkp.
    + intros b Hb. assert (∀ p, p ∈ used ++ used2 → b < p ∨ p + PGSIZE <= b) as Hb'.
      { intros p Hp. apply Hb. rewrite !elem_of_app in *. tauto. }
      rewrite (c_mem _ _ _ _ _ _ _ _ _ C), Hout; [done|..]; intros p Hp; apply Hb', elem_of_app.
      * left. by apply Hsub.
      * apply elem_of_union in Hp as [Hp|Hp%elem_of_list_to_set]; [|by right].
        apply elem_of_pt_pages in Hp as [->|[j Hj]]; [by left|]. apply Hnew in Hj as [Hj|Hj]; [left; eauto|by right].
Qed.

End AddrSpace.

(** ** Witnesses *)

#[global] Instance env_idle_link : LinkOk env_idle.
Proof. split; vm_compute; congruence. Qed.

Section Witness.
#[local] Existing Instance env_idle.

(** A machine with 150 free pages. *)
Lemma free_pages_ex : ∃ s l, kmem_ok s l ∧ kmem_free s ∧ 140 <= Z.of_nat (length l).
Proof.
  assert (kmem_ok kstate0 []) as H0.
  { split_and!; try done. constructor. }
  destruct (freerange_loop_spec 151 kstate0 2148630528 (2148630528 + 150 * 4096) [] 150 H0)
    as (s & _ & Hk & Hf); [done|done|done|done|done|done|set_solver|reflexivity|lia|].
  exists s, (reverse (pages_from 2148630528 150) ++ []). split; [exact Hk|]. split; [exact Hf|].
  rewrite app_nil_r, length_reverse. unfold pages_from. rewrite length_fmap, length_seq. lia.
Qed.

(** ... and a process of one page. *)
Lemma one_page_process :
  ∃ s l dp Tp, kmem_ok s l ∧ kmem_free s ∧ 132 <= Z.of_nat (length l) ∧ pt_ok (k_mem s) dp Tp ∧
    (∀ p, p ∈ pt_pages dp Tp → p ∉ l) ∧ ∀ va, 0 <= va < 4096 → user_page (k_mem s) l dp va.
Proof.
  destruct free_pages_ex as (s & l & Hk & Hf & Hl).
  destruct l as [|d [|q [|r l]]]; try (simpl in Hl; lia). simpl length in Hl.
  destruct (setupkvm_start s _ d Hk Hf) as (s1 & _ & _ & _ & Hinv & _ & Hz).
  set (s2 := set_k_mem _ s1) in *. destruct Hinv as (Hpt & Hk2 & Hf2 & Hd).
  destruct (kalloc_spec _ _ Hk2 Hf2) as (s3 & _ & Hk3 & Hf3 & Hq & Hqn & Hm3 & _).
  destruct (mappages_spec s3 d ∅ (r :: l) 0 1 (v2p q) 6) as (s4 & T & used & l' & _ & El & Hu & G & Hmaps);
    try lia.
  - unfold vm_inv. rewrite Hm3. split_and!; try done. intros p Hp. apply Hd, elem_of_cons. by right.
  - done.
  - by apply v2p_aligned.
  - rewrite v2p_page by done. pose proof (page_kern q Hq). lia.
  - rewrite v2p_page by done. pose proof (page_kern q Hq). mmu. lia.
  - intros a Ha. rewrite Hm3, Hz. done.
  - change (tables_needed ∅ 0 (0 + (1 - 1) * 4096)) with 1. simpl length. lia.
  - destruct (g_inv _ _ _ _ _ _ _ G) as (Hpt4 & Hk4 & Hf4 & Hd4).
    assert (length used <= 1)%nat as Hu1 by (revert Hu; change (tables_needed ∅ 0 _) with 1; lia).
    exists s4, l', d, T. split_and!; try done.
    + assert (length (r :: l) = length (used ++ l')) as Hll by (by rewrite El). rewrite length_app in Hll. simpl in Hll. lia.
    + intros p Hp Hin. by apply (Hd4 p).
    + intros va Hva. pose proof (mapped_frame _ _ _ _ q 6 va Hmaps Hq ltac:(mmu; lia) ltac:(lia) eq_refl) as (H1 & _ & H3).
      unfold user_page. rewrite H3. split_and!; [done|done|]. rewrite El, elem_of_app in Hqn. tauto.
Qed.

Lemma setupkvm_maps_kernel_witness :
  ∃ (s : kstate) d s', setupkvm s = Ok d s' ∧ pte_at (k_mem s') d KERNBASE = Z.lor (Z.lor 0 PTE_W) PTE_P.
Proof.
  destruct free_pages_ex as (s & l & Hk & Hf & Hl).
  destruct (setupkvm_maps_kernel s l Hk Hf ltac:(lia)) as (d & s' & T & l' & H & _ & _ & Hp).
  exists s, d, s'. split; [exact H|]. rewrite Hp by (mmu; lia). reflexivity.
Defined.

Lemma copyuvm_copies_witness :
  ∃ s dp d s', copyuvm dp 4096 s = Ok d s' ∧ d ≠ 0 ∧
    rd (k_mem s') (frame_of (pte_at (k_mem s') d 0) + 5) = rd (k_mem s) (frame_of (pte_at (k_mem s) dp 0) + 5).
Proof.
  destruct one_page_process as (s & l & dp & Tp & Hk & Hf & Hl & Hpt & Hpl & Hu).
  destruct (copyuvm_copies s l dp Tp 1 4096 Hk Hf ltac:(lia) Hpt Hpl eq_refl ltac:(mmu; lia) Hu)
    as (d & s' & H & Hd & Hc & _).
  exists s, dp, d, s'. split; [exact H|]. split; [exact Hd|].
  destruct (Hc 0 ltac:(lia)) as (_ & _ & _ & Hb). apply Hb. lia.
Defined.

End Witness.
