(* ===== verification/Proc.v ===== *)
(** * Proc: the process table, sleep and wakeup (proc.c, first part)

    allocproc(), sched(), yield(), sleep(), wakeup(), kill() and procdump().
    The scheduler is in Scheduler.v; fork(), exit() and wait(), which need the
    virtual memory and the file system, are in ProcLife.v. *)

From S2P Require Import Prelude Machine CMem Spinlock Mmu Kalloc ConsOut Vm.
From stdpp Require Import options.

(** Offsets in struct trapframe (x86.h) and struct context (proc.h). *)
Definition TF_SIZE : Z := 76.
Definition TF_EAX : Z := 28.
Definition TF_ES : Z := 40.
Definition TF_DS : Z := 44.
Definition TF_TRAPNO : Z := 48.
Definition TF_ERR : Z := 52.
Definition TF_EIP : Z := 56.
Definition TF_CS : Z := 60.
Definition TF_EFLAGS : Z := 64.
Definition TF_ESP : Z := 68.
Definition TF_SS : Z := 72.
Definition CTX_SIZE : Z := 20.
Definition CTX_EBP : Z := 12.
Definition CTX_EIP : Z := 16.

(** [for(p = ptable.proc; p < &ptable.proc[NPROC]; p++)] *)
Definition ptable_procs : list nat := seq 0 (Z.to_nat NPROC).

(** The part of an array before its first zero: a char array as a C string. *)
Fixpoint cstring (l : list Z) : list Z :=
  match l with [] => [] | x :: l => if x =? 0 then [] else x :: cstring l end.

Section Proc.
Context {E : Env}.

Definition pinit : K unit := initlock Lptable.

(** First part of allocproc: find and claim a slot under ptable.lock. *)
Definition allocproc_claim (stride : Z) : K (option nat) :=
  acquire Lptable ;;
  r ← for_ret ptable_procs (λ i,
    p ← get_proc i;
    mret (if state_eqb (p_state p) UNUSED then Some i else None));
  match r with
  | None => release Lptable ;; mret None
  | Some i =>
    upd_proc i (set_p_state EMBRYO) ;;
    pid ← gets k_nextpid;
    upd_proc i (set_p_pid pid) ;;
    modify (set_k_nextpid (s32 (pid + 1))) ;;
    if stride =? 0 then fault else
    upd_proc i (set_p_passo (Z.quot 10000 stride)) ;;
    upd_proc i (set_p_passada 0) ;;
    release Lptable ;;
    mret (Some i)
  end.

(** Second part: the kernel stack, with room for a trap frame, the return
    address trapret and a context that starts at forkret. *)
Definition allocproc_stack (i : nat) : K (option nat) :=
  ks ← kalloc;
  upd_proc i (set_p_kstack ks) ;;
  if ks =? 0 then upd_proc i (set_p_state UNUSED) ;; mret None else
  let sp := ks + KSTACKSIZE in
  let sp := sp - TF_SIZE in
  upd_proc i (set_p_tf sp) ;;
  let sp := sp - 4 in
  store sp sym_trapret ;;
  let sp := sp - CTX_SIZE in
  upd_proc i (set_p_context sp) ;;
  do_memset sp 0 CTX_SIZE ;;
  store (sp + CTX_EIP) sym_forkret ;;
  mret (Some i).

Definition allocproc (stride : Z) : K (option nat) :=
  r ← allocproc_claim stride;
  match r with None => mret None | Some i => allocproc_stack i end.

(** swtch() to the scheduler: what happens until it switches back. *)
Definition swtch_to_scheduler : K unit := λ s,
  match swtch_out s with Some s' => Ok tt s' | None => Hang end.

(** [cpu->ncli] is the number of locks this CPU holds and interrupts are off
    while it is not zero ([Spin.repr] of Spinlock.v), so the check of FL_IF
    that follows the ncli check cannot fail; intena is saved and restored
    around the switch. *)
Definition sched_check : K unit :=
  h ← holding Lptable;
  if negb h then panic "sched ptable.lock" else
  n ← gets (λ s, size (k_held s));
  if negb (Z.of_nat n =? 1) then panic "sched locks" else
  c ← curproc;
  p ← get_proc c;
  if state_eqb (p_state p) RUNNING then panic "sched running" else skip.
Definition sched : K unit := sched_check ;; swtch_to_scheduler.

Definition yield : K unit :=
  acquire Lptable ;;
  c ← curproc;
  upd_proc c (set_p_state RUNNABLE) ;;
  sched ;;
  release Lptable.

(** sleep() and wakeup() as sequences of actions: what one CPU does between two
    points where another may act, and the call of sched(), where the process
    gives up its CPU. [run_acts] is the sequence run by one CPU; SleepWake.v
    interleaves the same sequences on several. *)
Inductive act := Do (m : K unit) | Sched.
Fixpoint run_acts (l : list act) : K unit :=
  match l with
  | [] => skip
  | Do m :: l => m ;; run_acts l
  | Sched :: l => sched ;; run_acts l
  end.

Definition upd_cur (f : proc → proc) : K unit := c ← curproc; upd_proc c f.

Definition sleep_tail (lk : lockid) : list act :=
  Do (upd_cur (set_p_chan None)) ::
  (if bool_decide (lk ≠ Lptable) then [Do (release Lptable); Do (acquire lk)] else []).
Definition sleep_steps (ch : chan) (lk : lockid) : list act :=
  (if bool_decide (lk ≠ Lptable) then [Do (acquire Lptable); Do (release lk)] else []) ++
  Do (upd_cur (set_p_chan (Some ch))) ::
  Do (upd_cur (set_p_state SLEEPING)) ::
  Sched ::
  sleep_tail lk.

Definition sleep (ch : chan) (lk : option lockid) : K unit :=
  cur ← gets k_proc;
  match cur with
  | None => panic "sleep"
  | Some _ =>
    match lk with
    | None => panic "sleep without lk"
    | Some lk => run_acts (sleep_steps ch lk)
    end
  end.

(** [None] is the null channel; no sleeper has it. *)
Definition wakeup_slot (ch : option chan) (i : nat) : K unit :=
  p ← get_proc i;
  when (state_eqb (p_state p) SLEEPING && bool_decide (p_chan p = ch))
    (upd_proc i (set_p_state RUNNABLE)).
Definition wakeup1 (ch : option chan) : K unit := for_each ptable_procs (wakeup_slot ch).

Definition wakeup_steps (ch : chan) : list act :=
  Do (acquire Lptable) ::
  ((λ i, Do (wakeup_slot (Some ch) i)) <$> ptable_procs) ++
  [Do (release Lptable)].
Definition wakeup (ch : chan) : K unit := run_acts (wakeup_steps ch).

Definition kill (pid : Z) : K Z :=
  acquire Lptable ;;
  r ← for_ret ptable_procs (λ i,
    p ← get_proc i;
    if p_pid p =? pid then
      upd_proc i (set_p_killed 1) ;;
      when (state_eqb (p_state p) SLEEPING) (upd_proc i (set_p_state RUNNABLE)) ;;
      release Lptable ;;
      mret (Some 0)
    else mret None);
  match r with
  | Some z => mret z
  | None => release Lptable ;; mret (-1)
  end.

Definition state_name (st : procstate) : list Z :=
  match st with
  | UNUSED => str "unused" | EMBRYO => str "embryo" | SLEEPING => str "sleep "
  | RUNNABLE => str "runble" | RUNNING => str "run   " | ZOMBIE => str "zombie"
  end.

Definition procdump : K unit :=
  for_each ptable_procs (λ i,
    p ← get_proc i;
    if state_eqb (p_state p) UNUSED then skip else
    cprintf (Some (str "%d %d %s %s"))
      [Aint (p_pid p); Aint (p_passada p); Astr (Some (state_name (p_state p)));
       Astr (Some (cstring (p_name p)))] ;;
    (if state_eqb (p_state p) SLEEPING then
       m ← gets k_mem;
       let pc := Spin.getcallerpcs m (read32 m (p_context p + CTX_EBP) + 8) in
       for_each (cstring pc) (λ x, cprintf (Some (str " %p")) [Aint x])
     else skip) ;;
    cprintf (Some [10]) []).

(** ** Scanning the process table *)

(** The table has its NPROC slots. *)
Definition ptable_ok (s : kstate) : Prop := length (k_procs s) = Z.to_nat NPROC.

(** The first slot whose process satisfies [f]. *)
Definition find_proc (f : proc → bool) (s : kstate) : option (nat * proc) :=
  list_find (λ p, f p = true) (k_procs s).

Lemma find_proc_Some f s i p :
  find_proc f s = Some (i, p) ↔
  k_procs s !! i = Some p ∧ f p = true ∧
  ∀ j q, k_procs s !! j = Some q → (j < i)%nat → f q = false.
Proof.
  unfold find_proc. rewrite list_find_Some. split; intros (? & ? & H); split_and!; try done.
  - intros j q Hj Hlt. by apply not_true_iff_false, (H j).
  - intros j q Hj Hlt. rewrite (H j q) by done. done.
Qed.

Lemma find_proc_None f s :
  find_proc f s = None ↔ ∀ j q, k_procs s !! j = Some q → f q = false.
Proof.
  unfold find_proc. rewrite list_find_None, Forall_lookup.
  split; intros H j q Hj; [by apply not_true_iff_false, (H j)|rewrite (H j q) by done; done].
Qed.

Lemma get_proc_eq s i p : k_procs s !! i = Some p → get_proc i s = Ok p s.
Proof. intros H. unfold get_proc. by rewrite H. Qed.

(** A search that leaves the state alone until it finds a slot. *)
Lemma for_ret_scan {B} (f : proc → bool) (body : nat → K (option B)) s :
  ptable_ok s →
  (∀ i p, k_procs s !! i = Some p → f p = false → body i s = Ok None s) →
  (∀ i p r s', k_procs s !! i = Some p → f p = true → body i s = Ok r s' → is_Some r) →
  for_ret ptable_procs body s =
    match find_proc f s with
    | None => Ok None s
    | Some (i, _) => body i s
    end.
Proof.
  intros Hlen Hskip Hhit. unfold ptable_procs, find_proc. rewrite <- Hlen.
  cut (∀ ps pre, k_procs s = pre ++ ps →
    for_ret (seq (length pre) (length ps)) body s =
    match list_find (λ p, f p = true) ps with
    | None => Ok None s
    | Some (i, _) => body (length pre + i)%nat s
    end).
  { intros H. apply (H (k_procs s) []). done. }
  induction ps as [|p ps IH]; intros pre Hps; simpl; [done|].
  assert (k_procs s !! length pre = Some p) as Hp by (rewrite Hps; by apply list_lookup_middle).
  destruct (f p) eqn:Ef.
  - rewrite decide_True by done. rewrite Nat.add_0_r. unfold mbind, M_bind.
    destruct (body (length pre) s) as [r s'| | |] eqn:Eb; [|done..].
    by destruct (Hhit _ _ _ _ Hp Ef Eb) as [b ->].
  - rewrite decide_False by done. rewrite (bind_Ok _ _ _ _ _ (Hskip _ _ Hp Ef)).
    specialize (IH (pre ++ [p])). rewrite length_app, Nat.add_comm in IH. simpl in IH.
    rewrite IH by (by rewrite <- (assoc_L (++))).
    destruct (list_find _ ps) as [[i q]|]; simpl; [|done]. f_equal. lia.
Qed.

(** A pass over the table that changes each process by [g]. *)
Lemma for_each_procs (g : proc → proc) (body : nat → K unit) s :
  ptable_ok s →
  (∀ i p s', k_procs s' !! i = Some p →
     body i s' = Ok tt (set_k_procs (<[i := g p]> (k_procs s')) s')) →
  for_each ptable_procs body s = Ok tt (set_k_procs (g <$> k_procs s) s).
Proof.
  intros Hlen Hb. unfold ptable_procs. rewrite <- Hlen.
  cut (∀ ps pre s', k_procs s' = pre ++ ps →
    for_each (seq (length pre) (length ps)) body s' =
    Ok tt (set_k_procs (pre ++ (g <$> ps)) s')).
  { intros H. apply (H (k_procs s) []). done. }
  induction ps as [|p ps IH]; intros pre s' Hps; simpl.
  { unfold skip, mret, M_ret. f_equal. rewrite <- Hps. by destruct s'. }
  assert (k_procs s' !! length pre = Some p) as Hp by (rewrite Hps; by apply list_lookup_middle).
  rewrite (bind_Ok _ _ _ _ _ (Hb _ _ _ Hp)).
  specialize (IH (pre ++ [g p])). rewrite length_app, Nat.add_comm in IH. simpl in IH.
  rewrite IH.
  - f_equal. rec_eq. by rewrite <- (assoc_L (++)).
  - simpl. rewrite Hps, <- (assoc_L (++)). simpl.
    rewrite insert_app_r_alt by lia. by rewrite Nat.sub_diag.
Qed.

(** ** wakeup *)

Definition woken (ch : option chan) (p : proc) : proc :=
  if state_eqb (p_state p) SLEEPING && bool_decide (p_chan p = ch)
  then set_p_state RUNNABLE p else p.

Lemma wakeup1_eq ch s :
  ptable_ok s → wakeup1 ch s = Ok tt (set_k_procs (woken ch <$> k_procs s) s).
Proof.
  intros Hs. apply for_each_procs; [done|]. intros i p s' Hp.
  unfold wakeup_slot. rewrite (bind_Ok _ _ _ _ _ (get_proc_eq _ _ _ Hp)). unfold woken.
  destruct (_ && _); simpl.
  - unfold upd_proc, modify. f_equal. rec_eq. by apply list_alter_lookup.
  - unfold skip, mret, M_ret. f_equal. rec_eq. by rewrite list_insert_id.
Qed.

Lemma run_acts_each {A} (f : A → K unit) l k s :
  run_acts (((λ x, Do (f x)) <$> l) ++ k) s = (for_each l f ;; run_acts k) s.
Proof.
  revert s. induction l as [|x l IH]; intros s; [done|]. cbn.
  unfold mbind, M_bind in *. by destruct (f x s).
Qed.

Lemma wakeup_eq ch s :
  ptable_ok s → Lptable ∉ k_held s →
  wakeup ch s = Ok tt (set_k_procs (woken (Some ch) <$> k_procs s) s).
Proof.
  intros Hs Hl. unfold wakeup, wakeup_steps. cbn [run_acts].
  rewrite (bind_Ok _ _ _ _ _ (acquire_free _ _ Hl)), run_acts_each.
  rewrite (bind_Ok _ _ _ _ _ (wakeup1_eq (Some ch) (set_k_held _ s) Hs)).
  cbn [run_acts]. unfold mbind at 1, M_bind at 1.
  rewrite release_held by (simpl; auto with xv6). unfold skip, mret, M_ret. f_equal. rec_eq. by apply held_roundtrip.
Qed.

(** ** kill *)

Definition killed_proc (p : proc) : proc :=
  if state_eqb (p_state p) SLEEPING then set_p_state RUNNABLE (set_p_killed 1 p)
  else set_p_killed 1 p.

Lemma kill_eq pid s :
  ptable_ok s → Lptable ∉ k_held s →
  kill pid s =
    match find_proc (λ p, p_pid p =? pid) s with
    | Some (i, p) => Ok 0 (set_k_procs (<[i := killed_proc p]> (k_procs s)) s)
    | None => Ok (-1) s
    end.
Proof.
  intros Hs Hl. unfold kill. rewrite (bind_Ok _ _ _ _ _ (acquire_free _ _ Hl)).
  set (s1 := set_k_held _ s). unfold mbind at 1, M_bind at 1.
  rewrite (for_ret_scan (λ p, p_pid p =? pid)); [|done| |].
  - change (find_proc _ s1) with (find_proc (λ p, p_pid p =? pid) s).
    destruct (find_proc _ s) as [[i p]|] eqn:Ef.
    + apply find_proc_Some in Ef as (Hp & Hpid & _).
      rewrite (bind_Ok _ _ s1 p s1 (get_proc_eq s1 _ _ Hp)), Hpid.
      unfold killed_proc, upd_proc. destruct (state_eqb _ _); mrun;
        (rewrite release_held by (simpl; auto with xv6)); f_equal; rec_eq; try by apply held_roundtrip.
      * by rewrite list_alter_compose, (list_alter_lookup _ _ _ _ Hp).
      * by apply list_alter_lookup.
    + mrun. rewrite release_held by (simpl; auto with xv6). f_equal. rec_eq. by apply held_roundtrip.
  - intros i p Hp Hf. by rewrite (bind_Ok _ _ s1 p s1 (get_proc_eq s1 _ _ Hp)), Hf.
  - intros i p r s' Hp Hf. rewrite (bind_Ok _ _ s1 p s1 (get_proc_eq s1 _ _ Hp)), Hf.
    intros H. repeat (apply bind_Ok_inv in H as (? & ? & _ & H)). by injection H as <- _.
Qed.

(** ** sched, yield and sleep *)

Lemma state_eqb_false a b : a ≠ b → state_eqb a b = false.
Proof. apply bool_decide_eq_false_2. Qed.
Lemma state_eqb_true a : state_eqb a a = true.
Proof. by apply bool_decide_eq_true_2. Qed.

Lemma sched_eq s c p :
  k_held s = {[ Lptable ]} → k_proc s = Some c → k_procs s !! c = Some p → p_state p ≠ RUNNING →
  sched s = match swtch_out s with Some s' => Ok tt s' | None => Hang end.
Proof.
  intros Hh Hc Hp Hst. unfold sched, sched_check, holding. mrun. rewrite Hh.
  rewrite bool_decide_eq_true_2 by set_solver. simpl. rewrite Hh, size_singleton. simpl.
  unfold curproc. rewrite Hc. simpl. rewrite (get_proc_eq _ _ _ Hp). by rewrite state_eqb_false.
Qed.

(** The state in which a process that goes to sleep gives up the processor:
    it is asleep on [ch], ptable.lock is held and the caller's lock is not. *)
Definition asleep (ch : chan) (c : nat) (s : kstate) : kstate :=
  set_k_held {[ Lptable ]}
    (set_k_procs (alter (λ p, set_p_state SLEEPING (set_p_chan (Some ch) p)) c (k_procs s)) s).

Lemma sleep_eq {EO : EnvOk E} ch lk s c p :
  k_proc s = Some c → k_procs s !! c = Some p → lk ≠ Lptable → k_held s = {[ lk ]} →
  sleep ch (Some lk) s =
    match swtch_out (asleep ch c s) with
    | None => Hang
    | Some s' => Ok tt (set_k_held {[ lk ]} (set_k_procs (alter (set_p_chan None) c (k_procs s')) s'))
    end.
Proof.
  intros Hc Hp Hlk Hh. unfold sleep, sleep_steps, sleep_tail, upd_cur. mrun. rewrite Hc.
  rewrite bool_decide_eq_true_2 by done. cbn [run_acts app]. mrun. rewrite acquire_free by (rewrite Hh; set_solver).
  rewrite release_held by (simpl; rewrite Hh; set_solver).
  do 2 (unfold curproc at 1; simpl; rewrite Hc; simpl).
  rewrite list_alter_compose. set (s1 := set_k_procs _ _).
  assert (s1 = asleep ch c s) as Es.
  { unfold s1. rec_eq. rewrite Hh. set_solver. }
  rewrite Es. rewrite (sched_eq (asleep ch c s) c (set_p_state SLEEPING (set_p_chan (Some ch) p))); try done.
  2: { simpl. rewrite list_lookup_alter_eq, Hp. done. }
  destruct (swtch_out (asleep ch c s)) as [s'|] eqn:Eo; [|done].
  apply swtch_out_proc in Eo as Hc'. apply swtch_out_held in Eo as Hh'. simpl in Hc', Hh'.
  unfold curproc. rewrite Hc', Hc. simpl. rewrite release_held by (simpl; rewrite Hh'; set_solver).
  rewrite acquire_free by (simpl; rewrite Hh'; set_solver). f_equal. rec_eq. rewrite Hh'. set_solver.
Qed.

(** ** allocproc *)

Definition claimed (stride pid : Z) (p : proc) : proc :=
  set_p_passada 0 (set_p_passo (Z.quot 10000 stride) (set_p_pid pid (set_p_state EMBRYO p))).

(** Every pid in the table was given out before nextpid. *)
Definition pids_below (s : kstate) : Prop :=
  ∀ j q, k_procs s !! j = Some q → p_pid q < k_nextpid s.

Lemma allocproc_claim_eq stride s :
  ptable_ok s → Lptable ∉ k_held s → stride ≠ 0 →
  allocproc_claim stride s =
    match find_proc (λ p, state_eqb (p_state p) UNUSED) s with
    | None => Ok None s
    | Some (i, _) =>
      Ok (Some i) (set_k_nextpid (s32 (k_nextpid s + 1))
        (set_k_procs (alter (claimed stride (k_nextpid s)) i (k_procs s)) s))
    end.
Proof.
  intros Hs Hl Hst. unfold allocproc_claim. rewrite (bind_Ok _ _ _ _ _ (acquire_free _ _ Hl)).
  set (s1 := set_k_held _ s). unfold mbind at 1, M_bind at 1.
  rewrite (for_ret_scan (λ p, state_eqb (p_state p) UNUSED)); [|done| |].
  - change (find_proc _ s1) with (find_proc (λ p, state_eqb (p_state p) UNUSED) s).
    destruct (find_proc _ s) as [[i p]|] eqn:Ef.
    + apply find_proc_Some in Ef as (Hp & Hu & _).
      rewrite (bind_Ok _ _ s1 p s1 (get_proc_eq s1 _ _ Hp)), Hu.
      rewrite (proj2 (Z.eqb_neq _ _) Hst). unfold upd_proc. mrun.
      rewrite release_held by (simpl; auto with xv6). f_equal. rec_eq; [by apply held_roundtrip|].
      by rewrite !list_alter_compose.
    + mrun. rewrite release_held by (simpl; auto with xv6). f_equal. rec_eq. by apply held_roundtrip.
  - intros i p Hp Hf. by rewrite (bind_Ok _ _ s1 p s1 (get_proc_eq s1 _ _ Hp)), Hf.
  - intros i p r s' Hp Hf. rewrite (bind_Ok _ _ s1 p s1 (get_proc_eq s1 _ _ Hp)), Hf.
    intros [= <- _]. eauto.
Qed.

(** The new kernel stack, at page [ks]. *)
Definition stack_tf (ks : Z) : Z := ks + KSTACKSIZE - TF_SIZE.
Definition stack_context (ks : Z) : Z := stack_tf ks - 4 - CTX_SIZE.
Definition stack_mem (ks : Z) (m : gmap Z Z) : gmap Z Z :=
  write32 (memset (write32 m (stack_tf ks - 4) sym_trapret) (stack_context ks) 0 CTX_SIZE)
    (stack_context ks + CTX_EIP) sym_forkret.
Definition with_stack (ks : Z) (p : proc) : proc :=
  set_p_context (stack_context ks) (set_p_tf (stack_tf ks) (set_p_kstack ks p)).

Lemma allocproc_stack_eq i s l :
  kmem_ok s l → kmem_free s →
  match l with
  | [] => allocproc_stack i s =
      Ok None (set_k_procs (alter (λ p, set_p_state UNUSED (set_p_kstack 0 p)) i (k_procs s)) s)
  | ks :: l' => ∃ s1, kalloc s = Ok ks s1 ∧ kmem_ok s1 l' ∧ s1 = set_k_kmem (k_kmem s1) s ∧
      allocproc_stack i s = Ok (Some i)
        (set_k_mem (stack_mem ks (k_mem s1)) (set_k_procs (alter (with_stack ks) i (k_procs s1)) s1))
  end.
Proof.
  intros Hk Hf. pose proof (kalloc_spec _ _ Hk Hf) as Ha. unfold allocproc_stack.
  destruct l as [|ks l].
  - rewrite (bind_Ok _ _ _ _ _ Ha). unfold upd_proc. mrun. simpl. f_equal. rec_eq.
    by rewrite list_alter_compose.
  - destruct Ha as (s1 & Ha & Hk1 & _ & (_ & _ & ? & _) & _ & _ & Es).
    exists s1. split_and!; [done..|]. rewrite (bind_Ok _ _ _ _ _ Ha). mrun.
    rewrite (proj2 (Z.eqb_neq ks 0)) by lia. unfold upd_proc, store, do_memset. mrun. f_equal.
    rec_eq. by rewrite !list_alter_compose.
Qed.

Lemma stack_mem_words ks m :
  page_ok ks → is_u32 sym_trapret → is_u32 sym_forkret →
  read32 (stack_mem ks m) (stack_tf ks - 4) = sym_trapret ∧
  read32 (stack_mem ks m) (stack_context ks + CTX_EIP) = sym_forkret ∧
  ks < stack_context ks ∧ stack_tf ks + TF_SIZE = ks + PGSIZE ∧
  same_outside ks m (stack_mem ks m).
Proof.
  intros Hks Htr Hfr. unfold stack_mem, stack_context, stack_tf, KSTACKSIZE, TF_SIZE, CTX_SIZE, CTX_EIP, PGSIZE.
  split_and!; try lia.
  - rewrite read32_write32_ne, read32_memset_ne, read32_write32, u32_small by (done || lia). done.
  - by rewrite read32_write32, u32_small.
  - intros b Hb. unfold PGSIZE in *. rewrite rd_write32, rd_memset, rd_write32 by lia.
    repeat (case_decide; try lia).
Qed.

(** ** Ticket numbers and strides *)

Lemma passo_range stride :
  MIN_TICKETS <= stride <= MAX_TICKETS → 5 <= Z.quot 10000 stride <= 400.
Proof.
  unfold MIN_TICKETS, MAX_TICKETS. intros H. rewrite Z.quot_div_nonneg by lia.
  split; [apply Z.div_le_lower_bound; lia|]. apply Z.lt_succ_r, Z.div_lt_upper_bound; lia.
Qed.

(** ** Properties *)

(** sleep(chan, lk) as its own process sees it. When the process gives up the
    processor it is SLEEPING on the channel, lk is released and ptable.lock is
    held, and a wakeup1() of the channel from there makes it RUNNABLE; when it is
    resumed, sleep returns with lk held, ptable.lock released and the channel
    cleared, and otherwise in the state it was resumed in. That no other CPU can
    get in between is the subject of SleepWake.v. *)
Theorem sleep_protocol {EO : EnvOk E} (ch : chan) (lk : lockid) (s : kstate) (c : nat) (p : proc) :
  ptable_ok s → k_proc s = Some c → k_procs s !! c = Some p → lk ≠ Lptable → k_held s = {[ lk ]} →
  (∃ p1, k_procs (asleep ch c s) !! c = Some p1 ∧ p_state p1 = SLEEPING ∧ p_chan p1 = Some ch) ∧
  k_held (asleep ch c s) = {[ Lptable ]} ∧
  (∃ s1 p1, wakeup1 (Some ch) (asleep ch c s) = Ok tt s1 ∧
     k_procs s1 !! c = Some p1 ∧ p_state p1 = RUNNABLE) ∧
  sleep ch (Some lk) s =
    match swtch_out (asleep ch c s) with
    | None => Hang
    | Some s' => Ok tt (set_k_held {[ lk ]} (set_k_procs (alter (set_p_chan None) c (k_procs s')) s'))
    end.
Proof.
  intros Hs Hc Hp Hlk Hh.
  assert (k_procs (asleep ch c s) !! c = Some (set_p_state SLEEPING (set_p_chan (Some ch) p))) as Hp1.
  { simpl. by rewrite list_lookup_alter_eq, Hp. }
  assert (ptable_ok (asleep ch c s)) as Hs1 by (unfold ptable_ok; simpl; by rewrite length_alter).
  split; [by eexists|]. split; [done|]. split; [|by apply sleep_eq with p].
  rewrite wakeup1_eq by done. do 2 eexists. split; [done|]. cbn [k_procs set_k_procs].
  rewrite list_lookup_fmap, Hp1. split; [done|]. unfold woken. simpl.
  by rewrite bool_decide_eq_true_2.
Qed.

(** C33. wakeup(chan) makes RUNNABLE exactly the processes that sleep on chan and
    changes nothing else; it returns with ptable.lock released. *)
Theorem wakeup_exact (ch : chan) (s : kstate) :
  ptable_ok s → Lptable ∉ k_held s →
  ∃ ps, wakeup ch s = Ok tt (set_k_procs ps s) ∧ length ps = length (k_procs s) ∧
  ∀ i p, k_procs s !! i = Some p → ∃ q, ps !! i = Some q ∧
    (p_state p = SLEEPING ∧ p_chan p = Some ch → q = set_p_state RUNNABLE p) ∧
    (p_state p ≠ SLEEPING ∨ p_chan p ≠ Some ch → q = p).
Proof.
  intros Hs Hl. eexists. split; [by apply wakeup_eq|]. rewrite length_fmap. split; [done|].
  intros i p Hp. eexists. rewrite list_lookup_fmap, Hp. split; [done|]. unfold woken, state_eqb.
  repeat case_bool_decide; simpl; naive_solver.
Qed.

(** kill(pid): if no slot has that pid it returns -1 and changes nothing;
    otherwise it returns 0, marks the first slot with that pid killed, makes it
    RUNNABLE if it was asleep, and leaves every other slot alone. Either way
    ptable.lock is released. *)
Theorem kill_behaviour (pid : Z) (s : kstate) :
  ptable_ok s → Lptable ∉ k_held s →
  ((∀ i p, k_procs s !! i = Some p → p_pid p ≠ pid) ∧ kill pid s = Ok (-1) s) ∨
  (∃ i p q, k_procs s !! i = Some p ∧ p_pid p = pid ∧
     (∀ j p', (j < i)%nat → k_procs s !! j = Some p' → p_pid p' ≠ pid) ∧
     kill pid s = Ok 0 (set_k_procs (<[i := q]> (k_procs s)) s) ∧
     p_killed q = 1 ∧ p_pid q = pid ∧
     p_state q = (if state_eqb (p_state p) SLEEPING then RUNNABLE else p_state p)).
Proof.
  intros Hs Hl. rewrite kill_eq by done. destruct (find_proc _ s) as [[i p]|] eqn:Ef.
  - right. apply find_proc_Some in Ef as (Hp & Hpid & Hmin). exists i, p, (killed_proc p).
    split_and!; [done|lia| |done|..].
    + intros j p' Hj Hp'. specialize (Hmin j p' Hp' Hj). lia.
    + unfold killed_proc. by destruct (state_eqb _ _).
    + unfold killed_proc. destruct (state_eqb _ _); simpl; lia.
    + unfold killed_proc. by destruct (state_eqb _ _).
  - left. split; [|done]. intros i p Hp. rewrite find_proc_None in Ef. specialize (Ef i p Hp). lia.
Qed.

(** C31. allocproc with a ticket count in the range fork() passes: when a slot is
    UNUSED and a page is free it claims the first such slot, with the next pid, the
    stride 10000 / tickets (5 to 400) and pass 0, on a fresh kernel stack whose saved
    context starts at forkret and returns to trapret; all other slots, and all
    memory outside the new stack, are unchanged. While all pids given out are
    below nextpid, and nextpid has not reached the largest int, the new pid is
    different from that of every slot, and all pids are below nextpid again. *)
Theorem allocproc_fresh (stride ks : Z) (i : nat) (l : list Z) (s : kstate) :
  ptable_ok s → Lptable ∉ k_held s → kmem_ok s (ks :: l) → kmem_free s →
  is_u32 sym_trapret → is_u32 sym_forkret →
  MIN_TICKETS <= stride <= MAX_TICKETS →
  fst <$> find_proc (λ p, state_eqb (p_state p) UNUSED) s = Some (i) →
  ∃ s' p', allocproc stride s = Ok (Some (i)) s' ∧ k_procs s' !! i = Some p' ∧
    p_state p' = EMBRYO ∧ p_pid p' = k_nextpid s ∧ k_nextpid s' = s32 (k_nextpid s + 1) ∧
    p_passo p' = 10000 / stride ∧ 5 <= p_passo p' <= 400 ∧ p_passada p' = 0 ∧ p_kstack p' = ks ∧
    read32 (k_mem s') (p_context p' + CTX_EIP) = sym_forkret ∧
    read32 (k_mem s') (p_context p' + CTX_SIZE) = sym_trapret ∧
    p_context p' + CTX_SIZE + 4 = p_tf p' ∧
    (∀ j, j ≠ i → k_procs s' !! j = k_procs s !! j) ∧
    same_outside ks (k_mem s) (k_mem s') ∧ kmem_ok s' l ∧
    (pids_below s → 0 <= k_nextpid s < 2147483647 →
     (∀ j q, k_procs s !! j = Some q → p_pid q ≠ p_pid p') ∧ pids_below s').
Proof.
  intros Hs Hl Hk Hf Htr Hfr Hst Hi. unfold allocproc. unfold mbind at 1, M_bind at 1.
  rewrite allocproc_claim_eq by (done || unfold MIN_TICKETS in *; lia).
  destruct (find_proc _ s) as [[i' p]|] eqn:Ef; [|done]. injection Hi as ->.
  apply find_proc_Some in Ef as (Hp & _ & _). set (s1 := set_k_nextpid _ _).
  assert (kmem_ok s1 (ks :: l)) as Hk1 by done. assert (kmem_free s1) as Hf1 by done.
  destruct (allocproc_stack_eq (i) s1 _ Hk1 Hf1) as (s2 & _ & Hk2 & Es & ->).
  assert (page_ok ks) as Hks by (destruct Hk as (_ & _ & _ & ?%Forall_cons); naive_solver).
  destruct (stack_mem_words ks (k_mem s2) Hks Htr Hfr) as (W1 & W2 & _ & _ & W3).
  assert (k_procs s2 = k_procs s1 ∧ k_mem s2 = k_mem s) as [E1 E2] by (by rewrite Es).
  do 2 eexists. split; [done|]. simpl. rewrite E1. simpl. split.
  { by rewrite !list_alter_compose, list_lookup_alter_eq, Hp. }
  rewrite E2 in W1, W2, W3. simpl. rewrite Es. simpl. split_and!; try done.
  - apply Z.quot_div_nonneg; unfold MIN_TICKETS in *; lia.
  - apply passo_range, Hst.
  - apply passo_range, Hst.
  - unfold stack_context. by rewrite Z.sub_add.
  - unfold stack_context. lia.
  - intros j Hj. by rewrite !list_lookup_alter_ne by done.
  - destruct Hk2 as (Hm & Hl2 & Hnd & Hok).
    destruct Hk as (_ & _ & [Hnin _]%NoDup_cons & _).
    split_and!; simpl; try done.
    + rewrite E2 in Hm. by apply mem_ok_write32, mem_ok_memset, mem_ok_write32.
    + apply (free_list_frame ks (k_mem s2)); rewrite ?E2 in *; try done. by destruct Hks.
  - intros Hb Hn. split; [intros j q Hj Eq; specialize (Hb j q Hj); cbn in Eq; lia|].
    intros j q. cbn. rewrite s32_small by lia. destruct (decide (j = i)) as [->|Hj].
    + rewrite !list_lookup_alter_eq, Hp. intros [= <-]. cbn. lia.
    + rewrite !list_lookup_alter_ne by done. intros Hq. specialize (Hb j q Hq). lia.
Qed.

End Proc.

(** ** Witnesses *)

#[global] Instance env_idle_ok : EnvOk env_idle.
Proof. split; intros s s' [= ->]; done. Qed.

Section Witness.
#[local] Existing Instance env_idle.

(** Process 0 runs, holding log.lock; process 1 sleeps on the log. *)
Definition proc_ex : kstate :=
  set_k_proc (Some 0%nat) (set_k_held {[ Llog ]}
    (set_k_procs (<[0%nat := set_p_pid 1 (set_p_state RUNNING proc0)]>
       (<[1%nat := set_p_chan (Some Clog) (set_p_pid 2 (set_p_state SLEEPING proc0))]> (k_procs kstate0)))
     kstate0)).

Lemma sleep_protocol_witness :
  sleep Clog (Some Llog) proc_ex =
    match swtch_out (asleep Clog 0 proc_ex) with
    | None => Hang
    | Some s' => Ok tt (set_k_held {[ Llog ]} (set_k_procs (alter (set_p_chan None) 0%nat (k_procs s')) s'))
    end.
Proof.
  apply (sleep_protocol Clog Llog proc_ex 0 (set_p_pid 1 (set_p_state RUNNING proc0)));
    [reflexivity|reflexivity|reflexivity|discriminate|reflexivity].
Defined.

Lemma wakeup_exact_witness :
  ∃ ps q, wakeup Clog proc_ex = Ok tt (set_k_procs ps proc_ex) ∧ ps !! 1%nat = Some q ∧ p_state q = RUNNABLE.
Proof.
  destruct (wakeup_exact Clog proc_ex) as (ps & H1 & _ & H2).
  - reflexivity.
  - simpl. set_solver.
  - destruct (H2 1%nat _ eq_refl) as (q & Hq & Hw & _). exists ps, q. split; [exact H1|].
    split; [exact Hq|]. rewrite Hw; [reflexivity|split; reflexivity].
Defined.

Lemma kill_behaviour_witness :
  ∃ i p q, k_procs proc_ex !! i = Some p ∧ p_pid p = 2 ∧
    kill 2 proc_ex = Ok 0 (set_k_procs (<[i := q]> (k_procs proc_ex)) proc_ex) ∧ p_killed q = 1.
Proof.
  destruct (kill_behaviour 2 proc_ex) as [[H _]|(i & p & q & Hp & Hpid & _ & Hk & Hq & _)].
  - reflexivity.
  - simpl. set_solver.
  - exfalso. exact (H 1%nat _ eq_refl eq_refl).
  - exists i, p, q. split_and!; assumption.
Defined.

Lemma allocproc_fresh_witness :
  ∃ s' p', allocproc 50 kalloc_ex = Ok (Some 0%nat) s' ∧ k_procs s' !! 0%nat = Some p' ∧
    p_state p' = EMBRYO ∧ p_pid p' = 1 ∧ p_passo p' = 200 ∧ pids_below s'.
Proof.
  destruct (allocproc_fresh 50 2148630528 0 [] kalloc_ex)
    as (s' & p' & H1 & H2 & H3 & H4 & _ & H5 & _ & _ & _ & _ & _ & _ & _ & _ & _ & H6).
  - reflexivity.
  - simpl. set_solver.
  - exact kalloc_ex_ok.
  - intros H. exfalso. apply H. reflexivity.
  - unfold is_u32. simpl. lia.
  - unfold is_u32. simpl. lia.
  - unfold MIN_TICKETS, MAX_TICKETS. lia.
  - reflexivity.
  - exists s', p'. split_and!; try assumption. apply H6; [|split; [discriminate|reflexivity]].
    intros j q Hj. apply lookup_replicate in Hj as [-> _]. reflexivity.
Defined.

(** kill() does not look at a slot's state, and allocproc() does not clear
    the killed flag. kill(0) finds an UNUSED slot (its pid is 0), returns 0 and
    marks it; the next process created in that slot is born killed. *)
Theorem kill_marks_unused_slot :
  wp (r ← kill 0; a ← allocproc 50; p ← get_proc 0; mret (r, a, p_state p, p_pid p, p_killed p))
    (λ x _, x = (0, Some 0%nat, EMBRYO, 1, 1)) kalloc_ex.
Proof. vm_compute. reflexivity. Qed.

End Witness.
