(* ===== verification/SleepWake.v ===== *)
(** * SleepWake: sleep() and wakeup() on several CPUs

    The action sequences of sleep() and wakeup() (Proc.v), interleaved with the
    other CPUs' one action at a time. A CPU runs a process, with the kernel code it
    has still to run, or is in scheduler(), waiting for a RUNNABLE process.
    The locks work as Spinlock.v shows: acquire() of a lock that another CPU holds
    does not return.

    The result is that a wakeup is not lost: if a process that holds lk calls
    sleep(chan, lk), and another CPU takes lk, makes the condition true and calls
    wakeup(chan), then afterwards the process is not left SLEEPING. *)

From S2P Require Import Prelude Machine CMem Spinlock Kalloc Proc.
From stdpp Require Import functions.
From stdpp Require Import options.

Section SleepWake.
Context {E : Env}.

(** [w_k] is the kernel's shared state. [w_held c], [w_cur c] and [w_code c] are
    the locks CPU [c] holds, the process it runs (cpu->proc) and the code it has
    still to run; [w_saved p] is the code process [p] has still to run when it
    is next given a CPU: the kernel stack sched() left it with. *)
Record world := mkworld {
  w_k : kstate;
  w_held : nat → gset lockid;
  w_cur : nat → option nat;
  w_code : nat → list act;
  w_saved : nat → list act
}.

(** The kernel state as CPU [c] sees it. *)
Definition view (w : world) (c : nat) : kstate := set_k_proc (w_cur w c) (set_k_held (w_held w c) (w_k w)).

(** One action of one CPU.
    - An action of the code. A lock it takes is held by no other CPU.
    - sched() with its checks passed: the rest of the code is kept for the process;
      the CPU returns to scheduler(), which releases ptable.lock.
    - scheduler() takes ptable.lock and gives the CPU to a RUNNABLE process,
      which goes on after its call of sched(), holding ptable.lock. (That
      scheduler() can also run a process that is not RUNNABLE, from a min_proc of
      an earlier round, is left out here: see Stride.v.) *)
Inductive step : world → world → Prop :=
| step_do c m k w s :
    w_code w c = Do m :: k → m (view w c) = Ok tt s →
    (∀ c', c' ≠ c → (k_held s ∖ w_held w c) ## w_held w c') →
    step w (mkworld s (<[c := k_held s]> (w_held w)) (<[c := k_proc s]> (w_cur w))
      (<[c := k]> (w_code w)) (w_saved w))
| step_sched c p k w s :
    w_code w c = Sched :: k → w_cur w c = Some p → sched_check (view w c) = Ok tt s →
    step w (mkworld s (<[c := w_held w c ∖ {[ Lptable ]}]> (w_held w)) (<[c := None]> (w_cur w))
      (<[c := []]> (w_code w)) (<[p := k]> (w_saved w)))
| step_run c p q w :
    w_code w c = [] → w_cur w c = None → (∀ c', Lptable ∉ w_held w c') →
    k_procs (w_k w) !! p = Some q → p_state q = RUNNABLE →
    step w (mkworld (set_k_procs (<[p := set_p_state RUNNING q]> (k_procs (w_k w))) (w_k w))
      (<[c := {[ Lptable ]} ∪ w_held w c]> (w_held w)) (<[c := Some p]> (w_cur w))
      (<[c := w_saved w p]> (w_code w)) (w_saved w)).

(** Code of others that process [p] has to put up with: it leaves p's state and
    channel alone, except that it may wake p, and does not change cpu->proc. *)
Definition harmless (p : nat) (a : act) : Prop :=
  match a with
  | Sched => True
  | Do m => ∀ s s', k_proc s ≠ Some p → m s = Ok tt s' →
      k_proc s' = k_proc s ∧
      ∀ q, k_procs s !! p = Some q → ∃ q', k_procs s' !! p = Some q' ∧ p_chan q' = p_chan q ∧
        (p_state q' = p_state q ∨ p_state q = SLEEPING ∧ p_state q' = RUNNABLE)
  end.

(** The other side of the protocol: take lk, make the condition true, wake up the
    sleepers, release lk. *)
Definition waker_code (ch : chan) (lk : lockid) (body : list (K unit)) : list act :=
  Do (acquire lk) :: (Do <$> body) ++ wakeup_steps ch ++ [Do (release lk)].

(** Run by one CPU, it is the code around wakeup() of Proc.v. *)
Lemma run_acts_app l k s : run_acts (l ++ k) s = (run_acts l ;; run_acts k) s.
Proof.
  revert s. induction l as [|[m|] l IH]; intros s; [done|..]; cbn; unfold mbind, M_bind in *.
  - by destruct (m s).
  - by destruct (sched s).
Qed.

Lemma run_waker ch lk body s :
  run_acts (waker_code ch lk body) s =
    (acquire lk ;; run_acts (Do <$> body) ;; wakeup ch ;; release lk ;; skip) s.
Proof.
  unfold waker_code. cbn [run_acts]. unfold mbind at 1 2, M_bind at 1 2.
  destruct (acquire lk s) as [? s1| | |]; [|done..]. rewrite run_acts_app. unfold mbind at 1 2, M_bind at 1 2.
  destruct (run_acts _ s1) as [? s2| | |]; [|done..]. by rewrite run_acts_app.
Qed.

(** Process [p] runs on CPU [a], holds lk, and is about to go to sleep on [ch]; CPU
    [b] is about to wake up [ch]; the others do something else. *)
Record start (ch : chan) (lk : lockid) (a b p : nat) (body : list (K unit)) (w : world) : Prop := {
  st_lock : lk ≠ Lptable;
  st_procs : ptable_ok (w_k w);
  st_sleeper : w_code w a = sleep_steps ch lk ∧ w_cur w a = Some p ∧ lk ∈ w_held w a;
  st_running : ∃ q, k_procs (w_k w) !! p = Some q ∧ p_state q = RUNNING;
  st_waker : w_code w b = waker_code ch lk body ∧ Forall (harmless p) (Do <$> body);
  st_two : a ≠ b;
  st_alone c : c ≠ a → w_cur w c ≠ Some p;
  st_others c : c ≠ a → c ≠ b → Forall (harmless p) (w_code w c);
  st_saved r : r ≠ p → Forall (harmless p) (w_saved w r)
}.

(** ** Where the two sides are *)

Section Invariant.
Context (ch : chan) (lk : lockid) (b p : nat) (Hlk : lk ≠ Lptable) (Hp : p ∈ ptable_procs).

Definition going : list act :=
  Do (upd_cur (set_p_chan (Some ch))) :: Do (upd_cur (set_p_state SLEEPING)) :: Sched :: sleep_tail lk.

(** How far the sleeper is. 0: it holds lk. 1: it holds ptable.lock. 2: it has given
    up its CPU and is SLEEPING on [ch]. 3: it is awake again. *)
Inductive on_cpu (h : gset lockid) (q : proc) : list act → nat → Prop :=
| on_start : lk ∈ h → p_state q = RUNNING → on_cpu h q (Do (acquire Lptable) :: Do (release lk) :: going) 0
| on_locked : lk ∈ h → Lptable ∈ h → p_state q = RUNNING → on_cpu h q (Do (release lk) :: going) 0
| on_chan : Lptable ∈ h → p_state q = RUNNING → on_cpu h q going 1
| on_state : Lptable ∈ h → p_state q = RUNNING → p_chan q = Some ch → on_cpu h q (drop 1 going) 1
| on_sched : Lptable ∈ h → p_state q = SLEEPING ∨ p_state q = RUNNABLE → p_chan q = Some ch →
    on_cpu h q (Sched :: sleep_tail lk) 1
| on_tail n : p_state q = RUNNING → on_cpu h q (drop n (sleep_tail lk)) 3.

Inductive off_cpu (q : proc) : nat → Prop :=
| off_asleep : p_state q = SLEEPING → p_chan q = Some ch → off_cpu q 2
| off_ready : p_state q = RUNNABLE → off_cpu q 3.

Inductive sleeper (w : world) : nat → Prop :=
| sleeper_on c q n :
    w_cur w c = Some p → k_procs (w_k w) !! p = Some q → on_cpu (w_held w c) q (w_code w c) n → sleeper w n
| sleeper_off q n :
    (∀ c, w_cur w c ≠ Some p) → k_procs (w_k w) !! p = Some q → w_saved w p = sleep_tail lk → off_cpu q n →
    sleeper w n.

(** How far the waker is. 0: it does not have lk. 1: it has taken lk. 2: it has
    taken ptable.lock and the loop of wakeup1() has still to come to slot [p].
    3: the loop has passed slot [p]. *)
Definition slots (l : list nat) : list act := (λ i, Do (wakeup_slot (Some ch) i)) <$> l.
Inductive waker (code : list act) : nat → Prop :=
| waker_start body : code = waker_code ch lk body → waker code 0
| waker_body body : code = (Do <$> body) ++ wakeup_steps ch ++ [Do (release lk)] → waker code 1
| waker_loop l : p ∈ l → code = slots l ++ [Do (release Lptable); Do (release lk)] → waker code 2.

(** The waker is never ahead of the sleeper. *)
Record inv (w : world) : Prop := {
  inv_alone c c' : w_cur w c = Some p → w_cur w c' = Some p → c = c';
  inv_code c : w_cur w c ≠ Some p → Forall (harmless p) (w_code w c);
  inv_saved r : r ≠ p → Forall (harmless p) (w_saved w r);
  inv_order : ∃ n, sleeper w n ∧
    (n = 3 ∨ ∃ k, (k ≤ n)%nat ∧ waker (w_code w b) k ∧ w_cur w b ≠ Some p)
}.

(** ** Actions that are harmless *)

Lemma harmless_procs (m : K unit) :
  (∀ s s', m s = Ok tt s' → k_procs s' = k_procs s ∧ k_proc s' = k_proc s) → harmless p (Do m).
Proof using Type. intros H s s' _ [-> ->]%H. split; [done|]. intros q Hq. exists q. auto. Qed.

Lemma harmless_acquire l : harmless p (Do (acquire l)).
Proof using Type.
  apply harmless_procs. intros s s'. unfold acquire. case_bool_decide; [done|]. by intros [= <-].
Qed.

Lemma harmless_release l : harmless p (Do (release l)).
Proof using Type.
  apply harmless_procs. intros s s'. unfold release. case_bool_decide; [|done]. by intros [= <-].
Qed.

Lemma wakeup_slot_eq och i s q :
  k_procs s !! i = Some q → wakeup_slot och i s = Ok tt (set_k_procs (<[i := woken och q]> (k_procs s)) s).
Proof using Type.
  intros Hq. unfold wakeup_slot. rewrite (bind_Ok _ _ _ _ _ (get_proc_eq _ _ _ Hq)). unfold woken.
  destruct (_ && _); simpl.
  - unfold upd_proc, modify. f_equal. rec_eq. by apply list_alter_lookup.
  - unfold skip, mret, M_ret. f_equal. rec_eq. by rewrite list_insert_id.
Qed.

Lemma harmless_slot och i : harmless p (Do (wakeup_slot och i)).
Proof using Type.
  intros s s' _. destruct (k_procs s !! i) as [x|] eqn:Ei.
  - rewrite (wakeup_slot_eq _ _ _ _ Ei). intros [= <-]. split; [done|]. intros q Hq. cbn.
    destruct (decide (i = p)) as [->|Hne]; [|rewrite list_lookup_insert_ne by done; eauto].
    assert (x = q) as -> by congruence. rewrite list_lookup_insert_eq by (by eapply lookup_lt_Some).
    eexists. split; [done|]. unfold woken, state_eqb. repeat case_bool_decide; cbn; auto.
  - unfold wakeup_slot, get_proc, mbind, M_bind. by rewrite Ei.
Qed.

Lemma harmless_slots l : Forall (harmless p) (slots l).
Proof using Type. apply Forall_fmap, Forall_true. intros i. apply harmless_slot. Qed.

Lemma harmless_waker body :
  Forall (harmless p) (Do <$> body) → Forall (harmless p) (waker_code ch lk body).
Proof using Type.
  intros Hb. unfold waker_code, wakeup_steps. apply Forall_cons_2; [apply harmless_acquire|].
  apply Forall_app_2; [done|]. cbn [app]. apply Forall_cons_2; [apply harmless_acquire|].
  rewrite <- (assoc_L (++)). apply Forall_app_2; [exact (harmless_slots ptable_procs)|].
  cbn [app]. auto using Forall_cons_2, Forall_nil_2, harmless_release.
Qed.

(** A harmless action leaves the sleeper where it was, or wakes it. *)
Lemma off_woken q q' n :
  off_cpu q n → p_chan q' = p_chan q →
  p_state q' = p_state q ∨ p_state q = SLEEPING ∧ p_state q' = RUNNABLE →
  ∃ n', (n ≤ n')%nat ∧ (n = 3 → n' = 3) ∧ off_cpu q' n'.
Proof using Type.
  intros [Hs Hc|Hs] Hch [Hst|[Hst Hst']].
  - exists 2%nat. split_and!; [done..|]. apply off_asleep; congruence.
  - exists 3%nat. split_and!; [lia|done|]. by apply off_ready.
  - exists 3%nat. split_and!; [done..|]. apply off_ready; congruence.
  - congruence.
Qed.

Lemma on_woken k h q q' n :
  on_cpu h q k n → p_chan q' = p_chan q →
  p_state q' = p_state q ∨ p_state q = SLEEPING ∧ p_state q' = RUNNABLE → on_cpu h q' k n.
Proof using Type.
  intros [] Hch Hst; constructor; try done; destruct Hst; naive_solver congruence.
Qed.

(** ** One action keeps the order *)

Lemma tail_eq : sleep_tail lk = [Do (upd_cur (set_p_chan None)); Do (release Lptable); Do (acquire lk)].
Proof using Hlk. unfold sleep_tail. by rewrite bool_decide_eq_true_2. Qed.

Lemma upd_cur_eq f s q :
  k_proc s = Some p → k_procs s !! p = Some q →
  upd_cur f s = Ok tt (set_k_procs (<[p := f q]> (k_procs s)) s).
Proof using Type.
  intros Hc Hq. unfold upd_cur, curproc, mbind, M_bind. rewrite Hc. cbn. unfold upd_proc, modify.
  by rewrite (list_alter_lookup _ _ _ _ Hq).
Qed.

Lemma acquire_Ok l s s' : acquire l s = Ok tt s' → s' = set_k_held ({[ l ]} ∪ k_held s) s ∧ l ∉ k_held s.
Proof using Type. unfold acquire. case_bool_decide; [done|]. by intros [= <-]. Qed.

Lemma release_Ok l s s' : release l s = Ok tt s' → s' = set_k_held (k_held s ∖ {[ l ]}) s.
Proof using Type. unfold release. case_bool_decide; [|done]. by intros [= <-]. Qed.

(** The sleeper's own actions. *)
Lemma own_action m k s s' q n :
  k_proc s = Some p → k_procs s !! p = Some q → on_cpu (k_held s) q (Do m :: k) n → m s = Ok tt s' →
  k_proc s' = Some p ∧ ∃ q' n', k_procs s' !! p = Some q' ∧ on_cpu (k_held s') q' k n' ∧
    (n ≤ n')%nat ∧ (n = 3 → n' = 3).
Proof using Hlk.
  clear Hp. intros Hc Hq Hon Hm. pose proof (lookup_lt_Some _ _ _ Hq) as Hlt.
  remember (Do m :: k) as code eqn:Ek.
  destruct Hon as [Hl Hst|Hl Ht Hst|Ht Hst|Ht Hst Hch|Ht Hst Hch|j Hst]; try (injection Ek as <- <-).
  - apply acquire_Ok in Hm as [-> _]. split; [done|]. exists q, 0%nat.
    split_and!; [done| |done..]. apply on_locked; [cbn; set_solver..|done].
  - apply release_Ok in Hm as ->. split; [done|]. exists q, 1%nat. split_and!; [done| |lia|done].
    apply on_chan; [cbn; set_solver|done].
  - rewrite (upd_cur_eq _ _ _ Hc Hq) in Hm. injection Hm as <-. split; [done|].
    eexists _, 1%nat. cbn. rewrite list_lookup_insert_eq by done. split_and!; [done| |done..]. by apply on_state.
  - rewrite (upd_cur_eq _ _ _ Hc Hq) in Hm. injection Hm as <-. split; [done|].
    eexists _, 1%nat. cbn. rewrite list_lookup_insert_eq by done. split_and!; [done| |done..].
    apply on_sched; [done|by left|done].
  - done.
  - assert (k = drop (S j) (sleep_tail lk)) as ->.
    { rewrite <- (skipn_skipn 1 j), Ek. done. }
    assert (∀ q', p_state q' = RUNNING → on_cpu (k_held s') q' (drop (S j) (sleep_tail lk)) 3) as Hk by (intros; by constructor).
    rewrite tail_eq in Ek. destruct j as [|[|[|j]]]; cbn in Ek; simplify_eq.
    + rewrite (upd_cur_eq _ _ _ Hc Hq) in Hm. injection Hm as <-. split; [done|].
      eexists _, 3%nat. cbn [k_procs set_k_procs]. rewrite list_lookup_insert_eq by done. split_and!; [done| |done..]. by apply Hk.
    + apply release_Ok in Hm as ->. split; [done|]. exists q, 3%nat. split_and!; [done| |done..]. by apply Hk.
    + apply acquire_Ok in Hm as [-> _]. split; [done|]. exists q, 3%nat. split_and!; [done| |done..]. by apply Hk.
    + by destruct j.
Qed.

(** The others' actions. *)
Lemma other_action c m k w s n :
  w_cur w c ≠ Some p → harmless p (Do m) → m (view w c) = Ok tt s → sleeper w n →
  k_proc s = w_cur w c ∧ ∃ n', (n ≤ n')%nat ∧ (n = 3 → n' = 3) ∧
    sleeper (mkworld s (<[c := k_held s]> (w_held w)) (<[c := k_proc s]> (w_cur w))
      (<[c := k]> (w_code w)) (w_saved w)) n'.
Proof using Type.
  intros Hc Hh Hm Hs. destruct (Hh (view w c) s Hc Hm) as [Hcur Heff]. cbn in Hcur, Heff. split; [done|].
  destruct Hs as [d q n Hd Hq Hon|q n Hd Hq Hsv Hoff].
  - destruct (Heff q Hq) as (q' & Hq' & Hch & Hst). exists n. split_and!; [done..|].
    assert (c ≠ d) as Hne by congruence.
    apply (sleeper_on _ d q'); cbn; rewrite ?fn_lookup_insert_ne by done; [done..|].
    by apply (on_woken _ _ q).
  - destruct (Heff q Hq) as (q' & Hq' & Hch & Hst).
    destruct (off_woken _ _ _ Hoff Hch Hst) as (n' & Hn & H3 & Hoff'). exists n'. split_and!; [done..|].
    apply (sleeper_off _ q'); cbn; [|done..]. intros d. rewrite Spin.ins_case. case_decide; [congruence|done].
Qed.

(** While the sleeper is at 0 its CPU holds lk, at 1 ptable.lock. *)
Lemma sleeper_locks w n :
  sleeper w n → (n < 2)%nat →
  ∃ c, w_cur w c = Some p ∧ (n = 0%nat → lk ∈ w_held w c) ∧ (n = 1%nat → Lptable ∈ w_held w c).
Proof using Type.
  intros [c q n' Hc Hq Hon|q n' Hc Hq Hsv Hoff] Hn.
  - exists c. split; [done|]. destruct Hon; split; done || lia.
  - destruct Hoff; lia.
Qed.

Lemma sched_check_id s s' : sched_check s = Ok tt s' → s' = s ∧ Lptable ∈ k_held s.
Proof using Type.
  unfold sched_check, holding. mrun. case_bool_decide; [|done]. cbn. destruct (negb _); [done|].
  unfold curproc, get_proc. destruct (k_proc s) as [c|]; [|done]. cbn.
  destruct (k_procs s !! c) as [q|]; [|done]. cbn. destruct (state_eqb _ _); [done|]. by intros [= <-].
Qed.

Lemma inv_own c m k w s :
  inv w → w_code w c = Do m :: k → w_cur w c = Some p → m (view w c) = Ok tt s →
  inv (mkworld s (<[c := k_held s]> (w_held w)) (<[c := k_proc s]> (w_cur w))
      (<[c := k]> (w_code w)) (w_saved w)).
Proof using Hlk.
  intros I Hk Hc Hm. destruct (inv_order _ I) as (n & Hs & Hord).
  destruct Hs as [d q n Hd Hq Hon|q n Hd]; [|by destruct (Hd c)].
  rewrite (inv_alone _ I d c Hd Hc) in *. rewrite Hk in Hon.
  destruct (own_action m k (view w c) s q n Hc Hq Hon Hm) as (Hc' & q' & n' & Hq' & Hon' & Hn & H3).
  split; cbn.
  - intros c1 c2. rewrite !Spin.ins_case. intros H1 H2. apply (inv_alone _ I); by repeat case_decide; subst.
  - intros c1. rewrite !Spin.ins_case. case_decide; [congruence|apply I].
  - apply I.
  - exists n'. split.
    + apply (sleeper_on _ c q'); cbn; rewrite ?fn_lookup_insert; done.
    + destruct Hord as [->|(j & Hj & Hw & Hb)]; [left; by apply H3|]. right. exists j.
      assert (c ≠ b) by congruence. rewrite !fn_lookup_insert_ne by done. split; [lia|done].
Qed.

(** The waker's next action, and where it leads. *)
Lemma waker_action m k j :
  waker (Do m :: k) j →
  (j = 0 ∧ m = acquire lk ∧ waker k 1) ∨ (j = 1 ∧ waker k 1) ∨ (j = 1 ∧ m = acquire Lptable ∧ waker k 2) ∨
  (j = 2 ∧ waker k 2) ∨ (j = 2 ∧ m = wakeup_slot (Some ch) p).
Proof using Hp.
  remember (Do m :: k) as code eqn:Ek.
  intros [body ->|[|x body] ->|[|i l] Hin ->]; unfold waker_code, wakeup_steps, slots in Ek; cbn [fmap list_fmap app] in Ek.
  - injection Ek as <- <-. left. split_and!; [done..|]. by apply (waker_body _ body).
  - injection Ek as <- <-. right; right; left. split_and!; [done..|].
    apply (waker_loop _ ptable_procs); [done|]. reflexivity.
  - injection Ek as <- <-. right; left. split; [done|]. by apply (waker_body _ body).
  - by apply not_elem_of_nil in Hin.
  - injection Ek as <- <-. do 3 right. destruct (decide (p ∈ l)) as [Hl|Hl].
    + left. split; [done|]. by apply (waker_loop _ l).
    + right. apply elem_of_cons in Hin as [<-|?]; done.
Qed.

Lemma waker_not_nil j : ¬ waker [] j.
Proof using Type. intros [body E1|[|x body] E1|[|i l] Hin E1]; try done. Qed.

(** The loop of wakeup1() comes to the slot of a sleeper that has given up its CPU. *)
Lemma slot_wakes c k w s :
  w_cur w c ≠ Some p → wakeup_slot (Some ch) p (view w c) = Ok tt s → sleeper w 2 →
  sleeper (mkworld s (<[c := k_held s]> (w_held w)) (<[c := k_proc s]> (w_cur w))
      (<[c := k]> (w_code w)) (w_saved w)) 3.
Proof using Type.
  intros Hc Hm Hs. inversion Hs as [d q n Hd Hq Hon|q n Hd Hq Hsv Hoff]; subst n; [inversion Hon|].
  inversion Hoff as [Hst Hch|]. rewrite (wakeup_slot_eq _ _ _ q) in Hm by done. injection Hm as <-.
  apply (sleeper_off _ (woken (Some ch) q)); cbn; [| |done|].
  - intros d. rewrite Spin.ins_case. by case_decide.
  - apply list_lookup_insert_eq. by eapply lookup_lt_Some.
  - apply off_ready. unfold woken. rewrite Hst, Hch. by rewrite bool_decide_eq_true_2.
Qed.

Lemma inv_other c m k w s :
  inv w → w_code w c = Do m :: k → w_cur w c ≠ Some p → m (view w c) = Ok tt s →
  (∀ c', c' ≠ c → (k_held s ∖ w_held w c) ## w_held w c') →
  inv (mkworld s (<[c := k_held s]> (w_held w)) (<[c := k_proc s]> (w_cur w))
      (<[c := k]> (w_code w)) (w_saved w)).
Proof using Hp.
  intros I Hk Hc Hm Hdis. pose proof (inv_code _ I c Hc) as Hh. rewrite Hk in Hh.
  apply Forall_cons_1 in Hh as [Hh Hh'].
  destruct (inv_order _ I) as (n & Hs & Hord).
  destruct (other_action c m k w s n Hc Hh Hm Hs) as (Hcur & n' & Hn & H3 & Hs').
  set (w' := mkworld s _ _ _ _) in *. split; cbn.
  - intros c1 c2. rewrite !Spin.ins_case, Hcur. intros H1 H2. apply (inv_alone _ I); by repeat case_decide; subst.
  - intros c1. rewrite !Spin.ins_case. case_decide; [done|apply I].
  - apply I.
  - destruct Hord as [->|(j & Hj & Hw & Hb)]; [exists n'; split; [done|left; by apply H3]|].
    rewrite !Spin.ins_case. destruct (decide (c = b)) as [->|Hne]; [|exists n'; split; [done|right; exists j; split; [lia|done]]].
    rewrite Hcur. rewrite Hk in Hw.
    destruct (waker_action _ _ _ Hw) as [(-> & -> & Hw')|[[-> Hw']|[(-> & -> & Hw')|[[-> Hw']|[-> ->]]]]].
    + exists n'. split; [done|]. right. exists 1%nat. split; [|done].
      apply acquire_Ok in Hm as [Es Hnin]. destruct (decide (n = 0%nat)) as [->|]; [|lia].
      destruct (sleeper_locks w 0 Hs) as (d & Hd & Hlkd & _); [lia|]. exfalso.
      apply (Hdis d ltac:(congruence) lk); [|by apply Hlkd]. rewrite Es. cbn in *. clear -Hnin. set_solver.
    + exists n'. split; [done|]. right. exists 1%nat. split; [lia|done].
    + exists n'. split; [done|]. right. exists 2%nat. split; [|done].
      apply acquire_Ok in Hm as [Es Hnin]. destruct (decide (n = 1%nat)) as [->|]; [|lia].
      destruct (sleeper_locks w 1 Hs) as (d & Hd & _ & Hlkd); [lia|]. exfalso.
      apply (Hdis d ltac:(congruence) Lptable); [|by apply Hlkd]. rewrite Es. cbn in *. clear -Hnin. set_solver.
    + exists n'. split; [done|]. right. exists 2%nat. split; [lia|done].
    + exists 3%nat. split; [|by left]. destruct (decide (n = 2%nat)) as [->|Hne]; [by apply slot_wakes|].
      assert (n = 3%nat) as ->; [|by rewrite <- (H3 eq_refl)].
      destruct Hs as [? ? ? ? ? []|? ? ? ? ? []]; lia.
Qed.

(** A process gives up its CPU: the sleeper, or another one. *)
Lemma inv_gives_up c r k w s :
  inv w → w_code w c = Sched :: k → w_cur w c = Some r → sched_check (view w c) = Ok tt s →
  inv (mkworld s (<[c := w_held w c ∖ {[ Lptable ]}]> (w_held w)) (<[c := None]> (w_cur w))
      (<[c := []]> (w_code w)) (<[r := k]> (w_saved w))).
Proof using Hlk.
  intros I Hk Hc Hm. apply sched_check_id in Hm as [-> _]. destruct (inv_order _ I) as (n & Hs & Hord).
  assert (n = 3%nat ∨ ∃ j, (j ≤ n)%nat ∧ waker ((<[c := []]> (w_code w)) b) j ∧
    (<[c := None]> (w_cur w)) b ≠ Some p) as Hord'.
  { destruct Hord as [?|(j & Hj & Hw & Hb)]; [by left|]. right. exists j. split; [done|].
    rewrite !Spin.ins_case. case_decide; [|done]. subst. rewrite Hk in Hw. exfalso. clear -Hw.
    remember (Sched :: k) as code eqn:Ek. destruct Hw as [body ->|[|x body] ->|[|i l] Hin ->]; done. }
  split; cbn.
  - intros c1 c2. rewrite !Spin.ins_case. intros H1 H2. apply (inv_alone _ I); by repeat case_decide.
  - intros c1. rewrite !Spin.ins_case. case_decide; [constructor|apply I].
  - intros x Hx. rewrite Spin.ins_case. case_decide; [subst|by apply I].
    assert (w_cur w c ≠ Some p) as Hcp by congruence. pose proof (inv_code _ I c Hcp) as H. rewrite Hk in H.
    by apply Forall_cons_1 in H as [_ ?].
  - destruct Hs as [d q n Hd Hq Hon|q n Hd Hq Hsv Hoff].
    + destruct (decide (d = c)) as [->|Hne].
      * assert (r = p) as -> by congruence. rewrite Hk in Hon. remember (Sched :: k) as code eqn:Ek.
        destruct Hon as [| | | |_ Hst Hch|j]; try done.
        2: { rewrite tail_eq in Ek. destruct j as [|[|[|j]]]; try done. by destruct j. }
        injection Ek as <-. destruct Hst as [Hst|Hst].
        -- exists 2%nat. split; [|destruct Hord' as [?|(j & ? & ?)]; [done|right; exists j; split; [lia|done]]].
           apply (sleeper_off _ q); cbn; [|done|by rewrite fn_lookup_insert|by apply off_asleep].
           intros d. rewrite Spin.ins_case. case_decide as E1; [done|]. intros E2. apply E1. by apply (inv_alone _ I).
        -- exists 3%nat. split; [|by left].
           apply (sleeper_off _ q); cbn; [|done|by rewrite fn_lookup_insert|by apply off_ready].
           intros d. rewrite Spin.ins_case. case_decide as E1; [done|]. intros E2. apply E1. by apply (inv_alone _ I).
      * exists n. split; [|done].
        apply (sleeper_on _ d q); cbn; rewrite ?fn_lookup_insert_ne by done; done.
    + exists n. split; [|done]. assert (r ≠ p) by (intros ->; by apply (Hd c)).
      apply (sleeper_off _ q); cbn; [|done|by rewrite fn_lookup_insert_ne|done].
      intros d. rewrite Spin.ins_case. by case_decide.
Qed.

(** scheduler() gives a CPU to a RUNNABLE process: the sleeper, or another one. *)
Lemma inv_runs c r x w :
  inv w → w_code w c = [] → w_cur w c = None → (∀ c', Lptable ∉ w_held w c') →
  k_procs (w_k w) !! r = Some x → p_state x = RUNNABLE →
  inv (mkworld (set_k_procs (<[r := set_p_state RUNNING x]> (k_procs (w_k w))) (w_k w))
      (<[c := {[ Lptable ]} ∪ w_held w c]> (w_held w)) (<[c := Some r]> (w_cur w))
      (<[c := w_saved w r]> (w_code w)) (w_saved w)).
Proof using Type.
  intros I Hk Hc Hfree Hx Hst. destruct (inv_order _ I) as (n & Hs & Hord).
  destruct (decide (r = p)) as [->|Hr].
  - destruct Hs as [d q n Hd Hq Hon|q n Hd Hq Hsv Hoff]; assert (x = q) as -> by congruence.
    { exfalso. destruct Hon; try congruence; by destruct (Hfree d). }
    split; cbn.
    + intros c1 c2. rewrite !Spin.ins_case. repeat case_decide; try congruence; intros H1 H2;
        try (by destruct (Hd c1)); by destruct (Hd c2).
    + intros c1. rewrite !Spin.ins_case. case_decide; [done|apply I].
    + apply I.
    + exists 3%nat. split; [|by left]. apply (sleeper_on _ c (set_p_state RUNNING q)); cbn; rewrite ?fn_lookup_insert; [done| |].
      * apply list_lookup_insert_eq. by eapply lookup_lt_Some.
      * rewrite Hsv. by apply (on_tail _ _ 0).
  - split; cbn.
    + intros c1 c2. rewrite !Spin.ins_case. intros H1 H2. apply (inv_alone _ I); by repeat case_decide; simplify_eq.
    + intros c1. rewrite !Spin.ins_case. case_decide; [intros _; by apply I|apply I].
    + apply I.
    + exists n. rewrite !Spin.ins_case. split.
      * destruct Hs as [d q n Hd Hq Hon|q n Hd Hq Hsv Hoff].
        -- assert (c ≠ d) by congruence. apply (sleeper_on _ d q); cbn; rewrite ?fn_lookup_insert_ne by done; [done| |done].
           by rewrite list_lookup_insert_ne.
        -- apply (sleeper_off _ q); cbn; [|by rewrite list_lookup_insert_ne|done..].
           intros d. rewrite Spin.ins_case. case_decide; [congruence|done].
      * destruct Hord as [?|(j & Hj & Hw & Hb)]; [by left|]. right. exists j. split; [done|].
        case_decide; [|done]. subst. rewrite Hk in Hw. by apply waker_not_nil in Hw.
Qed.

Lemma order_step w w' : step w w' → inv w → inv w'.
Proof using Hlk Hp.
  intros [c m k v s Hk Hm Hd|c r k v s Hk Hc Hm|c r x v Hk Hc Hf Hx Hst] I.
  - destruct (decide (w_cur v c = Some p)); [by eapply inv_own|by eapply inv_other].
  - by eapply inv_gives_up.
  - by eapply inv_runs.
Qed.

Lemma inv_awake w : inv w → (length (w_code w b) ≤ 1)%nat →
  ∃ q, k_procs (w_k w) !! p = Some q ∧ (p_state q = RUNNABLE ∨ p_state q = RUNNING).
Proof using Type.
  intros I Hlen. destruct (inv_order _ I) as (n & Hs & [->|(j & _ & Hw & _)]).
  - inversion Hs as [d q n Hd Hq Hon|q n Hd Hq Hsv Hoff]; subst n; exists q; split; try done.
    + inversion Hon. by right.
    + inversion Hoff. by left.
  - exfalso. revert Hlen. destruct Hw as [body ->|body ->|l Hin ->]; unfold waker_code, wakeup_steps;
      repeat (cbn [length app]; rewrite ?length_app); lia.
Qed.

End Invariant.

Lemma order_start ch lk a b p body w : start ch lk a b p body w → inv ch lk b p w.
Proof.
  intros [Hlk Hps (Hka & Hca & Hla) (q & Hq & Hst) (Hkb & Hbody) Hab Halone Hothers Hsaved]. split.
  - intros c c' H1 H2. destruct (decide (c = a)) as [->|Hc]; [|by destruct (Halone c Hc)].
    destruct (decide (c' = a)) as [->|Hc']; [done|by destruct (Halone c' Hc')].
  - intros c Hc. destruct (decide (c = b)) as [->|Hb]; [rewrite Hkb; by apply harmless_waker|].
    apply Hothers; [congruence|done].
  - done.
  - exists 0%nat. split; [|right; exists 0%nat; split_and!; [done|by apply (waker_start _ _ _ _ body)|by apply Halone]].
    apply (sleeper_on _ _ _ _ a q); [done..|]. rewrite Hka. unfold sleep_steps.
    rewrite bool_decide_eq_true_2 by done. by apply on_start.
Qed.

(** C23. No wakeup is lost. Let process p, on CPU a, hold lk and call sleep(ch, lk), and
    let CPU b take lk, run any code that is harmless to p (make the condition
    true), call wakeup(ch) and release lk, while the other CPUs run any code that
    is harmless to p or dispatch RUNNABLE processes. However the actions of the
    CPUs interleave, once b's wakeup() has returned, p is RUNNABLE or RUNNING, not
    SLEEPING. *)
Theorem sleep_no_lost_wakeup (ch : chan) (lk : lockid) (a b p : nat) (body : list (K unit)) (w w' : world) :
  start ch lk a b p body w → rtc step w w' →
  w_code w' b = [Do (release lk)] ∨ w_code w' b = [] →
  ∃ q, k_procs (w_k w') !! p = Some q ∧ (p_state q = RUNNABLE ∨ p_state q = RUNNING).
Proof.
  intros Hs Hr Hdone. pose proof (order_start _ _ _ _ _ _ _ Hs) as I.
  destruct Hs as [Hlk Hps _ (q & Hq & _) _ _ _ _ _].
  assert (p ∈ ptable_procs) as Hp.
  { apply elem_of_seq. apply lookup_lt_Some in Hq. rewrite Hps in Hq. lia. }
  apply (inv_awake ch lk b p); [|destruct Hdone as [->| ->]; cbn; lia].
  clear -I Hr Hlk Hp. induction Hr as [|w1 w2 w3 H1 _ IH]; [done|]. by apply IH, (order_step _ _ _ _ Hlk Hp w1).
Qed.

End SleepWake.

(** ** Witness: sys_sleep() against the clock interrupt *)

Section Witness.
#[local] Existing Instance env_idle.

(** The next action of CPU [c], of two. *)
Definition turn (w : world) (c : nat) : world :=
  match w_code w c with
  | Do m :: k =>
    match m (view w c) with
    | Ok _ s =>
      if bool_decide ((k_held s ∖ w_held w c) ## w_held w (1 - c))
      then mkworld s (<[c := k_held s]> (w_held w)) (<[c := k_proc s]> (w_cur w)) (<[c := k]> (w_code w)) (w_saved w)
      else w
    | _ => w
    end
  | Sched :: k =>
    match w_cur w c, sched_check (view w c) with
    | Some p, Ok _ s =>
      mkworld s (<[c := w_held w c ∖ {[ Lptable ]}]> (w_held w)) (<[c := None]> (w_cur w))
        (<[c := []]> (w_code w)) (<[p := k]> (w_saved w))
    | _, _ => w
    end
  | [] => w
  end.

Definition two_cpus (w : world) : Prop := ∀ c, (2 ≤ c)%nat → w_held w c = ∅.

Lemma cpu_turn_step w c : (c < 2)%nat → two_cpus w → rtc step w (turn w c) ∧ two_cpus (turn w c).
Proof.
  intros Hc Hw. unfold turn. destruct (w_code w c) as [|[m|] k] eqn:Ek; [done|..].
  - destruct (m (view w c)) as [[] s| | |] eqn:Em; [|done..]. case_bool_decide as Hd; [|done]. split.
    + apply rtc_once. apply (step_do c m k w s); [done..|]. intros c' Hc'.
      destruct (decide (2 ≤ c')%nat) as [H2|H2]; [rewrite (Hw c' H2); apply disjoint_empty_r|].
      by replace c' with (1 - c)%nat by lia.
    + intros c' H2. cbn. rewrite Spin.ins_case. case_decide; [lia|by apply Hw].
  - destruct (w_cur w c) as [p|] eqn:Ec; [|done]. destruct (sched_check (view w c)) as [[] s| | |] eqn:Em; [|done..].
    split; [by apply rtc_once, step_sched|]. intros c' H2. cbn. rewrite Spin.ins_case. case_decide; [lia|by apply Hw].
Qed.

Lemma cpu_turns_steps w cs :
  Forall (λ c, c < 2)%nat cs → two_cpus w → rtc step w (fold_left turn cs w).
Proof.
  intros Hcs. revert w. induction Hcs as [|c cs Hc _ IH]; intros w Hw; [done|]. cbn.
  destruct (cpu_turn_step w c Hc Hw). etrans; [done|by apply IH].
Qed.

(** Process 0 is in sys_sleep() on CPU 0, holding tickslock; CPU 1 is in the clock
    interrupt: [acquire(&tickslock); ticks++; wakeup(&ticks); release(&tickslock);]. *)
Definition tick : K unit := modify (λ s, set_k_ticks (u32 (k_ticks s + 1)) s).
Definition sleeping_ex : world :=
  mkworld (set_k_procs (<[0%nat := set_p_pid 1 (set_p_state RUNNING proc0)]> (k_procs kstate0)) kstate0)
    (<[0%nat := {[ Ltickslock ]}]> (λ _, ∅)) (<[0%nat := Some 0%nat]> (λ _, None))
    (<[0%nat := sleep_steps Cticks Ltickslock]> (<[1%nat := waker_code Cticks Ltickslock [tick]]> (λ _, [])))
    (λ _, []).

(** CPU 1 gets tickslock as soon as sleep() releases it, waits for ptable.lock
    until the process has given up CPU 0, and then goes through the table. *)
Definition sleeping_run : list nat := [1; 0; 1; 0; 1; 1; 1; 0; 1; 0; 1; 0]%nat ++ replicate 66 1%nat.

Lemma sleeping_ex_start : start Cticks Ltickslock 0 1 0 [tick] sleeping_ex.
Proof.
  split; try done.
  - by eexists.
  - split; [done|]. apply Forall_cons_2; [|done]. apply harmless_procs. by intros s s' [= <-].
  - intros c Hc. cbn. by rewrite fn_lookup_insert_ne.
  - intros c H0 H1. cbn. by rewrite !fn_lookup_insert_ne.
Qed.

Lemma sleep_no_lost_wakeup_witness :
  ∃ q, k_procs (w_k (fold_left turn sleeping_run sleeping_ex)) !! 0%nat = Some q ∧
    (p_state q = RUNNABLE ∨ p_state q = RUNNING).
Proof.
  apply (sleep_no_lost_wakeup Cticks Ltickslock 0 1 0 [tick] sleeping_ex _ sleeping_ex_start).
  - apply cpu_turns_steps; [|intros c Hc; cbn; by rewrite fn_lookup_insert_ne by lia].
    apply (bool_decide_eq_true_1 _). vm_compute. reflexivity.
  - left. vm_compute. reflexivity.
Defined.

End Witness.
