(* ===== verification/Scheduler.v ===== *)
(** * Scheduler: stride scheduling (proc.c, scheduler)

    scheduler() picks, in each round, a RUNNABLE process with a small pass
    (passada), advances its pass by its stride (passo = 10000 / tickets) and runs
    it. [scan] is the search loop as a function of the process table. The local
    variable [min_proc] lives across rounds and is never reset: it is an argument
    and a result of a round. *)

From S2P Require Import Prelude Machine CMem Spinlock Mmu Kalloc ConsOut Vm Proc.
From stdpp Require Import options.

Section Scheduler.
Context {E : Env}.

(** The loop over the table, with the variables [min] and [min_proc]. *)
Fixpoint scheduler_scan (l : list nat) (min : Z) (min_proc : option nat) : K (Z * option nat) :=
  match l with
  | [] => mret (min, min_proc)
  | i :: l =>
    p ← get_proc i;
    if state_eqb (p_state p) RUNNABLE && ((p_passada p <=? min) || (min =? 0))
    then scheduler_scan l (p_passada p) (Some i)
    else scheduler_scan l min min_proc
  end.

(** swtch() to a process: what it does until it comes back through sched(). *)
Definition swtch_to_process : K unit := λ s,
  match swtch_run s with Some s' => Ok tt s' | None => Hang end.

(** One round of [for(;;)], after its sti(): the interrupt flag is in Spinlock.v only. *)
Definition scheduler_round (min_proc : option nat) : K (option nat) :=
  acquire Lptable ;;
  r ← scheduler_scan ptable_procs 0 min_proc;
  let '(_, min_proc) := r in
  match min_proc with
  | Some i =>
    upd_proc i (λ p, set_p_passada (s32 (p_passada p + p_passo p)) p) ;;
    modify (set_k_proc (Some i)) ;;
    switchuvm i ;;
    upd_proc i (set_p_state RUNNING) ;;
    swtch_to_process ;;
    switchkvm ;;
    modify (set_k_proc None)
  | None => skip
  end ;;
  release Lptable ;;
  mret min_proc.

(** [rounds] rounds; the result is the value of [min_proc] in each of them. *)
Fixpoint scheduler (rounds : nat) (min_proc : option nat) : K (list (option nat)) :=
  match rounds with
  | O => mret []
  | S n =>
    r ← scheduler_round min_proc;
    rs ← scheduler n r;
    mret (r :: rs)
  end.

(** ** The search as a function *)

Definition runnable (p : proc) : bool := state_eqb (p_state p) RUNNABLE.

Fixpoint scan (ps : list proc) (i : nat) (min : Z) (mp : option nat) : Z * option nat :=
  match ps with
  | [] => (min, mp)
  | p :: ps =>
    if runnable p && ((p_passada p <=? min) || (min =? 0)) then scan ps (S i) (p_passada p) (Some i)
    else scan ps (S i) min mp
  end.

Definition pick (ps : list proc) (mp : option nat) : option nat := (scan ps 0 0 mp).2.

Lemma scheduler_scan_eq s min mp :
  ptable_ok s → scheduler_scan ptable_procs min mp s = Ok (scan (k_procs s) 0 min mp) s.
Proof.
  intros Hs. unfold ptable_procs. rewrite <- Hs.
  cut (∀ ps pre min mp, k_procs s = pre ++ ps →
    scheduler_scan (seq (length pre) (length ps)) min mp s = Ok (scan ps (length pre) min mp) s).
  { intros H. apply (H (k_procs s) []). done. }
  induction ps as [|p ps IH]; intros pre min' mp' Hps; simpl; [done|].
  assert (k_procs s !! length pre = Some p) as Hp by (rewrite Hps; by apply list_lookup_middle).
  rewrite (bind_Ok _ _ _ _ _ (get_proc_eq _ _ _ Hp)).
  specialize (IH (pre ++ [p])). rewrite length_app, Nat.add_comm in IH. simpl in IH.
  unfold runnable. destruct (_ && _); apply IH; by rewrite <- (assoc_L (++)).
Qed.

(** ** One round *)

Definition add_pass (p : proc) : proc := set_p_passada (s32 (p_passada p + p_passo p)) p.

(** The state in which the scheduler switches to process [i]. *)
Definition dispatched (i : nat) (ks pd : Z) (s : kstate) : kstate :=
  set_k_cr3 (v2p pd) (set_k_esp0 (u32 (ks + KSTACKSIZE)) (set_k_proc (Some i)
    (set_k_held ({[ Lptable ]} ∪ k_held s)
      (set_k_procs (alter (λ p, set_p_state RUNNING (add_pass p)) i (k_procs s)) s)))).

Lemma scheduler_round_eq s mp i p :
  ptable_ok s → Lptable ∉ k_held s → pick (k_procs s) mp = Some i → k_procs s !! i = Some p →
  p_pgdir p ≠ 0 →
  scheduler_round mp s =
    match swtch_run (dispatched i (p_kstack p) (p_pgdir p) s) with
    | None => Hang
    | Some s' => (release Lptable ;; mret (Some i))
                   (set_k_proc None (set_k_cr3 (v2p (k_kpgdir s')) s'))
    end.
Proof.
  intros Hs Hl Hpick Hp Hpg. unfold scheduler_round.
  rewrite (bind_Ok _ _ _ _ _ (acquire_free _ _ Hl)). set (s1 := set_k_held _ s).
  rewrite (bind_Ok _ _ _ _ _ (scheduler_scan_eq s1 0 mp Hs)).
  unfold pick in Hpick. change (k_procs s1) with (k_procs s).
  destruct (scan (k_procs s) 0 0 mp) as [m mp']. simpl in Hpick. subst mp'.
  unfold switchuvm, upd_proc, curproc. mrun. cbn [k_proc set_k_proc].
  unfold get_proc. mrun. simpl. do 2 (rewrite list_lookup_alter_eq, Hp; simpl).
  rewrite (proj2 (Z.eqb_neq _ _) Hpg). unfold swtch_to_process, switchkvm. mrun. simpl.
  rewrite list_alter_compose. match goal with |- context [swtch_run ?x] => set (d := x) end.
  assert (d = dispatched i (p_kstack p) (p_pgdir p) s) as -> by (unfold d; rec_eq).
  by destruct (swtch_run _).
Qed.

Lemma scheduler_round_none s mp :
  ptable_ok s → Lptable ∉ k_held s → pick (k_procs s) mp = None → scheduler_round mp s = Ok None s.
Proof.
  intros Hs Hl Hpick. unfold scheduler_round.
  rewrite (bind_Ok _ _ _ _ _ (acquire_free _ _ Hl)). set (s1 := set_k_held _ s).
  rewrite (bind_Ok _ _ _ _ _ (scheduler_scan_eq s1 0 mp Hs)).
  unfold pick in Hpick. change (k_procs s1) with (k_procs s).
  destruct (scan (k_procs s) 0 0 mp) as [m mp']. simpl in Hpick. subst mp'.
  mrun. rewrite release_held by (simpl; auto with xv6). f_equal. rec_eq. by apply held_roundtrip.
Qed.

End Scheduler.

(** ** Which process the search picks *)

Lemma scan_app l1 l2 i min mp :
  scan (l1 ++ l2) i min mp =
  scan l2 (i + length l1) (scan l1 i min mp).1 (scan l1 i min mp).2.
Proof.
  revert i min mp. induction l1 as [|p l1 IH]; intros i min mp; simpl; [by rewrite Nat.add_0_r|].
  destruct (_ && _); rewrite IH; f_equal; lia.
Qed.

Lemma scan_no_runnable ps i min mp :
  (∀ p, p ∈ ps → runnable p = false) → scan ps i min mp = (min, mp).
Proof.
  revert i min mp. induction ps as [|p ps IH]; intros i min mp H; simpl; [done|].
  rewrite (H p) by set_solver. apply IH. set_solver.
Qed.

(** The search keeps its variables or sets them from a slot it passed. *)
Lemma scan_cases ps i min mp :
  scan ps i min mp = (min, mp) ∨
  ∃ k p, ps !! k = Some p ∧ runnable p = true ∧ scan ps i min mp = (p_passada p, Some (i + k)%nat).
Proof.
  revert i min mp. induction ps as [|p ps IH]; intros i min mp; simpl; [by left|].
  destruct (runnable p && _) eqn:Ep.
  - right. destruct (IH (S i) (p_passada p) (Some i)) as [->|(k & q & Hk & Hr & ->)].
    + exists 0%nat, p. apply andb_prop in Ep as [? _]. rewrite Nat.add_0_r. done.
    + exists (S k), q. split_and!; [done|done|]. f_equal. f_equal. lia.
  - destruct (IH (S i) min mp) as [->|(k & q & Hk & Hr & ->)]; [by left|].
    right. exists (S k), q. split_and!; [done|done|]. f_equal. f_equal. lia.
Qed.

(** With [min] = 0 the next RUNNABLE process is always taken. *)
Lemma scan_zero_min ps i mp p :
  p ∈ ps → runnable p = true → ∃ k, (scan ps i 0 mp).2 = Some (i + k)%nat.
Proof.
  revert i mp. induction ps as [|q ps IH]; intros i mp Hp Hr; [set_solver|]. simpl.
  destruct (runnable q) eqn:Eq; simpl.
  - rewrite orb_true_r. destruct (scan_cases ps (S i) (p_passada q) (Some i)) as [->|(k & ? & _ & _ & ->)].
    + exists 0%nat. simpl. by rewrite Nat.add_0_r.
    + exists (S k). simpl. f_equal. lia.
  - apply elem_of_cons in Hp as [->|Hp]; [congruence|].
    destruct (IH (S i) mp Hp Hr) as [k ->]. exists (S k). f_equal. lia.
Qed.

(** ... so that the [min_proc] of the round before no longer matters. *)
Lemma scan_mp_irrelevant ps i mp mp' p :
  p ∈ ps → runnable p = true → scan ps i 0 mp = scan ps i 0 mp'.
Proof.
  revert i mp mp'. induction ps as [|q ps IH]; intros i mp mp' Hp Hr; [set_solver|]. simpl.
  destruct (runnable q) eqn:Eq; simpl; [by rewrite orb_true_r|].
  apply elem_of_cons in Hp as [->|Hp]; [congruence|]. by apply IH.
Qed.

(** A process with pass 0 is never picked while a later slot is RUNNABLE. *)
Lemma pick_zero_last ps mp k p k' q :
  ps !! k = Some p → p_passada p = 0 → (k < k')%nat → ps !! k' = Some q → runnable q = true →
  runnable p = true → pick ps mp ≠ Some k.
Proof.
  intros Hk H0 Hlt Hk' Hq Hp. unfold pick.
  pose proof (lookup_lt_Some _ _ _ Hk) as Hlen.
  rewrite <- (take_drop_middle _ _ _ Hk), scan_app. rewrite length_take_le by lia. simpl.
  rewrite Hp, H0. simpl.
  assert (q ∈ drop (S k) ps) as Hin.
  { apply list_elem_of_lookup. exists (k' - S k)%nat. rewrite lookup_drop, <- Hk'. f_equal. lia. }
  destruct (_ || _) eqn:Et.
  - destruct (scan_zero_min _ (S k) (Some k) _ Hin Hq) as [j ->]. intros [= H]. lia.
  - apply orb_false_iff in Et as [E1 E2].
    destruct (scan_cases (take k ps) 0 0 mp) as [Es|(j & r & Hj & _ & Es)]; rewrite Es in *; simpl in *.
    { lia. }
    apply lookup_lt_Some in Hj. rewrite length_take_le in Hj by lia.
    destruct (scan_cases (drop (S k) ps) (S k) (p_passada r) (Some j)) as [->|(j' & ? & _ & _ & ->)];
      simpl; intros [= H]; lia.
Qed.

Lemma scan_none_better ps i p :
  0 < p_passada p → ¬ Exists (λ q, runnable q = true ∧ p_passada q <= p_passada p) ps →
  ∀ j, scan ps j (p_passada p) (Some i) = (p_passada p, Some i).
Proof.
  intros Hp. induction ps as [|q ps IH]; intros Hex j; simpl; [done|].
  rewrite Exists_cons in Hex. destruct (runnable q) eqn:Er; simpl; [|apply IH; tauto].
  assert (p_passada p < p_passada q) by (apply Z.nle_gt; tauto).
  rewrite (proj2 (Z.leb_gt _ _)), (proj2 (Z.eqb_neq _ _)) by lia. apply IH. tauto.
Qed.

(** When every RUNNABLE process has a positive pass, the last one with the
    smallest pass is picked. *)
Lemma scan_positive ps i min mp :
  (∀ p, p ∈ ps → runnable p = true → 0 < p_passada p) → 0 <= min →
  (∃ p, p ∈ ps ∧ runnable p = true ∧ (p_passada p <= min ∨ min = 0)) →
  ∃ k p, scan ps i min mp = (p_passada p, Some (i + k)%nat) ∧ ps !! k = Some p ∧ runnable p = true ∧
    (p_passada p <= min ∨ min = 0) ∧
    ∀ j q, ps !! j = Some q → runnable q = true →
      p_passada p <= p_passada q ∧ ((k < j)%nat → p_passada p < p_passada q).
Proof.
  revert i min mp. induction ps as [|p ps IH]; intros i min mp Hpos Hmin (q & Hq & Hr & Hle); [set_solver|].
  simpl. assert (∀ p, p ∈ ps → runnable p = true → 0 < p_passada p) as Hpos' by set_solver.
  destruct (runnable p && _) eqn:Ep.
  - apply andb_prop in Ep as [Erp Ep]. assert (0 < p_passada p) by (apply Hpos; [set_solver|done]).
    destruct (decide (Exists (λ q, runnable q = true ∧ p_passada q <= p_passada p) ps)) as [Hex|Hex].
    + apply Exists_exists in Hex as (r & Hr1 & Hr2 & Hr3).
      destruct (IH (S i) (p_passada p) (Some i)) as (k & x & -> & Hk & Hx & Hxle & Hall);
        [done|lia|by exists r; auto|].
      exists (S k), x. split_and!; [f_equal; f_equal; lia|done|done|lia|].
      intros [|j] y Hy Hry; simpl in Hy; [injection Hy as <-; lia|].
      destruct (Hall j y Hy Hry). split; [lia|]. intros. apply H1. lia.
    + rewrite scan_none_better; [|done|done]. exists 0%nat, p. rewrite Nat.add_0_r.
      split_and!; [done|done|done|lia|]. intros [|j] y Hy Hry; simpl in Hy; [injection Hy as <-; lia|].
      assert (p_passada p < p_passada y); [|lia].
      apply Z.nle_gt. intros Hc. apply Hex, Exists_exists. exists y.
      split; [by eapply list_elem_of_lookup_2|done].
  - destruct (IH (S i) min mp) as (k & x & -> & Hk & Hx & Hxle & Hall); [done|done| |].
    { apply elem_of_cons in Hq as [->|Hq]; [|by exists q]. rewrite Hr in Ep. simpl in Ep. lia. }
    exists (S k), x. split_and!; [f_equal; f_equal; lia|done|done|lia|].
    intros [|j] y Hy Hry; simpl in Hy.
    + injection Hy as <-. rewrite Hry in Ep. simpl in Ep. split; lia.
    + destruct (Hall j y Hy Hry). split; [lia|]. intros. apply H0. lia.
Qed.
