(* ===== verification/Stride.v ===== *)
(** * Stride: what the scheduler guarantees, and what it does not

    Theorems about runs of scheduler() (Scheduler.v) for processes that use their
    whole time slice. While every RUNNABLE process has a positive pass the run is
    a stride schedule: passes that start within one maximal stride of each other stay
    so, processor time is inversely proportional to the strides (and so proportional
    to the tickets, up to the truncation in 10000 / tickets) and nobody starves. A pass of 0, which every
    new process has, breaks this, and so does the [min_proc] left over from an
    earlier round. *)

From S2P Require Import Prelude Machine CMem Mmu Vm Proc Scheduler.
From stdpp Require Import options.

(** Processes that compute until their time slice ends: swtch() comes back from
    the process's yield(), with the process RUNNABLE and the others as they
    were. *)
Class CpuBound (E : Env) :=
  cpu_bound s c : k_proc s = Some c →
    ∃ s', swtch_run s = Some s' ∧ k_held s' = k_held s ∧
      k_procs s' = alter (set_p_state RUNNABLE) c (k_procs s).

(** ** A run as a function of the process table *)

Definition quantum (ps : list proc) (mp : option nat) : list proc :=
  match pick ps mp with Some i => alter add_pass i ps | None => ps end.

Fixpoint quanta (n : nat) (ps : list proc) (mp : option nat) : list proc * list (option nat) :=
  match n with
  | O => (ps, [])
  | S n =>
    let r := pick ps mp in
    let '(ps', rs) := quanta n (quantum ps mp) r in
    (ps', r :: rs)
  end.

(** ** Stride schedules

    [fair_ok P room ps]: the RUNNABLE processes have positive passes that differ
    by at most [P], strides between 1 and [P], a page table, and [room] below
    the largest int. *)
Definition fair_ok (P room : Z) (ps : list proc) : Prop :=
  ∀ i p, ps !! i = Some p → runnable p = true →
    0 < p_passada p ∧ 1 <= p_passo p <= P ∧ p_pgdir p ≠ 0 ∧ p_passada p + room < 2147483648 ∧
    ∀ j q, ps !! j = Some q → runnable q = true → p_passada p <= p_passada q + P.

Definition some_runnable (ps : list proc) : Prop := ∃ p, p ∈ ps ∧ runnable p = true.

(** How often process [i] was run. *)
Definition runs (i : nat) (picks : list nat) : Z := Z.of_nat (length (filter (λ x, x = i) picks)).

Lemma runs_cons i x picks : runs i (x :: picks) = (if decide (x = i) then 1 else 0) + runs i picks.
Proof. unfold runs. rewrite filter_cons. case_decide; simpl; lia. Qed.

Lemma runs_nonneg i picks : 0 <= runs i picks.
Proof. unfold runs. lia. Qed.

Lemma runs_pos i picks : 0 < runs i picks → i ∈ picks.
Proof.
  induction picks as [|x picks IH]; [done|]. rewrite runs_cons. case_decide; [set_solver|].
  intros H0. apply elem_of_cons. right. apply IH. lia.
Qed.

(** The smallest pass, the last process that has it. *)
Lemma pick_fair P room ps mp :
  fair_ok P room ps → some_runnable ps →
  ∃ k p, pick ps mp = Some k ∧ ps !! k = Some p ∧ runnable p = true ∧
    ∀ j q, ps !! j = Some q → runnable q = true →
      p_passada p <= p_passada q ∧ ((k < j)%nat → p_passada p < p_passada q).
Proof.
  intros Hf (x & Hx & Hr).
  destruct (scan_positive ps 0 0 mp) as (k & p & Hs & Hk & Hp & _ & Hmin).
  - intros p [i Hi]%list_elem_of_lookup Hp. by destruct (Hf i p Hi Hp).
  - lia.
  - exists x. auto.
  - exists k, p. unfold pick. rewrite Hs. done.
Qed.

Lemma add_pass_small p :
  0 < p_passada p → 1 <= p_passo p → p_passada p + p_passo p < 2147483648 →
  p_passada (add_pass p) = p_passada p + p_passo p.
Proof. intros. unfold add_pass. simpl. apply s32_small. lia. Qed.

(** One slice keeps a stride schedule. *)
Lemma quantum_fair P room ps mp :
  0 <= room → fair_ok P (room + P) ps → some_runnable ps →
  ∃ k p, pick ps mp = Some k ∧ ps !! k = Some p ∧ runnable p = true ∧
    p_passada (add_pass p) = p_passada p + p_passo p ∧ fair_ok P room (quantum ps mp).
Proof.
  intros Hroom Hf Hsome. destruct (pick_fair _ _ _ mp Hf Hsome) as (k & p & Hpick & Hk & Hp & Hmin).
  destruct (Hf k p Hk Hp) as (H1 & H2 & H3 & H4 & H5).
  assert (p_passada (add_pass p) = p_passada p + p_passo p) as Hadd by (apply add_pass_small; lia).
  exists k, p. split_and!; try done. unfold quantum. rewrite Hpick.
  assert (∀ i q, alter add_pass k ps !! i = Some q → runnable q = true →
    ∃ q0, ps !! i = Some q0 ∧ runnable q0 = true ∧ p_passo q = p_passo q0 ∧ p_pgdir q = p_pgdir q0 ∧
      (i = k ∧ q0 = p ∧ p_passada q = p_passada p + p_passo p ∨ i ≠ k ∧ q = q0)) as Hcase.
  { intros i q. rewrite list_lookup_alter_case. destruct (decide (k = i)) as [<-|Hne].
    - rewrite Hk. intros [= <-] Hq. exists p. split_and!; try done. left. done.
    - intros Hi Hq. exists q. split_and!; try done. right. done. }
  intros i q Hi Hq. destruct (Hcase i q Hi Hq) as (q0 & Hi0 & Hq0 & E1 & E2 & Hc).
  destruct (Hf i q0 Hi0 Hq0) as (G1 & G2 & G3 & G4 & G5). rewrite E1, E2.
  split_and!; [destruct Hc as [(? & ? & ->)|[? ->]]; lia|lia|lia|done|
    destruct Hc as [(? & ? & ->)|[? ->]]; lia|].
  intros j r Hj Hr. destruct (Hcase j r Hj Hr) as (r0 & Hj0 & Hr0 & _ & _ & Hd).
  destruct (Hmin j r0 Hj0 Hr0) as [Hm _]. specialize (G5 j r0 Hj0 Hr0).
  destruct Hc as [(? & ? & ->)|[? ->]], Hd as [(? & ? & ->)|[? ->]]; subst; lia.
Qed.

Lemma some_runnable_quantum ps mp : some_runnable ps → some_runnable (quantum ps mp).
Proof.
  intros (p & [i Hi]%list_elem_of_lookup & Hp). unfold quantum. destruct (pick ps mp) as [k|].
  - exists (if decide (k = i) then add_pass p else p). split; [|by case_decide].
    apply list_elem_of_lookup. exists i. rewrite list_lookup_alter_case, Hi. by case_decide.
  - exists p. split; [|done]. apply list_elem_of_lookup. eauto.
Qed.

(** [tracks picks p p']: [p'] is [p] after being run as often as [picks] says. *)
Definition tracks (i : nat) (picks : list nat) (p p' : proc) : Prop :=
  p' = set_p_passada (p_passada p') p ∧ p_passada p' = p_passada p + runs i picks * p_passo p.

Lemma quanta_fair P n ps mp :
  0 <= P → fair_ok P (Z.of_nat n * P) ps → some_runnable ps →
  ∃ ps' picks, quanta n ps mp = (ps', Some <$> picks) ∧ length picks = n ∧ fair_ok P 0 ps' ∧
    (∀ i, i ∈ picks → ∃ p, ps !! i = Some p ∧ runnable p = true) ∧
    (∀ i p, ps !! i = Some p → runnable p = true → ∃ p', ps' !! i = Some p' ∧ tracks i picks p p').
Proof.
  intros HP. revert ps mp. induction n as [|n IH]; intros ps mp Hf Hs; simpl.
  { exists ps, []. split_and!; try done; [set_solver|]. intros i p Hi _. exists p.
    split; [done|]. split; [by destruct p|]. unfold runs. simpl. lia. }
  destruct (quantum_fair P (Z.of_nat n * P) ps mp) as (k & p & Hpick & Hk & Hp & Hadd & Hf');
    [lia| |done|].
  { replace (Z.of_nat n * P + P) with (Z.of_nat (S n) * P) by lia. done. }
  destruct (IH (quantum ps mp) (pick ps mp) Hf' (some_runnable_quantum _ _ Hs))
    as (ps' & picks & -> & Hlen & Hf'' & Hin & Htr).
  exists ps', (k :: picks). rewrite Hpick. unfold quantum in Hin, Htr. rewrite Hpick in Hin, Htr.
  split_and!; [done|simpl; lia|done|..].
  - intros i [->|Hi]%elem_of_cons; [eauto|]. destruct (Hin i Hi) as (q & Hq & Hr).
    rewrite list_lookup_alter_case in Hq. destruct (decide (k = i)) as [<-|]; [eauto|eauto].
  - intros i q Hi Hq. specialize (Htr i). rewrite list_lookup_alter_case, Hi in Htr.
    destruct (decide (k = i)) as [<-|Hne].
    + rewrite Hk in Hi. injection Hi as <-.
      destruct (Htr (add_pass p) eq_refl Hp) as (p' & Hp' & T1 & T2). exists p'. split; [done|].
      split; [rewrite T1; by destruct p|]. rewrite runs_cons, decide_True by done.
      rewrite T2, Hadd. simpl. lia.
    + destruct (Htr q eq_refl Hq) as (p' & Hp' & T1 & T2). exists p'. split; [done|]. split; [done|].
      rewrite runs_cons, decide_False by done. lia.
Qed.

(** Everybody's processor time times stride agrees up to 2P. *)
Lemma tracks_proportional P ps ps' picks i j p q p' q' room :
  fair_ok P room ps → fair_ok P 0 ps' → ps !! i = Some p → ps !! j = Some q →
  runnable p = true → runnable q = true → ps' !! i = Some p' → ps' !! j = Some q' →
  tracks i picks p p' → tracks j picks q q' →
  runs i picks * p_passo p <= runs j picks * p_passo q + 2 * P.
Proof.
  intros Hf Hf' Hi Hj Hp Hq Hi' Hj' [Tp1 Tp] [Tq1 Tq].
  assert (runnable p' = true ∧ runnable q' = true) as [Hp' Hq'].
  { rewrite Tp1, Tq1. done. }
  destruct (Hf j q Hj Hq) as (_ & _ & _ & _ & H1). specialize (H1 i p Hi Hp).
  destruct (Hf' i p' Hi' Hp') as (_ & _ & _ & _ & H2). specialize (H2 j q' Hj' Hq'). lia.
Qed.

(** From strides to the tickets they come from. *)
Lemma tickets_proportional a b ti tj :
  0 < ti → 0 < tj → a * (10000 / ti) <= b * (10000 / tj) + 2 * 400 →
  a * (10000 - 10000 mod ti) * tj <= b * (10000 - 10000 mod tj) * ti + 800 * ti * tj.
Proof.
  intros Hi Hj Hb. pose proof (Z.div_mod 10000 ti ltac:(lia)) as Ei. pose proof (Z.div_mod 10000 tj ltac:(lia)) as Ej.
  replace (10000 - 10000 mod ti) with (ti * (10000 / ti)) by lia.
  replace (10000 - 10000 mod tj) with (tj * (10000 / tj)) by lia.
  apply (Z.mul_le_mono_nonneg_r _ _ (ti * tj)) in Hb; lia.
Qed.

(** A list whose elements lie in [ks] and occur at most [c] times each. *)
Lemma length_le_runs (ks : list nat) (c : Z) picks :
  (∀ x, x ∈ picks → x ∈ ks) → (∀ k, k ∈ ks → runs k picks <= c) → 0 <= c →
  Z.of_nat (length picks) <= Z.of_nat (length ks) * c.
Proof.
  intros Hin Hc H0. revert picks Hin Hc. induction ks as [|k ks IH]; intros picks Hin Hc.
  { destruct picks as [|x]; [simpl; lia|]. exfalso. specialize (Hin x). set_solver. }
  assert (Z.of_nat (length picks) = runs k picks + Z.of_nat (length (filter (λ x, x ≠ k) picks))) as ->.
  { clear. induction picks as [|x l IH]; [done|]. rewrite runs_cons, filter_cons. simpl length.
    repeat case_decide; simpl length; try congruence; lia. }
  assert (Z.of_nat (length (filter (λ x, x ≠ k) picks)) <= Z.of_nat (length ks) * c); [|].
  2: { specialize (Hc k ltac:(set_solver)). simpl length. lia. }
  apply IH.
  - intros x [Hx Hp]%list_elem_of_filter. specialize (Hin x Hp). set_solver.
  - intros k' Hk'. specialize (Hc k' ltac:(set_solver)). etrans; [|exact Hc]. unfold runs.
    apply inj_le. clear. induction picks as [|x l IH]; [done|]. rewrite !filter_cons.
    repeat case_decide; rewrite ?filter_cons; repeat case_decide; simpl; try congruence; lia.
Qed.

(** A later RUNNABLE slot keeps a process with pass 0 from ever running. *)
Lemma quanta_starve n ps mp i p j q :
  ps !! i = Some p → runnable p = true → p_passada p = 0 →
  (i < j)%nat → ps !! j = Some q → runnable q = true →
  Some i ∉ (quanta n ps mp).2 ∧ (quanta n ps mp).1 !! i = Some p.
Proof.
  intros Hi Hp H0 Hlt. revert ps mp q Hi. induction n as [|n IH]; intros ps mp q Hi Hj Hq; simpl.
  { split; [set_solver|done]. }
  pose proof (pick_zero_last ps mp i p j q Hi H0 Hlt Hj Hq Hp) as Hne.
  destruct (IH (quantum ps mp) (pick ps mp) (if decide (pick ps mp = Some j) then add_pass q else q))
    as [IH1 IH2].
  - unfold quantum. destruct (pick ps mp) as [k|]; [|done].
    rewrite list_lookup_alter_case, decide_False by congruence. done.
  - unfold quantum. destruct (pick ps mp) as [k|]; [|done].
    rewrite list_lookup_alter_case, Hj. repeat case_decide; simplify_eq; done.
  - by case_decide.
  - destruct (quanta n _ _) as [ps' rs]. simpl in *. split; [|done].
    intros [H|H]%elem_of_cons; [by apply Hne|done].
Qed.

(** ** scheduler() performs these runs *)

Lemma pick_runnable ps mp :
  some_runnable ps → ∃ k p, pick ps mp = Some k ∧ ps !! k = Some p ∧ runnable p = true.
Proof.
  intros (p & Hp & Hr). unfold pick.
  rewrite (scan_mp_irrelevant ps 0 mp None p) by done.
  destruct (scan_zero_min ps 0 None p Hp Hr) as [k Hk].
  destruct (scan_cases ps 0 0 None) as [E1|(k' & q & Hq & Hrq & E1)]; rewrite E1 in *; [done|].
  eauto.
Qed.

Lemma length_quanta n ps mp : length (quanta n ps mp).2 = n.
Proof.
  revert ps mp. induction n as [|n IH]; intros ps mp; simpl; [done|].
  specialize (IH (quantum ps mp) (pick ps mp)). destruct (quanta n _ _). simpl in *. lia.
Qed.

(** If process [i] had not run, every other one would have run at most 160 times. *)
Lemma no_starvation_picks ps ps' picks i p room :
  length ps = 64%nat → fair_ok 400 room ps → fair_ok 400 0 ps' →
  (∀ k, k ∈ picks → ∃ q, ps !! k = Some q ∧ runnable q = true) →
  (∀ k q, ps !! k = Some q → runnable q = true → ∃ q', ps' !! k = Some q' ∧ tracks k picks q q') →
  (∀ k q, ps !! k = Some q → runnable q = true → 5 <= p_passo q) →
  ps !! i = Some p → runnable p = true → 10080 < Z.of_nat (length picks) → i ∈ picks.
Proof.
  intros Hlen Hf Hf' Hin Htr H5 Hi Hp Hlong. destruct (decide (i ∈ picks)) as [|Hno]; [done|exfalso].
  assert (runs i picks = 0) as H0.
  { pose proof (runs_nonneg i picks). pose proof (runs_pos i picks). destruct (decide (runs i picks = 0)); [done|].
    exfalso. apply Hno, H0. lia. }
  set (ks := filter (λ k, k ≠ i) (seq 0 64)).
  assert (Z.of_nat (length ks) <= 63) as Hks.
  { assert (i ∈ seq 0 64) as Hmem by (apply elem_of_seq; apply lookup_lt_Some in Hi; lia).
    assert (length ks < length (seq 0 64))%nat; [|rewrite length_seq in *; lia].
    apply (length_filter_lt _ _ i); [done|]. by intros []. }
  pose proof (length_le_runs ks 160 picks) as Hb. assert (Z.of_nat (length picks) <= 63 * 160); [|lia].
  etrans; [apply Hb|]; [..|lia].
  - intros k Hk. destruct (Hin k Hk) as (q & Hq & _). apply lookup_lt_Some in Hq.
    apply list_elem_of_filter. split; [by intros ->|]. apply elem_of_seq. lia.
  - intros k _. destruct (decide (0 < runs k picks)) as [Hr|]; [|lia].
    destruct (Hin k (runs_pos _ _ Hr)) as (q & Hq & Hrq). destruct (Htr k q Hq Hrq) as (q' & Hq' & Tq).
    destruct (Htr i p Hi Hp) as (p' & Hp' & Tp).
    pose proof (tracks_proportional 400 ps ps' picks k i q p q' p' room Hf Hf' Hq Hi Hrq Hp Hq' Hp' Tq Tp).
    specialize (H5 k q Hq Hrq). rewrite H0 in *. nia.
  - lia.
Qed.

Section Run.
Context {E : Env} {CB : CpuBound E}.

Definition pgdirs_ok (ps : list proc) : Prop :=
  ∀ i p, ps !! i = Some p → runnable p = true → p_pgdir p ≠ 0.

Lemma scheduler_round_quantum mp s :
  ptable_ok s → Lptable ∉ k_held s → some_runnable (k_procs s) → pgdirs_ok (k_procs s) →
  ∃ s', scheduler_round mp s = Ok (pick (k_procs s) mp) s' ∧ k_procs s' = quantum (k_procs s) mp ∧
    k_held s' = k_held s.
Proof using Type*.
  intros Hs Hl Hsome Hpg. destruct (pick_runnable _ mp Hsome) as (i & p & Hpick & Hi & Hp).
  rewrite (scheduler_round_eq s mp i p) by eauto. rewrite Hpick.
  set (d := dispatched _ _ _ _). destruct (cpu_bound d i eq_refl) as (s' & -> & Hh & Hps).
  mrun. rewrite release_held by (simpl; rewrite Hh; simpl; auto with xv6).
  eexists. split; [done|]. simpl. rewrite Hh, Hps. simpl. split; [|by apply held_roundtrip].
  unfold quantum. rewrite Hpick, list_alter_compose.
  rewrite !(list_alter_lookup _ _ _ _ Hi). f_equal. unfold add_pass. rec_eq.
  unfold runnable, state_eqb in Hp. by apply bool_decide_eq_true in Hp.
Qed.

Lemma pgdirs_ok_quantum ps mp : pgdirs_ok ps → pgdirs_ok (quantum ps mp).
Proof.
  intros H i p. unfold quantum. destruct (pick ps mp) as [k|]; [|apply H].
  rewrite list_lookup_alter_case. destruct (decide (k = i)) as [->|]; [|apply H].
  destruct (ps !! i) as [q|] eqn:Eq; [|done]. intros [= <-] Hr. by apply (H i q).
Qed.

Lemma length_quantum ps mp : length (quantum ps mp) = length ps.
Proof. unfold quantum. destruct (pick ps mp); [apply length_alter|done]. Qed.

Lemma scheduler_quanta n mp s :
  ptable_ok s → Lptable ∉ k_held s → some_runnable (k_procs s) → pgdirs_ok (k_procs s) →
  ∃ s', scheduler n mp s = Ok (quanta n (k_procs s) mp).2 s' ∧
    k_procs s' = (quanta n (k_procs s) mp).1 ∧ k_held s' = k_held s.
Proof using Type*.
  revert mp s. induction n as [|n IH]; intros mp s Hs Hl Hsome Hpg; simpl; [by exists s|].
  destruct (scheduler_round_quantum mp s Hs Hl Hsome Hpg) as (s1 & H1 & Hps & Hh).
  destruct (IH (pick (k_procs s) mp) s1) as (s2 & H2 & Hps2 & Hh2).
  - unfold ptable_ok. by rewrite Hps, length_quantum.
  - by rewrite Hh.
  - rewrite Hps. by apply some_runnable_quantum.
  - rewrite Hps. by apply pgdirs_ok_quantum.
  - exists s2. rewrite (bind_Ok _ _ _ _ _ H1), (bind_Ok _ _ _ _ _ H2). rewrite Hps in *.
    destruct (quanta n _ _) as [ps' rs]. simpl in *. split_and!; [done|done|congruence].
Qed.

Lemma fair_pgdirs P room ps : fair_ok P room ps → pgdirs_ok ps.
Proof. intros H i p Hi Hp. by destruct (H i p Hi Hp) as (_ & _ & ? & _). Qed.

(** ** Properties *)

(** C2. Proportional share. Let the processes use their whole time slices, let all
    RUNNABLE processes have positive passes within one maximal stride (400) of
    each other and strides from 1 to 400, and let no pass reach 2^31 within the run.
    Then any number n of rounds of scheduler() runs a process in every round, keeps the
    passes that close, and gives any two RUNNABLE processes processor time inversely
    proportional to their strides: runs(i) * passo(i) and runs(j) * passo(j) differ by
    at most 800, however long the run. For strides 10000 / tickets this makes
    runs(i) : runs(j) the proportion of their tickets up to the truncation of the
    division, 10000 mod tickets, and exactly, up to the same constant, where the tickets
    divide 10000. *)
Theorem stride_proportional_share (n : nat) (mp : option nat) (s : kstate) :
  ptable_ok s → Lptable ∉ k_held s → some_runnable (k_procs s) →
  fair_ok 400 (Z.of_nat n * 400) (k_procs s) →
  ∃ picks s', scheduler n mp s = Ok (Some <$> picks) s' ∧ length picks = n ∧
    fair_ok 400 0 (k_procs s') ∧
    ∀ i j p q, k_procs s !! i = Some p → k_procs s !! j = Some q →
      runnable p = true → runnable q = true →
      runs i picks * p_passo p <= runs j picks * p_passo q + 800 ∧
      ∀ ti tj, 0 < ti → 0 < tj → p_passo p = 10000 / ti → p_passo q = 10000 / tj →
        runs i picks * (10000 - 10000 mod ti) * tj <= runs j picks * (10000 - 10000 mod tj) * ti + 800 * ti * tj.
Proof using Type*.
  intros Hs Hl Hsome Hf.
  destruct (scheduler_quanta n mp s Hs Hl Hsome (fair_pgdirs _ _ _ Hf)) as (s' & Hrun & Hps & _).
  destruct (quanta_fair 400 n (k_procs s) mp ltac:(lia) Hf Hsome) as (ps' & picks & Hq & Hlen & Hf' & _ & Htr).
  rewrite Hq in Hrun, Hps. simpl in *. exists picks, s'. rewrite Hps. split_and!; try done.
  intros i j p q Hi Hj Hp Hqr. destruct (Htr i p Hi Hp) as (p' & Hi' & Tp).
  destruct (Htr j q Hj Hqr) as (q' & Hj' & Tq).
  pose proof (tracks_proportional 400 _ _ picks i j p q p' q' _ Hf Hf' Hi Hj Hp Hqr Hi' Hj' Tp Tq) as Hb.
  split; [exact Hb|]. intros ti tj Hti Htj Ep Eq. rewrite Ep, Eq in Hb. by apply tickets_proportional.
Qed.

(** C16. No starvation. Let the processes use their whole time slices, let all
    RUNNABLE processes have positive passes within 400 of each other and strides from 5
    (2000 tickets) to 400, and let no pass be within 10081 * 400 of 2^31. Then every
    process that is RUNNABLE at the start runs at least once in the next 10081 rounds. *)
Theorem stride_no_starvation (mp : option nat) (s : kstate) :
  ptable_ok s → Lptable ∉ k_held s → some_runnable (k_procs s) →
  fair_ok 400 (10081 * 400) (k_procs s) →
  (∀ i p, k_procs s !! i = Some p → runnable p = true → 5 <= p_passo p) →
  ∃ rs s', scheduler (Z.to_nat 10081) mp s = Ok rs s' ∧
    ∀ i p, k_procs s !! i = Some p → runnable p = true → Some i ∈ rs.
Proof using Type*.
  intros Hs Hl Hsome Hf H5.
  destruct (scheduler_quanta (Z.to_nat 10081) mp s Hs Hl Hsome (fair_pgdirs _ _ _ Hf)) as (s' & Hrun & _).
  destruct (quanta_fair 400 (Z.to_nat 10081) (k_procs s) mp ltac:(lia))
    as (ps' & picks & Hq & Hlen & Hf' & Hin & Htr); [by rewrite Z2Nat.id by lia|done|].
  rewrite Hq in Hrun. cbn [snd] in Hrun. exists (Some <$> picks), s'. split; [exact Hrun|].
  intros i p Hi Hp. apply list_elem_of_fmap. exists i. split; [done|].
  apply (no_starvation_picks (k_procs s) ps' picks i p _ Hs Hf Hf' Hin Htr H5 Hi Hp). lia.
Qed.

(** C21. A pass of 0 starves. Let process i be RUNNABLE with pass 0, as every
    process is after fork(), and let some process in a later slot of the table be
    RUNNABLE and use its time slices. Then scheduler() never runs i, in any
    number of rounds, whatever the passes and strides of the others: the search
    takes [min == 0] to mean that it has found nothing yet. *)
Theorem zero_pass_starves (n : nat) (mp : option nat) (s : kstate) (i j : nat) (p q : proc) :
  ptable_ok s → Lptable ∉ k_held s → pgdirs_ok (k_procs s) →
  k_procs s !! i = Some p → runnable p = true → p_passada p = 0 →
  (i < j)%nat → k_procs s !! j = Some q → runnable q = true →
  ∃ rs s', scheduler n mp s = Ok rs s' ∧ length rs = n ∧ Some i ∉ rs ∧ k_procs s' !! i = Some p.
Proof using Type*.
  intros Hs Hl Hpg Hi Hp H0 Hlt Hj Hq.
  assert (some_runnable (k_procs s)) as Hsome by (exists p; split; [by eapply list_elem_of_lookup_2|done]).
  destruct (scheduler_quanta n mp s Hs Hl Hsome Hpg) as (s' & Hrun & Hps & _).
  destruct (quanta_starve n (k_procs s) mp i p j q Hi Hp H0 Hlt Hj Hq) as [H1 H2].
  eexists _, s'. split; [exact Hrun|]. rewrite Hps. split_and!; [apply length_quanta|done|done].
Qed.

(** C32. Outside that flaw the search is right: when some process is RUNNABLE, every
    RUNNABLE process has a positive pass and the process that runs uses its whole time
    slice, a round runs a RUNNABLE process with the smallest pass (the
    last such slot of the table), marked RUNNING, with its pass advanced by its
    stride, on its own page table and kernel stack; and the next round starts
    with ptable.lock free. *)
Theorem scheduler_picks_smallest_pass (mp : option nat) (s : kstate) :
  ptable_ok s → Lptable ∉ k_held s → some_runnable (k_procs s) → pgdirs_ok (k_procs s) →
  (∀ i p, k_procs s !! i = Some p → runnable p = true → 0 < p_passada p) →
  ∃ i p s', k_procs s !! i = Some p ∧ runnable p = true ∧
    (∀ j q, k_procs s !! j = Some q → runnable q = true →
       p_passada p <= p_passada q ∧ ((i < j)%nat → p_passada p < p_passada q)) ∧
    swtch_run (dispatched i (p_kstack p) (p_pgdir p) s) = Some s' ∧
    k_procs (dispatched i (p_kstack p) (p_pgdir p) s) !! i = Some (set_p_state RUNNING (add_pass p)) ∧
    scheduler_round mp s = Ok (Some i)
      (set_k_held (k_held s) (set_k_proc None (set_k_cr3 (v2p (k_kpgdir s')) s'))).
Proof using Type*.
  intros Hs Hl (x & Hx & Hr) Hpg Hpos.
  destruct (scan_positive (k_procs s) 0 0 mp) as (i & p & Hsc & Hi & Hp & _ & Hmin); [|lia|by eauto|].
  { intros p [i Hi]%list_elem_of_lookup. by apply Hpos with i. }
  assert (pick (k_procs s) mp = Some i) as Hpick by (unfold pick; by rewrite Hsc).
  destruct (cpu_bound (dispatched i (p_kstack p) (p_pgdir p) s) i eq_refl) as (s' & Hrun & Hh & _).
  exists i, p, s'. split_and!; try done.
  - simpl. by rewrite list_lookup_alter_eq, Hi.
  - rewrite (scheduler_round_eq s mp i p), Hrun by eauto. mrun.
    rewrite release_held by (simpl; rewrite Hh; simpl; auto with xv6). f_equal. rec_eq.
    rewrite Hh. simpl. by apply held_roundtrip.
Qed.

End Run.

(** C39. [min_proc] is never reset. When no process is RUNNABLE, scheduler() runs
    the process it ran last, whatever has become of it: a process that is
    SLEEPING or ZOMBIE is marked RUNNING and switched to, with its pass
    advanced. *)
Theorem stale_min_proc_runs {E : Env} (s : kstate) (i : nat) (p : proc) :
  ptable_ok s → Lptable ∉ k_held s → (∀ q, q ∈ k_procs s → runnable q = false) →
  k_procs s !! i = Some p → p_pgdir p ≠ 0 → p_state p = SLEEPING ∨ p_state p = ZOMBIE →
  scheduler_round (Some i) s =
    match swtch_run (dispatched i (p_kstack p) (p_pgdir p) s) with
    | None => Hang
    | Some s' => (release Lptable ;; mret (Some i)) (set_k_proc None (set_k_cr3 (v2p (k_kpgdir s')) s'))
    end ∧
  k_procs (dispatched i (p_kstack p) (p_pgdir p) s) !! i = Some (set_p_state RUNNING (add_pass p)).
Proof.
  intros Hs Hl Hnone Hi Hpg _. split.
  - apply scheduler_round_eq; [done..| |done|done]. unfold pick. by rewrite scan_no_runnable.
  - simpl. by rewrite list_lookup_alter_eq, Hi.
Qed.

(** ** Witnesses *)

(** A machine on which every process uses up its time slice. *)
Definition env_yield : Env := {|
  swtch_out := Some;
  swtch_run := λ s, Some (match k_proc s with
    | Some c => set_k_procs (alter (set_p_state RUNNABLE) c (k_procs s)) s | None => s end);
  wakeups := 8; sym_end := 2148630528; sym_data := 2148564992;
  sym_trapret := 2148556800; sym_forkret := 2148548608; sym_initcode := [] |}.

#[global] Instance env_yield_cpu_bound : CpuBound env_yield.
Proof. intros s c Hc. simpl. rewrite Hc. eexists. split; [done|]. done. Qed.

(** Two processes with 50 and 25 tickets, passes [a] and [b]. *)
Definition two_procs (a b : Z) : list proc :=
  set_p_passada a (set_p_passo 200 (set_p_pgdir 2149580800 (set_p_state RUNNABLE proc0))) ::
  set_p_passada b (set_p_passo 400 (set_p_pgdir 2149584896 (set_p_state RUNNABLE proc0))) ::
  replicate 62 proc0.
Definition stride_ex (a b : Z) : kstate := set_k_procs (two_procs a b) kstate0.

Lemma two_procs_runnable a b i p :
  two_procs a b !! i = Some p → runnable p = true →
  i = 0%nat ∧ p_passada p = a ∧ p_passo p = 200 ∧ p_pgdir p ≠ 0 ∨
  i = 1%nat ∧ p_passada p = b ∧ p_passo p = 400 ∧ p_pgdir p ≠ 0.
Proof.
  destruct i as [|[|i]]; [intros [= <-]; by left|intros [= <-]; by right|].
  change (two_procs a b !! S (S i)) with (replicate 62 proc0 !! i).
  intros [-> _]%lookup_replicate Hr. done.
Qed.

Lemma two_procs_some a b : some_runnable (two_procs a b).
Proof. eexists. split; [apply elem_of_cons; by left|done]. Qed.

Lemma two_procs_pgdirs a b : pgdirs_ok (two_procs a b).
Proof. intros i p Hi Hp. destruct (two_procs_runnable _ _ _ _ Hi Hp); tauto. Qed.

Lemma two_procs_fair room : 0 <= room <= 2000000000 → fair_ok 400 room (two_procs 200 400).
Proof.
  intros Hroom i p Hi Hp. pose proof (two_procs_runnable _ _ _ _ Hi Hp) as H1.
  split_and!; try lia; try tauto. intros j q Hj Hq.
  pose proof (two_procs_runnable _ _ _ _ Hj Hq) as H2. lia.
Qed.

Section Witness.
#[local] Existing Instance env_yield.

Lemma stride_proportional_share_witness :
  ∃ picks s', scheduler 300 None (stride_ex 200 400) = Ok (Some <$> picks) s' ∧
    runs 0 picks * 200 <= runs 1 picks * 400 + 800 ∧
    runs 0 picks * (10000 - 10000 mod 50) * 25 <= runs 1 picks * (10000 - 10000 mod 25) * 50 + 800 * 50 * 25.
Proof.
  destruct (stride_proportional_share 300 None (stride_ex 200 400)) as (picks & s' & H & _ & _ & Hp).
  - reflexivity.
  - simpl. set_solver.
  - apply two_procs_some.
  - apply two_procs_fair. lia.
  - exists picks, s'. split; [exact H|]. destruct (Hp 0%nat 1%nat _ _ eq_refl eq_refl eq_refl eq_refl) as [H1 H2].
    split; [exact H1|]. apply (H2 50 25); reflexivity.
Defined.

Lemma stride_no_starvation_witness :
  ∃ rs s', scheduler (Z.to_nat 10081) None (stride_ex 200 400) = Ok rs s' ∧ Some 1%nat ∈ rs.
Proof.
  destruct (stride_no_starvation None (stride_ex 200 400)) as (rs & s' & H & Hp).
  - reflexivity.
  - simpl. set_solver.
  - apply two_procs_some.
  - apply two_procs_fair. lia.
  - intros i p Hi Hr. destruct (two_procs_runnable _ _ _ _ Hi Hr); lia.
  - exists rs, s'. split; [exact H|]. exact (Hp 1%nat _ eq_refl eq_refl).
Defined.

Lemma zero_pass_starves_witness :
  ∃ rs s', scheduler 1000 None (stride_ex 0 0) = Ok rs s' ∧ Some 0%nat ∉ rs.
Proof.
  destruct (zero_pass_starves 1000 None (stride_ex 0 0) 0 1 _ _ eq_refl
    ltac:(simpl; set_solver) (two_procs_pgdirs 0 0) eq_refl eq_refl eq_refl ltac:(lia) eq_refl eq_refl)
    as (rs & s' & H & _ & Hn & _).
  exists rs, s'. split; [exact H|exact Hn].
Defined.

Lemma scheduler_picks_smallest_pass_witness :
  ∃ i p, k_procs (stride_ex 200 400) !! i = Some p ∧ p_passada p <= 200.
Proof.
  destruct (scheduler_picks_smallest_pass None (stride_ex 200 400)) as (i & p & s' & Hi & _ & Hm & _).
  - reflexivity.
  - simpl. set_solver.
  - apply two_procs_some.
  - apply two_procs_pgdirs.
  - intros i p Hi Hr. destruct (two_procs_runnable _ _ _ _ Hi Hr); lia.
  - exists i, p. split; [exact Hi|]. exact (proj1 (Hm 0%nat _ eq_refl eq_refl)).
Defined.

(** Every process is a zombie. *)
Definition stale_ex : kstate :=
  set_k_procs (set_p_state ZOMBIE <$> two_procs 200 400) kstate0.

Lemma stale_min_proc_runs_witness :
  ∃ p, k_procs stale_ex !! 0%nat = Some p ∧ p_state p = ZOMBIE ∧
    k_procs (dispatched 0 (p_kstack p) (p_pgdir p) stale_ex) !! 0%nat = Some (set_p_state RUNNING (add_pass p)).
Proof.
  eexists. split; [reflexivity|]. split; [reflexivity|].
  apply (stale_min_proc_runs stale_ex 0 _ eq_refl).
  - simpl. set_solver.
  - intros q (r & -> & _)%list_elem_of_fmap. reflexivity.
  - reflexivity.
  - discriminate.
  - right. reflexivity.
Defined.

End Witness.
