(* ===== verification/DiskFmt.v ===== *)
(** * DiskFmt: the on-disk format (fs.h)

    Blocks are lists of bytes. Little-endian fields at byte offsets, and the
    structures of fs.h that are laid out in them: the superblock, inodes and
    directory entries. *)

From S2P Require Import Prelude Machine CMem.
From stdpp Require Import options.

Definition byte_at (d : list Z) (o : Z) : Z := default 0 (d !! Z.to_nat o).
Definition put_byte (d : list Z) (o v : Z) : list Z := <[Z.to_nat o := u8 v]> d.

Definition get16 (d : list Z) (o : Z) : Z := byte_at d o + 256 * byte_at d (o + 1).
Definition put16 (d : list Z) (o v : Z) : list Z :=
  put_byte (put_byte d o v) (o + 1) (Z.shiftr v 8).
Definition get32 (d : list Z) (o : Z) : Z :=
  byte_at d o + 256 * byte_at d (o + 1) + 65536 * byte_at d (o + 2) + 16777216 * byte_at d (o + 3).
Definition put32 (d : list Z) (o v : Z) : list Z :=
  put_byte (put_byte (put_byte (put_byte d o v) (o + 1) (Z.shiftr v 8)) (o + 2) (Z.shiftr v 16))
    (o + 3) (Z.shiftr v 24).

Lemma length_put_byte d o v : length (put_byte d o v) = length d.
Proof. apply length_insert. Qed.
Lemma length_put16 d o v : length (put16 d o v) = length d.
Proof. unfold put16. by rewrite !length_put_byte. Qed.
Lemma length_put32 d o v : length (put32 d o v) = length d.
Proof. unfold put32. by rewrite !length_put_byte. Qed.

Lemma byte_at_put d o v i :
  0 <= o < Z.of_nat (length d) → 0 <= i →
  byte_at (put_byte d o v) i = if decide (i = o) then u8 v else byte_at d i.
Proof.
  intros Ho Hi. unfold byte_at, put_byte. rewrite list_lookup_insert. case_decide as Hc; case_decide as Hc';
    try lia; done.
Qed.

Ltac bytes_at := repeat (rewrite byte_at_put by (rewrite ?length_put_byte; lia)); repeat (case_decide; try lia).

Lemma get32_put32 d o v :
  0 <= o → o + 4 <= Z.of_nat (length d) → get32 (put32 d o v) o = u32 v.
Proof.
  intros H1 H2. unfold get32, put32. bytes_at. apply le_bytes.
Qed.

Lemma get32_put32_ne d o v o' :
  0 <= o → o + 4 <= Z.of_nat (length d) → 0 <= o' → o' + 4 <= o ∨ o + 4 <= o' →
  get32 (put32 d o v) o' = get32 d o'.
Proof. intros H1 H2 H3 H4. unfold get32, put32. bytes_at. Qed.

Lemma get16_put16 d o v :
  0 <= o → o + 2 <= Z.of_nat (length d) → get16 (put16 d o v) o = u16 v.
Proof.
  intros H1 H2. unfold get16, put16. bytes_at. unfold u8, u16. rewrite Z.shiftr_div_pow2 by lia.
  change (2 ^ 8) with 256. Z.div_mod_to_equations. lia.
Qed.

Lemma get16_put16_ne d o v o' :
  0 <= o → o + 2 <= Z.of_nat (length d) → 0 <= o' → o' + 2 <= o ∨ o + 2 <= o' →
  get16 (put16 d o v) o' = get16 d o'.
Proof. intros H1 H2 H3 H4. unfold get16, put16. bytes_at. Qed.

Lemma get32_put16_ne d o v o' :
  0 <= o → o + 2 <= Z.of_nat (length d) → 0 <= o' → o' + 4 <= o ∨ o + 2 <= o' →
  get32 (put16 d o v) o' = get32 d o'.
Proof. intros H1 H2 H3 H4. unfold get32, put16. bytes_at. Qed.

Lemma get16_put32_ne d o v o' :
  0 <= o → o + 4 <= Z.of_nat (length d) → 0 <= o' → o' + 2 <= o ∨ o + 4 <= o' →
  get16 (put32 d o v) o' = get16 d o'.
Proof. intros H1 H2 H3 H4. unfold get16, put32. bytes_at. Qed.

(** ** The superblock, at offset 0 of block 1 *)

Definition get_sb (d : list Z) : superblock :=
  mksb (get32 d 0) (get32 d 4) (get32 d 8) (get32 d 12) (get32 d 16) (get32 d 20) (get32 d 24).

(** ** Bitmap and inode blocks *)

(** Store the bytes [l] at offset [o]. *)
Fixpoint put_list (d : list Z) (o : Z) (l : list Z) : list Z :=
  match l with [] => d | x :: l => put_list (put_byte d o x) (o + 1) l end.
(** Store 32-bit words. *)
Fixpoint put_words (d : list Z) (o : Z) (l : list Z) : list Z :=
  match l with [] => d | x :: l => put_words (put32 d o x) (o + 4) l end.
Definition get_words (d : list Z) (o : Z) (n : nat) : list Z :=
  (λ i, get32 d (o + 4 * Z.of_nat i)) <$> seq 0 n.

(** Inodes per block; [sizeof(struct dinode)] is 64. *)
Definition DINODE_SIZE : Z := 64.
Definition IPB : Z := BSIZE / DINODE_SIZE.
Definition IBLOCK (i : Z) (sb : superblock) : Z := u32 (i / IPB + sb_inodestart sb).
(** Bitmap bits per block. *)
Definition BPB : Z := BSIZE * 8.
Definition BBLOCK (b : Z) (sb : superblock) : Z := u32 (b / BPB + sb_bmapstart sb).

(** struct dinode: type, major, minor, nlink (short), size, addrs[13] (uint). *)
Record dinode := mkdinode {
  di_type : Z;
  di_major : Z;
  di_minor : Z;
  di_nlink : Z;
  di_size : Z;
  di_addrs : list Z
}.
Definition get_dinode (d : list Z) (o : Z) : dinode :=
  mkdinode (s16 (get16 d o)) (s16 (get16 d (o + 2))) (s16 (get16 d (o + 4))) (s16 (get16 d (o + 6)))
    (get32 d (o + 8)) (get_words d (o + 12) 13).
Definition put_dinode (d : list Z) (o : Z) (x : dinode) : list Z :=
  let d := put16 d o (di_type x) in
  let d := put16 d (o + 2) (di_major x) in
  let d := put16 d (o + 4) (di_minor x) in
  let d := put16 d (o + 6) (di_nlink x) in
  let d := put32 d (o + 8) (di_size x) in
  put_words d (o + 12) (di_addrs x).

(** A dinode is read back as it was written, and the others in the block do not change. *)

Lemma length_put_words d o l : length (put_words d o l) = length d.
Proof. revert d o. induction l as [|x l IH]; intros d o; [done|]. cbn [put_words]. by rewrite IH, length_put32. Qed.

Lemma length_put_dinode d o x : length (put_dinode d o x) = length d.
Proof. unfold put_dinode. by rewrite length_put_words, length_put32, !length_put16. Qed.

Lemma byte_at_put_words d o l i :
  0 <= o → o + 4 * Z.of_nat (length l) <= Z.of_nat (length d) → 0 <= i → i < o ∨ o + 4 * Z.of_nat (length l) <= i →
  byte_at (put_words d o l) i = byte_at d i.
Proof.
  revert d o. induction l as [|x l IH]; intros d o Ho Hl Hi Hn; [done|]. cbn [put_words length] in *.
  rewrite IH; rewrite ?length_put32; [|lia..]. unfold put32. bytes_at.
Qed.

Lemma get_put_words d o l :
  0 <= o → o + 4 * Z.of_nat (length l) <= Z.of_nat (length d) → get_words (put_words d o l) o (length l) = u32 <$> l.
Proof.
  revert d o. induction l as [|x l IH]; intros d o Ho Hl; [done|]. cbn [put_words length] in *.
  unfold get_words in *. cbn [seq fmap list_fmap]. f_equal.
  - rewrite Z.add_0_r. unfold get32. rewrite !byte_at_put_words by (rewrite ?length_put32; lia). apply get32_put32; lia.
  - rewrite <- (IH (put32 d o x) (o + 4)) by (rewrite ?length_put32; lia). rewrite <- fmap_S_seq, <- list_fmap_compose.
    apply list_fmap_ext. intros i j Hj. cbn. f_equal. lia.
Qed.

Lemma get32_put_words_ne d o l i :
  0 <= o → o + 4 * Z.of_nat (length l) <= Z.of_nat (length d) → 0 <= i → i + 4 <= o ∨ o + 4 * Z.of_nat (length l) <= i →
  get32 (put_words d o l) i = get32 d i.
Proof. intros. unfold get32. by rewrite !byte_at_put_words by lia. Qed.
Lemma get16_put_words_ne d o l i :
  0 <= o → o + 4 * Z.of_nat (length l) <= Z.of_nat (length d) → 0 <= i → i + 2 <= o ∨ o + 4 * Z.of_nat (length l) <= i →
  get16 (put_words d o l) i = get16 d i.
Proof. intros. unfold get16. by rewrite !byte_at_put_words by lia. Qed.

(** The fields have the widths of their types. *)
Definition dinode_wf (x : dinode) : Prop :=
  s16 (di_type x) = di_type x ∧ s16 (di_major x) = di_major x ∧ s16 (di_minor x) = di_minor x ∧
  s16 (di_nlink x) = di_nlink x ∧ is_u32 (di_size x) ∧ Forall is_u32 (di_addrs x) ∧ length (di_addrs x) = 13%nat.

Lemma s16_u16 z : s16 (u16 z) = s16 z.
Proof. unfold s16, u16. by rewrite Zplus_mod_idemp_l. Qed.

Lemma get_put_dinode d o x :
  dinode_wf x → 0 <= o → o + DINODE_SIZE <= Z.of_nat (length d) → get_dinode (put_dinode d o x) o = x.
Proof.
  unfold DINODE_SIZE. intros (H1 & H2 & H3 & H4 & H5 & H6 & H7) Ho Hl. destruct x as [ty ma mi nl sz ad]. cbn in *.
  unfold get_dinode, put_dinode. cbn [di_type di_major di_minor di_nlink di_size di_addrs].
  rewrite <- H7 at 1. rewrite get_put_words by (rewrite ?length_put32, ?length_put16, ?H7; lia).
  rewrite !get16_put_words_ne, !get32_put_words_ne by (rewrite ?length_put32, ?length_put16, ?H7; lia).
  rewrite !get16_put32_ne, get32_put32 by (rewrite ?length_put16; lia).
  assert (∀ d p v q, 0 <= p → p + 2 <= Z.of_nat (length d) → 0 <= q → q + 2 <= p ∨ p + 2 <= q → get16 (put16 d p v) q = get16 d q) as Hne
    by (intros; by apply get16_put16_ne).
  rewrite (Hne _ (o + 6) nl o), (Hne _ (o + 4) mi o), (Hne _ (o + 2) ma o), (Hne _ (o + 6) nl (o + 2)), (Hne _ (o + 4) mi (o + 2)),
    (Hne _ (o + 6) nl (o + 4)) by (rewrite ?length_put16; lia).
  rewrite !get16_put16, !s16_u16 by (rewrite ?length_put16; lia). rewrite u32_small by done. f_equal; try done.
  rewrite <- (list_fmap_id ad) at 2. apply list_fmap_ext. intros i z Hz. apply u32_small. by eapply (proj1 (Forall_lookup _ _) H6).
Qed.

Lemma get_put_dinode_ne d o x o' :
  length (di_addrs x) = 13%nat → 0 <= o → o + DINODE_SIZE <= Z.of_nat (length d) → 0 <= o' →
  o' + DINODE_SIZE <= o ∨ o + DINODE_SIZE <= o' → get_dinode (put_dinode d o x) o' = get_dinode d o'.
Proof.
  unfold DINODE_SIZE. intros H7 Ho Hl Ho' Hne.
  assert (∀ i, o' <= i < o' + 64 → byte_at (put_dinode d o x) i = byte_at d i) as Hb.
  { intros i Hi. unfold put_dinode. rewrite byte_at_put_words by (rewrite ?length_put32, ?length_put16, ?H7; lia).
    unfold put32, put16. bytes_at. }
  unfold get_dinode, get_words, get16, get32. f_equal; try (by rewrite !Hb by lia).
  apply list_fmap_ext. intros i j [-> Hj]%lookup_seq. by rewrite !Hb by lia.
Qed.

(** ** Types *)

Lemma byte_at_u8 d o : Forall is_u8 d → is_u8 (byte_at d o).
Proof.
  intros H. unfold byte_at. destruct (d !! Z.to_nat o) eqn:E; [by eapply (proj1 (Forall_lookup _ _) H)|]. unfold is_u8. cbn. lia.
Qed.

Lemma get32_is_u32 d o : Forall is_u8 d → is_u32 (get32 d o).
Proof.
  intros H. unfold get32, is_u32. pose proof (byte_at_u8 d o H). pose proof (byte_at_u8 d (o + 1) H).
  pose proof (byte_at_u8 d (o + 2) H). pose proof (byte_at_u8 d (o + 3) H). unfold is_u8 in *. lia.
Qed.

Lemma put_byte_u8 d o v : Forall is_u8 d → Forall is_u8 (put_byte d o v).
Proof. intros H. apply Forall_insert; [done|apply u8_range]. Qed.
Lemma put16_u8 d o v : Forall is_u8 d → Forall is_u8 (put16 d o v).
Proof. intros H. by repeat apply put_byte_u8. Qed.
Lemma put32_u8 d o v : Forall is_u8 d → Forall is_u8 (put32 d o v).
Proof. intros H. by repeat apply put_byte_u8. Qed.
Lemma put_list_u8 l : ∀ d o, Forall is_u8 d → Forall is_u8 (put_list d o l).
Proof. induction l as [|x l IH]; intros d o Hd; [done|]. cbn [put_list]. by apply IH, put_byte_u8. Qed.
Lemma put_words_u8 l : ∀ d o, Forall is_u8 d → Forall is_u8 (put_words d o l).
Proof. induction l as [|x l IH]; intros d o Hd; [done|]. cbn [put_words]. by apply IH, put32_u8. Qed.

Lemma s16_idem z : s16 (s16 z) = s16 z.
Proof. unfold s16. rewrite Z.sub_add, Z.mod_mod by lia. done. Qed.

(** C37. Whatever bytes a block holds, reading a dinode from it gives fields in the ranges
    of their C types, and writing one, whatever its fields, gives a block of bytes of the
    same length; a dinode read from one place and written to another is read back there
    unchanged. *)
Theorem dinode_types d o d' o' x :
  Forall is_u8 d → Forall is_u8 d' → 0 <= o' → o' + DINODE_SIZE <= Z.of_nat (length d') →
  dinode_wf (get_dinode d o) ∧ Forall is_u8 (put_dinode d' o' x) ∧ length (put_dinode d' o' x) = length d' ∧
  get_dinode (put_dinode d' o' (get_dinode d o)) o' = get_dinode d o.
Proof.
  intros H H' Ho Hl. assert (dinode_wf (get_dinode d o)) as Hwf.
  { unfold dinode_wf, get_dinode. cbn [di_type di_major di_minor di_nlink di_size di_addrs]. split_and!; try apply s16_idem.
    - apply (get32_is_u32 d (o + 8) H).
    - apply Forall_fmap, Forall_forall. intros i _. by apply get32_is_u32.
    - by unfold get_words; rewrite length_fmap, length_seq. }
  split; [done|]. split; [|split; [apply length_put_dinode|by apply get_put_dinode]].
  unfold put_dinode. apply put_words_u8, put32_u8. by repeat apply put16_u8.
Qed.

Lemma dinode_types_witness :
  dinode_wf (get_dinode (replicate 512 255) 64) ∧ Forall is_u8 (put_dinode (replicate 512 0) 128 (mkdinode 70000 0 0 1 (-5) [])) ∧
  length (put_dinode (replicate 512 0) 128 (mkdinode 70000 0 0 1 (-5) [])) = length (replicate 512 0) ∧
  get_dinode (put_dinode (replicate 512 0) 128 (get_dinode (replicate 512 255) 64)) 128 = get_dinode (replicate 512 255) 64.
Proof. apply (dinode_types (replicate 512 255) 64 (replicate 512 0) 128); [by apply Forall_replicate|by apply Forall_replicate|done|done]. Defined.

(** struct dirent: inum (ushort), name[DIRSIZ]. *)
Definition DIRENT_SIZE : Z := 16.
Definition de_inum (d : list Z) : Z := get16 d 0.
Definition de_name (d : list Z) : list Z := take 14 (drop 2 d).
