(* ===== verification/Bio.v ===== *)
(** * Bio: the buffer cache (bio.c) over the disk (memide.c)

    The cache is a doubly linked list threaded through the buffers: buffer NBUF is
    the list head bcache.head, and prev and next are indices. iderw() is that of
    memide.c, which keeps the disk in memory; [k_disk] has the blocks
    0 .. disksize-1, and [k_dwrites] records the writes it receives. Ide.v models
    the driver for a real disk. *)

From S2P Require Import Prelude Machine CMem Proc.
From stdpp Require Import options.

(** The index of bcache.head. *)
Definition bhead : nat := Z.to_nat NBUF.

(** ** Doubly linked rings

    [path nx pv x l]: following [nx] from [x] visits [l], and [pv] leads back. The
    cache with order [l] is the path from the head through [l] to the head. *)

Fixpoint path (nx pv : nat → nat) (x : nat) (l : list nat) : Prop :=
  match l with
  | [] => True
  | y :: l => nx x = y ∧ pv y = x ∧ path nx pv y l
  end.

Definition upd (f : nat → nat) (i v : nat) : nat → nat := λ j, if decide (j = i) then v else f j.

Lemma upd_eq f i v : upd f i v i = v.
Proof. unfold upd. by rewrite decide_True. Qed.
Lemma upd_ne f i v j : j ≠ i → upd f i v j = f j.
Proof. intros. unfold upd. by rewrite decide_False. Qed.

Lemma upd_ext f g i v j : (∀ j, f j = g j) → upd f i v j = upd g i v j.
Proof. intros H. unfold upd. by case_decide. Qed.

Lemma path_app nx pv x l1 y l2 :
  path nx pv x (l1 ++ y :: l2) ↔ path nx pv x (l1 ++ [y]) ∧ path nx pv y l2.
Proof. revert x. induction l1 as [|z l1 IH]; intros x; simpl; [tauto|]. rewrite IH. tauto. Qed.

(** A path uses [nx] at its nodes but the last, [pv] at its nodes but the first. *)
Lemma path_frame nx pv nx' pv' x m e :
  (∀ z, z = x ∨ z ∈ m → nx' z = nx z) → (∀ z, z ∈ m ∨ z = e → pv' z = pv z) →
  path nx pv x (m ++ [e]) → path nx' pv' x (m ++ [e]).
Proof.
  revert x. induction m as [|y m IH]; intros x Hn Hp; simpl.
  - intros (? & ? & _). rewrite Hn, Hp by auto. auto.
  - intros (? & ? & H). rewrite Hn, Hp by set_solver. split_and!; [done|done|].
    apply IH; [set_solver..|done].
Qed.

(** The successor of [x] on a path that goes on. *)
Lemma path_cons_inv nx pv x l : l ≠ [] → path nx pv x l → ∃ r, l = nx x :: r ∧ pv (nx x) = x ∧ path nx pv (nx x) r.
Proof. destruct l as [|y r]; [done|]. intros _ (<- & Hp & H). eauto. Qed.

(** The predecessor of the last node. *)
Lemma path_snoc_inv nx pv x m e :
  path nx pv x (m ++ [e]) → (m = [] ∧ pv e = x) ∨ ∃ m', m = m' ++ [pv e].
Proof.
  destruct m as [|y m _] using rev_ind; intros H.
  - left. destruct H as (_ & H & _). auto.
  - right. rewrite <- (assoc_L (++)) in H. simpl in H. apply path_app in H as [_ (_ & H & _)]. exists m. by rewrite H.
Qed.

Lemma path_unlink nx pv h l1 b l2 :
  NoDup (h :: l1 ++ b :: l2) → path nx pv h (l1 ++ b :: l2 ++ [h]) →
  path (upd nx (pv b) (nx b)) (upd pv (nx b) (pv b)) h (l1 ++ l2 ++ [h]).
Proof.
  intros Hnd H. apply path_app in H as [H1 H2].
  assert (∃ r, l2 ++ [h] = nx b :: r ∧ pv (nx b) = b ∧ path nx pv (nx b) r) as (r & Er & Hpy & Hr).
  { apply path_cons_inv; [by destruct l2|done]. }
  rewrite Er. apply NoDup_cons in Hnd as [Hh Hnd]. rewrite elem_of_app, elem_of_cons in Hh.
  apply NoDup_app in Hnd as (Hnd1 & Hd & Hnd2). apply NoDup_cons in Hnd2 as [Hb2 Hnd2].
  assert (path (upd nx (pv b) (nx b)) (upd pv (nx b) (pv b)) (nx b) r) as Hr'.
  { destruct l2 as [|y l2]; simpl in Er; injection Er as Ey Er; [by subst r|]. subst r. rewrite <- Ey in *.
    eapply path_frame; [| |exact Hr].
    - intros z Hz. apply upd_ne. intros ->. destruct (path_snoc_inv _ _ _ _ _ H1) as [[-> E0]|[m' ->]].
      + rewrite E0 in Hz. set_solver.
      + apply (Hd (pv b)); [set_solver|]. destruct Hz as [<-|Hz]; set_solver.
    - intros z Hz. apply upd_ne. intros ->. apply NoDup_cons in Hnd2 as [Hy _].
      destruct Hz as [Hz| ->]; [done|]. set_solver. }
  apply path_app. split; [|done]. destruct (path_snoc_inv _ _ _ _ _ H1) as [[-> E0]|[m' E0]].
  - simpl. rewrite E0, !upd_eq. auto.
  - rewrite E0 in *. rewrite <- (assoc_L (++)) in *. simpl in *. apply path_app in H1 as [H1 _].
    apply path_app. split; [|simpl; by rewrite !upd_eq].
    apply NoDup_app in Hnd1 as (Hnd1 & Hd1 & _).
    eapply path_frame; [| |exact H1].
    + intros z Hz. apply upd_ne. intros ->. destruct Hz as [Hz|Hz]; [set_solver|]. apply (Hd1 (pv b)); set_solver.
    + intros z Hz. apply upd_ne. intros ->.
      assert (nx b ∈ l2 ++ [h]) as Hin by (rewrite Er; set_solver).
      apply elem_of_app in Hin as [Hin|Hin%list_elem_of_singleton].
      * apply (Hd (nx b)); set_solver.
      * rewrite Hin in Hz. set_solver.
Qed.

Lemma path_link nx pv h b l :
  NoDup (h :: b :: l) → path nx pv h (l ++ [h]) →
  path (upd (upd nx b (nx h)) h b) (upd (upd pv b h) (nx h) b) h (b :: l ++ [h]).
Proof.
  intros Hnd H. apply NoDup_cons in Hnd as [Hh Hnd]. apply NoDup_cons in Hnd as [Hb Hnd].
  assert (h ≠ b ∧ h ∉ l) as [Hhb Hhl] by set_solver.
  destruct (path_cons_inv nx pv h (l ++ [h])) as (r & Er & Hp & Hr); [by destruct l|done|].
  assert (nx h ≠ b) as Hnb.
  { assert (nx h ∈ l ++ [h]) as Hin by (rewrite Er; set_solver). set_solver. }
  cbn [path]. rewrite upd_eq. split; [done|]. split; [rewrite upd_ne by done; apply upd_eq|].
  rewrite Er. cbn [path]. rewrite (upd_ne _ h), upd_eq by done. split; [done|]. rewrite upd_eq. split; [done|].
  destruct l as [|y l]; simpl in Er; injection Er as Ey Er; [by subst r|]. subst r. rewrite <- Ey in *.
  apply NoDup_cons in Hnd as [Hy _]. eapply path_frame; [| |exact Hr].
  - intros z Hz. rewrite !upd_ne; [done|set_solver..].
  - intros z Hz. rewrite !upd_ne; [done|set_solver..].
Qed.

Section Bio.
Context {E : Env}.

Definition binit : K unit :=
  initlock Lbcache ;;
  upd_buf bhead (set_b_prev bhead) ;;
  upd_buf bhead (set_b_next bhead) ;;
  for_each (seq 0 (Z.to_nat NBUF)) (λ b,
    h ← get_buf bhead;
    upd_buf b (set_b_next (b_next h)) ;;
    upd_buf b (set_b_prev bhead) ;;
    upd_buf b (set_b_dev 4294967295) ;;
    h ← get_buf bhead;
    upd_buf (b_next h) (set_b_prev b) ;;
    upd_buf bhead (set_b_next b)).

(** The two searches of bget; the list has NBUF buffers, so NBUF + 1 steps reach
    the head again. *)
Fixpoint bget_cached (fuel : nat) (b : nat) (dev blockno : Z) : K (option nat) :=
  match fuel with
  | O => hang
  | S n =>
    if bool_decide (b = bhead) then mret None else
    x ← get_buf b;
    if (b_dev x =? dev) && (b_blockno x =? blockno) then mret (Some b)
    else bget_cached n (b_next x) dev blockno
  end.

Fixpoint bget_recycle (fuel : nat) (b : nat) : K (option nat) :=
  match fuel with
  | O => hang
  | S n =>
    if bool_decide (b = bhead) then mret None else
    x ← get_buf b;
    if (Z.land (b_flags x) B_BUSY =? 0) && (Z.land (b_flags x) B_DIRTY =? 0) then mret (Some b)
    else bget_recycle n (b_prev x)
  end.

Definition bget (dev blockno : Z) : K nat :=
  acquire Lbcache ;;
  loop wakeups (λ _ : unit,
    h ← get_buf bhead;
    r ← bget_cached (S (Z.to_nat NBUF)) (b_next h) dev blockno;
    match r with
    | Some b =>
      x ← get_buf b;
      if negb (has (b_flags x) B_BUSY) then
        upd_buf b (λ x, set_b_flags (Z.lor (b_flags x) B_BUSY) x) ;;
        release Lbcache ;;
        mret (inr b)
      else
        sleep (Cbuf b) (Some Lbcache) ;;
        mret (inl tt)
    | None =>
      h ← get_buf bhead;
      r ← bget_recycle (S (Z.to_nat NBUF)) (b_prev h);
      match r with
      | Some b =>
        upd_buf b (set_b_dev dev) ;;
        upd_buf b (set_b_blockno blockno) ;;
        upd_buf b (set_b_flags B_BUSY) ;;
        release Lbcache ;;
        mret (inr b)
      | None => panic "bget: no buffers"
      end
    end) tt.

(** Sync buf with disk (memide.c). *)
Definition iderw (b : nat) : K unit :=
  x ← get_buf b;
  if negb (has (b_flags x) B_BUSY) then panic "iderw: buf not busy" else
  if Z.land (b_flags x) (Z.lor B_VALID B_DIRTY) =? B_VALID then panic "iderw: nothing to do" else
  if negb (b_dev x =? 1) then panic "iderw: request not for disk 1" else
  d ← gets k_disk;
  match d !! b_blockno x with
  | None => panic "iderw: block out of range"
  | Some data =>
    (if has (b_flags x) B_DIRTY then
       upd_buf b (λ x, set_b_flags (Z.land (b_flags x) (Z.lnot B_DIRTY)) x) ;;
       modify (λ s, set_k_disk (<[b_blockno x := b_data x]> (k_disk s)) s) ;;
       modify (λ s, set_k_dwrites ((b_blockno x, b_data x) :: k_dwrites s) s)
     else upd_buf b (set_b_data data)) ;;
    upd_buf b (λ x, set_b_flags (Z.lor (b_flags x) B_VALID) x)
  end.

(** ideinit() and ideintr() of memide.c: the disk is the image [img] that is linked into
    the kernel, cut into disksize blocks. *)
Definition img_blocks (img : list Z) : gmap Z (list Z) :=
  list_to_map ((λ n, (n, take (Z.to_nat BSIZE) (drop (Z.to_nat (n * BSIZE)) img))) <$> seqZ 0 (Z.of_nat (length img) / BSIZE)).
Definition mem_ideinit (img : list Z) : K unit := modify (set_k_disk (img_blocks img)).
Definition mem_ideintr : K unit := skip.

Definition bread (dev blockno : Z) : K nat :=
  b ← bget dev blockno;
  x ← get_buf b;
  when (negb (has (b_flags x) B_VALID)) (iderw b) ;;
  mret b.

Definition bwrite (b : nat) : K unit :=
  x ← get_buf b;
  if Z.land (b_flags x) B_BUSY =? 0 then panic "bwrite" else
  upd_buf b (λ x, set_b_flags (Z.lor (b_flags x) B_DIRTY) x) ;;
  iderw b.

Definition brelse (b : nat) : K unit :=
  x ← get_buf b;
  if Z.land (b_flags x) B_BUSY =? 0 then panic "brelse" else
  acquire Lbcache ;;
  x ← get_buf b;
  upd_buf (b_next x) (set_b_prev (b_prev x)) ;;
  x ← get_buf b;
  upd_buf (b_prev x) (set_b_next (b_next x)) ;;
  h ← get_buf bhead;
  upd_buf b (set_b_next (b_next h)) ;;
  upd_buf b (set_b_prev bhead) ;;
  h ← get_buf bhead;
  upd_buf (b_next h) (set_b_prev b) ;;
  upd_buf bhead (set_b_next b) ;;
  upd_buf b (λ x, set_b_flags (Z.land (b_flags x) (Z.lnot B_BUSY)) x) ;;
  wakeup (Cbuf b) ;;
  release Lbcache.

(** ** Flags *)

Lemma has_bit f k : 0 <= k → has f (2 ^ k) = Z.testbit f k.
Proof.
  intros Hk. unfold has. destruct (Z.testbit f k) eqn:Et.
  - destruct (Z.eqb_spec (Z.land f (2 ^ k)) 0) as [E0|]; [|done].
    assert (Z.testbit (Z.land f (2 ^ k)) k = true) as H by (by rewrite Z.land_spec, Et, Z.pow2_bits_true).
    rewrite E0, Z.bits_0 in H. done.
  - assert (Z.land f (2 ^ k) = 0) as ->; [|done]. apply Z.bits_inj'. intros i Hi.
    rewrite Z.land_spec, Z.bits_0, Z.pow2_bits_eqb by lia.
    destruct (Z.eqb_spec k i) as [->|]; [by rewrite Et|apply andb_false_r].
Qed.

Lemma has_busy f : has f B_BUSY = Z.testbit f 0.
Proof. exact (has_bit f 0 ltac:(lia)). Qed.
Lemma has_valid f : has f B_VALID = Z.testbit f 1.
Proof. exact (has_bit f 1 ltac:(lia)). Qed.
Lemma has_dirty f : has f B_DIRTY = Z.testbit f 2.
Proof. exact (has_bit f 2 ltac:(lia)). Qed.

Lemma land_eq0_has f k : (Z.land f k =? 0) = negb (has f k).
Proof. unfold has. by rewrite negb_involutive. Qed.

End Bio.

Ltac flag_bits :=
  rewrite ?has_busy, ?has_valid, ?has_dirty;
  repeat first [rewrite Z.lor_spec | rewrite Z.land_spec | rewrite Z.lnot_spec by lia]; simpl;
  repeat first [rewrite orb_true_r | rewrite orb_false_r | rewrite andb_true_r | rewrite andb_false_r]; done.

Lemma or_busy f : has (Z.lor f B_BUSY) B_BUSY = true ∧
  has (Z.lor f B_BUSY) B_VALID = has f B_VALID ∧ has (Z.lor f B_BUSY) B_DIRTY = has f B_DIRTY.
Proof. split_and!; flag_bits. Qed.
Lemma or_valid f : has (Z.lor f B_VALID) B_BUSY = has f B_BUSY ∧
  has (Z.lor f B_VALID) B_VALID = true ∧ has (Z.lor f B_VALID) B_DIRTY = has f B_DIRTY.
Proof. split_and!; flag_bits. Qed.
Lemma or_dirty f : has (Z.lor f B_DIRTY) B_BUSY = has f B_BUSY ∧
  has (Z.lor f B_DIRTY) B_VALID = has f B_VALID ∧ has (Z.lor f B_DIRTY) B_DIRTY = true.
Proof. split_and!; flag_bits. Qed.
Lemma not_busy f : has (Z.land f (Z.lnot B_BUSY)) B_BUSY = false ∧
  has (Z.land f (Z.lnot B_BUSY)) B_VALID = has f B_VALID ∧ has (Z.land f (Z.lnot B_BUSY)) B_DIRTY = has f B_DIRTY.
Proof. split_and!; flag_bits. Qed.
Lemma not_dirty f : has (Z.land f (Z.lnot B_DIRTY)) B_BUSY = has f B_BUSY ∧
  has (Z.land f (Z.lnot B_DIRTY)) B_VALID = has f B_VALID ∧ has (Z.land f (Z.lnot B_DIRTY)) B_DIRTY = false.
Proof. split_and!; flag_bits. Qed.

(** iderw's test for nothing to do. *)
Lemma nothing_to_do f :
  (Z.land f (Z.lor B_VALID B_DIRTY) =? B_VALID) = has f B_VALID && negb (has f B_DIRTY).
Proof.
  rewrite has_valid, has_dirty.
  destruct (Z.testbit f 1) eqn:E1, (Z.testbit f 2) eqn:E2; simpl.
  - apply Z.eqb_neq. intros H. assert (Z.testbit (Z.land f (Z.lor B_VALID B_DIRTY)) 2 = false) as H2 by (by rewrite H).
    rewrite Z.land_spec, E2 in H2. done.
  - apply Z.eqb_eq. change (Z.lor B_VALID B_DIRTY) with (Z.lor (2 ^ 1) (2 ^ 2)). rewrite Z.land_lor_distr_r.
    apply Z.bits_inj'. intros i Hi. rewrite Z.lor_spec, !Z.land_spec. change B_VALID with (2 ^ 1).
    rewrite !Z.pow2_bits_eqb by lia.
    destruct (Z.eqb_spec 1 i) as [<-|]; [by rewrite E1|]. destruct (Z.eqb_spec 2 i) as [<-|]; [by rewrite E2|].
    by rewrite !andb_false_r.
  - apply Z.eqb_neq. intros H. assert (Z.testbit (Z.land f (Z.lor B_VALID B_DIRTY)) 2 = false) as H2 by (by rewrite H).
    rewrite Z.land_spec, E2 in H2. done.
  - apply Z.eqb_neq. intros H. assert (Z.testbit (Z.land f (Z.lor B_VALID B_DIRTY)) 1 = true) as H2 by (by rewrite H).
    rewrite Z.land_spec, E1 in H2. done.
Qed.

Section Cache.
Context {E : Env}.

(** ** The list of buffers *)

Definition nxf (bs : list buf) (i : nat) : nat := default 0%nat (b_next <$> bs !! i).
Definition pvf (bs : list buf) (i : nat) : nat := default 0%nat (b_prev <$> bs !! i).

(** The cache's list is a ring through all buffers, in the order [l]. *)
Definition bring (bs : list buf) (l : list nat) : Prop :=
  length bs = S bhead ∧ l ≡ₚ seq 0 bhead ∧ path (nxf bs) (pvf bs) bhead (l ++ [bhead]).

Lemma bring_mem bs l i : bring bs l → i ∈ l ↔ (i < bhead)%nat.
Proof. intros (_ & Hp & _). rewrite Hp, elem_of_seq. lia. Qed.

Lemma bring_nodup bs l : bring bs l → NoDup (bhead :: l).
Proof.
  intros H. apply NoDup_cons. split; [rewrite (bring_mem _ _ _ H); lia|].
  destruct H as (_ & Hp & _). rewrite Hp. apply NoDup_seq.
Qed.

Lemma bring_get bs l i : bring bs l → (i ≤ bhead)%nat → ∃ x, bs !! i = Some x.
Proof. intros (Hlen & _) Hi. apply lookup_lt_is_Some_1'. lia. Qed.

Lemma bring_ext bs bs' l :
  length bs' = length bs → (∀ i, nxf bs' i = nxf bs i) → (∀ i, pvf bs' i = pvf bs i) →
  bring bs l → bring bs' l.
Proof.
  intros Hl Hn Hp (H1 & H2 & H3). split_and!; [congruence|done|].
  eapply path_frame; [..|exact H3]; auto.
Qed.

(** Changes that leave the links alone. *)
Lemma bring_alter f i bs l :
  (∀ x, b_next (f x) = b_next x ∧ b_prev (f x) = b_prev x) → bring bs l → bring (alter f i bs) l.
Proof.
  intros Hf. apply bring_ext; [apply length_alter|..]; intros j; unfold nxf, pvf;
    rewrite list_lookup_alter_case; destruct (decide (i = j)) as [->|]; try done;
    destruct (bs !! j) as [x|]; simpl; try done; by destruct (Hf x).
Qed.

Lemma nxf_alter_next i v bs j :
  (i < length bs)%nat → nxf (alter (set_b_next v) i bs) j = upd (nxf bs) i v j.
Proof.
  intros Hi. unfold nxf, upd. rewrite list_lookup_alter_case. destruct (decide (i = j)) as [->|Hne].
  - rewrite decide_True by done. destruct (lookup_lt_is_Some_1' _ _ Hi) as [x ->]. done.
  - rewrite decide_False by done. done.
Qed.
Lemma nxf_alter_prev i v bs j : nxf (alter (set_b_prev v) i bs) j = nxf bs j.
Proof.
  unfold nxf. rewrite list_lookup_alter_case. destruct (decide (i = j)) as [->|]; [|done].
  by destruct (bs !! j).
Qed.
Lemma pvf_alter_prev i v bs j :
  (i < length bs)%nat → pvf (alter (set_b_prev v) i bs) j = upd (pvf bs) i v j.
Proof.
  intros Hi. unfold pvf, upd. rewrite list_lookup_alter_case. destruct (decide (i = j)) as [->|Hne].
  - rewrite decide_True by done. destruct (lookup_lt_is_Some_1' _ _ Hi) as [x ->]. done.
  - rewrite decide_False by done. done.
Qed.
Lemma pvf_alter_next i v bs j : pvf (alter (set_b_next v) i bs) j = pvf bs j.
Proof.
  unfold pvf. rewrite list_lookup_alter_case. destruct (decide (i = j)) as [->|]; [|done].
  by destruct (bs !! j).
Qed.

(** The searches follow the list. *)
Definition bmatch (dev n : Z) (x : buf) : bool := (b_dev x =? dev) && (b_blockno x =? n).
Definition brecyclable (x : buf) : bool := negb (has (b_flags x) B_BUSY) && negb (has (b_flags x) B_DIRTY).

Definition find_buf (f : buf → bool) (bs : list buf) (l : list nat) : option nat :=
  snd <$> list_find (λ i, (f <$> bs !! i) = Some true) l.

Lemma bget_cached_eq s dev n l2 l1 fuel :
  bring (k_bufs s) (l1 ++ l2) → (length l2 < fuel)%nat →
  bget_cached fuel (nxf (k_bufs s) (List.last l1 bhead)) dev n s =
    Ok (find_buf (bmatch dev n) (k_bufs s) l2) s.
Proof.
  revert l1 fuel. induction l2 as [|i l2 IH]; intros l1 [|fuel] Hr Hf; simpl in Hf; try lia; simpl.
  - assert (nxf (k_bufs s) (List.last l1 bhead) = bhead) as ->; [|by rewrite bool_decide_eq_true_2].
    rewrite app_nil_r in Hr. destruct Hr as (_ & _ & H).
    destruct l1 as [|y l1 _] using rev_ind; [by destruct H|]. rewrite List.last_last.
    rewrite <- (assoc_L (++)) in H. by apply path_app in H as [_ [H _]].
  - assert (nxf (k_bufs s) (List.last l1 bhead) = i) as ->.
    { destruct Hr as (_ & _ & H). rewrite <- (assoc_L (++)) in H.
      destruct l1 as [|y l1 _] using rev_ind; [by destruct H|]. rewrite List.last_last.
      rewrite <- (assoc_L (++)) in H. by apply path_app in H as [_ [H _]]. }
    assert (i < bhead)%nat as Hi by (apply (bring_mem _ _ i Hr); set_solver).
    rewrite bool_decide_eq_false_2 by lia. destruct (bring_get _ _ i Hr ltac:(lia)) as [x Hx].
    rewrite (bind_Ok (get_buf i) _ s x s) by (unfold get_buf; by rewrite Hx).
    unfold find_buf. simpl. rewrite Hx. simpl.
    change ((b_dev x =? dev) && (b_blockno x =? n)) with (bmatch dev n x).
    destruct (bmatch dev n x); [by rewrite decide_True|].
    rewrite decide_False by congruence.
    specialize (IH (l1 ++ [i]) fuel). rewrite List.last_last in IH. unfold nxf at 1 in IH. rewrite Hx in IH.
    simpl in IH. rewrite IH; [|by rewrite <- (assoc_L (++))|lia]. unfold find_buf.
    by destruct (list_find _ l2) as [[]|].
Qed.

Lemma bget_recycle_eq s l2 l1 fuel :
  bring (k_bufs s) (l2 ++ l1) → (length l2 < fuel)%nat →
  bget_recycle fuel (pvf (k_bufs s) (List.hd bhead l1)) s =
    Ok (find_buf brecyclable (k_bufs s) (reverse l2)) s.
Proof.
  revert l1 fuel. induction l2 as [|i l2 IH] using rev_ind; intros l1 [|fuel] Hr Hf;
    rewrite ?length_app in Hf; simpl in Hf; try lia; simpl.
  - assert (pvf (k_bufs s) (List.hd bhead l1) = bhead) as ->; [|by rewrite bool_decide_eq_true_2].
    destruct Hr as (_ & _ & H). destruct l1; by destruct H as (_ & H & _).
  - assert (pvf (k_bufs s) (List.hd bhead l1) = i) as ->.
    { destruct Hr as (_ & _ & H). rewrite <- !(assoc_L (++)) in H. simpl in H.
      apply path_app in H as [_ H]. destruct l1; by destruct H as (_ & H & _). }
    assert (i < bhead)%nat as Hi by (apply (bring_mem _ _ i Hr); set_solver).
    rewrite bool_decide_eq_false_2 by lia. destruct (bring_get _ _ i Hr ltac:(lia)) as [x Hx].
    rewrite (bind_Ok (get_buf i) _ s x s) by (unfold get_buf; by rewrite Hx).
    rewrite reverse_app. simpl. unfold find_buf. simpl. rewrite Hx. simpl. rewrite !land_eq0_has.
    change (negb (has (b_flags x) B_BUSY) && negb (has (b_flags x) B_DIRTY)) with (brecyclable x).
    destruct (brecyclable x); [by rewrite decide_True|]. rewrite decide_False by congruence.
    specialize (IH (i :: l1) fuel). simpl in IH. unfold pvf at 1 in IH. rewrite Hx in IH. simpl in IH.
    rewrite IH; [|by rewrite <- (assoc_L (++)) in Hr|lia]. unfold find_buf.
    by destruct (list_find _ (reverse l2)) as [[]|].
Qed.

Lemma find_buf_Some f bs l i :
  find_buf f bs l = Some i → i ∈ l ∧ ∃ x, bs !! i = Some x ∧ f x = true.
Proof.
  unfold find_buf. destruct (list_find _ l) as [[k j]|] eqn:Ef; [|done]. intros [= <-].
  apply list_find_Some in Ef as (Hk & Hf & _). split; [by eapply list_elem_of_lookup_2|].
  destruct (bs !! j); simplify_eq/=. eauto.
Qed.

Lemma find_buf_None f bs l i x :
  find_buf f bs l = None → i ∈ l → bs !! i = Some x → f x = false.
Proof.
  unfold find_buf. destruct (list_find _ l) as [|] eqn:Ef; [done|]. intros _ Hi Hx.
  apply list_find_None in Ef. rewrite Forall_forall in Ef. specialize (Ef i Hi). simpl in Ef.
  rewrite Hx in Ef. simpl in Ef. destruct (f x); [by destruct Ef|done].
Qed.

Lemma get_buf_eq s i x : k_bufs s !! i = Some x → get_buf i s = Ok x s.
Proof. intros H. unfold get_buf. by rewrite H. Qed.

(** ** bget *)

(** bget finds the block: it marks its buffer busy. *)
Lemma bget_hit s l dev n i x :
  bring (k_bufs s) l → Lbcache ∉ k_held s → (0 < wakeups)%nat →
  find_buf (bmatch dev n) (k_bufs s) l = Some i → k_bufs s !! i = Some x → has (b_flags x) B_BUSY = false →
  bget dev n s = Ok i (set_k_bufs (alter (λ x, set_b_flags (Z.lor (b_flags x) B_BUSY) x) i (k_bufs s)) s).
Proof.
  intros Hr Hl Hw Hfind Hx Hb. unfold bget. rewrite (bind_Ok _ _ _ _ _ (acquire_free _ _ Hl)).
  set (s1 := set_k_held _ s). destruct wakeups as [|w]; [lia|]. cbn [loop].
  destruct (bring_get _ _ bhead Hr ltac:(lia)) as [h Hh].
  assert (b_next h = nxf (k_bufs s1) (List.last [] bhead)) as En by (unfold nxf; simpl; by rewrite Hh).
  assert (bget_cached (S (Z.to_nat NBUF)) (b_next h) dev n s1 = Ok (Some i) s1) as Hc.
  { rewrite En, (bget_cached_eq s1 dev n l []); [by rewrite <- Hfind|done|].
    destruct Hr as (_ & Hp & _). rewrite Hp, length_seq. unfold bhead. lia. }
  mrun. rewrite (get_buf_eq s1 _ _ Hh), Hc. cbn iota. rewrite (get_buf_eq s1 _ _ Hx), Hb. simpl.
  rewrite release_held by (simpl; auto with xv6). f_equal. rec_eq. by apply held_roundtrip.
Qed.

Definition recycled (dev n : Z) (x : buf) : buf := set_b_flags B_BUSY (set_b_blockno n (set_b_dev dev x)).

(** bget recycles the least recently used buffer that is neither busy nor dirty. *)
Lemma bget_miss s l dev n i :
  bring (k_bufs s) l → Lbcache ∉ k_held s → (0 < wakeups)%nat →
  find_buf (bmatch dev n) (k_bufs s) l = None → find_buf brecyclable (k_bufs s) (reverse l) = Some i →
  bget dev n s = Ok i (set_k_bufs (alter (recycled dev n) i (k_bufs s)) s).
Proof.
  intros Hr Hl Hw Hfind Hrec. unfold bget. rewrite (bind_Ok _ _ _ _ _ (acquire_free _ _ Hl)).
  set (s1 := set_k_held _ s). destruct wakeups as [|w]; [lia|]. cbn [loop].
  destruct (bring_get _ _ bhead Hr ltac:(lia)) as [h Hh].
  assert (length l < S (Z.to_nat NBUF))%nat as Hlen.
  { destruct Hr as (_ & Hp & _). rewrite Hp, length_seq. unfold bhead. lia. }
  assert (b_next h = nxf (k_bufs s1) (List.last [] bhead)) as En by (unfold nxf; simpl; by rewrite Hh).
  assert (b_prev h = pvf (k_bufs s1) (List.hd bhead [])) as Ep by (unfold pvf; simpl; by rewrite Hh).
  assert (bget_cached (S (Z.to_nat NBUF)) (b_next h) dev n s1 = Ok None s1) as Hc
    by (rewrite En, (bget_cached_eq s1 dev n l []); [by rewrite <- Hfind|done|done]).
  assert (bget_recycle (S (Z.to_nat NBUF)) (b_prev h) s1 = Ok (Some i) s1) as Hc2
    by (rewrite Ep, (bget_recycle_eq s1 l []); [by rewrite <- Hrec|by rewrite app_nil_r|done]).
  mrun. rewrite (get_buf_eq s1 _ _ Hh), Hc. cbn iota. rewrite (get_buf_eq s1 _ _ Hh), Hc2. cbn iota.
  unfold upd_buf. mrun. rewrite release_held by (simpl; auto with xv6). f_equal. rec_eq.
  - by apply held_roundtrip.
  - by rewrite !list_alter_compose.
Qed.

(** ** brelse *)

(** The list after moving [b] to the front. *)
Definition to_front (b : nat) (l : list nat) : list nat := b :: filter (λ i, i ≠ b) l.

Definition relink (b : nat) (bs : list buf) : list buf :=
  let X := pvf bs b in
  let Y := nxf bs b in
  let bs := alter (set_b_next Y) X (alter (set_b_prev X) Y bs) in
  let F := nxf bs bhead in
  let bs := alter (set_b_prev bhead) b (alter (set_b_next F) b bs) in
  alter (set_b_next b) bhead (alter (set_b_prev b) F bs).

Lemma filter_ne (b : nat) (l : list nat) : b ∉ l → filter (λ i, i ≠ b) l = l.
Proof.
  induction l as [|x l IH]; intros Hb; [done|]. rewrite filter_cons, decide_True by set_solver.
  f_equal. apply IH. set_solver.
Qed.

Lemma to_front_split b l1 l2 :
  NoDup (l1 ++ b :: l2) → to_front b (l1 ++ b :: l2) = b :: l1 ++ l2.
Proof.
  intros (H1 & H2 & [H3 _]%NoDup_cons)%NoDup_app. unfold to_front.
  rewrite filter_app, filter_cons, decide_False by tauto.
  rewrite !filter_ne; [done|done|]. intros Hb. apply (H2 b); set_solver.
Qed.

(** The neighbours of a node on a path. *)
Lemma path_neighbours nx pv h l1 b l2 :
  path nx pv h (l1 ++ b :: l2 ++ [h]) → pv b ∈ h :: l1 ∧ nx b ∈ l2 ++ [h].
Proof.
  intros [H1 H2]%path_app. split.
  - destruct (path_snoc_inv _ _ _ _ _ H1) as [[-> ->]|[m' ->]]; set_solver.
  - destruct (path_cons_inv nx pv b (l2 ++ [h])) as (r & -> & _); [by destruct l2|done|set_solver].
Qed.

Lemma relink_spec bs l b :
  bring bs l → (b < bhead)%nat → bring (relink b bs) (to_front b l).
Proof.
  intros Hr Hb. pose proof (bring_nodup _ _ Hr) as Hnd. pose proof Hr as (Hlen & Hperm & Hpath).
  assert (b ∈ l) as Hin by (by apply (bring_mem _ _ b Hr)).
  assert (∀ i, i ∈ bhead :: l → (i < length bs)%nat) as Hlt.
  { intros i [->|Hi]%elem_of_cons; [lia|]. apply (bring_mem _ _ i Hr) in Hi. lia. }
  apply list_elem_of_split in Hin as (l1 & l2 & ->).
  rewrite to_front_split by (by apply NoDup_cons in Hnd as [_ ?]).
  rewrite <- (assoc_L (++)) in Hpath. simpl in Hpath.
  destruct (path_neighbours _ _ _ _ _ _ Hpath) as [HX HY]. apply path_unlink in Hpath; [|done].
  unfold relink. set (X := pvf bs b) in *. set (Y := nxf bs b) in *.
  assert (X < length bs ∧ Y < length bs)%nat as [HXl HYl] by (split; apply Hlt; set_solver).
  rewrite (assoc_L (++)) in Hpath. set (bs2 := alter _ X _).
  assert (∀ i, nxf bs2 i = upd (nxf bs) X Y i) as Hn2.
  { intros i. unfold bs2. rewrite nxf_alter_next by (by rewrite length_alter). unfold upd. by rewrite nxf_alter_prev. }
  assert (∀ i, pvf bs2 i = upd (pvf bs) Y X i) as Hp2.
  { intros i. unfold bs2. by rewrite pvf_alter_next, pvf_alter_prev. }
  assert (length bs2 = length bs) as Hl2 by (unfold bs2; by rewrite !length_alter).
  rewrite Hn2. set (F := upd (nxf bs) X Y bhead).
  assert (F < length bs)%nat as HF.
  { assert ((l1 ++ l2) ++ [bhead] ≠ []) as Hne by (by destruct (l1 ++ l2)).
    destruct (path_cons_inv _ _ _ _ Hne Hpath) as (r & Er & _).
    apply Hlt. assert (F ∈ (l1 ++ l2) ++ [bhead]) as HFin by (rewrite Er; set_solver). clear -HFin. set_solver. }
  apply (path_link _ _ _ b) in Hpath.
  2: { apply NoDup_cons in Hnd as [? Hnd]. apply NoDup_cons. split; [set_solver|].
       eapply NoDup_Permutation_proper; [|exact Hnd]. by rewrite Permutation_middle. }
  pose proof (Hlt b ltac:(set_solver)) as Hbl. pose proof (Hlt bhead ltac:(set_solver)) as Hhl.
  split_and!.
  - by rewrite !length_alter, Hl2.
  - rewrite <- Hperm. by rewrite Permutation_middle.
  - change ((b :: l1 ++ l2) ++ [bhead]) with (b :: (l1 ++ l2) ++ [bhead]).
    eapply (path_frame _ _ _ _ _ (b :: l1 ++ l2) bhead); [| |exact Hpath]; intros i _.
    + rewrite nxf_alter_next by (by rewrite !length_alter, Hl2). apply upd_ext. clear i. intros i.
      rewrite nxf_alter_prev, nxf_alter_prev, nxf_alter_next by (by rewrite Hl2).
      apply upd_ext. apply Hn2.
    + rewrite pvf_alter_next, pvf_alter_prev by (by rewrite !length_alter, Hl2).
      apply upd_ext. clear i. intros i. rewrite pvf_alter_prev by (by rewrite length_alter, Hl2).
      apply upd_ext. clear i. intros i. rewrite pvf_alter_next. apply Hp2.
Qed.

Lemma bring_self bs l b : bring bs l → (b < bhead)%nat → nxf bs b ≠ b.
Proof.
  intros Hr Hb. pose proof (bring_nodup _ _ Hr) as Hnd. pose proof Hr as (_ & _ & Hpath).
  apply (bring_mem _ _ b Hr) in Hb as Hin. apply list_elem_of_split in Hin as (l1 & l2 & ->).
  rewrite <- (assoc_L (++)) in Hpath. destruct (path_neighbours _ _ _ _ _ _ Hpath) as [_ HY].
  intros Heq. rewrite Heq in HY. apply NoDup_cons in Hnd as [_ Hnd].
  apply NoDup_app in Hnd as (_ & _ & Hnd). apply NoDup_cons in Hnd as [Hnin _].
  apply elem_of_app in HY as [HY|HY%list_elem_of_singleton]; [done|lia].
Qed.

Definition clear_busy (x : buf) : buf := set_b_flags (Z.land (b_flags x) (Z.lnot B_BUSY)) x.

Lemma brelse_eq s l b x :
  bring (k_bufs s) l → (b < bhead)%nat → k_bufs s !! b = Some x → has (b_flags x) B_BUSY = true →
  Lbcache ∉ k_held s → Lptable ∉ k_held s → ptable_ok s →
  brelse b s = Ok tt (set_k_procs (woken (Some (Cbuf b)) <$> k_procs s)
    (set_k_bufs (alter clear_busy b (relink b (k_bufs s))) s)).
Proof.
  intros Hr Hb Hx Hbusy Hl Hp Hpt. unfold brelse.
  rewrite (bind_Ok _ _ _ _ _ (get_buf_eq _ _ _ Hx)), land_eq0_has, Hbusy. cbn [negb].
  rewrite (bind_Ok _ _ _ _ _ (acquire_free _ _ Hl)). set (s1 := set_k_held _ s).
  rewrite (bind_Ok _ _ _ _ _ (get_buf_eq s1 _ _ Hx)).
  assert (b_next x = nxf (k_bufs s) b ∧ b_prev x = pvf (k_bufs s) b) as [En Ep]
    by (unfold nxf, pvf; by rewrite Hx).
  rewrite En, Ep. set (X := pvf (k_bufs s) b). set (Y := nxf (k_bufs s) b).
  unfold upd_buf. mrun. cbn [k_bufs set_k_bufs].
  assert (alter (set_b_prev X) Y (k_bufs s) !! b = Some x) as Hx1.
  { rewrite list_lookup_alter_ne; [done|]. by apply (bring_self _ l). }
  rewrite (get_buf_eq _ b x) by done. cbn iota. rewrite En, Ep. fold X Y.
  set (bs2 := alter (set_b_next Y) X (alter (set_b_prev X) Y (k_bufs s))).
  destruct (bring_get _ _ bhead Hr ltac:(lia)) as [h0 Hh0].
  destruct (lookup_lt_is_Some_1' bs2 bhead) as [h Hh].
  { unfold bs2. rewrite !length_alter. by eapply lookup_lt_Some. }
  assert (b_next h = nxf bs2 bhead) as EF by (unfold nxf; by rewrite Hh).
  rewrite (get_buf_eq _ bhead h) by done. cbn iota. rewrite EF.
  match goal with |- context [get_buf bhead ?st] => rewrite (get_buf_eq st bhead h) by
    (cbn [k_bufs set_k_bufs]; by rewrite !list_lookup_alter_ne by lia) end.
  cbn iota. rewrite EF. rewrite wakeup_eq; [|done|].
  - cbn iota. rewrite release_held by (simpl; auto with xv6). f_equal. rec_eq. by apply held_roundtrip.
  - simpl. rewrite elem_of_union, elem_of_singleton. by intros [|].
Qed.

(** ** The cache as a whole

    [core] is what a buffer holds, without its links. *)

Definition core (x : buf) : Z * Z * Z * list Z := (b_flags x, b_dev x, b_blockno x, b_data x).

Lemma core_alter_link (f : buf → buf) (i : nat) (bs : list buf) (j : nat) :
  (∀ x, core (f x) = core x) → core <$> alter f i bs !! j = core <$> bs !! j.
Proof.
  intros Hf. rewrite list_lookup_alter_case. destruct (decide (i = j)) as [->|]; [|done].
  destruct (bs !! j); simpl; [by rewrite Hf|done].
Qed.

Lemma core_relink b bs j : core <$> relink b bs !! j = core <$> bs !! j.
Proof. unfold relink. rewrite !core_alter_link by done. done. Qed.

(** What holds of every buffer: one in use belongs to disk 1; a clean one that
    nobody is using agrees with the disk; and one that belongs to disk 1 and is
    not being filled is valid. *)
Definition entry_ok (disk : gmap Z (list Z)) (x : buf) : Prop :=
  (has (b_flags x) B_BUSY || has (b_flags x) B_VALID || has (b_flags x) B_DIRTY = true → b_dev x = 1) ∧
  (has (b_flags x) B_VALID = true → has (b_flags x) B_BUSY = false → has (b_flags x) B_DIRTY = false →
   disk !! b_blockno x = Some (b_data x)) ∧
  (b_dev x = 1 → has (b_flags x) B_BUSY = false → has (b_flags x) B_VALID = true).

Lemma entry_ok_busy disk x : b_dev x = 1 → has (b_flags x) B_BUSY = true → entry_ok disk x.
Proof. intros H1 H2. unfold entry_ok. split_and!; congruence. Qed.

Definition slot (s : kstate) (i : nat) (x : buf) : Prop := (i < bhead)%nat ∧ k_bufs s !! i = Some x.

Record binv (s : kstate) (l : list nat) : Prop := {
  bi_ring : bring (k_bufs s) l;
  bi_entry i x : slot s i x → entry_ok (k_disk s) x;
  bi_unique i j x y : slot s i x → slot s j y → b_dev x = 1 → b_dev y = 1 →
    b_blockno x = b_blockno y → i = j
}.

(** Block [n] has a buffer, which satisfies [P]. *)
Definition someb (P : buf → Prop) (s : kstate) (n : Z) : Prop :=
  ∃ i x, slot s i x ∧ b_dev x = 1 ∧ b_blockno x = n ∧ P x.
Definition dirty : kstate → Z → Prop := someb (λ x, has (b_flags x) B_DIRTY = true).
Definition busy : kstate → Z → Prop := someb (λ x, has (b_flags x) B_BUSY = true).

(** The contents of block [n] as the file system sees them: its buffer's, if it
    has a valid one, else the disk's. *)
Definition blk (s : kstate) (n : Z) : list Z :=
  match find_buf (λ x, bmatch 1 n x && has (b_flags x) B_VALID) (k_bufs s) (seq 0 bhead) with
  | Some i => default [] (b_data <$> k_bufs s !! i)
  | None => default [] (k_disk s !! n)
  end.

Lemma bmatch_true dev n x : bmatch dev n x = true ↔ b_dev x = dev ∧ b_blockno x = n.
Proof. unfold bmatch. lia. Qed.

Lemma blk_cached s l i x :
  binv s l → slot s i x → b_dev x = 1 → has (b_flags x) B_VALID = true → blk s (b_blockno x) = b_data x.
Proof.
  intros Hinv Hs Hd Hv. unfold blk. destruct (find_buf _ _ _) as [j|] eqn:Ef.
  - apply find_buf_Some in Ef as (Hj & y & Hy & Hm). apply elem_of_seq in Hj.
    apply andb_prop in Hm as [[Hd' Hn]%bmatch_true _].
    assert (j = i) as -> by (eapply (bi_unique _ _ Hinv); [split; [|exact Hy]; lia|done..]).
    destruct Hs as [_ Hs]. rewrite Hs. done.
  - exfalso. destruct Hs as [Hi Hs]. assert (i ∈ seq 0 bhead) as Hin by (apply elem_of_seq; lia).
    pose proof (find_buf_None _ _ _ _ _ Ef Hin Hs) as Hf. simpl in Hf. rewrite Hv in Hf. unfold bmatch in Hf. lia.
Qed.

Lemma blk_uncached s n :
  (∀ i x, slot s i x → b_dev x = 1 → b_blockno x = n → has (b_flags x) B_VALID = false) →
  blk s n = default [] (k_disk s !! n).
Proof.
  intros H. unfold blk. destruct (find_buf _ _ _) as [j|] eqn:Ef; [|done].
  apply find_buf_Some in Ef as (Hj & y & Hy & Hm). apply elem_of_seq in Hj.
  apply andb_prop in Hm as [[Hd' Hn]%bmatch_true Hv].
  rewrite (H j y) in Hv; [done|split; [lia|done]|done|done].
Qed.

End Cache.

(** A block of the image is on the disk after ideinit(), and no other is. *)
Lemma img_blocks_lookup img n :
  img_blocks img !! n =
    if decide (0 <= n < Z.of_nat (length img) / BSIZE) then Some (take (Z.to_nat BSIZE) (drop (Z.to_nat (n * BSIZE)) img)) else None.
Proof.
  unfold img_blocks. set (f := λ n, (n, _)). assert ((f <$> seqZ 0 (Z.of_nat (length img) / BSIZE)).*1 = seqZ 0 (Z.of_nat (length img) / BSIZE)) as Hk.
  { rewrite <- list_fmap_compose. apply list_fmap_id. }
  case_decide as Hn.
  - apply elem_of_list_to_map_1; [rewrite Hk; apply NoDup_seqZ|]. apply list_elem_of_fmap. exists n. split; [done|]. apply elem_of_seqZ. lia.
  - apply not_elem_of_list_to_map_1. rewrite Hk, elem_of_seqZ. lia.
Qed.
