(* ===== verification/BufSpec.v ===== *)
(** * BufSpec: what the buffer cache promises the file system

    Specifications of bread(), bwrite(), brelse() and of changing a buffer's data,
    in terms of the contents of blocks ([blk]), of the blocks that are [busy] or
    [dirty], and of the disk. The log and the file system are verified against
    these, without looking at the cache's list. *)

From S2P Require Import Prelude Machine CMem Proc Bio.
From stdpp Require Import options.

Section BufSpec.
Context {E : Env}.

(** One buffer changes, from [x] to [x']; the others keep their contents. *)
Record bchange (s s' : kstate) (b : nat) (x x' : buf) : Prop := {
  bc_old : slot s b x;
  bc_new : slot s' b x';
  bc_other j : j ≠ b → core <$> k_bufs s' !! j = core <$> k_bufs s !! j
}.

Lemma bc_back s s' b x x' j y' :
  bchange s s' b x x' → j ≠ b → slot s' j y' → ∃ y, slot s j y ∧ core y = core y'.
Proof.
  intros C Hj [Hlt Hy]. pose proof (bc_other _ _ _ _ _ C j Hj) as H. rewrite Hy in H.
  destruct (k_bufs s !! j) as [y|] eqn:Ey; simpl in H; [|done]. apply (inj Some) in H. exists y. split; [by split|done].
Qed.

Lemma bc_fwd s s' b x x' j y :
  bchange s s' b x x' → j ≠ b → slot s j y → ∃ y', slot s' j y' ∧ core y' = core y.
Proof.
  intros C Hj [Hlt Hy]. pose proof (bc_other _ _ _ _ _ C j Hj) as H. rewrite Hy in H.
  destruct (k_bufs s' !! j) as [y'|] eqn:Ey; simpl in H; [|done]. apply (inj Some) in H. exists y'. split; [by split|done].
Qed.

(** No buffer but [b] holds block [n]. *)
Definition alone (s : kstate) (b : nat) (n : Z) : Prop :=
  ∀ j y, j ≠ b → slot s j y → b_dev y = 1 → b_blockno y ≠ n.

Lemma alone_own s l b x : binv s l → slot s b x → b_dev x = 1 → alone s b (b_blockno x).
Proof. intros Hinv Hb Hd j y Hj Hy Hdy Hn. apply Hj. by eapply (bi_unique _ _ Hinv). Qed.

Lemma bchange_binv s s' l l' b x x' :
  binv s l → bring (k_bufs s') l' → bchange s s' b x x' → entry_ok (k_disk s') x' →
  b_dev x' = 1 → alone s b (b_blockno x') →
  (∀ n, n ≠ b_blockno x' → k_disk s' !! n = k_disk s !! n) → binv s' l'.
Proof.
  intros Hinv Hr C He Hd Hal Hdisk. split; [done|..].
  - intros i y Hy. destruct (decide (i = b)) as [->|Hi].
    { destruct Hy as [_ Hy], (bc_new _ _ _ _ _ C) as [_ Hx']. by simplify_eq. }
    destruct (bc_back _ _ _ _ _ _ _ C Hi Hy) as (y0 & Hy0 & [= E1 E2 E3 E4]).
    destruct (bi_entry _ _ Hinv _ _ Hy0) as (H1 & H2 & H3). rewrite E1, E2, E3, E4 in *.
    split; [done|]. split; [|done].
    intros Hv Hb Hdy. rewrite Hdisk; [auto|]. intros Heq.
    assert (b_dev y = 1) as Hdev by (apply H1; rewrite Hv; by rewrite orb_true_r).
    apply (Hal i y0 Hi Hy0); congruence.
  - intros i j y z Hy Hz D1 D2 Hn.
    destruct (bc_new _ _ _ _ _ C) as [_ Hx'].
    destruct (decide (i = b)) as [->|Hi], (decide (j = b)) as [->|Hj]; [done|..].
    + exfalso. destruct Hy as [_ Hy]. simplify_eq.
      destruct (bc_back _ _ _ _ _ _ _ C Hj Hz) as (z0 & Hz0 & [= F1 F2 F3 F4]).
      apply (Hal j z0 Hj Hz0); congruence.
    + exfalso. destruct Hz as [_ Hz]. simplify_eq.
      destruct (bc_back _ _ _ _ _ _ _ C Hi Hy) as (y0 & Hy0 & [= F1 F2 F3 F4]).
      apply (Hal i y0 Hi Hy0); congruence.
    + destruct (bc_back _ _ _ _ _ _ _ C Hi Hy) as (y0 & Hy0 & [= F1 F2 F3 F4]).
      destruct (bc_back _ _ _ _ _ _ _ C Hj Hz) as (z0 & Hz0 & [= G1 G2 G3 G4]).
      eapply (bi_unique _ _ Hinv); [exact Hy0|exact Hz0|congruence..].
Qed.

Lemma bchange_someb (P : buf → Prop) s s' b x x' n :
  (∀ y z, core y = core z → P y → P z) → bchange s s' b x x' → b_dev x' = 1 →
  someb P s' n ↔ (n = b_blockno x' ∧ P x') ∨
    ∃ j y, j ≠ b ∧ slot s j y ∧ b_dev y = 1 ∧ b_blockno y = n ∧ P y.
Proof.
  intros HP C Hd. split.
  - intros (i & y & Hy & Hdy & Hn & Hp). destruct (decide (i = b)) as [->|Hi].
    + left. destruct Hy as [_ Hy], (bc_new _ _ _ _ _ C) as [_ Hx']. simplify_eq. auto.
    + right. destruct (bc_back _ _ _ _ _ _ _ C Hi Hy) as (y0 & Hy0 & Ec). pose proof Ec as [= F1 F2 F3 F4].
      exists i, y0. split_and!; [done|done|congruence|congruence|by eapply HP].
  - intros [[-> Hp]|(j & y & Hj & Hy & Hdy & Hn & Hp)].
    + exists b, x'. split_and!; [apply C|done|done|done].
    + destruct (bc_fwd _ _ _ _ _ _ _ C Hj Hy) as (y0 & Hy0 & Ec). pose proof Ec as [= F1 F2 F3 F4].
      exists j, y0. split_and!; [done|congruence|congruence|by eapply HP].
Qed.

(** The buffer keeps its block. *)
Lemma someb_same P s s' l b x x' n :
  (∀ y z, core y = core z → P y → P z) → binv s l → bchange s s' b x x' →
  b_dev x = 1 → b_dev x' = 1 → b_blockno x' = b_blockno x →
  someb P s' n ↔ if decide (n = b_blockno x) then P x' else someb P s n.
Proof.
  intros HP Hinv C Hd Hd' Hn. rewrite (bchange_someb P s s' b x x' n HP C Hd'), Hn.
  pose proof (alone_own _ _ _ _ Hinv (bc_old _ _ _ _ _ C) Hd) as Hal. case_decide as Hc.
  - split; [|by auto]. intros [[_ ?]|(j & y & Hj & Hy & Hdy & Hny & _)]; [done|].
    exfalso. apply (Hal j y Hj Hy Hdy). congruence.
  - split.
    + intros [[? _]|(j & y & Hj & Hy & H)]; [done|]. by exists j, y.
    + intros (j & y & Hy & Hdy & Hny & Hp). right. exists j, y. split_and!; try done.
      intros ->. destruct Hy as [_ Hy], (bc_old _ _ _ _ _ C) as [_ Hx]. simplify_eq.
Qed.

(** The buffer, which [P] did not hold of, is given to a block that had none. *)
Lemma someb_recycle P s s' b x x' n :
  (∀ y z, core y = core z → P y → P z) → bchange s s' b x x' → b_dev x' = 1 → ¬ P x →
  someb P s' n ↔ (n = b_blockno x' ∧ P x') ∨ someb P s n.
Proof.
  intros HP C Hd' Hnp. rewrite (bchange_someb P s s' b x x' n HP C Hd'). split.
  - intros [?|(j & y & Hj & Hy & H)]; [by left|]. right. by exists j, y.
  - intros [?|(j & y & Hy & Hdy & Hny & Hp)]; [by left|]. right. exists j, y. split_and!; try done.
    intros ->. destruct Hy as [_ Hy], (bc_old _ _ _ _ _ C) as [_ Hx]. by simplify_eq.
Qed.

Lemma blk_frame s s' l l' b x x' n :
  binv s l → binv s' l' → bchange s s' b x x' → b_dev x' = 1 → n ≠ b_blockno x' →
  (b_dev x = 1 → has (b_flags x) B_VALID = true → n ≠ b_blockno x) →
  k_disk s' !! n = k_disk s !! n → blk s' n = blk s n.
Proof.
  intros Hinv Hinv' C Hd' Hn' Hn Hdisk.
  destruct (decide (Exists (λ j,
    ((λ y, bmatch 1 n y && has (b_flags y) B_VALID) <$> k_bufs s !! j) = Some true) (seq 0 bhead))) as [Hex|Hno].
  - apply Exists_exists in Hex as (j & Hj & Hm). apply elem_of_seq in Hj.
    destruct (k_bufs s !! j) as [y|] eqn:Ey; simplify_eq/=.
    apply andb_prop in Hm as [[Hdy Hny]%bmatch_true Hv].
    assert (slot s j y) as Hy by (split; [lia|done]).
    assert (j ≠ b) as Hjb.
    { intros ->. destruct (bc_old _ _ _ _ _ C) as [_ Hx]. simplify_eq. by apply Hn. }
    destruct (bc_fwd _ _ _ _ _ _ _ C Hjb Hy) as (y' & Hy' & [= F1 F2 F3 F4]).
    rewrite <- Hny, (blk_cached s l j y) by done. rewrite <- F3, (blk_cached s' l' j y'); [done|done|done|congruence|congruence].
  - rewrite !blk_uncached; [by rewrite Hdisk|..].
    + intros j y [Hj Hy] Hdy Hny. apply not_true_iff_false. intros Hv. apply Hno, Exists_exists. exists j. split; [apply elem_of_seq; lia|].
      rewrite Hy. simpl. rewrite Hv, (proj2 (bmatch_true 1 n y)) by done. done.
    + intros j y' Hy' Hdy Hny. destruct (decide (j = b)) as [->|Hjb].
      { destruct Hy' as [_ Hy'], (bc_new _ _ _ _ _ C) as [_ Hx']. simplify_eq. }
      destruct (bc_back _ _ _ _ _ _ _ C Hjb Hy') as (y & [Hj Hy] & [= F1 F2 F3 F4]).
      apply not_true_iff_false. intros Hv. apply Hno, Exists_exists. exists j. split; [apply elem_of_seq; lia|].
      rewrite Hy. simpl. rewrite F1, Hv, (proj2 (bmatch_true 1 n y)) by (split; congruence). done.
Qed.

(** ** Held buffers *)

(** Buffer [b] is locked by the caller and holds block [n], with contents [d];
    [q] tells whether it is dirty. *)
Definition buf_at (s : kstate) (b : nat) (n : Z) (d : list Z) (q : bool) : Prop :=
  ∃ x, slot s b x ∧ b_dev x = 1 ∧ b_blockno x = n ∧ has (b_flags x) B_BUSY = true ∧
    has (b_flags x) B_VALID = true ∧ has (b_flags x) B_DIRTY = q ∧ b_data x = d.

(** Some buffer can be recycled. *)
Definition room (s : kstate) : Prop := ∃ i x, slot s i x ∧ brecyclable x = true.

(** The locks the cache takes are free. *)
Definition io_ok (s : kstate) : Prop :=
  Lbcache ∉ k_held s ∧ Lptable ∉ k_held s ∧ ptable_ok s ∧ (0 < wakeups)%nat.

(** Only the cache, the disk and sleeping processes have changed. *)
Definition only_io (s s' : kstate) : Prop :=
  s' = set_k_bufs (k_bufs s') (set_k_disk (k_disk s') (set_k_dwrites (k_dwrites s')
         (set_k_procs (k_procs s') s))) ∧
  length (k_procs s') = length (k_procs s).

Lemma only_io_refl s : only_io s s.
Proof. split; [by destruct s|done]. Qed.
Lemma only_io_trans s1 s2 s3 : only_io s1 s2 → only_io s2 s3 → only_io s1 s3.
Proof. intros [H1 L1] [H2 L2]. split; [|congruence]. rewrite H2, H1. rec_eq. Qed.
Lemma only_io_ok s s' : only_io s s' → io_ok s → io_ok s'.
Proof. intros [-> Hl] (H1 & H2 & H3 & H4). split_and!; try done. unfold ptable_ok in *. simpl in *. congruence. Qed.
Lemma only_io_bufs s bs : only_io s (set_k_bufs bs s).
Proof. split; [rec_eq|done]. Qed.

(** The view the file system has of the cache and the disk. *)
Record bstep (s s' : kstate) (b : nat) : Prop := {
  bs_only : only_io s s';
  bs_other b' n d q : b' ≠ b → buf_at s b' n d q → buf_at s' b' n d q
}.

Lemma bchange_bstep s s' b x x' : only_io s s' → bchange s s' b x x' → bstep s s' b.
Proof.
  intros Ho C. split; [done|]. intros b' n d q Hb (y & Hy & H1 & H2 & H3 & H4 & H5 & H6).
  destruct (bc_fwd _ _ _ _ _ _ _ C Hb Hy) as (y' & Hy' & [= F1 F2 F3 F4]).
  exists y'. rewrite F1, F2, F3, F4. done.
Qed.

Lemma alter_bchange s s' b x f :
  slot s b x → k_bufs s' = alter f b (k_bufs s) → bchange s s' b x (f x).
Proof.
  intros [Hb Hx] Eb. split; [done|split; [done|]; rewrite Eb, list_lookup_alter_eq, Hx; done|].
  intros j Hj. by rewrite Eb, list_lookup_alter_ne by done.
Qed.

Lemma core_dirty y z : core y = core z → has (b_flags y) B_DIRTY = true → has (b_flags z) B_DIRTY = true.
Proof. by intros [= -> _ _ _]. Qed.
Lemma core_busy y z : core y = core z → has (b_flags y) B_BUSY = true → has (b_flags z) B_BUSY = true.
Proof. by intros [= -> _ _ _]. Qed.

(** A valid buffer changes but keeps its block. *)
Lemma same_block s s' l l' b x x' n :
  binv s l → bring (k_bufs s') l' → bchange s s' b x x' → b_dev x = 1 → b_dev x' = 1 →
  b_blockno x = n → b_blockno x' = n → has (b_flags x) B_VALID = true → has (b_flags x') B_VALID = true →
  entry_ok (k_disk s') x' → (∀ n', n' ≠ n → k_disk s' !! n' = k_disk s !! n') →
  binv s' l' ∧ (∀ n', blk s' n' = if decide (n' = n) then b_data x' else blk s n') ∧
  (∀ n', dirty s' n' ↔ if decide (n' = n) then has (b_flags x') B_DIRTY = true else dirty s n') ∧
  (∀ n', busy s' n' ↔ if decide (n' = n) then has (b_flags x') B_BUSY = true else busy s n').
Proof.
  intros Hinv Hr C Hd Hd' Hn Hn' Hv Hv' He Hdisk.
  assert (binv s' l') as Hinv'.
  { eapply bchange_binv; [exact Hinv|done|exact C|done|done| |by rewrite Hn'].
    rewrite Hn', <- Hn. apply (alone_own _ _ _ _ Hinv); [apply C|done]. }
  split; [done|]. split; [|split]; intros n'.
  - case_decide as Hc; [subst n'|].
    + rewrite <- Hn'. apply (blk_cached s' l' b); (done || apply C).
    + eapply blk_frame; [exact Hinv|exact Hinv'|exact C|done|congruence|intros; congruence|auto].
  - unfold dirty. rewrite (someb_same _ s s' l b x _ n' core_dirty Hinv C) by congruence. by rewrite Hn.
  - unfold busy. rewrite (someb_same _ s s' l b x _ n' core_busy Hinv C) by congruence. by rewrite Hn.
Qed.

Lemma buf_at_view s l b n d q :
  binv s l → buf_at s b n d q → blk s n = d ∧ (dirty s n ↔ q = true) ∧ busy s n.
Proof.
  intros Hinv (x & Hs & Hd & Hn & Hb & Hv & Hq & Hdt). split_and!.
  - rewrite <- Hn, <- Hdt. by eapply blk_cached.
  - rewrite <- Hq. split; [|intros ?; by exists b, x]. intros (j & y & Hy & Hdy & Hny & Hp).
    assert (j = b) as -> by (eapply (bi_unique _ _ Hinv); [exact Hy|exact Hs|congruence..]).
    destruct Hy as [_ Hy], Hs as [_ Hs]. by simplify_eq.
  - by exists b, x.
Qed.

(** The caller changes the data of a buffer it holds. *)
Lemma bset_spec s l b n d q d' :
  binv s l → buf_at s b n d q →
  ∃ s', upd_buf b (set_b_data d') s = Ok tt s' ∧ bstep s s' b ∧ binv s' l ∧ buf_at s' b n d' q ∧
    k_disk s' = k_disk s ∧ k_dwrites s' = k_dwrites s ∧
    (∀ n', blk s' n' = if decide (n' = n) then d' else blk s n') ∧
    (∀ n', dirty s' n' ↔ dirty s n') ∧ (∀ n', busy s' n' ↔ busy s n').
Proof.
  intros Hinv Hat. destruct (buf_at_view _ _ _ _ _ _ Hinv Hat) as (_ & Hdq & Hbq).
  destruct Hat as (x & Hs & Hd & Hn & Hb & Hv & Hq & _).
  eexists. split; [done|]. set (s' := set_k_bufs _ s).
  assert (bchange s s' b x (set_b_data d' x)) as C by (by apply alter_bchange).
  destruct (same_block s s' l l b x (set_b_data d' x) n) as (Hinv' & Hblk & Hdir & Hbus); try done.
  - apply bring_alter; [done|apply Hinv].
  - by apply entry_ok_busy.
  - split; [eapply bchange_bstep; [apply only_io_bufs|exact C]|]. split; [done|].
    split; [by exists (set_b_data d' x); split_and!; [apply C|..]|]. split_and!; [done|done|done|..]; intros n'.
    + rewrite Hdir. simpl. case_decide as Hc; [|done]. rewrite Hc, Hq. tauto.
    + rewrite Hbus. simpl. case_decide as Hc; [|done]. rewrite Hc. tauto.
Qed.

(** Marking a held buffer dirty, as log_write() does. *)
Lemma bmark_spec s l b n d q :
  binv s l → buf_at s b n d q →
  ∃ s', upd_buf b (λ x, set_b_flags (Z.lor (b_flags x) B_DIRTY) x) s = Ok tt s' ∧ bstep s s' b ∧ binv s' l ∧
    buf_at s' b n d true ∧ k_disk s' = k_disk s ∧ k_dwrites s' = k_dwrites s ∧
    (∀ n', blk s' n' = blk s n') ∧ (∀ n', dirty s' n' ↔ n' = n ∨ dirty s n') ∧ (∀ n', busy s' n' ↔ busy s n').
Proof.
  intros Hinv Hat. destruct (buf_at_view _ _ _ _ _ _ Hinv Hat) as (Hbl & Hdq & Hbq).
  destruct Hat as (x & Hs & Hd & Hn & Hb & Hv & Hq & Hdt).
  eexists. split; [done|]. set (s' := set_k_bufs _ s).
  destruct (or_dirty (b_flags x)) as (F1 & F2 & F3).
  set (x' := set_b_flags (Z.lor (b_flags x) B_DIRTY) x).
  assert (bchange s s' b x x') as C by (by apply (alter_bchange _ _ _ _ (λ x, set_b_flags (Z.lor (b_flags x) B_DIRTY) x))).
  destruct (same_block s s' l l b x x' n) as (Hinv' & Hblk & Hdir & Hbus); try done.
  - apply bring_alter; [done|apply Hinv].
  - simpl. congruence.
  - apply entry_ok_busy; [done|]. simpl. congruence.
  - split; [eapply bchange_bstep; [apply only_io_bufs|exact C]|]. split; [done|].
    split; [exists x'; simpl; split_and!; try done; [apply C|congruence|congruence]|].
    split_and!; [done|done|..]; intros n'.
    + rewrite Hblk. simpl. case_decide; congruence.
    + rewrite Hdir. simpl. case_decide; tauto.
    + rewrite Hbus. simpl. case_decide as Hc; [|done]. rewrite Hc, F1. tauto.
Qed.

(** ** iderw, bwrite and bread *)

(** The buffer after a write to the disk, and after a read. *)
Definition written (x : buf) : buf :=
  set_b_flags (Z.lor (Z.land (Z.lor (b_flags x) B_DIRTY) (Z.lnot B_DIRTY)) B_VALID) x.
Definition filled (d : list Z) (x : buf) : buf := set_b_flags (Z.lor (b_flags x) B_VALID) (set_b_data d x).

Lemma bwrite_eq s b x :
  slot s b x → has (b_flags x) B_BUSY = true → b_dev x = 1 → is_Some (k_disk s !! b_blockno x) →
  bwrite b s = Ok tt (set_k_dwrites ((b_blockno x, b_data x) :: k_dwrites s)
    (set_k_disk (<[b_blockno x := b_data x]> (k_disk s)) (set_k_bufs (alter written b (k_bufs s)) s))).
Proof.
  intros [Hb Hx] Hbusy Hd [od Hod]. unfold bwrite.
  rewrite (bind_Ok _ _ _ _ _ (get_buf_eq _ _ _ Hx)), land_eq0_has, Hbusy. cbn [negb].
  unfold upd_buf at 1, iderw. mrun. set (s1 := set_k_bufs _ s).
  set (x1 := set_b_flags (Z.lor (b_flags x) B_DIRTY) x).
  assert (k_bufs s1 !! b = Some x1) as Hx1 by (simpl; by rewrite list_lookup_alter_eq, Hx).
  destruct (or_dirty (b_flags x)) as (F1 & F2 & F3).
  rewrite (get_buf_eq s1 b x1 Hx1). rewrite nothing_to_do. simpl. rewrite F1, F3, Hbusy, Hd, andb_false_r. simpl.
  rewrite Hod. simpl. unfold upd_buf, modify. f_equal. rec_eq. by rewrite !list_alter_compose.
Qed.

Lemma written_flags x : has (b_flags (written x)) B_BUSY = has (b_flags x) B_BUSY ∧
  has (b_flags (written x)) B_VALID = true ∧ has (b_flags (written x)) B_DIRTY = false.
Proof. unfold written. simpl. split_and!; flag_bits. Qed.

Lemma bwrite_spec s l b n d q :
  binv s l → buf_at s b n d q → is_Some (k_disk s !! n) →
  ∃ s', bwrite b s = Ok tt s' ∧ bstep s s' b ∧ binv s' l ∧ buf_at s' b n d false ∧
    k_disk s' = <[n := d]> (k_disk s) ∧ k_dwrites s' = (n, d) :: k_dwrites s ∧
    (∀ n', blk s' n' = blk s n') ∧ (∀ n', dirty s' n' ↔ n' ≠ n ∧ dirty s n') ∧ (∀ n', busy s' n' ↔ busy s n').
Proof.
  intros Hinv Hat Hod. destruct (buf_at_view _ _ _ _ _ _ Hinv Hat) as (Hbl & Hdq & Hbq).
  destruct Hat as (x & Hs & Hd & Hn & Hb & Hv & Hq & Hdt).
  rewrite (bwrite_eq s b x) by (done || by rewrite Hn). rewrite Hn, Hdt.
  eexists. split; [done|]. set (s' := set_k_dwrites _ _).
  destruct (written_flags x) as (F1 & F2 & F3).
  assert (bchange s s' b x (written x)) as C by (by apply alter_bchange).
  destruct (same_block s s' l l b x (written x) n) as (Hinv' & Hblk & Hdir & Hbus); try done.
  - apply bring_alter; [done|apply Hinv].
  - apply entry_ok_busy; [done|]. congruence.
  - intros n' Hne. simpl. by rewrite lookup_insert_ne.
  - split; [eapply bchange_bstep; [split; [rec_eq|done]|exact C]|]. split; [done|].
    split; [exists (written x); rewrite F1; split_and!; try done; apply C|].
    split_and!; [done|done|..]; intros n'.
    + rewrite Hblk. simpl. case_decide; congruence.
    + rewrite Hdir. rewrite F3. case_decide; [|tauto]. split; [done|tauto].
    + rewrite Hbus. rewrite F1. case_decide as Hc; [|done]. rewrite Hc. tauto.
Qed.

(** ** brelse *)
Lemma brelse_spec s l b n d q :
  binv s l → io_ok s → buf_at s b n d q → q = true ∨ k_disk s !! n = Some d →
  ∃ s', brelse b s = Ok tt s' ∧ bstep s s' b ∧ binv s' (to_front b l) ∧
    k_disk s' = k_disk s ∧ k_dwrites s' = k_dwrites s ∧
    (∀ n', blk s' n' = blk s n') ∧ (∀ n', dirty s' n' ↔ dirty s n') ∧ (∀ n', busy s' n' ↔ n' ≠ n ∧ busy s n').
Proof.
  intros Hinv (Hl & Hp & Hpt & _) Hat Hclean. destruct (buf_at_view _ _ _ _ _ _ Hinv Hat) as (Hbl & Hdq & Hbq).
  destruct Hat as (x & Hs & Hd & Hn & Hb & Hv & Hq & Hdt). pose proof Hs as [Hlt Hx].
  rewrite (brelse_eq s l b x) by (done || apply Hinv). eexists. split; [done|]. set (s' := set_k_procs _ _).
  destruct (not_busy (b_flags x)) as (F1 & F2 & F3).
  destruct (lookup_lt_is_Some_1' (relink b (k_bufs s)) b) as [x0 Hx0].
  { unfold relink. rewrite !length_alter. by eapply lookup_lt_Some. }
  pose proof (core_relink b (k_bufs s) b) as Hc. rewrite Hx0, Hx in Hc. apply (inj Some) in Hc.
  pose proof Hc as [= C1 C2 C3 C4].
  assert (bchange s s' b x (clear_busy x0)) as C.
  { split; [done|split; [done|]; simpl; by rewrite list_lookup_alter_eq, Hx0|].
    intros j Hj. simpl. rewrite list_lookup_alter_ne by done. apply core_relink. }
  destruct (same_block s s' l (to_front b l) b x (clear_busy x0) n) as (Hinv' & Hblk & Hdir & Hbus);
    try (done || simpl; congruence).
  - apply bring_alter; [done|]. by apply relink_spec; [apply Hinv|].
  - unfold entry_ok. simpl. rewrite C1, F2, F3, C3, C4. split_and!; [congruence| |done].
    intros _ _ Hq'. destruct Hclean; congruence.
  - split; [eapply bchange_bstep; [split; [rec_eq|simpl; by rewrite length_fmap]|exact C]|].
    split_and!; [done|done|done|..]; intros n'.
    + rewrite Hblk. simpl. case_decide; congruence.
    + rewrite Hdir. simpl. case_decide as Hc'; [|done]. rewrite Hc', C1, F3, Hq. tauto.
    + rewrite Hbus. simpl. rewrite C1, F1. case_decide; [|tauto]. split; [done|tauto].
Qed.


(** ** bread *)

Lemma find_buf_perm s l f i x :
  binv s l → slot s i x → f x = true → is_Some (find_buf f (k_bufs s) l).
Proof.
  intros Hinv [Hi Hx] Hf. destruct (find_buf f (k_bufs s) l) eqn:Ef; [by eauto|exfalso].
  assert (i ∈ l) as Hin by (by apply (bring_mem _ _ i (bi_ring _ _ Hinv))).
  pose proof (find_buf_None _ _ _ _ _ Ef Hin Hx). congruence.
Qed.

Lemma find_buf_slot s l f i :
  binv s l → find_buf f (k_bufs s) l = Some i → ∃ x, slot s i x ∧ f x = true.
Proof.
  intros Hinv (Hin & x & Hx & Hf)%find_buf_Some. exists x. split; [|done]. split; [|done].
  by apply (bring_mem _ _ i (bi_ring _ _ Hinv)).
Qed.

(** The block has a buffer, which nobody uses. *)
Lemma bread_hit s l n i x :
  binv s l → io_ok s → find_buf (bmatch 1 n) (k_bufs s) l = Some i → slot s i x →
  has (b_flags x) B_BUSY = false →
  bread 1 n s = Ok i (set_k_bufs (alter (λ x, set_b_flags (Z.lor (b_flags x) B_BUSY) x) i (k_bufs s)) s).
Proof.
  intros Hinv (Hl & _ & _ & Hw) Hf Hs Hb. pose proof Hs as [_ Hx].
  destruct (find_buf_slot s l _ i Hinv Hf) as (y & [_ Hy] & [Hd _]%bmatch_true). simplify_eq.
  destruct (bi_entry _ _ Hinv i x Hs) as (_ & _ & Hv). specialize (Hv Hd Hb).
  unfold bread. rewrite (bind_Ok _ _ _ _ _ (bget_hit s l 1 n i x (bi_ring _ _ Hinv) Hl Hw Hf Hx Hb)).
  set (s1 := set_k_bufs _ s). destruct (or_busy (b_flags x)) as (F1 & F2 & F3).
  rewrite (bind_Ok (get_buf i) _ s1 (set_b_flags (Z.lor (b_flags x) B_BUSY) x) s1).
  - simpl. by rewrite F2, Hv.
  - apply get_buf_eq. simpl. by rewrite list_lookup_alter_eq, Hx.
Qed.

(** It has none, and one is recycled. *)
Lemma bread_miss s l n i x d :
  binv s l → io_ok s → find_buf (bmatch 1 n) (k_bufs s) l = None →
  find_buf brecyclable (k_bufs s) (reverse l) = Some i → slot s i x → k_disk s !! n = Some d →
  bread 1 n s = Ok i (set_k_bufs (alter (λ x, filled d (recycled 1 n x)) i (k_bufs s)) s).
Proof.
  intros Hinv (Hl & _ & _ & Hw) Hf Hr [_ Hx] Hd. unfold bread.
  rewrite (bind_Ok _ _ _ _ _ (bget_miss s l 1 n i (bi_ring _ _ Hinv) Hl Hw Hf Hr)).
  set (s1 := set_k_bufs _ s). set (x1 := recycled 1 n x).
  assert (get_buf i s1 = Ok x1 s1) as Hg by (apply get_buf_eq; simpl; by rewrite list_lookup_alter_eq, Hx).
  rewrite (bind_Ok _ _ _ _ _ Hg). change (has (b_flags x1) B_VALID) with false. cbn [negb when].
  unfold iderw. mrun. rewrite Hg. change (has (b_flags x1) B_BUSY) with true. cbn [negb].
  rewrite nothing_to_do. change (has (b_flags x1) B_VALID) with false. cbn [andb].
  change (b_dev x1 =? 1) with true. cbn [negb]. change (k_disk s1 !! b_blockno x1) with (k_disk s !! n).
  rewrite Hd. change (has (b_flags x1) B_DIRTY) with false. unfold upd_buf. mrun.
  f_equal. rec_eq. by rewrite !list_alter_compose.
Qed.

Lemma bread_spec s l n d :
  binv s l → io_ok s → k_disk s !! n = Some d → ¬ busy s n → dirty s n ∨ room s →
  ∃ b s' q, bread 1 n s = Ok b s' ∧ bstep s s' b ∧ binv s' l ∧ buf_at s' b n (blk s n) q ∧
    k_disk s' = k_disk s ∧ k_dwrites s' = k_dwrites s ∧ (q = true ↔ dirty s n) ∧
    (∀ n', blk s' n' = blk s n') ∧ (∀ n', dirty s' n' ↔ dirty s n') ∧ (∀ n', busy s' n' ↔ n' = n ∨ busy s n') ∧
    (∀ b' n' d' q', buf_at s b' n' d' q' → b' ≠ b).
Proof.
  intros Hinv Hio Hd Hnb Hroom.
  assert (∀ i x b' n' d' q', slot s i x → has (b_flags x) B_BUSY = false → buf_at s b' n' d' q' → b' ≠ i) as Hfresh.
  { intros i x b' n' d' q' [_ Hx] Hb (y & [_ Hy] & _ & _ & Hyb & _) ->. congruence. }
  destruct (find_buf (bmatch 1 n) (k_bufs s) l) as [i|] eqn:Ef.
  - destruct (find_buf_slot s l _ i Hinv Ef) as (x & Hs & [Hdev Hn]%bmatch_true).
    assert (has (b_flags x) B_BUSY = false) as Hb.
    { apply not_true_iff_false. intros Hb. apply Hnb. by exists i, x. }
    destruct (bi_entry _ _ Hinv i x Hs) as (_ & _ & Hv). specialize (Hv Hdev Hb).
    rewrite (bread_hit s l n i x) by done. set (f := λ x, set_b_flags (Z.lor (b_flags x) B_BUSY) x).
    set (s' := set_k_bufs _ s). destruct (or_busy (b_flags x)) as (F1 & F2 & F3).
    assert (bchange s s' i x (f x)) as C by (by apply alter_bchange).
    destruct (same_block s s' l l i x (f x) n) as (Hinv' & Hblk & Hdir & Hbus); try (done || simpl; congruence).
    { apply bring_alter; [done|apply Hinv]. }
    { by apply entry_ok_busy. }
    assert (blk s n = b_data x) as Hbl by (rewrite <- Hn; by eapply blk_cached).
    exists i, s', (has (b_flags x) B_DIRTY).
    assert (has (b_flags x) B_DIRTY = true ↔ dirty s n) as Hq.
    { split; [intros ?; by exists i, x|]. intros (j & y & Hy & Hdy & Hny & Hp).
      assert (j = i) as -> by (eapply (bi_unique _ _ Hinv); [exact Hy|exact Hs|congruence..]).
      destruct Hy as [_ Hy], Hs as [_ Hs]. by simplify_eq. }
    split; [done|]. split; [eapply bchange_bstep; [apply only_io_bufs|exact C]|]. split; [done|].
    split; [exists (f x); simpl; split_and!; try (done || congruence); apply C|].
    split_and!; [done|done|done|..].
    + intros n'. rewrite Hblk. simpl. case_decide; congruence.
    + intros n'. rewrite Hdir. simpl. case_decide as Hc; [|done]. rewrite Hc, F3. done.
    + intros n'. rewrite Hbus. simpl. case_decide; tauto.
    + intros b' n' d' q'. by apply (Hfresh i x).
  - assert (∀ j y, slot s j y → b_dev y = 1 → b_blockno y ≠ n) as Hnone.
    { intros j y Hy Hdy Hny. destruct (find_buf_perm s l (bmatch 1 n) j y Hinv Hy) as [? Hf]; [by apply bmatch_true|].
      congruence. }
    assert (room s) as (j & y & Hy & Hrec).
    { destruct Hroom as [(j & y & Hy & Hdy & Hny & _)|]; [|done]. exfalso. by apply (Hnone j y). }
    assert (∃ i, find_buf brecyclable (k_bufs s) (reverse l) = Some i) as [i Hi].
    { destruct (find_buf brecyclable (k_bufs s) (reverse l)) eqn:Ef2; [by eauto|exfalso]. destruct Hy as [Hj Hy].
      assert (j ∈ reverse l) as Hin by (apply elem_of_reverse; by apply (bring_mem _ _ j (bi_ring _ _ Hinv))).
      pose proof (find_buf_None _ _ _ _ _ Ef2 Hin Hy). congruence. }
    pose proof (find_buf_Some _ _ _ _ Hi) as (Hin & x & Hx & Hxr).
    assert (slot s i x) as Hs.
    { split; [|done]. rewrite elem_of_reverse in Hin. by apply (bring_mem _ _ i (bi_ring _ _ Hinv)). }
    rewrite (bread_miss s l n i x d) by done. set (f := λ x, filled d (recycled 1 n x)). set (s' := set_k_bufs _ s).
    assert (bchange s s' i x (f x)) as C by (by apply alter_bchange).
    assert (binv s' l) as Hinv'.
    { eapply bchange_binv; [exact Hinv|by apply bring_alter; [|apply Hinv]|exact C|by apply entry_ok_busy|done| |done].
      intros k z _. simpl. apply Hnone. }
    apply andb_prop in Hxr as [Hxb%negb_true_iff Hxd%negb_true_iff].
    assert (blk s n = d) as Hbl.
    { rewrite blk_uncached; [by rewrite Hd|]. intros k z Hz Hdz Hnz. exfalso. by apply (Hnone k z). }
    exists i, s', false. split; [done|]. split; [eapply bchange_bstep; [apply only_io_bufs|exact C]|]. split; [done|].
    split; [exists (f x); split_and!; try done; apply C|]. split_and!; [done|done|..].
    + split; [done|]. intros (k & z & Hz & Hdz & Hnz & _). exfalso. by apply (Hnone k z).
    + intros n'. destruct (decide (n' = n)) as [->|Hne].
      * rewrite Hbl. apply (blk_cached s' l i (f x)); (done || apply C).
      * destruct (decide (b_dev x = 1 ∧ has (b_flags x) B_VALID = true ∧ n' = b_blockno x)) as [(E1 & E2 & ->)|Hev].
        -- rewrite (blk_cached s l i x) by done. rewrite blk_uncached.
           ++ simpl. destruct (bi_entry _ _ Hinv i x Hs) as (_ & Hcl & _). by rewrite Hcl.
           ++ intros k z Hz Hdz Hnz. destruct (decide (k = i)) as [->|Hk].
              { destruct Hz as [_ Hz], (bc_new _ _ _ _ _ C) as [_ Hx']. simplify_eq. }
              destruct (bc_back _ _ _ _ _ _ _ C Hk Hz) as (z0 & Hz0 & [= G1 G2 G3 G4]).
              exfalso. apply Hk. eapply (bi_unique _ _ Hinv); [exact Hz0|exact Hs|congruence..].
        -- eapply blk_frame; [exact Hinv|exact Hinv'|exact C|done|done|naive_solver|done].
    + intros n'. unfold dirty. rewrite (someb_recycle _ s s' i x (f x) n' core_dirty C); [|done|congruence].
      split; [|by right]. intros [[_ Hf]|]; [done|done].
    + intros n'. unfold busy. rewrite (someb_recycle _ s s' i x (f x) n' core_busy C); [|done|congruence].
      simpl. split; [intros [[-> _]|]; [by left|by right]|intros [->|]; [by left|by right]].
    + intros b' n' d' q'. by apply (Hfresh i x).
Qed.

(** Fewer busy or dirty blocks than buffers leave room. *)
Lemma room_count s l (S : gset Z) :
  binv s l → (∀ n, dirty s n ∨ busy s n → n ∈ S) → (size S < bhead)%nat → room s.
Proof.
  intros Hinv HS Hsz. destruct (decide (Exists (λ i, (brecyclable <$> k_bufs s !! i) = Some true) (seq 0 bhead))) as [Hex|Hno].
  { apply Exists_exists in Hex as (i & Hi & Hr). apply elem_of_seq in Hi.
    destruct (k_bufs s !! i) as [x|] eqn:Ex; simplify_eq/=. exists i, x. split; [split; [lia|done]|done]. }
  exfalso. assert (∀ i x, slot s i x → b_dev x = 1 ∧ b_blockno x ∈ S) as Hall.
  { intros i x [Hi Hx]. destruct (brecyclable x) eqn:Er.
    { exfalso. apply Hno, Exists_exists. exists i. split; [apply elem_of_seq; lia|].
      rewrite Hx. simpl. by rewrite Er. }
    destruct (bi_entry _ _ Hinv i x) as (He & _); [by split|]. unfold brecyclable in Er.
    destruct (has (b_flags x) B_BUSY) eqn:Eb; simpl in *.
    - split; [by apply He|]. apply HS. right. exists i, x. split_and!; try done. by apply He.
    - destruct (has (b_flags x) B_DIRTY) eqn:Ed; [|done]. rewrite orb_true_r in He.
      split; [by apply He|]. apply HS. left. exists i, x. split_and!; try done. by apply He. }
  set (f := λ i, default 0 (b_blockno <$> k_bufs s !! i)).
  assert (list_to_set (f <$> seq 0 bhead) ⊆ S) as Hsub.
  { intros n. rewrite elem_of_list_to_set, list_elem_of_fmap. intros (i & -> & Hi%elem_of_seq).
    destruct (bring_get _ _ i (bi_ring _ _ Hinv)) as [x Hx]; [lia|]. unfold f. rewrite Hx. simpl.
    apply (Hall i x). split; [lia|done]. }
  apply subseteq_size in Hsub. rewrite size_list_to_set, length_fmap, length_seq in Hsub; [lia|].
  apply NoDup_fmap_2_strong; [|apply NoDup_seq]. intros i j Hi%elem_of_seq Hj%elem_of_seq Hij.
  destruct (bring_get _ _ i (bi_ring _ _ Hinv)) as [x Hx]; [lia|].
  destruct (bring_get _ _ j (bi_ring _ _ Hinv)) as [y Hy]; [lia|]. unfold f in Hij. rewrite Hx, Hy in Hij.
  assert (slot s i x ∧ slot s j y) as [Sx Sy] by (split; split; (lia || done)).
  by eapply (bi_unique _ _ Hinv); [exact Sx|exact Sy|apply (Hall i x)|apply (Hall j y)|].
Qed.

End BufSpec.
