(* ===== verification/Log.v ===== *)
(** * Log: the write-ahead log (log.c)

    Operations of log.c over the buffer cache. The header block on disk is a
    struct logheader: the count n at offset 0, then the block numbers. *)

From S2P Require Import Prelude Machine CMem DiskFmt Proc Bio BufSpec.
From stdpp Require Import options.

Section Log.
Context {E : Env}.

(** readsb() of fs.c. *)
Definition readsb (dev : Z) : K superblock :=
  bp ← bread dev 1;
  x ← get_buf bp;
  brelse bp ;;
  mret (get_sb (b_data x)).

(** [log.lh.block[i]]; the array has LOGSIZE elements. *)
Definition get_block (i : Z) : K Z := λ s, deref (lh_block (k_log s) !! Z.to_nat i) s.
Definition set_block (i v : Z) : K unit :=
  if (0 <=? i) && (i <? LOGSIZE)
  then upd_log (λ g, set_lh_block (<[Z.to_nat i := v]> (lh_block g)) g)
  else fault.

(** Copy committed blocks from log to their home location. *)
Definition install_one (tail : Z) : K unit :=
  g ← gets k_log;
  lbuf ← bread (l_dev g) (u32 (l_start g + tail + 1));
  n ← get_block tail;
  dbuf ← bread (l_dev g) (u32 n);
  x ← get_buf lbuf;
  upd_buf dbuf (set_b_data (b_data x)) ;;
  bwrite dbuf ;;
  brelse lbuf ;;
  brelse dbuf.
Definition install_trans : K unit :=
  g ← gets k_log;
  for_each (seqZ 0 (lh_n g)) install_one.

(** Read the log header from disk into the in-memory log header. *)
Definition read_head : K unit :=
  g ← gets k_log;
  bf ← bread (l_dev g) (u32 (l_start g));
  x ← get_buf bf;
  upd_log (set_lh_n (s32 (get32 (b_data x) 0))) ;;
  for_each (seqZ 0 (s32 (get32 (b_data x) 0))) (λ i,
    set_block i (s32 (get32 (b_data x) (4 + 4 * i)))) ;;
  brelse bf.

(** Write in-memory log header to disk. *)
Definition write_head : K unit :=
  g ← gets k_log;
  bf ← bread (l_dev g) (u32 (l_start g));
  upd_buf bf (λ x, set_b_data (put32 (b_data x) 0 (lh_n g)) x) ;;
  for_each (seqZ 0 (lh_n g)) (λ i,
    n ← get_block i;
    upd_buf bf (λ x, set_b_data (put32 (b_data x) (4 + 4 * i) n) x)) ;;
  bwrite bf ;;
  brelse bf.

Definition recover_from_log : K unit :=
  read_head ;;
  install_trans ;;
  upd_log (set_lh_n 0) ;;
  write_head.

(** [sizeof(struct logheader)] is 4 * (LOGSIZE + 1). *)
Definition initlog (dev : Z) : K unit :=
  if 4 * (LOGSIZE + 1) >=? BSIZE then panic "initlog: too big logheader" else
  initlock Llog ;;
  sb ← readsb dev;
  upd_log (set_l_start (sb_logstart sb)) ;;
  upd_log (set_l_size (sb_nlog sb)) ;;
  upd_log (set_l_dev dev) ;;
  recover_from_log.

Definition begin_op : K unit :=
  acquire Llog ;;
  loop wakeups (λ _ : unit,
    g ← gets k_log;
    if negb (l_committing g =? 0) then sleep Clog (Some Llog) ;; mret (inl tt)
    else if lh_n g + (l_outstanding g + 1) * MAXOPBLOCKS >? LOGSIZE then
      sleep Clog (Some Llog) ;; mret (inl tt)
    else
      upd_log (set_l_outstanding (l_outstanding g + 1)) ;;
      release Llog ;;
      mret (inr tt)) tt.

(** Copy modified blocks from cache to log. *)
Definition write_one (tail : Z) : K unit :=
  g ← gets k_log;
  to ← bread (l_dev g) (u32 (l_start g + tail + 1));
  n ← get_block tail;
  from ← bread (l_dev g) (u32 n);
  x ← get_buf from;
  upd_buf to (set_b_data (b_data x)) ;;
  bwrite to ;;
  brelse from ;;
  brelse to.
Definition write_log : K unit :=
  g ← gets k_log;
  for_each (seqZ 0 (lh_n g)) write_one.

Definition commit : K unit :=
  g ← gets k_log;
  when (lh_n g >? 0)
    (write_log ;;
     write_head ;;
     install_trans ;;
     upd_log (set_lh_n 0) ;;
     write_head).

Definition end_op : K unit :=
  acquire Llog ;;
  g ← gets k_log;
  upd_log (set_l_outstanding (l_outstanding g - 1)) ;;
  if negb (l_committing g =? 0) then panic "log.committing" else
  do_commit ← (if l_outstanding g - 1 =? 0 then upd_log (set_l_committing 1) ;; mret true
               else wakeup Clog ;; mret false);
  release Llog ;;
  when do_commit
    (commit ;;
     acquire Llog ;;
     upd_log (set_l_committing 0) ;;
     wakeup Clog ;;
     release Llog).

(** [for (i = 0; i < log.lh.n; i++) if (log.lh.block[i] == b->blockno) break;] *)
Definition log_find (n blockno : Z) : K Z :=
  r ← for_ret (seqZ 0 n) (λ i,
    x ← get_block i;
    mret (if u32 x =? blockno then Some i else None));
  mret (default (Z.max 0 n) r).

Definition log_write (b : nat) : K unit :=
  g ← gets k_log;
  if (lh_n g >=? LOGSIZE) || (lh_n g >=? l_size g - 1) then panic "too big a transaction" else
  if l_outstanding g <? 1 then panic "log_write outside of trans" else
  acquire Llog ;;
  g ← gets k_log;
  x ← get_buf b;
  i ← log_find (lh_n g) (b_blockno x);
  set_block i (s32 (b_blockno x)) ;;
  when (i =? lh_n g) (upd_log (set_lh_n (lh_n g + 1))) ;;
  upd_buf b (λ x, set_b_flags (Z.lor (b_flags x) B_DIRTY) x) ;;
  release Llog.

End Log.
