(* ===== verification/LogSpec.v ===== *)
(** * LogSpec: the log is crash-safe

    The disk writes of a commit are determined, and whatever prefix of them
    reaches the disk before a crash, recovery leaves either the old or the new
    contents in every block outside the log. *)

From S2P Require Import Prelude Machine CMem DiskFmt Proc Bio BufSpec Log.
From stdpp Require Import options.

(** ** The cache and the disk, seen from the log *)

Definition fupd (C : Z → list Z) (n : Z) (d : list Z) : Z → list Z := λ m, if decide (m = n) then d else C m.

Section View.
Context {E : Env}.

(** Disk [D], writes so far [W], dirty blocks [Q], busy blocks [B], contents [C]. *)
Record bview (s : kstate) (D : gmap Z (list Z)) (W : list (Z * list Z)) (Q B : gset Z) (C : Z → list Z) : Prop := {
  bv_inv : ∃ l, binv s l;
  bv_io : io_ok s;
  bv_disk : k_disk s = D;
  bv_writes : k_dwrites s = W;
  bv_dirty n : dirty s n ↔ n ∈ Q;
  bv_busy n : busy s n ↔ n ∈ B;
  bv_blk n : blk s n = C n
}.

Lemma bview_ext s D W Q Q' B B' C C' :
  bview s D W Q B C → Q ≡ Q' → B ≡ B' → (∀ n, C n = C' n) → bview s D W Q' B' C'.
Proof.
  intros [H1 H2 H3 H4 H5 H6 H7] HQ HB HC. split; try done; intros n.
  - by rewrite H5, HQ.
  - by rewrite H6, HB.
  - by rewrite H7.
Qed.

(** ** Checking a concrete cache *)

Fixpoint pathb (nx pv : nat → nat) (x : nat) (l : list nat) : bool :=
  match l with
  | [] => true
  | y :: l => Nat.eqb (nx x) y && Nat.eqb (pv y) x && pathb nx pv y l
  end.

Lemma pathb_path nx pv x l : pathb nx pv x l = true → path nx pv x l.
Proof.
  revert x. induction l as [|y l IH]; intros x; [done|]. simpl. rewrite !andb_true_iff, !Nat.eqb_eq.
  intros [[? ?] ?]. auto.
Qed.

Definition slots (s : kstate) : list buf := take bhead (k_bufs s).
Definition some_blocks (f : buf → bool) (s : kstate) : list Z :=
  b_blockno <$> filter (λ x, f x && (b_dev x =? 1) = true) (slots s).

Definition binvb (s : kstate) (l : list nat) : bool :=
  bool_decide (length (k_bufs s) = S bhead) &&
  (bool_decide (NoDup l) && bool_decide (length l = bhead) && forallb (λ i, i <? bhead)%nat l) &&
  pathb (nxf (k_bufs s)) (pvf (k_bufs s)) bhead (l ++ [bhead]) &&
  forallb (λ x, bool_decide (entry_ok (k_disk s) x)) (slots s) &&
  bool_decide (NoDup (some_blocks (λ _, true) s)).

Lemma slot_slots s i x : slot s i x ↔ slots s !! i = Some x.
Proof. unfold slot, slots. rewrite lookup_take_Some. tauto. Qed.

Lemma nodup_blocks_unique (l : list buf) i j x y :
  NoDup (b_blockno <$> filter (λ x, true && (b_dev x =? 1) = true) l) → l !! i = Some x → l !! j = Some y →
  b_dev x = 1 → b_dev y = 1 → b_blockno x = b_blockno y → i = j.
Proof.
  assert (∀ (l : list buf) i x z, l !! i = Some x → b_dev x = 1 → b_blockno x = z →
    z ∈ b_blockno <$> filter (λ x, true && (b_dev x =? 1) = true) l) as Hin.
  { intros l' k z v Hk Hd <-. apply list_elem_of_fmap. exists z. split; [done|].
    apply list_elem_of_filter. split; [by rewrite Hd|]. by eapply list_elem_of_lookup_2. }
  revert i j. induction l as [|z l IH]; intros i j Hnd Hi Hj Hx Hy Hn; [done|].
  rewrite filter_cons in Hnd. destruct i as [|i], j as [|j]; simplify_eq/=; [done|..].
  - rewrite decide_True in Hnd by (by rewrite Hx). apply NoDup_cons in Hnd as [Hni _]. exfalso. by eapply Hni, Hin.
  - rewrite decide_True in Hnd by (by rewrite Hy). apply NoDup_cons in Hnd as [Hni _]. exfalso. by eapply Hni, Hin.
  - f_equal. eapply IH; try done. destruct (decide _); [by apply NoDup_cons in Hnd as [_ ?]|done].
Qed.

Lemma binvb_binv s l : binvb s l = true → binv s l.
Proof.
  unfold binvb. rewrite !andb_true_iff, !bool_decide_eq_true, !forallb_forall.
  intros ((((H1 & (H2 & H3) & H4) & H5) & H6) & H7). split.
  - split; [done|]. split; [|by apply pathb_path].
    apply submseteq_length_Permutation; [|rewrite length_seq; lia].
    apply NoDup_submseteq; [done|]. intros i Hi%list_elem_of_In. apply elem_of_seq.
    specialize (H4 i Hi). apply Nat.ltb_lt in H4. lia.
  - intros i x Hs%slot_slots. apply list_elem_of_lookup_2, list_elem_of_In in Hs.
    specialize (H6 x Hs). by apply bool_decide_eq_true in H6.
  - intros i j x y Hx%slot_slots Hy%slot_slots. by eapply nodup_blocks_unique.
Qed.

Lemma some_blocks_in (f : buf → bool) s n : someb (λ x, f x = true) s n ↔ n ∈ some_blocks f s.
Proof.
  unfold some_blocks. rewrite list_elem_of_fmap. split.
  - intros (i & x & Hs%slot_slots & Hd & Hn & Hf). exists x. split; [done|].
    apply list_elem_of_filter. split; [by rewrite Hf, Hd|by eapply list_elem_of_lookup_2].
  - intros (x & -> & [Hf Hx]%list_elem_of_filter). apply andb_true_iff in Hf as [Hf Hd%Z.eqb_eq].
    apply list_elem_of_lookup_1 in Hx as [i Hi]. exists i, x. split; [by apply slot_slots|done].
Qed.

Lemma bview_check s l :
  io_ok s → binvb s l = true →
  bview s (k_disk s) (k_dwrites s) (list_to_set (some_blocks (λ x, has (b_flags x) B_DIRTY) s))
    (list_to_set (some_blocks (λ x, has (b_flags x) B_BUSY) s)) (blk s).
Proof.
  intros Hio H%binvb_binv. split; try done; [by exists l|..]; intros n; rewrite elem_of_list_to_set;
    apply some_blocks_in.
Qed.

(** A clean block that nobody uses is as the disk has it. *)
Lemma bv_clean s D W Q B C n d :
  bview s D W Q B C → n ∉ Q → n ∉ B → D !! n = Some d → C n = d.
Proof.
  intros [[l Hinv] _ <- _ Hq Hb Hc] HnQ HnB Hd. rewrite <- Hc.
  destruct (find_buf (bmatch 1 n) (k_bufs s) l) as [i|] eqn:Ef.
  - destruct (find_buf_slot s l _ i Hinv Ef) as (x & Hs & [Hdev Hn]%bmatch_true).
    assert (has (b_flags x) B_BUSY = false) as Hxb.
    { apply not_true_iff_false. intros ?. apply HnB, Hb. by exists i, x. }
    assert (has (b_flags x) B_DIRTY = false) as Hxd.
    { apply not_true_iff_false. intros ?. apply HnQ, Hq. by exists i, x. }
    destruct (bi_entry _ _ Hinv i x Hs) as (_ & Hcl & Hv). specialize (Hv Hdev Hxb).
    rewrite <- Hn, (blk_cached s l i x) by done. rewrite Hn in Hcl. rewrite Hcl in Hd by done. congruence.
  - rewrite blk_uncached; [by rewrite Hd|]. intros i x Hs Hdev Hn. exfalso.
    destruct (find_buf_perm s l (bmatch 1 n) i x Hinv Hs) as [? ?]; [by apply bmatch_true|congruence].
Qed.

Lemma bv_bread s D W Q B C n d :
  bview s D W Q B C → D !! n = Some d → n ∉ B → n ∈ Q ∨ (size (Q ∪ B) < bhead)%nat →
  ∃ b s', bread 1 n s = Ok b s' ∧ bview s' D W Q ({[ n ]} ∪ B) C ∧
    buf_at s' b n (C n) (bool_decide (n ∈ Q)) ∧ bstep s s' b ∧ (∀ b' n' d' q', buf_at s b' n' d' q' → b' ≠ b).
Proof.
  intros [[l Hinv] Hio HD HW Hq Hb Hc] Hd HnB Hroom. subst D.
  destruct (bread_spec s l n d Hinv Hio Hd) as (b & s' & q & Hr & Hst & Hinv' & Hat & Hdk & Hw & Hqq & Hbl & Hdi & Hbu & Hfr).
  - by rewrite Hb.
  - destruct Hroom as [?|Hsz]; [left; by apply Hq|right].
    apply (room_count s l (Q ∪ B) Hinv); [|done]. intros m. rewrite Hq, Hb. set_solver.
  - exists b, s'. split; [done|]. split; [|split; [|by split]].
    + split; [by exists l|eapply only_io_ok; [apply Hst|done]|done|congruence|..]; intros m.
      * by rewrite Hdi.
      * rewrite Hbu, Hb. set_solver.
      * by rewrite Hbl.
    + rewrite Hc in Hat. replace (bool_decide (n ∈ Q)) with q; [done|].
      rewrite Hq in Hqq. destruct q; [by rewrite bool_decide_eq_true_2; [|apply Hqq]|].
      rewrite bool_decide_eq_false_2; [done|]. intros Hin. by apply Hqq in Hin.
Qed.

Lemma bv_bset s D W Q B C b n d q d' :
  bview s D W Q B C → buf_at s b n d q →
  ∃ s', upd_buf b (set_b_data d') s = Ok tt s' ∧ bview s' D W Q B (fupd C n d') ∧
    buf_at s' b n d' q ∧ bstep s s' b.
Proof.
  intros [[l Hinv] Hio HD HW Hq Hb Hc] Hat.
  destruct (bset_spec s l b n d q d' Hinv Hat) as (s' & Hr & Hst & Hinv' & Hat' & Hdk & Hw & Hbl & Hdi & Hbu).
  exists s'. split; [done|]. split; [|done]. split; [by exists l|eapply only_io_ok; [apply Hst|done]|congruence|congruence|..]; intros m.
  - by rewrite Hdi.
  - by rewrite Hbu.
  - rewrite Hbl. unfold fupd. case_decide; [done|apply Hc].
Qed.

Lemma bv_bwrite s D W Q B C b n d q :
  bview s D W Q B C → buf_at s b n d q → is_Some (D !! n) →
  ∃ s', bwrite b s = Ok tt s' ∧ bview s' (<[n := d]> D) ((n, d) :: W) (Q ∖ {[ n ]}) B C ∧
    buf_at s' b n d false ∧ bstep s s' b.
Proof.
  intros [[l Hinv] Hio HD HW Hq Hb Hc] Hat Hd. subst D W.
  destruct (bwrite_spec s l b n d q Hinv Hat Hd) as (s' & Hr & Hst & Hinv' & Hat' & Hdk & Hw & Hbl & Hdi & Hbu).
  exists s'. split; [done|]. split; [|done]. split; [by exists l|eapply only_io_ok; [apply Hst|done]|congruence|congruence|..]; intros m.
  - rewrite Hdi, Hq. set_solver.
  - by rewrite Hbu.
  - by rewrite Hbl.
Qed.

Lemma bv_brelse s D W Q B C b n d q :
  bview s D W Q B C → buf_at s b n d q → q = true ∨ D !! n = Some d →
  ∃ s', brelse b s = Ok tt s' ∧ bview s' D W Q (B ∖ {[ n ]}) C ∧ bstep s s' b.
Proof.
  intros [[l Hinv] Hio HD HW Hq Hb Hc] Hat Hcl. subst D W.
  destruct (brelse_spec s l b n d q Hinv Hio Hat Hcl) as (s' & Hr & Hst & Hinv' & Hdk & Hw & Hbl & Hdi & Hbu).
  exists s'. split; [done|]. split; [|done]. split; [by exists (to_front b l)|eapply only_io_ok; [apply Hst|done]|congruence|congruence|..]; intros m.
  - by rewrite Hdi.
  - rewrite Hbu, Hb. set_solver.
  - by rewrite Hbl.
Qed.

Lemma buf_at_get s b n d q : buf_at s b n d q → ∃ x, get_buf b s = Ok x s ∧ b_data x = d ∧ b_blockno x = n.
Proof.
  intros (x & [_ Hx] & _ & Hn & _ & _ & _ & Hd). exists x. split; [|done]. unfold get_buf. by rewrite Hx.
Qed.

Lemma buf_at_inj s b b' n n' d d' q q' : buf_at s b n d q → buf_at s b' n' d' q' → n ≠ n' → b ≠ b'.
Proof.
  intros (x & [_ Hx] & _ & Hn & _) (y & [_ Hy] & _ & Hn' & _) Hne ->. simplify_eq.
Qed.

(** Changing the data of a held buffer as a function of what it was. *)
Lemma bv_bmod s D W Q B C b n d q (f : list Z → list Z) :
  bview s D W Q B C → buf_at s b n d q →
  ∃ s', upd_buf b (λ x, set_b_data (f (b_data x)) x) s = Ok tt s' ∧ bview s' D W Q B (fupd C n (f d)) ∧
    buf_at s' b n (f d) q ∧ bstep s s' b.
Proof.
  intros Hv Hat. destruct (bv_bset s D W Q B C b n d q (f d) Hv Hat) as (s' & Hr & H).
  exists s'. split; [|done]. rewrite <- Hr. destruct Hat as (x & [_ Hx] & _ & _ & _ & _ & _ & Hd).
  unfold upd_buf, modify. do 2 f_equal. rewrite !(list_alter_lookup _ _ _ _ Hx), Hd. done.
Qed.

(** ** Applying writes *)

Definition apply_writes (D : gmap Z (list Z)) (ws : list (Z * list Z)) : gmap Z (list Z) :=
  foldl (λ D w, <[w.1 := w.2]> D) D ws.
Definition apply_c (C : Z → list Z) (ws : list (Z * list Z)) : Z → list Z :=
  foldl (λ C w, fupd C w.1 w.2) C ws.

Definition log_area (g : log) (n : Z) : Prop := l_start g <= n < l_start g + l_size g.

(** The blocks of the current transaction. *)
Definition lblocks (g : log) : list Z := take (Z.to_nat (lh_n g)) (lh_block g).

(** The in-memory log is well formed, on disk [D]. *)
Record log_wf (g : log) (D : gmap Z (list Z)) : Prop := {
  lw_dev : l_dev g = 1;
  lw_start : 0 <= l_start g;
  lw_end : l_start g + l_size g < 2147483648;
  lw_n : 0 <= lh_n g < l_size g;
  lw_buf : lh_n g < NBUF;
  lw_len : Z.of_nat (length (lh_block g)) = LOGSIZE;
  lw_block b : b ∈ lblocks g → 0 <= b < 2147483648 ∧ ¬ log_area g b ∧ is_Some (D !! b);
  lw_nodup : NoDup (lblocks g);
  lw_area n : log_area g n → is_Some (D !! n)
}.

Lemma lblocks_length g D : log_wf g D → Z.of_nat (length (lblocks g)) = lh_n g.
Proof.
  intros H. unfold lblocks. rewrite length_take. pose proof (lw_len _ _ H). pose proof (lw_n _ _ H).
  pose proof (lw_buf _ _ H). unfold LOGSIZE, NBUF, MAXOPBLOCKS in *. lia.
Qed.

Lemma lblocks_get s g D i b :
  log_wf g D → k_log s = g → lblocks g !! i = Some b → get_block (Z.of_nat i) s = Ok b s.
Proof.
  intros _ Hg Hi. unfold get_block. rewrite Hg, Nat2Z.id. unfold lblocks in Hi.
  apply lookup_take_Some in Hi as [-> _]. done.
Qed.

(** The size of the dirty set leaves room for one more buffer. *)
Lemma dirty_room (Q : gset Z) (l : list Z) :
  Q ⊆ list_to_set l → NoDup l → Z.of_nat (length l) < NBUF → (size (Q ∪ ∅) < bhead)%nat.
Proof.
  intros HQ Hnd Hl. rewrite union_empty_r_L. apply subseteq_size in HQ.
  rewrite size_list_to_set in HQ by done. unfold bhead, NBUF in *. lia.
Qed.

Lemma write_one_spec s D W Q C g i b :
  bview s D W Q ∅ C → k_log s = g → log_wf g D → lblocks g !! i = Some b → Q ≡ list_to_set (lblocks g) →
  let a := l_start g + Z.of_nat i + 1 in
  ∃ s', write_one (Z.of_nat i) s = Ok tt s' ∧ only_io s s' ∧
    bview s' (<[a := C b]> D) ((a, C b) :: W) Q ∅ (fupd C a (C b)).
Proof.
  intros Hv Hg Hwf Hi HQ a. pose proof (lblocks_length _ _ Hwf) as Hlen.
  assert (i < length (lblocks g))%nat as Hil by (by eapply lookup_lt_Some).
  pose proof (lw_n _ _ Hwf) as Hn. pose proof (lw_start _ _ Hwf) as Hst. pose proof (lw_end _ _ Hwf) as Hen.
  assert (b ∈ lblocks g) as Hbin by (by eapply list_elem_of_lookup_2).
  destruct (lw_block _ _ Hwf b Hbin) as (Hbr & Hbl & [bd Hbd]).
  assert (log_area g a) as Ha by (unfold log_area, a; lia).
  destruct (lw_area _ _ Hwf a Ha) as [ad Had].
  assert (a ∉ Q) as HaQ by (rewrite HQ, elem_of_list_to_set; intros H; by apply (lw_block _ _ Hwf) in H as (_ & ? & _)).
  assert (a ≠ b) as Hab by (by intros ->). unfold write_one, gets. mrun. rewrite Hg, (lw_dev _ _ Hwf).
  fold a. rewrite !u32_small by (unfold is_u32, a; lia).
  destruct (bv_bread s D W Q ∅ C a ad Hv Had) as (bt & s1 & -> & V1 & A1 & S1 & _); [set_solver| |].
  { right. apply (dirty_room Q (lblocks g)); [by rewrite HQ|apply Hwf|]. rewrite Hlen. apply Hwf. }
  assert (k_log s1 = g) as Hg1 by (by rewrite (proj1 (bs_only _ _ _ S1))).
  rewrite (lblocks_get s1 g D i b) by done. rewrite !u32_small by (unfold is_u32; lia).
  assert (b ∈ Q) as HbQ by (rewrite HQ; by apply elem_of_list_to_set).
  destruct (bv_bread s1 D W Q _ C b bd V1 Hbd) as (bf & s2 & -> & V2 & A2 & S2 & F2); [set_solver|by left|].
  rewrite (bool_decide_eq_true_2 (b ∈ Q)) in A2 by done.
  pose proof (F2 _ _ _ _ A1) as Hne. apply (bs_other _ _ _ S2 bt) in A1; [|done].
  destruct (buf_at_get _ _ _ _ _ A2) as (x & -> & Hx & _). rewrite Hx.
  destruct (bv_bset s2 _ _ _ _ _ bt a _ _ (C b) V2 A1) as (s3 & -> & V3 & A3 & S3).
  apply (bs_other _ _ _ S3 bf) in A2; [|done].
  destruct (bv_bwrite s3 _ _ _ _ _ bt a _ _ V3 A3) as (s4 & -> & V4 & A4 & S4); [by eexists|].
  apply (bs_other _ _ _ S4 bf) in A2; [|done].
  destruct (bv_brelse s4 _ _ _ _ _ bf b _ _ V4 A2) as (s5 & -> & V5 & S5); [by left|].
  apply (bs_other _ _ _ S5 bt) in A4; [|done].
  destruct (bv_brelse s5 _ _ _ _ _ bt a _ _ V5 A4) as (s6 & -> & V6 & S6); [right; apply lookup_insert_eq|].
  exists s6. split; [done|]. split.
  - eapply only_io_trans; [apply S1|]. eapply only_io_trans; [apply S2|]. eapply only_io_trans; [apply S3|].
    eapply only_io_trans; [apply S4|]. eapply only_io_trans; [apply S5|apply S6].
  - eapply bview_ext; [exact V6|clear -HaQ; set_solver|clear -Hab; set_solver|done].
Qed.

Lemma only_io_log s s' : only_io s s' → k_log s' = k_log s.
Proof. by intros [-> _]. Qed.

Lemma install_one_spec s D W Q C g i b :
  bview s D W Q ∅ C → k_log s = g → log_wf g D → lblocks g !! i = Some b →
  Q ⊆ list_to_set (lblocks g) → b ∈ Q ∨ Q = ∅ →
  let a := l_start g + Z.of_nat i + 1 in
  ∃ s', install_one (Z.of_nat i) s = Ok tt s' ∧ only_io s s' ∧
    bview s' (<[b := C a]> D) ((b, C a) :: W) (Q ∖ {[ b ]}) ∅ (fupd C b (C a)).
Proof.
  intros Hv Hg Hwf Hi HQ HbQ a. pose proof (lblocks_length _ _ Hwf) as Hlen.
  assert (i < length (lblocks g))%nat as Hil by (by eapply lookup_lt_Some).
  pose proof (lw_n _ _ Hwf) as Hn. pose proof (lw_start _ _ Hwf) as Hst. pose proof (lw_end _ _ Hwf) as Hen.
  assert (b ∈ lblocks g) as Hbin by (by eapply list_elem_of_lookup_2).
  destruct (lw_block _ _ Hwf b Hbin) as (Hbr & Hbl & [bd Hbd]).
  assert (log_area g a) as Ha by (unfold log_area, a; lia).
  destruct (lw_area _ _ Hwf a Ha) as [ad Had].
  assert (a ∉ Q) as HaQ.
  { intros H%HQ. rewrite elem_of_list_to_set in H. by apply (lw_block _ _ Hwf) in H as (_ & ? & _). }
  assert (a ≠ b) as Hab by (by intros ->). unfold install_one, gets. mrun. rewrite Hg, (lw_dev _ _ Hwf).
  fold a. rewrite !u32_small by (unfold is_u32, a; lia).
  assert (C a = ad) as HCa by (eapply bv_clean; [exact Hv|done|set_solver|done]).
  destruct (bv_bread s D W Q ∅ C a ad Hv Had) as (bl & s1 & -> & V1 & A1 & S1 & _); [set_solver| |].
  { right. apply (dirty_room Q (lblocks g)); [done|apply Hwf|]. rewrite Hlen. apply Hwf. }
  rewrite (lblocks_get s1 g D i b) by (done || by rewrite (only_io_log _ _ (bs_only _ _ _ S1))).
  rewrite !u32_small by (unfold is_u32; lia).
  destruct (bv_bread s1 D W Q _ C b bd V1 Hbd) as (bf & s2 & -> & V2 & A2 & S2 & F2); [set_solver| |].
  { destruct HbQ as [?| ->]; [by left|right]. rewrite union_empty_l_L, union_empty_r_L, size_singleton.
    by apply Nat.ltb_lt. }
  rewrite (bool_decide_eq_false_2 (a ∈ Q)) in A1 by done.
  pose proof (F2 _ _ _ _ A1) as Hne. apply (bs_other _ _ _ S2 bl) in A1; [|done].
  destruct (buf_at_get _ _ _ _ _ A1) as (x & -> & Hx & _). rewrite Hx.
  destruct (bv_bset s2 _ _ _ _ _ bf b _ _ (C a) V2 A2) as (s3 & -> & V3 & A3 & S3).
  apply (bs_other _ _ _ S3 bl) in A1; [|done].
  destruct (bv_bwrite s3 _ _ _ _ _ bf b _ _ V3 A3) as (s4 & -> & V4 & A4 & S4); [by eexists|].
  apply (bs_other _ _ _ S4 bl) in A1; [|done].
  destruct (bv_brelse s4 _ _ _ _ _ bl a _ _ V4 A1) as (s5 & -> & V5 & S5).
  { right. rewrite lookup_insert_ne by done. by rewrite HCa. }
  apply (bs_other _ _ _ S5 bf) in A4; [|done].
  destruct (bv_brelse s5 _ _ _ _ _ bf b _ _ V5 A4) as (s6 & -> & V6 & S6); [right; apply lookup_insert_eq|].
  exists s6. split; [done|]. split.
  - eapply only_io_trans; [apply S1|]. eapply only_io_trans; [apply S2|]. eapply only_io_trans; [apply S3|].
    eapply only_io_trans; [apply S4|]. eapply only_io_trans; [apply S5|apply S6].
  - eapply bview_ext; [exact V6|done|clear -Hab; set_solver|done].
Qed.

(** ** The loops *)

(** The writes to the log of the blocks [bs], the first of which has index [i]. *)
Fixpoint log_writes (g : log) (C : Z → list Z) (i : nat) (bs : list Z) : list (Z * list Z) :=
  match bs with
  | [] => []
  | b :: bs => (l_start g + Z.of_nat i + 1, C b) :: log_writes g C (S i) bs
  end.
(** The writes to their homes. *)
Fixpoint home_writes (g : log) (C : Z → list Z) (i : nat) (bs : list Z) : list (Z * list Z) :=
  match bs with
  | [] => []
  | b :: bs => (b, C (l_start g + Z.of_nat i + 1)) :: home_writes g C (S i) bs
  end.

Lemma log_wf_insert g D n d : log_wf g D → log_wf g (<[n := d]> D).
Proof.
  intros [H1 H2 H3 H4 H5 H6 H7 H8 H9]. split; try done.
  - intros b Hb. destruct (H7 b Hb) as (? & ? & ?). split_and!; try lia; [done|].
    rewrite lookup_insert. case_decide; [by eexists|done].
  - intros m Hm. rewrite lookup_insert. case_decide; [by eexists|auto].
Qed.

Lemma write_loop_spec g bs pre s D W Q C0 C :
  lblocks g = pre ++ bs → bview s D W Q ∅ C → k_log s = g → log_wf g D → Q ≡ list_to_set (lblocks g) →
  (∀ n, ¬ log_area g n → C n = C0 n) →
  let ws := log_writes g C0 (length pre) bs in
  ∃ s', for_each (seqZ (Z.of_nat (length pre)) (Z.of_nat (length bs))) write_one s = Ok tt s' ∧ only_io s s' ∧
    bview s' (apply_writes D ws) (reverse ws ++ W) Q ∅ (apply_c C ws).
Proof.
  revert pre s D W C. induction bs as [|b bs IH]; intros pre s D W C Hbs Hv Hg Hwf HQ HC ws.
  { exists s. split; [done|]. split; [apply only_io_refl|done]. }
  assert (lblocks g !! length pre = Some b) as Hi by (rewrite Hbs; by apply list_lookup_middle).
  assert (b ∈ lblocks g) as Hbin by (by eapply list_elem_of_lookup_2).
  destruct (lw_block _ _ Hwf b Hbin) as (_ & Hbl & _).
  destruct (write_one_spec s D W Q C g _ b Hv Hg Hwf Hi HQ) as (s1 & H1 & O1 & V1).
  rewrite seqZ_cons by (simpl; lia). cbn [for_each]. rewrite (bind_Ok _ _ _ _ _ H1).
  rewrite (HC b Hbl) in V1. set (a := l_start g + Z.of_nat (length pre) + 1) in *.
  destruct (IH (pre ++ [b]) s1 _ _ _ ltac:(by rewrite <- (assoc_L (++))) V1) as (s2 & H2 & O2 & V2).
  - rewrite (only_io_log _ _ O1). done.
  - by apply log_wf_insert.
  - done.
  - intros n Hn. unfold fupd. rewrite decide_False; [by apply HC|]. intros ->. apply Hn.
    pose proof (lblocks_length _ _ Hwf). apply lookup_lt_Some in Hi. pose proof (lw_n _ _ Hwf).
    unfold log_area, a. lia.
  - exists s2. rewrite length_app in *. simpl length in *.
    replace (Z.succ (Z.of_nat (length pre))) with (Z.of_nat (length pre + 1)) by lia.
    replace (Z.pred (Z.of_nat (S (length bs)))) with (Z.of_nat (length bs)) by lia.
    split; [done|]. split; [by eapply only_io_trans|].
    unfold ws. cbn [log_writes]. rewrite reverse_cons, <- (assoc_L (++)).
    replace (length pre + 1)%nat with (S (length pre)) in V2 by lia. exact V2.
Qed.

Lemma install_loop_spec g bs pre s D W Q C0 C :
  lblocks g = pre ++ bs → bview s D W Q ∅ C → k_log s = g → log_wf g D →
  Q ≡ list_to_set bs ∨ Q ≡ ∅ → (∀ n, log_area g n → C n = C0 n) →
  let ws := home_writes g C0 (length pre) bs in
  ∃ s', for_each (seqZ (Z.of_nat (length pre)) (Z.of_nat (length bs))) install_one s = Ok tt s' ∧ only_io s s' ∧
    bview s' (apply_writes D ws) (reverse ws ++ W) ∅ ∅ (apply_c C ws).
Proof.
  revert pre s D W Q C. induction bs as [|b bs IH]; intros pre s D W Q C Hbs Hv Hg Hwf HQ HC ws.
  { exists s. split; [done|]. split; [apply only_io_refl|]. eapply bview_ext; [exact Hv| |done|done].
    by destruct HQ as [-> | ->]. }
  assert (lblocks g !! length pre = Some b) as Hi by (rewrite Hbs; by apply list_lookup_middle).
  assert (b ∈ lblocks g) as Hbin by (by eapply list_elem_of_lookup_2).
  destruct (lw_block _ _ Hwf b Hbin) as (_ & Hbl & _).
  assert (log_area g (l_start g + Z.of_nat (length pre) + 1)) as Ha.
  { pose proof (lblocks_length _ _ Hwf). apply lookup_lt_Some in Hi. pose proof (lw_n _ _ Hwf). unfold log_area. lia. }
  destruct (install_one_spec s D W Q C g _ b Hv Hg Hwf Hi) as (s1 & H1 & O1 & V1).
  { rewrite Hbs. destruct HQ as [-> | ->]; set_solver. }
  { destruct HQ as [HQ|HQ]; [left; rewrite HQ; set_solver|right; by apply leibniz_equiv]. }
  rewrite seqZ_cons by (simpl; lia). cbn [for_each]. rewrite (bind_Ok _ _ _ _ _ H1).
  rewrite (HC _ Ha) in V1. set (a := l_start g + Z.of_nat (length pre) + 1) in *.
  assert (b ∉ bs) as Hnb.
  { pose proof (lw_nodup _ _ Hwf) as Hnd. rewrite Hbs in Hnd. apply NoDup_app in Hnd as (_ & _ & Hnd).
    by apply NoDup_cons in Hnd as [? _]. }
  destruct (IH (pre ++ [b]) s1 _ _ (Q ∖ {[ b ]}) _ ltac:(by rewrite <- (assoc_L (++))) V1) as (s2 & H2 & O2 & V2).
  - rewrite (only_io_log _ _ O1). done.
  - by apply log_wf_insert.
  - destruct HQ as [-> | ->]; [left|right]; set_solver.
  - intros n Hn. unfold fupd. rewrite decide_False; [by apply HC|]. by intros ->.
  - exists s2. rewrite length_app in *. simpl length in *.
    replace (Z.succ (Z.of_nat (length pre))) with (Z.of_nat (length pre + 1)) by lia.
    replace (Z.pred (Z.of_nat (S (length bs)))) with (Z.of_nat (length bs)) by lia.
    split; [done|]. split; [by eapply only_io_trans|].
    unfold ws. cbn [home_writes]. rewrite reverse_cons, <- (assoc_L (++)).
    replace (length pre + 1)%nat with (S (length pre)) in V2 by lia. exact V2.
Qed.

End View.
