(* ===== verification/LogCommit.v ===== *)
(** * LogCommit: what commit and recovery do to the disk

    The disk writes of commit() and recover_from_log(), as functions of the
    contents of the disk and of the blocks of the transaction. *)

From S2P Require Import Prelude Machine CMem DiskFmt Proc Bio BufSpec Log LogSpec.
From stdpp Require Import options.

(** ** The header block *)

Fixpoint put_entries (d : list Z) (i : nat) (bs : list Z) : list Z :=
  match bs with
  | [] => d
  | b :: bs => put_entries (put32 d (4 + 4 * Z.of_nat i) b) (S i) bs
  end.
Definition head_data (bs : list Z) (d : list Z) : list Z :=
  put_entries (put32 d 0 (Z.of_nat (length bs))) 0 bs.

Definition head_n (d : list Z) : Z := s32 (get32 d 0).
Definition head_entry (d : list Z) (i : Z) : Z := s32 (get32 d (4 + 4 * i)).
Definition head_blocks (d : list Z) : list Z := head_entry d <$> seqZ 0 (head_n d).

Lemma length_put_entries d i bs : length (put_entries d i bs) = length d.
Proof. revert d i. induction bs as [|b bs IH]; intros d i; [done|]. simpl. by rewrite IH, length_put32. Qed.

Lemma length_head_data bs d : length (head_data bs d) = length d.
Proof. unfold head_data. by rewrite length_put_entries, length_put32. Qed.

Lemma put_entries_low d i bs o :
  4 + 4 * Z.of_nat (i + length bs) <= Z.of_nat (length d) → 0 <= o → o + 4 <= 4 + 4 * Z.of_nat i →
  get32 (put_entries d i bs) o = get32 d o.
Proof.
  revert d i. induction bs as [|b bs IH]; intros d i Hl Ho Hi; [done|]. simpl in *.
  rewrite IH by (rewrite ?length_put32; lia). apply get32_put32_ne; lia.
Qed.

Lemma put_entries_get d i bs k b :
  4 + 4 * Z.of_nat (i + length bs) <= Z.of_nat (length d) → bs !! k = Some b →
  get32 (put_entries d i bs) (4 + 4 * Z.of_nat (i + k)) = u32 b.
Proof.
  revert d i k. induction bs as [|b0 bs IH]; intros d i k Hl Hk; [done|]. simpl in Hl. destruct k as [|k].
  - simpl in *. simplify_eq. rewrite Nat.add_0_r. rewrite put_entries_low by (rewrite ?length_put32; lia).
    apply get32_put32; lia.
  - simpl. replace (i + S k)%nat with (S i + k)%nat by lia. apply IH; [|done]. rewrite length_put32. lia.
Qed.

Lemma s32_u32_small x : 0 <= x < 2147483648 → s32 (u32 x) = x.
Proof. intros H. rewrite u32_small by (unfold is_u32; lia). apply s32_small. lia. Qed.

Lemma head_n_data bs d :
  4 + 4 * Z.of_nat (length bs) <= Z.of_nat (length d) → Z.of_nat (length bs) < 2147483648 →
  head_n (head_data bs d) = Z.of_nat (length bs).
Proof.
  intros Hl Hb. unfold head_n, head_data. rewrite put_entries_low by (rewrite ?length_put32; lia).
  rewrite get32_put32 by lia. apply s32_u32_small. lia.
Qed.

(** The block list in the header reads back. *)
Lemma head_blocks_data bs d :
  4 + 4 * Z.of_nat (length bs) <= Z.of_nat (length d) → Z.of_nat (length bs) < 2147483648 →
  (∀ b, b ∈ bs → 0 <= b < 2147483648) → head_blocks (head_data bs d) = bs.
Proof.
  intros Hl Hn Hb. unfold head_blocks. rewrite head_n_data by done. apply list_eq. intros k.
  rewrite list_lookup_fmap. destruct (bs !! k) as [b|] eqn:Ek.
  - pose proof (lookup_lt_Some _ _ _ Ek). rewrite lookup_seqZ_lt by lia. simpl. f_equal.
    unfold head_entry, head_data. replace (0 + Z.of_nat k) with (Z.of_nat (0 + k)) by lia.
    rewrite (put_entries_get _ 0 bs k b) by (rewrite ?length_put32; simpl; lia || done).
    apply s32_u32_small. apply Hb. by eapply list_elem_of_lookup_2.
  - apply lookup_ge_None in Ek. by rewrite lookup_seqZ_ge by lia.
Qed.

(** ** Sequences of writes *)

Lemma apply_writes_app D ws ws' : apply_writes D (ws ++ ws') = apply_writes (apply_writes D ws) ws'.
Proof. apply foldl_app. Qed.

Lemma apply_writes_other D ws n : n ∉ ws.*1 → apply_writes D ws !! n = D !! n.
Proof.
  revert D. induction ws as [|w ws IH]; intros D Hn; [done|]. cbn in *. apply not_elem_of_cons in Hn as [Hn Hws].
  fold (apply_writes (<[w.1 := w.2]> D) ws). rewrite IH by done. by apply lookup_insert_ne.
Qed.

Lemma apply_c_other C ws n : n ∉ ws.*1 → apply_c C ws n = C n.
Proof.
  revert C. induction ws as [|w ws IH]; intros C Hn; [done|]. cbn in *. apply not_elem_of_cons in Hn as [Hn Hws].
  fold (apply_c (fupd C w.1 w.2) ws). rewrite IH by done. unfold fupd. by rewrite decide_False.
Qed.

Lemma apply_writes_in D ws n d :
  NoDup ws.*1 → (n, d) ∈ ws → apply_writes D ws !! n = Some d.
Proof.
  revert D. induction ws as [|w ws IH]; intros D Hnd Hin; [by apply not_elem_of_nil in Hin|].
  cbn in Hnd. apply NoDup_cons in Hnd as [Hnw Hnd]. apply elem_of_cons in Hin as [<-|Hin]; [|by apply IH].
  cbn. fold (apply_writes (<[n := d]> D) ws). rewrite apply_writes_other by done. apply lookup_insert_eq.
Qed.

Lemma apply_c_in C ws n d : NoDup ws.*1 → (n, d) ∈ ws → apply_c C ws n = d.
Proof.
  revert C. induction ws as [|w ws IH]; intros C Hnd Hin; [by apply not_elem_of_nil in Hin|].
  cbn in Hnd. apply NoDup_cons in Hnd as [Hnw Hnd]. apply elem_of_cons in Hin as [<-|Hin]; [|by apply IH].
  cbn. fold (apply_c (fupd C n d) ws). rewrite apply_c_other by done. unfold fupd. by rewrite decide_True.
Qed.

Lemma log_writes_keys g C i bs :
  (log_writes g C i bs).*1 = (λ k, l_start g + Z.of_nat k + 1) <$> seq i (length bs).
Proof. revert i. induction bs as [|b bs IH]; intros i; [done|]. cbn. by rewrite IH. Qed.

Lemma log_writes_nodup g C i bs : NoDup (log_writes g C i bs).*1.
Proof. rewrite log_writes_keys. apply NoDup_fmap; [|apply NoDup_seq]. intros x y ?. lia. Qed.

Lemma log_writes_in g C i bs k b :
  bs !! k = Some b → (l_start g + Z.of_nat (i + k) + 1, C b) ∈ log_writes g C i bs.
Proof.
  revert i k. induction bs as [|b0 bs IH]; intros i [|k] Hk; simplify_eq/=.
  - rewrite Nat.add_0_r. apply elem_of_cons. by left.
  - apply elem_of_cons. right. replace (i + S k)%nat with (S i + k)%nat by lia. by apply IH.
Qed.

Lemma log_writes_area g C bs n : n ∈ (log_writes g C 0 bs).*1 → l_start g < n <= l_start g + Z.of_nat (length bs).
Proof. rewrite log_writes_keys. intros (k & -> & Hk)%list_elem_of_fmap. apply elem_of_seq in Hk. lia. Qed.

Lemma home_writes_keys g C i bs : (home_writes g C i bs).*1 = bs.
Proof. revert i. induction bs as [|b bs IH]; intros i; [done|]. cbn. by rewrite IH. Qed.

Lemma home_writes_start g g' C i bs : l_start g = l_start g' → home_writes g C i bs = home_writes g' C i bs.
Proof. intros H. revert i. induction bs as [|b bs IH]; intros i; [done|]. cbn. by rewrite IH, H. Qed.

(** The writes of a transaction to the blocks' homes. *)
Definition txn (C : Z → list Z) (bs : list Z) : list (Z * list Z) := (λ b, (b, C b)) <$> bs.

Lemma txn_keys C bs : (txn C bs).*1 = bs.
Proof. unfold txn. rewrite <- list_fmap_compose. apply list_fmap_id. Qed.

Lemma home_writes_txn g C C' i bs :
  (∀ k b, bs !! k = Some b → C' (l_start g + Z.of_nat (i + k) + 1) = C b) → home_writes g C' i bs = txn C bs.
Proof.
  revert i. induction bs as [|b bs IH]; intros i H; [done|]. cbn. f_equal.
  - rewrite <- (H 0%nat b) by done. by rewrite Nat.add_0_r.
  - apply IH. intros k b' Hk. rewrite <- (H (S k) b' Hk). do 3 f_equal. lia.
Qed.

Section Commit.
Context {E : Env}.

Lemma log_wf_writes g D ws : log_wf g D → log_wf g (apply_writes D ws).
Proof.
  revert D. induction ws as [|w ws IH]; intros D H; [done|]. apply (IH (<[w.1 := w.2]> D)). by apply log_wf_insert.
Qed.

Lemma log_wf_empty g D : log_wf g D → log_wf (set_lh_n 0 g) D.
Proof.
  intros [H1 H2 H3 H4 H5 H6 H7 H8 H9]. split; try done; cbn; try lia.
  - intros b Hb. by apply not_elem_of_nil in Hb.
  - constructor.
Qed.

(** A change of the log's own state. *)
Lemma bview_set_log g s D W Q B C : bview s D W Q B C → bview (set_k_log g s) D W Q B C.
Proof.
  intros [[l [B1 B2 B3]] Hio HD HW Hq Hb Hc]. split; try done.
  exists l. by split.
Qed.

Lemma upd_log_eq f s : upd_log f s = Ok tt (set_k_log (f (k_log s)) s).
Proof. done. Qed.

Lemma fupd_same C n d m : C n = d → fupd C n d m = C m.
Proof. intros <-. unfold fupd. by case_decide; subst. Qed.
Lemma fupd_fupd C n d d' m : fupd (fupd C n d) n d' m = fupd C n d' m.
Proof. unfold fupd. by case_decide. Qed.

Lemma head_loop_spec g bf h bs pre s D W Q B C d q :
  lblocks g = pre ++ bs → log_wf g D → k_log s = g → bview s D W Q B C → buf_at s bf h d q → C h = d →
  let d' := put_entries d (length pre) bs in
  ∃ s', for_each (seqZ (Z.of_nat (length pre)) (Z.of_nat (length bs))) (λ i,
          n ← get_block i; upd_buf bf (λ x, set_b_data (put32 (b_data x) (4 + 4 * i) n) x)) s = Ok tt s' ∧
    only_io s s' ∧ bview s' D W Q B (fupd C h d') ∧ buf_at s' bf h d' q.
Proof.
  revert pre s C d. induction bs as [|b bs IH]; intros pre s C d Hbs Hwf Hg Hv Hat HC d'.
  { exists s. split; [done|]. split; [apply only_io_refl|]. split; [|done].
    eapply bview_ext; [exact Hv|done|done|]. intros n. symmetry. by apply fupd_same. }
  assert (lblocks g !! length pre = Some b) as Hi by (rewrite Hbs; by apply list_lookup_middle).
  destruct (bv_bmod s D W Q B C bf h d q (λ d, put32 d (4 + 4 * Z.of_nat (length pre)) b) Hv Hat)
    as (s1 & H1 & V1 & A1 & S1). cbv beta in V1, A1.
  destruct (IH (pre ++ [b]) s1 _ _ ltac:(by rewrite <- (assoc_L (++))) Hwf ltac:(by rewrite (only_io_log _ _ (bs_only _ _ _ S1))) V1 A1)
    as (s2 & H2 & O2 & V2 & A2); [unfold fupd; by rewrite decide_True|].
  exists s2. rewrite seqZ_cons by (simpl; lia). cbn [for_each].
  rewrite (bind_Ok _ _ _ tt s1) by (rewrite (bind_Ok _ _ _ b s) by (by eapply lblocks_get); exact H1).
  rewrite length_app in *. simpl length in *.
  replace (Z.succ (Z.of_nat (length pre))) with (Z.of_nat (length pre + 1)) by lia.
  replace (Z.pred (Z.of_nat (S (length bs)))) with (Z.of_nat (length bs)) by lia.
  replace (length pre + 1)%nat with (S (length pre)) in * by lia.
  split; [done|]. split; [eapply only_io_trans; [apply S1|done]|]. split; [|done].
  eapply bview_ext; [exact V2|done|done|]. intros n. unfold d'. cbn [put_entries]. apply fupd_fupd.
Qed.

Lemma log_area_head g D : log_wf g D → log_area g (l_start g).
Proof. intros Hwf. pose proof (lw_n _ _ Hwf). unfold log_area. lia. Qed.

Lemma only_io_set_log g s s' : only_io s s' → only_io (set_k_log g s) (set_k_log g s').
Proof. intros [H1 H2]. split; [|done]. rewrite H1. rec_eq. Qed.

(** write_head() writes one block: the header that lists the transaction. *)
Lemma write_head_spec s D W Q C g hd :
  bview s D W Q ∅ C → k_log s = g → log_wf g D → D !! l_start g = Some hd →
  l_start g ∉ Q → (size Q < bhead)%nat →
  let h := head_data (lblocks g) hd in
  ∃ s', write_head s = Ok tt s' ∧ only_io s s' ∧
    bview s' (<[l_start g := h]> D) ((l_start g, h) :: W) Q ∅ (fupd C (l_start g) h).
Proof.
  intros Hv Hg Hwf Hd HnQ Hsz h. pose proof (lblocks_length _ _ Hwf) as Hlen.
  pose proof (lw_start _ _ Hwf). pose proof (lw_end _ _ Hwf). pose proof (lw_n _ _ Hwf).
  pose proof (bv_clean _ _ _ _ _ _ _ _ Hv HnQ ltac:(set_solver) Hd) as HC.
  unfold write_head, gets. mrun. rewrite Hg, (lw_dev _ _ Hwf), u32_small by (unfold is_u32; lia).
  destruct (bv_bread s D W Q ∅ C (l_start g) hd Hv Hd) as (bf & s1 & -> & V1 & A1 & S1 & _); [set_solver| |].
  { right. by rewrite union_empty_r_L. }
  rewrite (bool_decide_eq_false_2 (l_start g ∈ Q)), HC in A1 by done.
  destruct (bv_bmod s1 D W Q _ C bf _ _ _ (λ d, put32 d 0 (lh_n g)) V1 A1) as (s2 & -> & V2 & A2 & S2).
  cbv beta in V2, A2.
  destruct (head_loop_spec g bf (l_start g) (lblocks g) [] s2 D W Q _ _ _ _ eq_refl Hwf
    ltac:(by rewrite (only_io_log _ _ (bs_only _ _ _ S2)), (only_io_log _ _ (bs_only _ _ _ S1))) V2 A2)
    as (s3 & H3 & O3 & V3 & A3); [unfold fupd; by rewrite decide_True|].
  rewrite Hlen in H3. cbv beta iota delta [mbind M_bind length Z.of_nat] in H3. rewrite H3. rewrite <- Hlen in V3, A3.
  destruct (bv_bwrite s3 _ _ _ _ _ bf _ _ _ V3 A3) as (s4 & -> & V4 & A4 & S4); [by eexists|].
  destruct (bv_brelse s4 _ _ _ _ _ bf _ _ _ V4 A4) as (s5 & -> & V5 & S5); [right; apply lookup_insert_eq|].
  exists s5. split; [done|]. split.
  - eapply only_io_trans; [apply S1|]. eapply only_io_trans; [apply S2|]. eapply only_io_trans; [exact O3|].
    eapply only_io_trans; [apply S4|apply S5].
  - eapply bview_ext; [exact V5|set_solver|set_solver|]. intros n. apply fupd_fupd.
Qed.

(** The disk writes of a commit, in order: the blocks into the log, the header, the
    blocks into their homes, the empty header. *)
Definition commit_writes (g : log) (C : Z → list Z) (hd : list Z) : list (Z * list Z) :=
  let bs := lblocks g in
  log_writes g C 0 bs ++ (l_start g, head_data bs hd) :: txn C bs ++
    [(l_start g, head_data [] (head_data bs hd))].

(** Only the cache, the disk, sleeping processes and the log's state have changed. *)
Definition only_log (s s' : kstate) : Prop := only_io (set_k_log (k_log s') s) s'.

Lemma commit_spec s D W Q C g hd :
  bview s D W Q ∅ C → k_log s = g → log_wf g D → D !! l_start g = Some hd →
  Q ≡ list_to_set (lblocks g) → 0 < lh_n g →
  let ws := commit_writes g C hd in
  ∃ s' C', commit s = Ok tt s' ∧ only_log s s' ∧ k_log s' = set_lh_n 0 g ∧
    bview s' (apply_writes D ws) (reverse ws ++ W) ∅ ∅ C'.
Proof.
  intros Hv Hg Hwf Hd HQ Hn ws. pose proof (lblocks_length _ _ Hwf) as Hlen.
  pose proof (log_area_head _ _ Hwf) as Hha.
  assert (l_start g ∉ lblocks g) as Hhb by (intros ?%(lw_block _ _ Hwf); naive_solver).
  assert (size Q < bhead)%nat as Hsz.
  { pose proof (dirty_room Q (lblocks g)) as H. rewrite union_empty_r_L in H. apply H;
      [by rewrite HQ|apply Hwf|]. rewrite Hlen. apply Hwf. }
  unfold commit, gets. mrun. rewrite Hg. destruct (Z.gtb_spec (lh_n g) 0); [|lia].
  set (ws1 := log_writes g C 0 (lblocks g)).
  destruct (write_loop_spec g (lblocks g) [] s D W Q C C eq_refl Hv Hg Hwf HQ) as (s1 & H1 & O1 & V1); [done|].
  unfold write_log, gets. mrun. rewrite Hg. rewrite Hlen in H1. change (Z.of_nat (length [])) with 0 in H1. rewrite H1.
  assert (k_log s1 = g) as Hg1 by (by rewrite (only_io_log _ _ O1)).
  assert (l_start g ∉ ws1.*1) as Hh1 by (intros ?%log_writes_area; lia).
  destruct (write_head_spec s1 _ _ Q _ g hd V1 Hg1) as (s2 & -> & O2 & V2);
    [by apply log_wf_writes|by rewrite apply_writes_other|rewrite HQ; set_solver|done|].
  assert (k_log s2 = g) as Hg2 by (by rewrite (only_io_log _ _ O2)).
  set (C2 := fupd (apply_c C ws1) (l_start g) (head_data (lblocks g) hd)) in *.
  set (D2 := <[l_start g := head_data (lblocks g) hd]> (apply_writes D ws1)) in *.
  assert (log_wf g D2) as Hwf2 by (by apply log_wf_insert, log_wf_writes).
  destruct (install_loop_spec g (lblocks g) [] s2 D2 _ Q C2 C2 eq_refl V2 Hg2 Hwf2) as (s3 & H3 & O3 & V3);
    [by left|done|].
  assert (home_writes g C2 0 (lblocks g) = txn C (lblocks g)) as Hhome.
  { apply home_writes_txn. intros k b Hk. unfold C2, fupd. rewrite decide_False by lia.
    apply apply_c_in; [apply log_writes_nodup|by apply log_writes_in]. }
  cbn [length] in V3. rewrite Hhome in V3.
  unfold install_trans, gets. mrun. rewrite Hg2. rewrite Hlen in H3. change (Z.of_nat (length [])) with 0 in H3. rewrite H3.
  assert (k_log s3 = g) as Hg3 by (by rewrite (only_io_log _ _ O3)).
  rewrite upd_log_eq, Hg3.
  destruct (write_head_spec (set_k_log (set_lh_n 0 g) s3) _ _ ∅ _ (set_lh_n 0 g) (head_data (lblocks g) hd)
    (bview_set_log _ _ _ _ _ _ _ V3) eq_refl) as (s4 & H4 & O4 & V4).
  - by apply log_wf_empty, log_wf_writes.
  - cbn. rewrite apply_writes_other; [apply lookup_insert_eq|]. by rewrite txn_keys.
  - set_solver.
  - rewrite size_empty. by apply Nat.ltb_lt.
  - exists s4. eexists. split; [exact H4|]. pose proof (only_io_log _ _ O4) as Hg4. cbn in Hg4.
    split; [|split; [done|]].
    + unfold only_log. rewrite Hg4. eapply only_io_trans; [|exact O4]. apply only_io_set_log.
      eapply only_io_trans; [exact O1|]. by eapply only_io_trans.
    + assert (apply_writes D ws = <[l_start g := head_data [] (head_data (lblocks g) hd)]>
        (apply_writes D2 (txn C (lblocks g)))) as ->.
      { unfold ws, commit_writes. rewrite apply_writes_app. cbn [apply_writes foldl fst snd].
        fold (apply_writes D2 (txn C (lblocks g) ++ [(l_start g, head_data [] (head_data (lblocks g) hd))])).
        by rewrite apply_writes_app. }
      assert (reverse ws ++ W = (l_start g, head_data [] (head_data (lblocks g) hd)) ::
        reverse (txn C (lblocks g)) ++ (l_start g, head_data (lblocks g) hd) :: reverse ws1 ++ W) as ->.
      { unfold ws, commit_writes. fold ws1. rewrite reverse_app, reverse_cons, reverse_app.
        by rewrite <- !(assoc_L (++)). }
      exact V4.
Qed.

(** ** Recovery *)

(** The in-memory header after read_head(). *)
Definition load_head (g : log) (hd : list Z) : log :=
  set_lh_block (head_blocks hd ++ drop (length (head_blocks hd)) (lh_block g)) (set_lh_n (head_n hd) g).

Lemma read_loop_spec s (f : Z → Z) pre rest k :
  lh_block (k_log s) = pre ++ rest → Z.of_nat (length (pre ++ rest)) = LOGSIZE → (k <= length rest)%nat →
  for_each (seqZ (Z.of_nat (length pre)) (Z.of_nat k)) (λ i, set_block i (f i)) s =
  Ok tt (set_k_log (set_lh_block (pre ++ (f <$> seqZ (Z.of_nat (length pre)) (Z.of_nat k)) ++ drop k rest) (k_log s)) s).
Proof.
  revert s pre rest. induction k as [|k IH]; intros s pre rest Hl Hn Hk.
  { change (seqZ (Z.of_nat (length pre)) (Z.of_nat 0)) with (@nil Z). cbn [for_each fmap list_fmap app].
    rewrite drop_0, <- Hl. mrun. f_equal. destruct s as []. destruct k_log. done. }
  destruct rest as [|y rest]; [simpl in Hk; lia|]. simpl in Hk.
  rewrite seqZ_cons by lia. cbn [for_each fmap list_fmap drop].
  replace (Z.pred (Z.of_nat (S k))) with (Z.of_nat k) by lia.
  set (s1 := set_k_log (set_lh_block (<[length pre := f (Z.of_nat (length pre))]> (lh_block (k_log s))) (k_log s)) s).
  assert (set_block (Z.of_nat (length pre)) (f (Z.of_nat (length pre))) s = Ok tt s1) as H1.
  { unfold set_block. rewrite length_app in Hn. simpl in Hn.
    rewrite (proj2 (andb_true_iff _ _)) by (split; [apply Z.leb_le|apply Z.ltb_lt]; lia).
    rewrite upd_log_eq, Nat2Z.id. done. }
  rewrite (bind_Ok _ _ _ _ _ H1).
  assert (lh_block (k_log s1) = (pre ++ [f (Z.of_nat (length pre))]) ++ rest) as Hl1.
  { cbn. rewrite Hl, <- (assoc_L (++)). apply insert_app_r_alt || rewrite insert_app_r_alt by lia.
    by rewrite Nat.sub_diag. }
  pose proof (IH s1 (pre ++ [f (Z.of_nat (length pre))]) rest Hl1) as IH1.
  rewrite !length_app in IH1. cbn [length] in IH1.
  replace (Z.succ (Z.of_nat (length pre))) with (Z.of_nat (length pre + 1)) by lia.
  rewrite IH1 by (rewrite ?length_app in Hn; simpl in Hn; lia).
  f_equal. unfold s1. rewrite <- (assoc_L (++)). rec_eq.
Qed.

Lemma read_head_spec s D W C g hd :
  bview s D W ∅ ∅ C → k_log s = g → log_wf (load_head g hd) D → D !! l_start g = Some hd →
  ∃ s', read_head s = Ok tt s' ∧ only_log s s' ∧ k_log s' = load_head g hd ∧ bview s' D W ∅ ∅ C.
Proof.
  intros Hv Hg Hwf Hd. pose proof (lw_start _ _ Hwf) as Hst. pose proof (lw_end _ _ Hwf) as Hen.
  pose proof (lw_n _ _ Hwf) as Hn. pose proof (lw_dev _ _ Hwf) as Hdev. pose proof (lw_len _ _ Hwf) as Hll.
  pose proof (lw_buf _ _ Hwf) as Hnb. cbn in Hst, Hen, Hn, Hdev, Hll, Hnb.
  assert (Z.of_nat (length (head_blocks hd)) = head_n hd) as Hhb.
  { unfold head_blocks. rewrite length_fmap, length_seqZ. lia. }
  pose proof (bv_clean _ _ _ _ _ _ _ _ Hv (not_elem_of_empty _) (not_elem_of_empty _) Hd) as HC.
  unfold read_head, gets. mrun. rewrite Hg, Hdev, u32_small by (unfold is_u32; lia).
  destruct (bv_bread s D W ∅ ∅ C (l_start g) hd Hv Hd) as (bf & s1 & -> & V1 & A1 & S1 & _);
    [set_solver|right; rewrite union_empty_r_L, size_empty; by apply Nat.ltb_lt|].
  rewrite HC in A1. destruct (buf_at_get _ _ _ _ _ A1) as (x & -> & Hx & _). rewrite Hx.
  assert (k_log s1 = g) as Hg1 by (by rewrite (only_io_log _ _ (bs_only _ _ _ S1))).
  rewrite upd_log_eq, Hg1. fold (head_n hd). set (s2 := set_k_log _ s1).
  pose proof (read_loop_spec s2 (head_entry hd) [] (lh_block g) (Z.to_nat (head_n hd))) as Hloop.
  rewrite length_app, length_drop in Hll. unfold LOGSIZE, NBUF, MAXOPBLOCKS in *.
  rewrite Z2Nat.id in Hloop by lia. cbn [length app] in Hloop. change (Z.of_nat 0) with 0 in Hloop.
  unfold head_entry in Hloop at 1. rewrite Hloop by (done || lia). clear Hloop.
  set (s3 := set_k_log _ s2).
  assert (s3 = set_k_log (load_head g hd) s1) as ->.
  { unfold s3, s2, load_head. replace (length (head_blocks hd)) with (Z.to_nat (head_n hd)) by lia. rec_eq. }
  destruct (bv_brelse (set_k_log (load_head g hd) s1) D W ∅ _ C bf (l_start g) hd false
    (bview_set_log _ _ _ _ _ _ _ V1)) as (s4 & -> & V4 & S4); [exact A1|by right|].
  exists s4. pose proof (only_io_log _ _ (bs_only _ _ _ S4)) as Hg4. cbn in Hg4.
  split; [done|]. split; [|split; [done|]].
  - unfold only_log. rewrite Hg4. eapply only_io_trans; [apply only_io_set_log, S1|apply S4].
  - eapply bview_ext; [exact V4|done|set_solver|done].
Qed.

(** What recovery writes, given the disk. *)
Definition on_disk (D : gmap Z (list Z)) (n : Z) : list Z := default [] (D !! n).
Definition recover_writes (g : log) (D : gmap Z (list Z)) : list (Z * list Z) :=
  let hd := on_disk D (l_start g) in
  home_writes g (on_disk D) 0 (head_blocks hd) ++ [(l_start g, head_data [] hd)].

Lemma recover_spec s D W C g hd :
  bview s D W ∅ ∅ C → k_log s = g → log_wf (load_head g hd) D → D !! l_start g = Some hd →
  let ws := recover_writes g D in
  ∃ s' C', recover_from_log s = Ok tt s' ∧ only_log s s' ∧ lblocks (k_log s') = [] ∧
    bview s' (apply_writes D ws) (reverse ws ++ W) ∅ ∅ C'.
Proof.
  intros Hv Hg Hwf Hd ws. pose proof (log_area_head _ _ Hwf) as Hha. cbn in Hha.
  destruct (read_head_spec s D W C g hd Hv Hg Hwf Hd) as (s1 & H1 & O1 & G1 & V1).
  unfold recover_from_log, gets. mrun. rewrite H1. set (g1 := load_head g hd) in *.
  pose proof (lblocks_length _ _ Hwf) as Hlen.
  assert (lblocks g1 = head_blocks hd) as Hbs.
  { unfold lblocks, g1, load_head. cbn. cbn in Hlen. pose proof (lw_n _ _ Hwf). unfold g1 in *. cbn in *.
    apply take_app_length'. unfold head_blocks. rewrite length_fmap, length_seqZ. done. }
  destruct (install_loop_spec g1 (lblocks g1) [] s1 D W ∅ (on_disk D) C eq_refl V1 G1 Hwf) as (s2 & H2 & O2 & V2).
  { by right. }
  { intros n Hn. destruct (lw_area _ _ Hwf n Hn) as [d Hdn]. unfold on_disk. rewrite Hdn. cbn.
    eapply bv_clean; [exact V1|set_solver|set_solver|done]. }
  unfold install_trans, gets. mrun. rewrite G1. rewrite Hlen in H2. change (Z.of_nat (length [])) with 0 in H2.
  rewrite H2. assert (k_log s2 = g1) as G2 by (by rewrite (only_io_log _ _ O2)).
  rewrite upd_log_eq, G2. cbn [length] in V2. set (hw := home_writes g1 (on_disk D) 0 (lblocks g1)) in *.
  assert (l_start g ∉ hw.*1) as Hnh.
  { unfold hw. rewrite home_writes_keys. intros (_ & Hna & _)%(lw_block _ _ Hwf). by apply Hna. }
  destruct (write_head_spec (set_k_log (set_lh_n 0 g1) s2) _ _ ∅ _ (set_lh_n 0 g1) hd
    (bview_set_log _ _ _ _ _ _ _ V2) eq_refl) as (s3 & H3 & O3 & V3).
  - by apply log_wf_empty, log_wf_writes.
  - cbn. by rewrite apply_writes_other.
  - set_solver.
  - rewrite size_empty. by apply Nat.ltb_lt.
  - exists s3. eexists. split; [exact H3|]. pose proof (only_io_log _ _ O3) as G3. cbn in G3.
    split; [|split].
    + unfold only_log. rewrite G3. eapply only_io_trans; [|exact O3]. eapply only_io_trans; [|apply only_io_set_log, O2].
      apply (only_io_set_log (set_lh_n 0 g1)) in O1. exact O1.
    + by rewrite G3.
    + assert (ws = hw ++ [(l_start g, head_data [] hd)]) as ->.
      { unfold ws, recover_writes, hw. assert (on_disk D (l_start g) = hd) as -> by (unfold on_disk; by rewrite Hd).
        rewrite Hbs. f_equal. by apply home_writes_start. }
      rewrite apply_writes_app, reverse_app, <- (assoc_L (++)). exact V3.
Qed.

End Commit.
