(* ===== verification/LogCrash.v ===== *)
(** * LogCrash: a crash at any point leaves all or nothing of a transaction

    commit() may be cut short after any number of its disk writes; recovery may be
    cut short too. Whatever was written, running recover_from_log() on that disk
    gives every block outside the log its contents from before the transaction, or
    gives every block of the transaction its new contents. *)

From S2P Require Import Prelude Machine CMem DiskFmt Proc Bio BufSpec Log LogSpec LogCommit.
From stdpp Require Import options.

(** Replaying writes of which some have already happened. *)
Lemma apply_writes_absorb D ws k n :
  NoDup ws.*1 → apply_writes (apply_writes D (take k ws)) ws !! n = apply_writes D ws !! n.
Proof.
  intros Hnd. destruct (decide (n ∈ ws.*1)) as [((m & d) & -> & Hin)%list_elem_of_fmap|Hn].
  - by rewrite !(apply_writes_in _ ws m d).
  - rewrite !(apply_writes_other _ ws) by done. apply apply_writes_other.
    intros Hin. apply Hn. rewrite <- (take_drop k ws), fmap_app. apply elem_of_app. by left.
Qed.

Lemma take_keys (ws : list (Z * list Z)) k n : n ∈ (take k ws).*1 → n ∈ ws.*1.
Proof. intros H. rewrite <- (take_drop k ws), fmap_app. apply elem_of_app. by left. Qed.

Lemma apply_writes_agree D1 D2 ws n :
  D1 !! n = D2 !! n → apply_writes D1 ws !! n = apply_writes D2 ws !! n.
Proof.
  revert D1 D2. induction ws as [|w ws IH]; intros D1 D2 H; [done|].
  apply (IH (<[w.1 := w.2]> D1) (<[w.1 := w.2]> D2)). rewrite !lookup_insert. by case_decide.
Qed.

Lemma length_log_writes g C i bs : length (log_writes g C i bs) = length bs.
Proof. revert i. induction bs as [|b bs IH]; intros i; [done|]. cbn. by rewrite IH. Qed.

Lemma txn_lookup C bs D n :
  NoDup bs → apply_writes D (txn C bs) !! n = if decide (n ∈ bs) then Some (C n) else D !! n.
Proof.
  intros Hnd. case_decide as Hn.
  - apply apply_writes_in; [by rewrite txn_keys|]. apply list_elem_of_fmap. by exists n.
  - apply apply_writes_other. by rewrite txn_keys.
Qed.

Section Crash.
Context {E : Env}.

(** A log at the same place on the disk. *)
Record same_place (g g' : log) : Prop := {
  sp_dev : l_dev g' = l_dev g;
  sp_start : l_start g' = l_start g;
  sp_size : l_size g' = l_size g;
  sp_len : Z.of_nat (length (lh_block g')) = LOGSIZE
}.

Lemma load_head_blocks g hd :
  0 <= head_n hd → lblocks (load_head g hd) = head_blocks hd.
Proof.
  intros H. unfold lblocks, load_head. cbn. apply take_app_length'.
  unfold head_blocks. by rewrite length_fmap, length_seqZ.
Qed.

(** The header on the disk describes the transaction of [g0]. *)
Lemma load_head_wf g0 g hd D :
  same_place g0 g → log_wf g0 D → head_blocks hd = lblocks g0 → head_n hd = lh_n g0 → log_wf (load_head g hd) D.
Proof.
  intros [S1 S2 S3 S4] Hwf Hb Hn. pose proof (lblocks_length _ _ Hwf) as Hl.
  assert (lblocks (load_head g hd) = lblocks g0) as Hlb.
  { rewrite load_head_blocks; [done|]. rewrite Hn. apply Hwf. }
  destruct Hwf as [H1 H2 H3 H4 H5 H6 H7 H8 H9].
  assert (∀ n, log_area (load_head g hd) n ↔ log_area g0 n) as Ha.
  { intros n. unfold log_area, load_head. cbn. by rewrite S2, S3. }
  split; rewrite ?Hlb; cbn; try (rewrite ?S1, ?S2, ?S3, ?Hn; done).
  - rewrite length_app, length_drop, Hb. unfold LOGSIZE, NBUF, MAXOPBLOCKS in *. lia.
  - intros b Hin. rewrite Ha. auto.
  - intros n Hin. apply H9. by apply Ha.
Qed.

(** Recovery of a disk whose header describes the transaction of [g0]. *)
Lemma recover_of g0 s D W C hd :
  bview s D W ∅ ∅ C → same_place g0 (k_log s) → log_wf g0 D → D !! l_start g0 = Some hd →
  head_blocks hd = lblocks g0 → head_n hd = lh_n g0 →
  ∃ s', recover_from_log s = Ok tt s' ∧
    ∀ n, n ≠ l_start g0 → k_disk s' !! n = apply_writes D (home_writes g0 (on_disk D) 0 (lblocks g0)) !! n.
Proof.
  intros Hv Hsp Hwf Hd Hb Hn. pose proof (sp_start _ _ Hsp) as Hst.
  destruct (recover_spec s D W C (k_log s) hd Hv eq_refl) as (s' & C' & H & _ & _ & V).
  - by eapply load_head_wf.
  - by rewrite Hst.
  - exists s'. split; [done|]. intros n Hne. rewrite (bv_disk _ _ _ _ _ _ V). unfold recover_writes.
    rewrite apply_writes_app. rewrite (apply_writes_other _ [_]).
    + rewrite Hst. assert (on_disk D (l_start g0) = hd) as -> by (unfold on_disk; by rewrite Hd).
      rewrite Hb. by rewrite (home_writes_start (k_log s) g0).
    + rewrite Hst. cbn. by intros ->%list_elem_of_singleton.
Qed.

Lemma on_disk_writes D ws n : n ∉ ws.*1 → on_disk (apply_writes D ws) n = on_disk D n.
Proof. intros H. unfold on_disk. by rewrite apply_writes_other. Qed.

Lemma home_writes_ext g C C' i bs :
  (∀ k, (k < length bs)%nat → C (l_start g + Z.of_nat (i + k) + 1) = C' (l_start g + Z.of_nat (i + k) + 1)) →
  home_writes g C i bs = home_writes g C' i bs.
Proof.
  revert i. induction bs as [|b bs IH]; intros i H; [done|]. cbn. f_equal.
  - rewrite <- (Nat.add_0_r i). rewrite (H 0%nat) by (simpl; lia). done.
  - apply IH. intros k Hk. replace (S i + k)%nat with (i + S k)%nat by lia. apply H. simpl. lia.
Qed.

Lemma lblocks_area g D n : log_wf g D → log_area g n → n ∉ lblocks g.
Proof. intros Hwf Ha (_ & Hna & _)%(lw_block _ _ Hwf). by apply Hna. Qed.

(** The header that a commit writes last is empty. *)
Lemma head_data_nil d : 4 <= Z.of_nat (length d) → head_n (head_data [] d) = 0 ∧ head_blocks (head_data [] d) = [].
Proof.
  intros H. assert (head_n (head_data [] d) = 0) as Hn by (apply head_n_data; simpl; lia).
  split; [done|]. unfold head_blocks. by rewrite Hn.
Qed.

(** Before the header is written: the old contents. *)
Lemma crash_before g s D W C hd k C0 :
  log_wf g D → D !! l_start g = Some hd → head_n hd = 0 → (k <= length (lblocks g))%nat →
  bview s (apply_writes D (take k (log_writes g C0 0 (lblocks g)))) W ∅ ∅ C → same_place g (k_log s) →
  ∃ s', recover_from_log s = Ok tt s' ∧ ∀ n, ¬ log_area g n → k_disk s' !! n = D !! n.
Proof.
  intros Hwf Hd Hn Hk Hv Hsp. pose proof (lblocks_length _ _ Hwf) as Hl. pose proof (lw_n _ _ Hwf) as Hln.
  pose proof (log_area_head _ _ Hwf) as Hha.
  destruct (recover_of (set_lh_n 0 g) s _ W C hd Hv) as (s' & Hr & Hdk).
  - destruct Hsp. by split.
  - by apply log_wf_empty, log_wf_writes.
  - cbn. rewrite apply_writes_other; [done|]. intros ?%take_keys%log_writes_area. lia.
  - unfold head_blocks. by rewrite Hn.
  - done.
  - exists s'. split; [done|]. intros n Hna. rewrite Hdk by (cbn; by intros ->).
    rewrite apply_writes_other by (rewrite home_writes_keys; apply not_elem_of_nil). rewrite apply_writes_other; [done|].
    intros ?%take_keys%log_writes_area. apply Hna. unfold log_area. lia.
Qed.

(** After it, with some of the blocks at home: the new contents. *)
Lemma crash_after g s D W C hd j C0 :
  log_wf g D → Z.of_nat (length hd) = BSIZE →
  bview s (apply_writes D (log_writes g C0 0 (lblocks g) ++ (l_start g, head_data (lblocks g) hd) ::
             take j (txn C0 (lblocks g)))) W ∅ ∅ C → same_place g (k_log s) →
  ∃ s', recover_from_log s = Ok tt s' ∧
    ∀ n, ¬ log_area g n → k_disk s' !! n = apply_writes D (txn C0 (lblocks g)) !! n.
Proof.
  intros Hwf Hlen Hv Hsp. pose proof (lblocks_length _ _ Hwf) as Hl. pose proof (lw_n _ _ Hwf) as Hln.
  pose proof (lw_buf _ _ Hwf) as Hnb. pose proof (log_area_head _ _ Hwf) as Hha.
  unfold NBUF, MAXOPBLOCKS, BSIZE in *. set (bs := lblocks g) in *.
  set (lw := log_writes g C0 0 bs) in *. set (D1 := <[l_start g := head_data bs hd]> (apply_writes D lw)).
  rewrite apply_writes_app in Hv. change (bview s (apply_writes D1 (take j (txn C0 bs))) W ∅ ∅ C) in Hv.
  assert (∀ n, n ∉ bs → n ∉ (take j (txn C0 bs)).*1) as Htk.
  { intros n Hn H%take_keys. by rewrite txn_keys in H. }
  destruct (recover_of g s _ W C (head_data bs hd) Hv Hsp) as (s' & Hr & Hdk).
  - by apply log_wf_writes, log_wf_insert, log_wf_writes.
  - rewrite apply_writes_other; [apply lookup_insert_eq|]. apply Htk. by eapply lblocks_area.
  - fold bs. apply head_blocks_data; [lia|lia|]. intros b Hb. by apply (lw_block _ _ Hwf).
  - rewrite head_n_data; lia.
  - exists s'. split; [done|]. intros n Hna. rewrite Hdk by (by intros ->). fold bs.
    rewrite (home_writes_txn g C0).
    + rewrite apply_writes_absorb by (rewrite txn_keys; apply Hwf). apply apply_writes_agree.
      unfold D1. rewrite lookup_insert_ne by (by intros <-). apply apply_writes_other.
      intros ?%log_writes_area. apply Hna. unfold log_area. fold bs in Hl. lia.
    + intros k b Hk. assert (k < length bs)%nat by (by eapply lookup_lt_Some).
      rewrite on_disk_writes by (apply Htk; eapply lblocks_area; [done|]; unfold log_area; fold bs in Hl; lia).
      unfold on_disk, D1. rewrite lookup_insert_ne by lia.
      rewrite (apply_writes_in _ _ _ (C0 b)); [done|apply log_writes_nodup|by apply log_writes_in].
Qed.

(** After the last write: nothing is left to do. *)
Lemma crash_done g s D W C hd C0 :
  log_wf g D → Z.of_nat (length hd) = BSIZE →
  bview s (apply_writes D (commit_writes g C0 hd)) W ∅ ∅ C → same_place g (k_log s) →
  ∃ s', recover_from_log s = Ok tt s' ∧
    ∀ n, ¬ log_area g n → k_disk s' !! n = apply_writes D (txn C0 (lblocks g)) !! n.
Proof.
  intros Hwf Hlen Hv Hsp. pose proof (lblocks_length _ _ Hwf) as Hl. pose proof (lw_n _ _ Hwf) as Hln.
  pose proof (log_area_head _ _ Hwf) as Hha. unfold BSIZE in *.
  set (h1 := head_data (lblocks g) hd). destruct (head_data_nil h1) as [Hn0 Hb0].
  { unfold h1. rewrite length_head_data. lia. }
  assert (apply_writes D (commit_writes g C0 hd) =
    <[l_start g := head_data [] h1]> (apply_writes (<[l_start g := h1]>
      (apply_writes D (log_writes g C0 0 (lblocks g)))) (txn C0 (lblocks g)))) as HD.
  { unfold commit_writes. rewrite apply_writes_app. cbn [apply_writes foldl fst snd].
    rewrite foldl_app. done. }
  destruct (recover_of (set_lh_n 0 g) s _ W C (head_data [] h1) Hv) as (s' & Hr & Hdk).
  - destruct Hsp. by split.
  - by apply log_wf_empty, log_wf_writes.
  - rewrite HD. apply lookup_insert_eq.
  - exact Hb0.
  - exact Hn0.
  - exists s'. split; [done|]. intros n Hna. rewrite Hdk by (cbn; by intros ->).
    rewrite apply_writes_other by (rewrite home_writes_keys; apply not_elem_of_nil). rewrite HD, lookup_insert_ne by (by intros <-).
    apply apply_writes_agree. rewrite lookup_insert_ne by (by intros <-). apply apply_writes_other.
    intros ?%log_writes_area. apply Hna. unfold log_area. lia.
Qed.

(** What a crash during commit() and the recovery after it leave of the disk. *)
Lemma commit_crash s D W Q C g hd :
  bview s D W Q ∅ C → k_log s = g → log_wf g D → D !! l_start g = Some hd →
  Z.of_nat (length hd) = BSIZE → head_n hd = 0 → Q ≡ list_to_set (lblocks g) → 0 < lh_n g →
  ∃ s' ws, commit s = Ok tt s' ∧ k_dwrites s' = reverse ws ++ W ∧ lblocks (k_log s') = [] ∧
    ∀ k s2 W2 C2,
      bview s2 (apply_writes D (take k ws)) W2 ∅ ∅ C2 → same_place g (k_log s2) →
      ∃ s3, recover_from_log s2 = Ok tt s3 ∧
        ∀ n, ¬ log_area g n →
          k_disk s3 !! n =
            if decide (k <= length (lblocks g))%nat then D !! n
            else if decide (n ∈ lblocks g) then Some (C n) else D !! n.
Proof.
  intros Hv Hg Hwf Hd Hlen Hn0 HQ Hpos.
  destruct (commit_spec s D W Q C g hd Hv Hg Hwf Hd HQ Hpos) as (s' & C' & Hc & _ & Hg' & V).
  exists s', (commit_writes g C hd). split; [done|]. split; [apply V|]. split; [by rewrite Hg'|].
  intros k s2 W2 C2 Hv2 Hsp.
  set (lw := log_writes g C 0 (lblocks g)). assert (length lw = length (lblocks g)) as Hll by apply length_log_writes.
  unfold commit_writes in Hv2. fold lw in Hv2. case_decide as Hk.
  { rewrite take_app_le in Hv2 by lia. by eapply crash_before. }
  rewrite take_app_ge in Hv2 by lia. destruct (k - length lw)%nat as [|j] eqn:Ej; [lia|].
  cut (∃ s3, recover_from_log s2 = Ok tt s3 ∧
    ∀ n, ¬ log_area g n → k_disk s3 !! n = apply_writes D (txn C (lblocks g)) !! n).
  { intros (s3 & Hr & Hdk). exists s3. split; [done|]. intros n Hna. by rewrite Hdk, txn_lookup by (done || apply Hwf). }
  cbn [take] in Hv2. destruct (decide (j <= length (lblocks g))%nat) as [Hj|Hj].
  - rewrite take_app_le in Hv2 by (unfold txn; rewrite length_fmap; lia). by eapply crash_after.
  - rewrite (take_ge (txn _ _ ++ _)) in Hv2 by (rewrite length_app; unfold txn; rewrite length_fmap; simpl; lia).
    by eapply crash_done.
Qed.

(** C1. Crash safety: commit() succeeds, and after a crash that lets only the first
    [k] of its disk writes through, recover_from_log() on the rebooted system
    succeeds and gives every block outside the log its contents from before the
    transaction when the header was not yet written ([k] at most the number of logged
    blocks), and those of the whole transaction when it was. *)
Theorem commit_crash_safe s D W Q C g hd :
  bview s D W Q ∅ C → k_log s = g → log_wf g D → D !! l_start g = Some hd →
  Z.of_nat (length hd) = BSIZE → head_n hd = 0 → Q ≡ list_to_set (lblocks g) → 0 < lh_n g →
  ∃ s' ws, commit s = Ok tt s' ∧ k_dwrites s' = reverse ws ++ W ∧ lblocks (k_log s') = [] ∧
    ∀ k s2 W2 C2,
      bview s2 (apply_writes D (take k ws)) W2 ∅ ∅ C2 → same_place g (k_log s2) →
      ∃ s3, recover_from_log s2 = Ok tt s3 ∧
        ∀ n, ¬ log_area g n →
          k_disk s3 !! n =
            if decide (k <= length (lblocks g))%nat then D !! n
            else if decide (n ∈ lblocks g) then Some (C n) else D !! n.
Proof. apply commit_crash. Qed.

(** C7. Recovery may itself be cut short, any number of times: recover_from_log()
    succeeds, and after a crash that lets only the first [k] of its writes through,
    running it again succeeds and gives every block but the log header what the
    uninterrupted recovery gives it. *)
Theorem recovery_restarts s D W C g hd :
  bview s D W ∅ ∅ C → k_log s = g → log_wf (load_head g hd) D → D !! l_start g = Some hd →
  Z.of_nat (length hd) = BSIZE →
  ∃ s' ws, recover_from_log s = Ok tt s' ∧ k_dwrites s' = reverse ws ++ W ∧
    ∀ k s2 W2 C2,
      bview s2 (apply_writes D (take k ws)) W2 ∅ ∅ C2 → same_place (load_head g hd) (k_log s2) →
      ∃ s3, recover_from_log s2 = Ok tt s3 ∧ ∀ n, n ≠ l_start g → k_disk s3 !! n = k_disk s' !! n.
Proof.
  intros Hv Hg Hwf Hd Hlen. set (g1 := load_head g hd) in *.
  pose proof (lw_n _ _ Hwf) as Hn. pose proof (log_area_head _ _ Hwf) as Hha.
  assert (lblocks g1 = head_blocks hd) as Hbs by (apply load_head_blocks, Hn).
  pose proof (lblocks_length _ _ Hwf) as Hll. rewrite Hbs in Hll.
  destruct (recover_spec s D W C g hd Hv Hg Hwf Hd) as (s' & C' & Hr & _ & _ & V).
  exists s', (recover_writes g D). split; [done|]. split; [apply V|].
  intros k s2 W2 C2 Hv2 Hsp. rewrite (bv_disk _ _ _ _ _ _ V). unfold recover_writes in *.
  assert (on_disk D (l_start g) = hd) as Hod by (unfold on_disk; by rewrite Hd). rewrite Hod in *.
  rewrite (home_writes_start g g1) in * by done. set (hw := home_writes g1 (on_disk D) 0 (head_blocks hd)) in *.
  assert (hw.*1 = head_blocks hd) as Hk by apply home_writes_keys.
  assert (∀ n, log_area g1 n → n ∉ hw.*1) as Hna.
  { intros n Ha. rewrite Hk, <- Hbs. by eapply lblocks_area. }
  assert (∀ n, n ≠ l_start g → apply_writes D (hw ++ [(l_start g, head_data [] hd)]) !! n = apply_writes D hw !! n) as Hlast.
  { intros n Hne. rewrite apply_writes_app. apply apply_writes_other. cbn. by intros ->%list_elem_of_singleton. }
  destruct (decide (k <= length hw)%nat) as [Hle|Hgt].
  - rewrite take_app_le in Hv2 by done.
    destruct (recover_of g1 s2 _ W2 C2 hd Hv2 Hsp) as (s3 & Hr3 & Hd3).
    { by apply log_wf_writes. }
    { rewrite apply_writes_other; [done|]. intros ?%take_keys. by apply (Hna (l_start g)). }
    { done. } { done. }
    exists s3. split; [done|]. intros n Hne. rewrite Hd3, Hlast, Hbs by done.
    rewrite (home_writes_ext g1 _ (on_disk D)).
    { fold hw. apply apply_writes_absorb. rewrite Hk, <- Hbs. apply Hwf. }
    intros i Hi. apply on_disk_writes. intros ?%take_keys. apply (Hna (l_start g1 + Z.of_nat (0 + i) + 1)); [|done].
    unfold log_area. lia.
  - rewrite take_ge in Hv2 by (rewrite length_app; simpl; lia). destruct (head_data_nil hd) as [Hn0 Hb0].
    { unfold BSIZE in Hlen. lia. }
    destruct (recover_of (set_lh_n 0 g1) s2 _ W2 C2 (head_data [] hd) Hv2) as (s3 & Hr3 & Hd3).
    { destruct Hsp. by split. }
    { by apply log_wf_empty, log_wf_writes. }
    { rewrite apply_writes_app. apply lookup_insert_eq. }
    { done. } { done. }
    exists s3. split; [done|]. intros n Hne. rewrite Hd3 by done. apply apply_writes_other.
    rewrite home_writes_keys. apply not_elem_of_nil.
Qed.

End Crash.

(** ** A transaction of two blocks *)

Section Example.
#[local] Existing Instance env_idle.

(** The log is blocks 2 to 6; blocks 40 and 41 are data. *)
Definition block (v : Z) : list Z := replicate 512 v.
Definition disk_ex : gmap Z (list Z) :=
  list_to_map [(2, block 0); (3, block 0); (4, block 0); (5, block 0); (6, block 0); (40, block 7); (41, block 8)].
Definition write_block (n v : Z) : K unit :=
  b ← bread 1 n; upd_buf b (set_b_data (block v)) ;; log_write b ;; brelse b.
Definition boot_ex : K unit :=
  binit ;; modify (set_k_disk disk_ex) ;; modify (set_k_log (mklog 2 5 0 0 1 0 (replicate 30 0))).
Definition transaction_ex : K unit :=
  boot_ex ;; begin_op ;; write_block 40 1 ;; write_block 41 2.
Definition after (m : K unit) : kstate := match m kstate0 with Ok _ s => s | _ => kstate0 end.
Definition txn_ex : kstate := Eval vm_compute in after transaction_ex.

Lemma disk_ex_area n : 2 <= n < 7 → is_Some (disk_ex !! n).
Proof.
  intros H. assert (n = 2 ∨ n = 3 ∨ n = 4 ∨ n = 5 ∨ n = 6) as [-> | [-> | [-> | [-> | ->]]]] by lia; by eexists.
Qed.

Lemma txn_ex_wf : log_wf (k_log txn_ex) disk_ex.
Proof.
  split; [done|done|done|by vm_compute|done|done|..].
  - intros b Hb. change (b ∈ [40; 41]) in Hb. unfold log_area. cbn.
    rewrite elem_of_cons, list_elem_of_singleton in Hb. destruct Hb as [-> | ->]; (split; [lia|]; split; [lia|by eexists]).
  - change (NoDup [40; 41]). apply NoDup_cons. split; [rewrite list_elem_of_singleton; lia|apply NoDup_singleton].
  - exact disk_ex_area.
Qed.

Lemma commit_crash_safe_witness :
  ∃ s' ws, commit txn_ex = Ok tt s' ∧ k_dwrites s' = reverse ws ++ [] ∧ lblocks (k_log s') = [] ∧
    ∀ k s2 W2 C2,
      bview s2 (apply_writes disk_ex (take k ws)) W2 ∅ ∅ C2 → same_place (k_log txn_ex) (k_log s2) →
      ∃ s3, recover_from_log s2 = Ok tt s3 ∧
        ∀ n, ¬ log_area (k_log txn_ex) n →
          k_disk s3 !! n =
            if decide (k <= length (lblocks (k_log txn_ex)))%nat then disk_ex !! n
            else if decide (n ∈ lblocks (k_log txn_ex)) then Some (blk txn_ex n) else disk_ex !! n.
Proof.
  apply (commit_crash_safe txn_ex disk_ex [] (list_to_set [41; 40]) (blk txn_ex) (k_log txn_ex) (block 0)).
  - apply (bview_check txn_ex ([1; 0] ++ reverse (seq 2 28))%nat); [|by vm_compute]. split_and!; try done; vm_compute; lia.
  - done.
  - exact txn_ex_wf.
  - done.
  - done.
  - done.
  - change (lblocks (k_log txn_ex)) with [40; 41]. set_solver.
  - done.
Defined.

(** The machine rebooted when the header of that transaction had reached the disk. *)
Definition head_ex : list Z := head_data [40; 41] (block 0).
Definition crashed_disk_ex : gmap Z (list Z) :=
  <[2 := head_ex]> (<[3 := block 1]> (<[4 := block 2]> disk_ex)).
Definition crashed_ex : kstate :=
  Eval vm_compute in after (boot_ex ;; modify (set_k_disk crashed_disk_ex)).

Lemma crashed_ex_wf : log_wf (load_head (k_log crashed_ex) head_ex) crashed_disk_ex.
Proof.
  unfold crashed_disk_ex. do 3 apply log_wf_insert.
  apply (load_head_wf (k_log txn_ex)); [by split|exact txn_ex_wf|by vm_compute|by vm_compute].
Qed.

Lemma recovery_restarts_witness :
  ∃ s' ws, recover_from_log crashed_ex = Ok tt s' ∧ k_dwrites s' = reverse ws ++ [] ∧
    ∀ k s2 W2 C2,
      bview s2 (apply_writes crashed_disk_ex (take k ws)) W2 ∅ ∅ C2 →
      same_place (load_head (k_log crashed_ex) head_ex) (k_log s2) →
      ∃ s3, recover_from_log s2 = Ok tt s3 ∧ ∀ n, n ≠ 2 → k_disk s3 !! n = k_disk s' !! n.
Proof.
  apply (recovery_restarts crashed_ex crashed_disk_ex [] (blk crashed_ex) (k_log crashed_ex) head_ex).
  - apply (bview_check crashed_ex (reverse (seq 0 30))%nat); [|by vm_compute]. split_and!; try done; vm_compute; lia.
  - done.
  - exact crashed_ex_wf.
  - done.
  - done.
Defined.

End Example.
