(* ===== verification/LogTxn.v ===== *)
(** * LogTxn: what a system call sees of the log

    log_write() adds a block to the current transaction once, however often it is
    written; begin_op() may admit more operations than the log has room for. *)

From S2P Require Import Prelude Machine CMem DiskFmt Proc Bio BufSpec Log LogSpec LogCommit LogCrash.
From stdpp Require Import options.

Section Txn.
Context {E : Env}.

Lemma bv_bmark s D W Q B C b n d q :
  bview s D W Q B C → buf_at s b n d q →
  ∃ s', upd_buf b (λ x, set_b_flags (Z.lor (b_flags x) B_DIRTY) x) s = Ok tt s' ∧
    bview s' D W ({[ n ]} ∪ Q) B C ∧ buf_at s' b n d true ∧ bstep s s' b.
Proof.
  intros [[l Hinv] Hio HD HW Hq Hb Hc] Hat.
  destruct (bmark_spec s l b n d q Hinv Hat) as (s' & Hr & Hst & Hinv' & Hat' & Hdk & Hw & Hbl & Hdi & Hbu).
  exists s'. split; [done|]. split; [|done].
  split; [by exists l|eapply only_io_ok; [apply Hst|done]|congruence|congruence|..]; intros m.
  - rewrite Hdi, Hq. set_solver.
  - by rewrite Hbu.
  - by rewrite Hbl.
Qed.

(** The search of log_write() finds the block's place in the transaction, or the end. *)
Lemma log_find_spec s g D n :
  k_log s = g → log_wf g D → 0 <= n < 2147483648 →
  ∃ i, log_find (lh_n g) n s = Ok (Z.of_nat i) s ∧
    ((n ∉ lblocks g ∧ i = length (lblocks g)) ∨ lblocks g !! i = Some n).
Proof.
  intros Hg Hwf Hn. pose proof (lblocks_length _ _ Hwf) as Hl.
  cut (∀ bs pre, lblocks g = pre ++ bs →
    ∃ r, for_ret (seqZ (Z.of_nat (length pre)) (Z.of_nat (length bs))) (λ i,
      x ← get_block i; mret (if u32 x =? n then Some i else None)) s = Ok r s ∧
    match r with
    | None => n ∉ bs
    | Some z => ∃ i : nat, z = Z.of_nat i ∧ lblocks g !! i = Some n
    end).
  { intros H. destruct (H (lblocks g) [] eq_refl) as (r & Hr & Hres). rewrite Hl in Hr.
    change (Z.of_nat (length [])) with 0 in Hr. unfold log_find. rewrite (bind_Ok _ _ _ _ _ Hr).
    destruct r as [z|].
    - destruct Hres as (i & -> & Hi). exists i. split; [done|by right].
    - exists (length (lblocks g)). split; [|by left]. mrun. f_equal. rewrite Hl.
      pose proof (lw_n _ _ Hwf). cbn. lia. }
  induction bs as [|b bs IH]; intros pre Hbs.
  { exists None. split; [done|]. apply not_elem_of_nil. }
  assert (lblocks g !! length pre = Some b) as Hi by (rewrite Hbs; by apply list_lookup_middle).
  assert (0 <= b < 2147483648) as Hb by (apply (lw_block _ _ Hwf); by eapply list_elem_of_lookup_2).
  rewrite seqZ_cons by (simpl; lia). cbn [for_ret].
  rewrite (bind_Ok _ _ s (if u32 b =? n then Some (Z.of_nat (length pre)) else None) s)
    by (rewrite (bind_Ok _ _ _ b s); [done|by eapply lblocks_get]).
  rewrite u32_small by (unfold is_u32; lia). destruct (Z.eqb_spec b n) as [-> |Hne].
  - eexists. split; [done|]. by exists (length pre).
  - destruct (IH (pre ++ [b]) ltac:(by rewrite <- (assoc_L (++)))) as (r & Hr & Hres).
    exists r. rewrite length_app in Hr. simpl length in *.
    replace (Z.succ (Z.of_nat (length pre))) with (Z.of_nat (length pre + 1)) by lia.
    replace (Z.pred (Z.of_nat (S (length bs)))) with (Z.of_nat (length bs)) by lia.
    split; [done|]. destruct r; [done|]. apply not_elem_of_cons. split; [congruence|done].
Qed.

(** [log.lh.block[i] = n] and the increment of [n], when [i] comes from the search. *)
Definition logged (g : log) (n : Z) : list Z := if decide (n ∈ lblocks g) then lblocks g else lblocks g ++ [n].

Lemma logged_entry g D i n :
  log_wf g D → lh_n g < LOGSIZE → (n ∉ lblocks g ∧ i = length (lblocks g)) ∨ lblocks g !! i = Some n →
  let g' := set_lh_block (<[i := n]> (lh_block g)) g in
  lblocks (if Z.of_nat i =? lh_n g then set_lh_n (lh_n g + 1) g' else g') = logged g n.
Proof.
  intros Hwf Hlt Hi g'. pose proof (lblocks_length _ _ Hwf) as Hl. pose proof (lw_len _ _ Hwf) as Hll.
  pose proof (lw_n _ _ Hwf) as Hn. unfold logged. destruct Hi as [[Hni ->]|Hi].
  - rewrite decide_False by done. rewrite (proj2 (Z.eqb_eq _ _)) by done. unfold lblocks at 1. cbn.
    replace (length (lblocks g)) with (Z.to_nat (lh_n g)) by lia. unfold lblocks.
    replace (Z.to_nat (lh_n g + 1)) with (S (Z.to_nat (lh_n g))) by lia.
    rewrite (take_S_r _ _ n) by (apply list_lookup_insert_eq; lia). f_equal. apply take_insert_ge. lia.
  - assert (n ∈ lblocks g) as Hin by (by eapply list_elem_of_lookup_2). rewrite decide_True by done.
    pose proof (lookup_lt_Some _ _ _ Hi). rewrite (proj2 (Z.eqb_neq _ _)) by lia. unfold lblocks, g'. cbn.
    rewrite list_insert_id; [done|]. unfold lblocks in Hi. by apply lookup_take_Some in Hi as [? _].
Qed.

Lemma bview_set_held h s D W Q B C :
  bview s D W Q B C → Lbcache ∉ h → Lptable ∉ h → bview (set_k_held h s) D W Q B C.
Proof.
  intros [[l [B1 B2 B3]] (I1 & I2 & I3 & I4) HD HW Hq Hb Hc] H1 H2. split; try done.
  exists l. by split.
Qed.

Lemma logged_nodup g D n : log_wf g D → NoDup (logged g n).
Proof.
  intros Hwf. unfold logged. case_decide; [apply Hwf|]. apply NoDup_app. split; [apply Hwf|].
  split; [|apply NoDup_singleton]. intros m Hm ->%list_elem_of_singleton. done.
Qed.

(** The log's state after log_write() of block [n], found at [i]. *)
Definition log_entry (g : log) (i : nat) (n : Z) : log :=
  let g' := set_lh_block (<[i := n]> (lh_block g)) g in
  if Z.of_nat i =? lh_n g then set_lh_n (lh_n g + 1) g' else g'.

Lemma log_entry_wf g D i n :
  log_wf g D → lh_n g < LOGSIZE → lh_n g < l_size g - 1 → lh_n g + 1 < NBUF →
  (n ∉ lblocks g ∧ i = length (lblocks g)) ∨ lblocks g !! i = Some n →
  0 <= n < 2147483648 → ¬ log_area g n → is_Some (D !! n) → log_wf (log_entry g i n) D.
Proof.
  intros Hwf H1 H2 H3 Hi Hn Hna HD. pose proof (logged_entry g D i n Hwf H1 Hi) as Hlb. cbv zeta in Hlb.
  fold (log_entry g i n) in Hlb. pose proof (logged_nodup g D n Hwf) as Hnd.
  assert (∀ b, b ∈ logged g n → b ∈ lblocks g ∨ b = n) as Hin.
  { intros b. unfold logged. case_decide; [by left|]. rewrite elem_of_app, list_elem_of_singleton. tauto. }
  destruct Hwf as [W1 W2 W3 W4 W5 W6 W7 W8 W9].
  assert (∀ b, b ∈ logged g n → 0 <= b < 2147483648 ∧ ¬ log_area g b ∧ is_Some (D !! b)) as Hb.
  { intros b [?| ->]%Hin; [auto|done]. }
  clear Hi Hin W7 W8. split; rewrite ?Hlb; try done;
    unfold log_entry in *; destruct (Z.of_nat i =? lh_n g); cbn; try done; try lia;
    by rewrite length_insert.
Qed.

(** log_write() of a block the caller holds. *)
Lemma log_write_spec s D W Q B C g b n d q :
  bview s D W Q B C → buf_at s b n d q → k_log s = g → log_wf g D → Llog ∉ k_held s →
  lh_n g < LOGSIZE → lh_n g < l_size g - 1 → 1 <= l_outstanding g → 0 <= n < 2147483648 →
  ∃ s' i, log_write b s = Ok tt s' ∧ k_log s' = log_entry g i n ∧
    ((n ∉ lblocks g ∧ i = length (lblocks g)) ∨ lblocks g !! i = Some n) ∧
    only_log s s' ∧ bview s' D W ({[ n ]} ∪ Q) B C ∧ buf_at s' b n d true ∧
    (∀ b' n' d' q', b' ≠ b → buf_at s b' n' d' q' → buf_at s' b' n' d' q').
Proof.
  intros Hv Hat Hg Hwf Hl H1 H2 H3 Hn. pose proof (lblocks_length _ _ Hwf) as Hlen.
  pose proof (lw_n _ _ Hwf) as Hln. destruct (bv_io _ _ _ _ _ _ Hv) as (I1 & I2 & _ & _).
  unfold log_write, gets. mrun. rewrite Hg.
  rewrite (proj2 (orb_false_iff _ _)) by (rewrite !Z.geb_leb, !Z.leb_gt; lia).
  rewrite (proj2 (Z.ltb_ge _ _)) by lia. rewrite (acquire_free _ _ Hl). set (s1 := set_k_held _ s).
  assert (bview s1 D W Q B C) as V1 by (apply bview_set_held; [done|set_solver..]).
  change (k_log s1) with (k_log s). rewrite Hg.
  destruct (buf_at_get s1 b n d q Hat) as (x & -> & _ & ->).
  destruct (log_find_spec s1 g D n Hg Hwf Hn) as (i & -> & Hi).
  assert (i <= length (lblocks g))%nat as Hile.
  { destruct Hi as [[_ ->]|Hi]; [done|]. apply lookup_lt_Some in Hi. lia. }
  unfold set_block. rewrite (proj2 (andb_true_iff _ _)) by (rewrite Z.leb_le, Z.ltb_lt; lia).
  rewrite upd_log_eq, Nat2Z.id, s32_small by lia. change (k_log s1) with (k_log s). rewrite Hg.
  set (m := if Z.of_nat i =? lh_n g then _ else _).
  set (s2 := set_k_log (log_entry g i n) s1).
  assert (m (set_k_log (set_lh_block (<[i := n]> (lh_block g)) g) s1) = Ok tt s2) as ->.
  { unfold m, s2, log_entry. destruct (Z.of_nat i =? lh_n g); [|done]. rewrite upd_log_eq. f_equal. }
  assert (bview s2 D W Q B C) as V2 by (by apply bview_set_log).
  destruct (bv_bmark s2 D W Q B C b n d q V2 Hat) as (s3 & -> & V3 & A3 & S3).
  pose proof (bs_only _ _ _ S3) as [O3 O3l]. assert (k_held s3 = {[ Llog ]} ∪ k_held s) as Hh3 by (by rewrite O3).
  rewrite release_held by (rewrite Hh3; set_solver).
  eexists _, i. split; [done|]. split; [cbn; by rewrite O3|]. split; [done|]. split; [|split; [|split]].
  - unfold only_log. cbn. split; [|exact O3l]. rewrite Hh3, held_roundtrip by done. rewrite O3. rec_eq.
  - apply bview_set_held; [done|rewrite Hh3; set_solver..].
  - exact A3.
  - intros b' n' d' q' Hb Hat'. exact (bs_other _ _ _ S3 b' n' d' q' Hb Hat').
Qed.

(** C24. log_write() by the holder of a buffer, inside an operation and with room in
    the log, succeeds: the block is in the transaction exactly once (absorption of a
    repeated write), its buffer is dirty and so stays in the cache, neither the
    disk nor any block's contents change, and the log stays well formed. *)
Theorem log_write_absorbs s D W Q B C g b n d q :
  bview s D W Q B C → buf_at s b n d q → k_log s = g → log_wf g D → Llog ∉ k_held s →
  lh_n g < l_size g - 1 → l_size g <= LOGSIZE → 1 <= l_outstanding g →
  0 <= n < 2147483648 → ¬ log_area g n → is_Some (D !! n) →
  ∃ s', log_write b s = Ok tt s' ∧
    lblocks (k_log s') = (if decide (n ∈ lblocks g) then lblocks g else lblocks g ++ [n]) ∧
    NoDup (lblocks (k_log s')) ∧ log_wf (k_log s') D ∧ only_log s s' ∧
    bview s' D W ({[ n ]} ∪ Q) B C ∧ buf_at s' b n d true.
Proof.
  intros Hv Hat Hg Hwf Hl H1 H2 H3 Hn Hna HD. pose proof (lw_n _ _ Hwf) as Hln.
  destruct (log_write_spec s D W Q B C g b n d q Hv Hat Hg Hwf Hl) as (s' & i & Hr & Hg' & Hi & Ho & V & A & _);
    [unfold LOGSIZE, MAXOPBLOCKS in *; lia..|].
  assert (log_wf (k_log s') D) as Hwf'.
  { rewrite Hg'. apply log_entry_wf; try done; unfold NBUF, LOGSIZE, MAXOPBLOCKS in *; lia. }
  exists s'. split; [done|]. split; [|by split; [apply Hwf'|]].
  rewrite Hg'. apply (logged_entry g D); [done|unfold LOGSIZE, MAXOPBLOCKS in *; lia|done].
Qed.

(** C40. The reservation of begin_op() is off by one. In a log of LOGSIZE blocks it admits
    the operation that brings the blocks promised (those in the log, and MAXOPBLOCKS for
    each operation) up to LOGSIZE exactly; but log_write() keeps one block back for the
    header, and panics as soon as LOGSIZE - 1 blocks are in the log: the last
    block promised cannot be written, and neither can one that is in the log already. *)
Theorem log_space_overbooked s g :
  k_log s = g → l_committing g = 0 → Llog ∉ k_held s → (0 < wakeups)%nat →
  lh_n g + (l_outstanding g + 1) * MAXOPBLOCKS = LOGSIZE →
  (∃ s', begin_op s = Ok tt s' ∧ k_log s' = set_l_outstanding (l_outstanding g + 1) g) ∧
  (∀ s1 b, l_size (k_log s1) = LOGSIZE → lh_n (k_log s1) = LOGSIZE - 1 →
     log_write b s1 = Panic "too big a transaction").
Proof.
  intros Hg Hc Hl Hw Hn. split.
  - unfold begin_op. rewrite (bind_Ok _ _ _ _ _ (acquire_free _ _ Hl)). destruct wakeups as [|n]; [lia|]. cbn [loop].
    unfold gets. mrun. cbn [k_log set_k_held]. rewrite Hg, Hc, Hn. change (LOGSIZE >? LOGSIZE) with false. cbn [negb Z.eqb].
    rewrite upd_log_eq. cbn [k_log set_k_held]. rewrite release_held by (cbn; set_solver). eexists. split; [done|]. cbn. by rewrite Hg.
  - intros s1 b Hs Hn1. unfold log_write, gets. mrun. rewrite Hs, Hn1. done.
Qed.

End Txn.

Section Example.
#[local] Existing Instance env_idle.

(** Block 40 is in the transaction already, and its buffer is held again. *)
Definition rewrite_ex : kstate :=
  Eval vm_compute in after (transaction_ex ;; b ← bread 1 40; mret tt).

Lemma log_write_absorbs_witness :
  ∃ s', log_write 0 rewrite_ex = Ok tt s' ∧
    lblocks (k_log s') = (if decide (40 ∈ [40; 41]) then [40; 41] else [40; 41] ++ [40]) ∧
    NoDup (lblocks (k_log s')) ∧ log_wf (k_log s') disk_ex ∧ only_log rewrite_ex s' ∧
    bview s' disk_ex [] ({[ 40 ]} ∪ list_to_set [40; 41]) (list_to_set [40]) (blk rewrite_ex) ∧
    buf_at s' 0 40 (block 1) true.
Proof.
  apply (log_write_absorbs rewrite_ex disk_ex [] (list_to_set [40; 41]) (list_to_set [40]) (blk rewrite_ex)
    (k_log txn_ex) 0 40 (block 1) true).
  - apply (bview_check rewrite_ex ([1; 0] ++ reverse (seq 2 28))%nat); [|by vm_compute].
    split_and!; try done; vm_compute; lia.
  - eexists. split; [split; [apply Nat.ltb_lt|]; reflexivity|]. done.
  - done.
  - exact txn_ex_wf.
  - vm_compute. done.
  - done.
  - done.
  - done.
  - done.
  - unfold log_area. cbn. lia.
  - by eexists.
Defined.

(** Three operations, each allowed MAXOPBLOCKS blocks, over a log of the size mkfs
    gives it: the first two, and all three with [n] of the blocks they were
    promised written. *)
Definition two_ops : K unit :=
  binit ;;
  modify (set_k_disk (list_to_map ((λ n, (n, block 0)) <$> seqZ 0 130))) ;;
  modify (set_k_log (mklog 2 LOGSIZE 0 0 1 0 (replicate 30 0))) ;;
  begin_op ;; begin_op.
Definition three_ops (n : Z) : K unit :=
  two_ops ;; begin_op ;; for_each (seqZ 100 n) (λ n, write_block n 1).

Lemma log_space_overbooked_witness :
  (∃ s', begin_op (after two_ops) = Ok tt s' ∧ l_outstanding (k_log s') = 3) ∧
  lh_n (k_log (after (three_ops 29))) = 29 ∧
  log_write 0 (after (three_ops 29)) = Panic "too big a transaction".
Proof.
  destruct (log_space_overbooked (after two_ops) (k_log (after two_ops))) as [H1 H2].
  - reflexivity.
  - vm_compute. reflexivity.
  - apply (bool_decide_eq_true_1 _). vm_compute. reflexivity.
  - apply Nat.ltb_lt. reflexivity.
  - vm_compute. reflexivity.
  - split; [|split].
    + destruct H1 as (s' & H1 & E1). exists s'. split; [exact H1|]. rewrite E1. vm_compute. reflexivity.
    + vm_compute. reflexivity.
    + apply H2; vm_compute; reflexivity.
Defined.

End Example.
