(* ===== verification/BufCache.v ===== *)
(** * BufCache: the buffer cache as its clients rely on it

    Reading back what was written, and the replacement order. *)

From S2P Require Import Prelude Machine CMem DiskFmt Proc Bio BufSpec Log LogSpec LogCommit LogCrash.
From stdpp Require Import options.

Section BufCache.
Context {E : Env}.

(** What a client does to replace block [n]: read, change, write, release. *)
Definition overwrite (n : Z) (d : list Z) : K unit :=
  b ← bread 1 n; upd_buf b (set_b_data d) ;; bwrite b ;; brelse b.
Definition contents (n : Z) : K (list Z) :=
  b ← bread 1 n; x ← get_buf b; brelse b ;; mret (b_data x).

Lemma overwrite_spec s D W Q B C n d :
  bview s D W Q B C → is_Some (D !! n) → n ∉ B → n ∈ Q ∨ (size (Q ∪ B) < bhead)%nat →
  ∃ s', overwrite n d s = Ok tt s' ∧ only_io s s' ∧
    bview s' (<[n := d]> D) ((n, d) :: W) (Q ∖ {[ n ]}) B (fupd C n d).
Proof.
  intros V [d0 HD] HB Hroom. unfold overwrite. mrun.
  destruct (bv_bread s D W Q B C n d0 V HD HB Hroom) as (b & s1 & -> & V1 & A1 & S1 & _).
  destruct (bv_bset s1 _ _ _ _ _ b n _ _ d V1 A1) as (s2 & -> & V2 & A2 & S2).
  destruct (bv_bwrite s2 _ _ _ _ _ b n _ _ V2 A2) as (s3 & -> & V3 & A3 & S3); [by eexists|].
  destruct (bv_brelse s3 _ _ _ _ _ b n _ _ V3 A3) as (s4 & -> & V4 & S4); [right; apply lookup_insert_eq|].
  exists s4. split; [done|]. split.
  - eapply only_io_trans; [apply S1|]. eapply only_io_trans; [apply S2|]. eapply only_io_trans; [apply S3|apply S4].
  - eapply bview_ext; [exact V4|done|clear -HB; set_solver|done].
Qed.

Lemma contents_spec s D W Q B C n :
  bview s D W Q B C → is_Some (D !! n) → n ∉ B → n ∈ Q ∨ (size (Q ∪ B) < bhead)%nat →
  ∃ s', contents n s = Ok (C n) s' ∧ only_io s s' ∧ bview s' D W Q B C.
Proof.
  intros V [d0 HD] HB Hroom. unfold contents. mrun.
  destruct (bv_bread s D W Q B C n d0 V HD HB Hroom) as (b & s1 & -> & V1 & A1 & S1 & _).
  destruct (buf_at_get _ _ _ _ _ A1) as (x & -> & Hx & _).
  destruct (bv_brelse s1 _ _ _ _ _ b n _ _ V1 A1) as (s2 & -> & V2 & S2).
  { case_bool_decide as Hq; [by left|right]. by rewrite (bv_clean s D W Q B C n d0 V Hq HB HD). }
  exists s2. rewrite Hx. split; [done|]. split; [eapply only_io_trans; [apply S1|apply S2]|].
  eapply bview_ext; [exact V2|done|clear -HB; set_solver|done].
Qed.

(** C25. The cache is transparent: writing [d] to block [n] and then reading any block
    [m], through whatever buffers are recycled meanwhile, gives [d] for [n] and the
    old contents for the others; the write reaches the disk, and nothing else is
    written. *)
Theorem cache_read_after_write s D W Q C n m d :
  bview s D W Q ∅ C → is_Some (D !! n) → is_Some (D !! m) → (size Q < bhead)%nat →
  ∃ s', (overwrite n d ;; contents m) s = Ok (if decide (m = n) then d else C m) s' ∧
    k_disk s' = <[n := d]> D ∧ k_dwrites s' = (n, d) :: W.
Proof.
  intros V Hn Hm Hsz.
  destruct (overwrite_spec s D W Q ∅ C n d V Hn) as (s1 & H1 & _ & V1);
    [set_solver|right; by rewrite union_empty_r_L|].
  destruct (contents_spec s1 _ _ _ _ _ m V1) as (s2 & H2 & _ & V2); [|set_solver|right|].
  - rewrite lookup_insert. by case_decide.
  - rewrite union_empty_r_L. pose proof (subseteq_size (Q ∖ {[ n ]}) Q ltac:(set_solver)). lia.
  - exists s2. rewrite (bind_Ok _ _ _ _ _ H1), H2. split; [done|]. split; apply V2.
Qed.

(** Replacement is least recently used: with the buffers in the order [l], most
    recently released first, brelse(b) puts [b] first and keeps the order of the rest,
    and reading a block that is not cached recycles the last buffer of [l] that is
    neither in use nor dirty. *)
Theorem cache_lru s l b n d q :
  binv s l → io_ok s → buf_at s b n d q → q = true ∨ k_disk s !! n = Some d →
  ∃ s', brelse b s = Ok tt s' ∧ binv s' (b :: filter (λ i, i ≠ b) l) ∧
    ∀ m dm i, find_buf (bmatch 1 m) (k_bufs s') (b :: filter (λ i, i ≠ b) l) = None → k_disk s' !! m = Some dm →
      find_buf brecyclable (k_bufs s') (reverse (b :: filter (λ i, i ≠ b) l)) = Some i →
      ∃ s'', bread 1 m s' = Ok i s''.
Proof.
  intros Hinv Hio Hat Hcl.
  destruct (brelse_spec s l b n d q Hinv Hio Hat Hcl) as (s' & Hr & Hst & Hinv' & _).
  exists s'. split; [done|]. split; [exact Hinv'|]. intros m dm i Hf Hd Hrec.
  assert (io_ok s') as Hio' by (eapply only_io_ok; [apply Hst|done]).
  destruct (find_buf_Some _ _ _ _ Hrec) as (Hin & x & Hx & _).
  eexists. eapply (bread_miss s' _ m i x dm Hinv' Hio' Hf Hrec); [|done]. split; [|done].
  rewrite elem_of_reverse in Hin. by apply (bring_mem _ _ _ (bi_ring _ _ Hinv')).
Qed.

End BufCache.

Section Example.
#[local] Existing Instance env_idle.

Lemma cache_read_after_write_witness :
  ∃ s', (overwrite 40 (block 9) ;; contents 41) txn_ex =
      Ok (if decide (41 = 40) then block 9 else blk txn_ex 41) s' ∧
    k_disk s' = <[40 := block 9]> disk_ex ∧ k_dwrites s' = (40, block 9) :: [].
Proof.
  apply (cache_read_after_write txn_ex disk_ex [] (list_to_set [41; 40]) (blk txn_ex) 40 41 (block 9)).
  - apply (bview_check txn_ex ([1; 0] ++ reverse (seq 2 28))%nat); [|by vm_compute].
    split_and!; try done; vm_compute; lia.
  - by eexists.
  - by eexists.
  - apply Nat.ltb_lt. by vm_compute.
Defined.

(** Buffer 3 holds block 6 after reading blocks 3, 4 and 5 through buffers 0 to 2. *)
Definition held_ex : kstate :=
  Eval vm_compute in after (boot_ex ;;
    contents 3 ;; contents 4 ;; contents 5 ;; b ← bread 1 6; mret tt).
Definition order_ex : list nat := ([2; 1; 0] ++ reverse (seq 3 27))%nat.

Lemma cache_lru_witness :
  ∃ s', brelse 3 held_ex = Ok tt s' ∧ binv s' (3%nat :: filter (λ i, i ≠ 3%nat) order_ex) ∧
    ∀ m dm i, find_buf (bmatch 1 m) (k_bufs s') (3%nat :: filter (λ i, i ≠ 3%nat) order_ex) = None →
      k_disk s' !! m = Some dm →
      find_buf brecyclable (k_bufs s') (reverse (3%nat :: filter (λ i, i ≠ 3%nat) order_ex)) = Some i →
      ∃ s'', bread 1 m s' = Ok i s''.
Proof.
  apply (cache_lru held_ex order_ex 3 6 (block 0) false).
  - apply binvb_binv. by vm_compute.
  - split_and!; try done; vm_compute; lia.
  - eexists. split; [split; [apply Nat.ltb_lt|]; reflexivity|]. done.
  - by right.
Defined.

End Example.
