(* ===== verification/Boot.v ===== *)
(** * Boot: the boot loader (bootmain.c)

    Memory is a map from physical addresses to bytes, the disk a function from sector
    numbers to 512 bytes. Loading the kernel is a function on memory; the theorem says
    that the segments of the ELF image are in memory when the loader jumps to it. *)

From S2P Require Import Prelude Machine CMem.
From stdpp Require Import options.

Definition SECTSIZE : Z := 512.
Definition ELF_MAGIC : Z := 1179403647.

Section Loader.
Variable disk : Z → list Z.

Fixpoint store_bytes (m : gmap Z Z) (a : Z) (l : list Z) : gmap Z Z :=
  match l with [] => m | b :: l => store_bytes (wr m a b) (a + 1) l end.

(** The sector number in the four registers readsect() writes. *)
Definition sector_regs (offset : Z) : list Z :=
  [u8 offset; u8 (Z.shiftr offset 8); u8 (Z.shiftr offset 16); u8 (Z.lor (Z.shiftr offset 24) 224)].
Definition sector_number (r : list Z) : Z :=
  match r with
  | [r0; r1; r2; r3] => r0 + 256 * r1 + 65536 * r2 + 16777216 * Z.land r3 15
  | _ => 0
  end.
Definition readsect (m : gmap Z Z) (dst offset : Z) : gmap Z Z :=
  store_bytes m dst (disk (sector_number (sector_regs offset))).

(** [for(; pa < epa; pa += SECTSIZE, offset++)], with fuel. *)
Fixpoint readseg_loop (fuel : nat) (m : gmap Z Z) (pa epa offset : Z) : gmap Z Z :=
  match fuel with
  | O => m
  | S n =>
    if pa <? epa then readseg_loop n (readsect m pa offset) (u32 (pa + SECTSIZE)) epa (u32 (offset + 1))
    else m
  end.
(** Each round reads a sector, so the sectors of the range and one more are enough. *)
Definition readseg (m : gmap Z Z) (pa count offset : Z) : gmap Z Z :=
  let epa := u32 (pa + count) in
  let pa := u32 (pa - offset mod SECTSIZE) in
  let offset := offset / SECTSIZE + 1 in
  readseg_loop (Z.to_nat ((epa - pa + SECTSIZE - 1) / SECTSIZE)) m pa epa offset.

(** The fields of the program header at [ph]. *)
Record segment := mksegment { sp_pa : Z; sp_off : Z; sp_filesz : Z; sp_memsz : Z }.
Definition proghdr_at (m : gmap Z Z) (ph : Z) : segment :=
  mksegment (read32 m (ph + 12)) (read32 m (ph + 4)) (read32 m (ph + 16)) (read32 m (ph + 20)).

(** The zeros after the file's bytes start at a wrapped address; the range itself is not
    wrapped around 2^32. *)
Definition load_segment (m : gmap Z Z) (x : segment) : gmap Z Z :=
  let m := readseg m (sp_pa x) (sp_filesz x) (sp_off x) in
  if sp_filesz x <? sp_memsz x then
    stosb m (u32 (sp_pa x + sp_filesz x)) 0 (Z.to_nat (sp_memsz x - sp_filesz x))
  else m.

(** The loop on program headers. *)
Fixpoint load_segments (n : nat) (m : gmap Z Z) (ph : Z) : gmap Z Z :=
  match n with
  | O => m
  | S n => load_segments n (load_segment m (proghdr_at m ph)) (ph + 32)
  end.

(** The memory and the entry point jumped to; [None] when the image is not ELF. *)
Definition bootmain (m : gmap Z Z) : gmap Z Z * option Z :=
  let elf := 65536 in
  let m := readseg m elf 4096 0 in
  if negb (read32 m elf =? ELF_MAGIC) then (m, None) else
  let ph := elf + read32 m (elf + 28) in
  let phnum := rd m (elf + 44) + 256 * rd m (elf + 45) in
  let m := load_segments (Z.to_nat phnum) m ph in
  (m, Some (read32 m (elf + 24))).

(** ** Reading a range *)

(** Byte [k] of the kernel image, which starts at sector 1. *)
Definition image (k : Z) : Z := default 0 (disk (k / SECTSIZE + 1) !! Z.to_nat (k mod SECTSIZE)).

Hypothesis disk_ok : ∀ n, length (disk n) = 512%nat ∧ Forall is_u8 (disk n).

Lemma rd_store_bytes m a l b :
  Forall is_u8 l → rd (store_bytes m a l) b = if decide (a <= b < a + Z.of_nat (length l)) then default 0 (l !! Z.to_nat (b - a)) else rd m b.
Proof.
  intros Hl. revert m a. induction Hl as [|x l Hx Hl IH]; intros m a; cbn [store_bytes length].
  { rewrite decide_False by lia. done. }
  rewrite IH, Nat2Z.inj_succ. destruct (decide (a = b)) as [->|Hne].
  - rewrite decide_False, decide_True by lia. rewrite Z.sub_diag. unfold rd, wr. rewrite lookup_insert_eq. cbn. by apply u8_small.
  - case_decide; [rewrite decide_True by lia|rewrite decide_False by lia].
    + replace (Z.to_nat (b - a)) with (S (Z.to_nat (b - (a + 1)))) by lia. done.
    + unfold rd, wr. by rewrite lookup_insert_ne by done.
Qed.

Lemma sector_number_regs n : 0 <= n < 268435456 → sector_number (sector_regs n) = n.
Proof.
  intros Hn. unfold sector_number, sector_regs, u8. rewrite !Z.shiftr_div_pow2 by lia.
  change (2 ^ 8) with 256. change (2 ^ 16) with 65536. change (2 ^ 24) with 16777216.
  assert (0 <= n / 16777216 < 16) as Hh by (split; [apply Z.div_pos|apply Z.div_lt_upper_bound]; lia).
  assert (Z.land (Z.lor (n / 16777216) 224 mod 256) 15 = n / 16777216) as ->.
  { generalize dependent (n / 16777216). intros h Hh.
    assert (∀ k, (k < 16)%nat → Z.land (Z.lor (Z.of_nat k) 224 mod 256) 15 = Z.of_nat k) as Hk.
    { intros k Hk. do 16 (destruct k as [|k]; [reflexivity|]). lia. }
    rewrite <- (Z2Nat.id h) by lia. apply Hk. lia. }
  replace (n / 65536) with (n / 256 / 256) by (rewrite Z.div_div by lia; done).
  replace (n / 16777216) with (n / 256 / 256 / 256) by (rewrite !Z.div_div by lia; done).
  pose proof (Z.div_mod n 256). pose proof (Z.div_mod (n / 256) 256). pose proof (Z.div_mod (n / 256 / 256) 256). lia.
Qed.

Lemma readseg_loop_spec n m pa epa sector b :
  0 <= pa → 1 <= sector → pa + SECTSIZE * Z.of_nat n < 4294967296 → sector + Z.of_nat n < 268435456 →
  (∀ i, 0 <= i < Z.of_nat n → pa + SECTSIZE * i < epa) →
  rd (readseg_loop n m pa epa sector) b =
  if decide (pa <= b < pa + SECTSIZE * Z.of_nat n) then image ((sector - 1) * SECTSIZE + (b - pa)) else rd m b.
Proof using disk_ok.
  unfold SECTSIZE. revert m pa sector. induction n as [|n IH]; intros m pa sector Hpa Hs Hp Hsn Hepa; cbn [readseg_loop].
  { by rewrite decide_False by lia. }
  rewrite Nat2Z.inj_succ in *. pose proof (Hepa 0 ltac:(lia)). rewrite (proj2 (Z.ltb_lt pa epa)) by lia.
  unfold SECTSIZE. rewrite !u32_small by (unfold is_u32; lia). rewrite IH; [|lia..|].
  2:{ intros i Hi. specialize (Hepa (i + 1) ltac:(lia)). lia. }
  unfold readsect. rewrite sector_number_regs by lia. destruct (disk_ok sector) as [Hlen H8].
  rewrite rd_store_bytes, Hlen by done. change (Z.of_nat 512) with 512.
  destruct (decide (pa + 512 <= b < pa + 512 + 512 * Z.of_nat n)).
  - rewrite decide_True by lia. f_equal. unfold SECTSIZE. lia.
  - case_decide; [|by rewrite decide_False by lia]. rewrite decide_True by lia. unfold image, SECTSIZE.
    replace ((sector - 1) * 512 + (b - pa)) with ((b - pa) + (sector - 1) * 512) by lia.
    rewrite Z.div_add, Z.mod_add by lia. rewrite Z.div_small, Z.mod_small by lia.
    replace (0 + (sector - 1) + 1) with sector by lia. done.
Qed.

(** The memory a segment's load may write: whole sectors from the rounded-down start, and
    the rest of the segment. *)
Definition seg_lo (x : segment) : Z := sp_pa x - sp_off x mod SECTSIZE.
Definition seg_sectors (x : segment) : Z := (sp_pa x + sp_filesz x - seg_lo x + SECTSIZE - 1) / SECTSIZE.
Definition footprint (x : segment) (b : Z) : Prop :=
  seg_lo x <= b < seg_lo x + SECTSIZE * seg_sectors x ∨ sp_pa x <= b < sp_pa x + sp_memsz x.

(** The segment lies in the image and in memory. *)
Definition seg_ok (x : segment) : Prop :=
  0 <= sp_off x ∧ 0 <= sp_filesz x ∧ 0 <= seg_lo x ∧ seg_lo x + SECTSIZE * seg_sectors x < 4294967296 ∧
  sp_off x / SECTSIZE + 1 + seg_sectors x < 268435456.

(** The segment is in memory: its bytes of the image, then zeros. *)
Definition loaded (m : gmap Z Z) (x : segment) : Prop :=
  (∀ i, 0 <= i < sp_filesz x → rd m (sp_pa x + i) = image (sp_off x + i)) ∧
  (∀ i, sp_filesz x <= i < sp_memsz x → rd m (sp_pa x + i) = 0).

Lemma seg_cover x : 0 <= sp_filesz x →
  0 <= seg_sectors x ∧ sp_pa x + sp_filesz x - seg_lo x <= SECTSIZE * seg_sectors x < sp_pa x + sp_filesz x - seg_lo x + SECTSIZE.
Proof.
  intros Hf. pose proof (Z.mod_pos_bound (sp_off x) SECTSIZE ltac:(done)) as Hm.
  assert (0 <= sp_pa x + sp_filesz x - seg_lo x) as Hk by (unfold seg_lo; lia).
  unfold seg_sectors. generalize dependent (sp_pa x + sp_filesz x - seg_lo x). intros k Hk. unfold SECTSIZE.
  pose proof (Z.div_mod (k + 512 - 1) 512 ltac:(lia)). pose proof (Z.mod_pos_bound (k + 512 - 1) 512 ltac:(lia)).
  split; [apply Z.div_pos; lia|lia].
Qed.

Lemma readseg_spec m x b : seg_ok x →
  rd (readseg m (sp_pa x) (sp_filesz x) (sp_off x)) b =
  if decide (seg_lo x <= b < seg_lo x + SECTSIZE * seg_sectors x) then image (sp_off x + (b - sp_pa x)) else rd m b.
Proof using disk_ok.
  unfold seg_ok, readseg. intros (Ho & Hf & Hlo & Hhi & Hsec). fold (seg_lo x).
  pose proof (Z.mod_pos_bound (sp_off x) SECTSIZE ltac:(done)) as Hm.
  destruct (seg_cover x Hf) as [Hn Hcover].
  assert (sp_pa x = seg_lo x + sp_off x mod SECTSIZE) as Hpa by (unfold seg_lo; lia).
  rewrite !u32_small by (unfold is_u32; lia). fold (seg_sectors x). rewrite readseg_loop_spec.
  - rewrite Z2Nat.id by lia. case_decide; [|done]. f_equal. pose proof (Z.div_mod (sp_off x) SECTSIZE ltac:(done)). lia.
  - lia.
  - pose proof (Z.div_pos (sp_off x) SECTSIZE). unfold SECTSIZE in *. lia.
  - rewrite Z2Nat.id by lia. lia.
  - rewrite Z2Nat.id by lia. lia.
  - intros i Hi. rewrite Z2Nat.id in Hi by lia. unfold SECTSIZE in *. lia.
Qed.

Lemma load_segment_spec m x b : seg_ok x →
  rd (load_segment m x) b =
  if decide (sp_pa x + sp_filesz x <= b < sp_pa x + sp_memsz x) then 0 else
  if decide (seg_lo x <= b < seg_lo x + SECTSIZE * seg_sectors x) then image (sp_off x + (b - sp_pa x)) else rd m b.
Proof using disk_ok.
  intros Hx. pose proof Hx as (_ & Hf & Hlo & Hhi & _). destruct (seg_cover x Hf) as [_ Hcover].
  pose proof (Z.mod_pos_bound (sp_off x) SECTSIZE ltac:(done)).
  unfold load_segment. rewrite (u32_small (sp_pa x + sp_filesz x)) by (unfold is_u32, seg_lo in *; lia).
  destruct (Z.ltb_spec (sp_filesz x) (sp_memsz x)).
  - rewrite rd_stosb, readseg_spec by done. change (u8 0) with 0. rewrite Z2Nat.id by lia.
    replace (sp_pa x + sp_filesz x + (sp_memsz x - sp_filesz x)) with (sp_pa x + sp_memsz x) by lia. done.
  - rewrite readseg_spec by done. by rewrite (decide_False (P := sp_pa x + sp_filesz x <= b < _)) by lia.
Qed.

Lemma load_segment_loaded m x : seg_ok x → loaded (load_segment m x) x.
Proof using disk_ok.
  intros Hx. pose proof Hx as (Ho & Hf & Hlo & _). pose proof (Z.mod_pos_bound (sp_off x) SECTSIZE ltac:(done)) as Hm.
  destruct (seg_cover x Hf) as [Hn Hcover].
  split; intros i Hi; rewrite load_segment_spec by done.
  - rewrite decide_False by lia. rewrite decide_True by (unfold seg_lo in *; lia). f_equal. lia.
  - by rewrite decide_True by lia.
Qed.

Lemma load_segment_elsewhere m x b : seg_ok x → ¬ footprint x b → rd (load_segment m x) b = rd m b.
Proof using disk_ok.
  intros Hx Hb. pose proof Hx as (_ & Hf & _). unfold footprint in Hb. rewrite load_segment_spec by done.
  rewrite !decide_False by lia. done.
Qed.

(** ** Loading all segments *)

Definition headers (m : gmap Z Z) (n : nat) (ph : Z) : list segment := (λ i, proghdr_at m (ph + 32 * Z.of_nat i)) <$> seq 0 n.

Lemma headers_cons m n ph : headers m (S n) ph = proghdr_at m ph :: headers m n (ph + 32).
Proof.
  unfold headers. cbn [seq fmap list_fmap]. f_equal; [f_equal; lia|]. rewrite <- fmap_S_seq, <- list_fmap_compose.
  apply list_fmap_ext. intros i k _. cbn. f_equal. lia.
Qed.

Lemma proghdr_at_ext m m' ph : (∀ b, ph <= b < ph + 32 → rd m' b = rd m b) → proghdr_at m' ph = proghdr_at m ph.
Proof. intros H. unfold proghdr_at, read32. rewrite !H by lia. done. Qed.

Lemma headers_ext m m' n ph :
  (∀ b, ph <= b < ph + 32 * Z.of_nat n → rd m' b = rd m b) → headers m' n ph = headers m n ph.
Proof.
  intros H. unfold headers. apply list_fmap_ext. intros i k Hk. apply lookup_seq in Hk as [-> Hi]. apply proghdr_at_ext.
  intros b Hb. apply H. lia.
Qed.

(** The layout of a kernel the loader can load: no segment's sectors reach the headers
    still to be read, or an earlier segment. *)
Definition separate (l : list segment) (lo hi : Z) : Prop :=
  Forall seg_ok l ∧ Forall (λ x, ∀ b, lo <= b < hi → ¬ footprint x b) l ∧
  (∀ i j x y, (i < j)%nat → l !! i = Some x → l !! j = Some y → ∀ b, sp_pa x <= b < sp_pa x + Z.max (sp_filesz x) (sp_memsz x) → ¬ footprint y b).

Lemma load_segments_spec n m ph :
  separate (headers m n ph) ph (ph + 32 * Z.of_nat n) →
  Forall (loaded (load_segments n m ph)) (headers m n ph) ∧
  (∀ b, Forall (λ x, ¬ footprint x b) (headers m n ph) → rd (load_segments n m ph) b = rd m b).
Proof using disk_ok.
  revert m ph. induction n as [|n IH]; intros m ph; [by split|]. rewrite headers_cons. cbn [load_segments].
  intros (Hok & Hmiss & Hpair). set (x := proghdr_at m ph) in *. set (m1 := load_segment m x).
  apply Forall_cons in Hok as [Hx Hok], Hmiss as [Hmx Hmiss].
  assert (headers m1 n (ph + 32) = headers m n (ph + 32)) as Hh.
  { apply headers_ext. intros b Hb. apply load_segment_elsewhere; [done|]. apply Hmx. lia. }
  destruct (IH m1 (ph + 32)) as [Hl Hkeep].
  { rewrite Hh. split_and!; [done| |].
    - eapply Forall_impl; [exact Hmiss|]. cbn. intros y Hy b Hb. apply Hy. lia.
    - intros i j y z Hij Hy Hz. apply (Hpair (S i) (S j) y z); [lia|done|done]. }
  rewrite Hh in Hl, Hkeep. split.
  - constructor; [|done].
    assert (∀ b, sp_pa x <= b < sp_pa x + Z.max (sp_filesz x) (sp_memsz x) → rd (load_segments n m1 (ph + 32)) b = rd m1 b) as Hsame.
    { intros b Hb. apply Hkeep. apply Forall_lookup. intros j y Hy. by apply (Hpair 0%nat (S j) x y ltac:(lia) eq_refl Hy). }
    destruct (load_segment_loaded m x Hx) as [H1 H2]. fold m1 in H1, H2. pose proof Hx as (_ & Hf & _).
    split; intros i Hi; (rewrite Hsame by lia); auto.
  - intros b [Hb Hbs]%Forall_cons. rewrite Hkeep by done. by apply load_segment_elsewhere.
Qed.

(** C20. The boot loader loads the kernel: for an ELF image whose segments lie in memory
    and whose sectors overlap neither the program headers nor earlier segments, bootmain()
    jumps to the entry point in the header with, for every segment, the bytes of the
    image at its physical address and zeros behind them. *)
Theorem bootmain_loads_kernel (m : gmap Z Z) :
  let m1 := readseg m 65536 4096 0 in
  let phoff := read32 m1 (65536 + 28) in
  let phnum := rd m1 (65536 + 44) + 256 * rd m1 (65536 + 45) in
  let segs := headers m1 (Z.to_nat phnum) (65536 + phoff) in
  read32 m1 65536 = ELF_MAGIC → 52 <= phoff → separate segs 65536 (65536 + phoff + 32 * Z.of_nat (Z.to_nat phnum)) →
  ∃ m', bootmain m = (m', Some (read32 m1 (65536 + 24))) ∧ Forall (loaded m') segs.
Proof using disk_ok.
  intros m1 phoff phnum segs Hmagic Hoff (Hok & Hmiss & Hpair). unfold bootmain. fold m1. rewrite Hmagic, Z.eqb_refl. cbn [negb].
  fold phoff phnum. set (m' := load_segments (Z.to_nat phnum) m1 (65536 + phoff)). exists m'.
  destruct (load_segments_spec (Z.to_nat phnum) m1 (65536 + phoff)) as [Hl Hkeep].
  { split_and!; [done| |done]. eapply Forall_impl; [exact Hmiss|]. cbn. intros x Hx b Hb. apply Hx. lia. }
  split; [|done]. f_equal. f_equal. unfold read32.
  assert (∀ b, 65536 <= b < 65536 + 52 → rd m' b = rd m1 b) as Hhdr.
  { intros b Hb. apply Hkeep. eapply Forall_impl; [exact Hmiss|]. cbn. intros x Hx. apply Hx. lia. }
  by rewrite !Hhdr by lia.
Qed.

End Loader.

(** *** A small kernel image *)

Definition bytes32 (v : Z) : list Z := [v mod 256; v / 256 mod 256; v / 65536 mod 256; v / 16777216 mod 256].
Definition pad (l : list Z) : list Z := take 512 (l ++ replicate 512 0).
(** An ELF header with one program header at offset 52: 5 bytes of file offset 4096 go to
    0x100000, followed by 3 zero bytes. *)
Definition elf_ex : list Z :=
  [127; 69; 76; 70] ++ replicate 20 0 ++ bytes32 1048588 ++ bytes32 52 ++ replicate 12 0 ++ [1; 0] ++ replicate 6 0 ++
  bytes32 1 ++ bytes32 4096 ++ bytes32 2148532224 ++ bytes32 1048576 ++ bytes32 5 ++ bytes32 8.
Definition disk_ex (n : Z) : list Z :=
  if n =? 1 then pad elf_ex else if n =? 9 then pad [250; 49; 192; 235; 254] else replicate 512 0.

Lemma disk_ex_ok n : length (disk_ex n) = 512%nat ∧ Forall is_u8 (disk_ex n).
Proof.
  assert (∀ l, forallb (λ b, (0 <=? b) && (b <? 256)) l = true → Forall is_u8 l) as H8.
  { intros l Hl. apply Forall_forall. intros b Hb. rewrite forallb_forall in Hl. apply list_elem_of_In, Hl in Hb. unfold is_u8. lia. }
  unfold disk_ex. destruct (n =? 1); [|destruct (n =? 9)]; (split; [by vm_compute|apply H8; by vm_compute]).
Qed.

Lemma bootmain_loads_kernel_witness :
  ∃ m', bootmain disk_ex ∅ = (m', Some 1048588) ∧ Forall (loaded disk_ex m') [mksegment 1048576 4096 5 8].
Proof.
  assert (headers (readseg disk_ex ∅ 65536 4096 0) 1 (65536 + 52) = [mksegment 1048576 4096 5 8]) as Hh by (by vm_compute).
  assert (read32 (readseg disk_ex ∅ 65536 4096 0) (65536 + 28) = 52) as Hoff by (by vm_compute).
  assert (rd (readseg disk_ex ∅ 65536 4096 0) (65536 + 44) + 256 * rd (readseg disk_ex ∅ 65536 4096 0) (65536 + 45) = 1) as Hnum by (by vm_compute).
  assert (read32 (readseg disk_ex ∅ 65536 4096 0) (65536 + 24) = 1048588) as Hent by (by vm_compute).
  pose proof (bootmain_loads_kernel disk_ex disk_ex_ok ∅) as H. cbn zeta in H. rewrite Hoff, Hnum, Hent in H.
  change (Z.to_nat 1) with 1%nat in H. rewrite Hh in H. apply H; [by vm_compute|lia|].
  split_and!.
  - repeat constructor; vm_compute; congruence.
  - constructor; [|constructor]. intros b Hb. unfold footprint, seg_sectors, seg_lo, SECTSIZE. cbn [sp_pa sp_off sp_filesz sp_memsz].
    change (4096 mod 512) with 0. change ((1048576 + 5 - (1048576 - 0) + 512 - 1) / 512) with 1. lia.
  - intros [|i] [|j] x y Hij Hx Hy; [lia|done..].
Defined.
