(* ===== verification/Mp.v ===== *)
(** * Mp: finding the processors (mp.c)

    The MP tables the BIOS leaves in physical memory, as mp.c reads them: the search for
    the floating pointer structure, the checks on the configuration table and the loop
    on its entries. Memory is addressed physically (the code adds KERNBASE to reach it).
    A store past the array cpus[] is a fault; messages on the console are kept as a list. *)

From S2P Require Import Prelude Machine CMem.
From stdpp Require Import options.

(** The variables of mp.c, the messages and the port writes. *)
Record mpst := mkmpst {
  mp_ncpu : Z;
  mp_ismp : Z;
  mp_bcpu : Z;
  mp_ioapicid : Z;
  mp_lapic : Z;
  mp_cpus : list Z;
  mp_msgs : list (string * list Z);
  mp_outs : list (Z * Z)
}.
Notation P := (M mpst).

Definition MPPROC : Z := 0.
Definition MPBUS : Z := 1.
Definition MPIOAPIC : Z := 2.
Definition MPIOINTR : Z := 3.
Definition MPLINTR : Z := 4.
Definition MPBOOT : Z := 2.

(** struct mp is 16 bytes, struct mpconf 44, struct mpproc 20, struct mpioapic 8. *)
Definition sizeof_mp : Z := 16.
Definition sizeof_mpconf : Z := 44.
Definition sizeof_mpproc : Z := 20.
Definition sizeof_mpioapic : Z := 8.

Section Tables.
Variable m : gmap Z Z.

Definition word16 (a : Z) : Z := rd m a + 256 * rd m (a + 1).

(** [sum] is returned as a uchar. *)
Fixpoint sum_loop (addr : Z) (n : nat) (acc : Z) : Z :=
  match n with O => u8 acc | S n => sum_loop (addr + 1) n (s32 (acc + rd m addr)) end.
Definition sum (addr len : Z) : Z := sum_loop addr (Z.to_nat len) 0.

(** memcmp(p, s, 4) == 0 *)
Definition signature (p : Z) (s : list Z) : bool :=
  bool_decide ((λ i, rd m (p + i)) <$> seqZ 0 4 = s).

(** The loop on p, for the 16-byte steps left. *)
Fixpoint mpsearch1_loop (n : nat) (p : Z) : option Z :=
  match n with
  | O => None
  | S n => if signature p [95; 77; 80; 95] && (sum p sizeof_mp =? 0) then Some p else mpsearch1_loop n (p + sizeof_mp)
  end.
Definition mpsearch1 (a len : Z) : option Z := mpsearch1_loop (Z.to_nat ((len + 15) / sizeof_mp)) a.

Definition mpsearch : option Z :=
  let bda := 1024 in
  let p := Z.shiftl (Z.lor (Z.shiftl (rd m (bda + 15)) 8) (rd m (bda + 14))) 4 in
  let first :=
    if negb (p =? 0) then mpsearch1 p 1024
    else
      let p := Z.lor (Z.shiftl (rd m (bda + 20)) 8) (rd m (bda + 19)) * 1024 in
      mpsearch1 (u32 (p - 1024)) 1024 in
  match first with
  | Some mp => Some mp
  | None => mpsearch1 983040 65536
  end.

(** The structures mp and conf. *)
Definition mpconfig : option (Z * Z) :=
  match mpsearch with
  | None => None
  | Some mp =>
    if read32 m (mp + 4) =? 0 then None else
    let conf := read32 m (mp + 4) in
    if negb (signature conf [80; 67; 77; 80]) then None else
    let version := rd m (conf + 6) in
    if negb (version =? 1) && negb (version =? 4) then None else
    if negb (sum conf (word16 (conf + 4)) =? 0) then None else
    Some (mp, conf)
  end.

Definition upd_mp (f : mpst → mpst) : P unit := modify f.
Definition set_ismp (v : Z) (s : mpst) : mpst :=
  mkmpst (mp_ncpu s) v (mp_bcpu s) (mp_ioapicid s) (mp_lapic s) (mp_cpus s) (mp_msgs s) (mp_outs s).
Definition set_bcpu (v : Z) (s : mpst) : mpst :=
  mkmpst (mp_ncpu s) (mp_ismp s) v (mp_ioapicid s) (mp_lapic s) (mp_cpus s) (mp_msgs s) (mp_outs s).
Definition set_lapic (v : Z) (s : mpst) : mpst :=
  mkmpst (mp_ncpu s) (mp_ismp s) (mp_bcpu s) (mp_ioapicid s) v (mp_cpus s) (mp_msgs s) (mp_outs s).
Definition set_ioapicid (v : Z) (s : mpst) : mpst :=
  mkmpst (mp_ncpu s) (mp_ismp s) (mp_bcpu s) v (mp_lapic s) (mp_cpus s) (mp_msgs s) (mp_outs s).
Definition message (msg : string) (args : list Z) (s : mpst) : mpst :=
  mkmpst (mp_ncpu s) (mp_ismp s) (mp_bcpu s) (mp_ioapicid s) (mp_lapic s) (mp_cpus s) (mp_msgs s ++ [(msg, args)]) (mp_outs s).

(** [cpus[ncpu].id = ncpu; ncpu++;] *)
Definition add_cpu : P unit := λ s,
  if mp_ncpu s <? NCPU then
    Ok tt (mkmpst (mp_ncpu s + 1) (mp_ismp s) (mp_bcpu s) (mp_ioapicid s) (mp_lapic s)
      (<[Z.to_nat (mp_ncpu s) := mp_ncpu s]> (mp_cpus s)) (mp_msgs s) (mp_outs s))
  else Fault.

(** The loop on the entries from p to e. *)
Fixpoint mpinit_loop (fuel : nat) (p e : Z) : P unit :=
  match fuel with
  | O => hang
  | S n =>
    if e <=? p then skip else
    let type := rd m p in
    if type =? MPPROC then
      ncpu ← gets mp_ncpu;
      when (negb (ncpu =? rd m (p + 1)))
        (upd_mp (message "mpinit: ncpu=%d apicid=%d" [ncpu; rd m (p + 1)]) ;; upd_mp (set_ismp 0)) ;;
      when (has (rd m (p + 3)) MPBOOT) (upd_mp (set_bcpu ncpu)) ;;
      add_cpu ;;
      mpinit_loop n (p + sizeof_mpproc) e
    else if type =? MPIOAPIC then
      upd_mp (set_ioapicid (rd m (p + 1))) ;;
      mpinit_loop n (p + sizeof_mpioapic) e
    else if (type =? MPBUS) || (type =? MPIOINTR) || (type =? MPLINTR) then
      mpinit_loop n (p + 8) e
    else
      upd_mp (message "mpinit: unknown config type %x" [type]) ;;
      upd_mp (set_ismp 0) ;;
      mpinit_loop n p e
  end.

(** [imcr] is the value of port 0x23. *)
Definition mpinit (fuel : nat) (imcr : Z) : P unit :=
  upd_mp (set_bcpu 0) ;;
  match mpconfig with
  | None => skip
  | Some (mp, conf) =>
    upd_mp (set_ismp 1) ;;
    upd_mp (set_lapic (read32 m (conf + 36))) ;;
    mpinit_loop fuel (conf + sizeof_mpconf) (conf + word16 (conf + 4)) ;;
    ismp ← gets mp_ismp;
    if ismp =? 0 then
      upd_mp (λ s, mkmpst 1 (mp_ismp s) (mp_bcpu s) 0 0 (mp_cpus s) (mp_msgs s) (mp_outs s))
    else
      when (negb (rd m (mp + 12) =? 0))
        (upd_mp (λ s, mkmpst (mp_ncpu s) (mp_ismp s) (mp_bcpu s) (mp_ioapicid s) (mp_lapic s) (mp_cpus s) (mp_msgs s)
           (mp_outs s ++ [(34, 112); (35, Z.lor imcr 1)])))
  end.

End Tables.

(** ** Tables *)

(** An entry of the configuration table, with the fields mpinit() reads. *)
Inductive entry := Eproc (apicid flags : Z) | Eioapic (apicno : Z) | Eother (type : Z).

Definition entry_size (e : entry) : Z :=
  match e with Eproc _ _ => sizeof_mpproc | Eioapic _ => sizeof_mpioapic | Eother _ => 8 end.

(** The entry is at [p]; other types than the five of the specification are excluded. *)
Definition entry_at (m : gmap Z Z) (p : Z) (e : entry) : Prop :=
  match e with
  | Eproc id fl => rd m p = MPPROC ∧ rd m (p + 1) = id ∧ rd m (p + 3) = fl
  | Eioapic id => rd m p = MPIOAPIC ∧ rd m (p + 1) = id
  | Eother t => rd m p = t ∧ (t = MPBUS ∨ t = MPIOINTR ∨ t = MPLINTR)
  end.
Fixpoint entries_at (m : gmap Z Z) (p e : Z) (es : list entry) : Prop :=
  match es with
  | [] => p = e
  | x :: es => entry_at m p x ∧ entries_at m (p + entry_size x) e es
  end.

(** What the entries say: the processors' flags in order, and the last I/O APIC. *)
Definition procs (es : list entry) : list (Z * Z) :=
  omap (λ e, match e with Eproc id fl => Some (id, fl) | _ => None end) es.
Definition boot_cpu (fls : list (Z * Z)) (n0 b0 : Z) : Z :=
  (fold_left (λ '(n, b) x, (n + 1, if has x.2 MPBOOT then n else b)) fls (n0, b0)).2.
Definition io_apic (es : list entry) (i0 : Z) : Z :=
  fold_left (λ i e, match e with Eioapic id => id | _ => i end) es i0.
(** cpus[i].id = i for the processors numbered from [n0]. *)
Definition numbered (cs : list Z) (n0 : nat) (k : nat) : list Z :=
  fold_left (λ cs i, <[i := Z.of_nat i]> cs) (seq n0 k) cs.

(** The processors are listed in the order of their APIC ids, from [n0]. *)
Definition in_order (ps : list (Z * Z)) (n0 : Z) : Prop := ps.*1 = seqZ n0 (Z.of_nat (length ps)).

Lemma entry_size_pos e : 8 <= entry_size e.
Proof. by destruct e; vm_compute. Qed.

Lemma entries_at_le m p e es : entries_at m p e es → p <= e.
Proof.
  revert p. induction es as [|x es IH]; intros p; cbn [entries_at]; [lia|]. intros [_ H%IH]. pose proof (entry_size_pos x). lia.
Qed.

Lemma mpinit_loop_spec m es fuel p e s :
  entries_at m p e es → (length es < fuel)%nat → 0 <= mp_ncpu s →
  in_order (procs es) (mp_ncpu s) → mp_ncpu s + Z.of_nat (length (procs es)) <= NCPU →
  mpinit_loop m fuel p e s = Ok tt (mkmpst (mp_ncpu s + Z.of_nat (length (procs es))) (mp_ismp s)
    (boot_cpu (procs es) (mp_ncpu s) (mp_bcpu s)) (io_apic es (mp_ioapicid s)) (mp_lapic s)
    (numbered (mp_cpus s) (Z.to_nat (mp_ncpu s)) (length (procs es))) (mp_msgs s) (mp_outs s)).
Proof.
  revert fuel p s. induction es as [|x es IH]; intros fuel p s Hes Hf Hn Ho Hm; (destruct fuel as [|fuel]; [lia|]);
    cbn [mpinit_loop length] in *.
  { cbn in Hes. subst. rewrite (proj2 (Z.leb_le e e)) by lia. destruct s. cbn. by rewrite Z.add_0_r. }
  destruct Hes as [Hx Hes]. pose proof (entries_at_le _ _ _ _ Hes). pose proof (entry_size_pos x).
  rewrite (proj2 (Z.leb_gt e p)) by lia.
  destruct x as [id fl|id|t]; cbn [entry_at entry_size] in *.
  - destruct Hx as (-> & -> & ->). cbn [procs omap list_omap] in *. fold procs in *.
    change (omap _ es) with (procs es) in *. unfold in_order in Ho. cbn [length fmap list_fmap] in Ho, Hm.
    rewrite Nat2Z.inj_succ in *. rewrite seqZ_cons in Ho by lia. injection Ho as -> Ho.
    change (MPPROC =? MPPROC) with true. cbn iota. rewrite (bind_Ok _ _ s (mp_ncpu s) s) by done.
    rewrite Z.eqb_refl. cbn [negb when]. rewrite (bind_Ok _ _ s tt s) by done.
    set (s1 := set_bcpu (if has fl MPBOOT then mp_ncpu s else mp_bcpu s) s).
    rewrite (bind_Ok _ _ s tt s1) by (unfold s1; destruct (has fl MPBOOT), s; done).
    set (s2 := mkmpst (mp_ncpu s + 1) (mp_ismp s) (mp_bcpu s1) (mp_ioapicid s) (mp_lapic s)
      (<[Z.to_nat (mp_ncpu s) := mp_ncpu s]> (mp_cpus s)) (mp_msgs s) (mp_outs s)).
    rewrite (bind_Ok _ _ s1 tt s2) by (unfold add_cpu; cbn [s1 set_bcpu mp_ncpu]; by rewrite (proj2 (Z.ltb_lt _ _)) by lia).
    rewrite (IH fuel (p + sizeof_mpproc) s2 Hes); cbn [s2 s1 set_bcpu mp_ncpu]; [|lia|lia| |lia].
    + f_equal. unfold boot_cpu, numbered. cbn [length seq fold_left snd mp_bcpu mp_ismp mp_ioapicid mp_lapic mp_cpus mp_msgs mp_outs].
      rewrite Z2Nat.id by lia. rewrite (Z2Nat.inj_add (mp_ncpu s) 1), Nat.add_1_r by lia. f_equal. lia.
    + unfold in_order. rewrite Ho. f_equal; lia.
  - destruct Hx as (-> & ->). change (MPIOAPIC =? MPPROC) with false. change (MPIOAPIC =? MPIOAPIC) with true. cbn iota.
    rewrite (bind_Ok _ _ s tt (set_ioapicid id s)) by done. rewrite (IH fuel _ (set_ioapicid id s) Hes) by (done || lia). done.
  - destruct Hx as (-> & Ht). assert (t =? MPPROC = false ∧ t =? MPIOAPIC = false ∧ (t =? MPBUS) || (t =? MPIOINTR) || (t =? MPLINTR) = true) as (-> & -> & ->)
      by (destruct_or! Ht; by subst). rewrite (IH fuel _ s Hes) by (done || lia). done.
Qed.

(** ** Properties *)

Lemma numbered_lookup cs n k i :
  (n + k ≤ length cs)%nat → (n ≤ i < n + k)%nat → numbered cs n k !! i = Some (Z.of_nat i).
Proof.
  intros Hl. unfold numbered. revert cs n Hl. induction k as [|k IH]; intros cs n Hl Hi; [lia|]. cbn [seq fold_left].
  destruct (decide (i = n)) as [->|Hne]; [|apply IH; [rewrite length_insert|]; lia].
  assert (∀ k' (cs' : list Z) n', (n < n')%nat → fold_left (λ cs i, <[i := Z.of_nat i]> cs) (seq n' k') cs' !! n = cs' !! n) as Hkeep.
  { intros k'. induction k' as [|k' IHk]; intros cs' n' Hn; [done|]. cbn [seq fold_left]. rewrite IHk by lia.
    by rewrite list_lookup_insert_ne by lia. }
  rewrite Hkeep by lia. rewrite list_lookup_insert_eq; [done|lia].
Qed.

(** C34. On a machine whose BIOS left a valid MP configuration table with processors
    listed in the order of their APIC ids, at most NCPU of them, mpinit() terminates with
    one struct cpu per processor, numbered from 0, the boot processor and the I/O APIC
    found, and the machine marked as a multiprocessor. *)
Theorem mpinit_finds_cpus (m : gmap Z Z) (mp conf imcr : Z) (es : list entry) (fuel : nat) (s : mpst) :
  mpconfig m = Some (mp, conf) →
  entries_at m (conf + sizeof_mpconf) (conf + word16 m (conf + 4)) es → (length es < fuel)%nat →
  mp_ncpu s = 0 → length (mp_cpus s) = Z.to_nat NCPU → in_order (procs es) 0 → Z.of_nat (length (procs es)) <= NCPU →
  ∃ s', mpinit m fuel imcr s = Ok tt s' ∧ mp_ncpu s' = Z.of_nat (length (procs es)) ∧ mp_ismp s' = 1 ∧
    mp_bcpu s' = boot_cpu (procs es) 0 0 ∧ mp_ioapicid s' = io_apic es (mp_ioapicid s) ∧
    mp_lapic s' = read32 m (conf + 36) ∧ mp_msgs s' = mp_msgs s ∧
    (∀ i, (i < length (procs es))%nat → mp_cpus s' !! i = Some (Z.of_nat i)).
Proof.
  intros Hc Hes Hf Hn Hl Ho Hm. unfold mpinit, upd_mp. rewrite (bind_Ok _ _ s tt (set_bcpu 0 s)), Hc by done.
  set (s1 := set_lapic (read32 m (conf + 36)) (set_ismp 1 (set_bcpu 0 s))).
  rewrite (bind_Ok _ _ _ tt (set_ismp 1 (set_bcpu 0 s))), (bind_Ok _ _ _ tt s1) by done.
  pose proof (mpinit_loop_spec m es fuel _ _ s1 Hes Hf) as Hloop. cbn [s1 set_lapic set_ismp set_bcpu mp_ncpu] in Hloop.
  rewrite Hn in Hloop. rewrite (bind_Ok _ _ _ _ _ (Hloop ltac:(lia) Ho ltac:(lia))). clear Hloop.
  match goal with |- context [(gets mp_ismp ≫= ?f) ?s2] => rewrite (bind_Ok (gets mp_ismp) f s2 1 s2) by done end. change (1 =? 0) with false. cbn iota.
  assert (∀ i, (i < length (procs es))%nat → numbered (mp_cpus s) 0 (length (procs es)) !! i = Some (Z.of_nat i)) as Hnum.
  { intros i Hi. apply numbered_lookup; lia. }
  unfold when. destruct (negb _); eexists; (split; [reflexivity|]); cbn; split_and!; done.
Qed.

(** A loop that stands on an entry of unknown type goes on for ever. *)
Lemma mpinit_loop_stuck m fuel p e s : p < e → MPLINTR < rd m p → mpinit_loop m fuel p e s = Hang.
Proof.
  intros Hp Ht. unfold MPLINTR in Ht. revert s. induction fuel as [|fuel IH]; intros s; [done|]. cbn [mpinit_loop].
  rewrite (proj2 (Z.leb_gt e p)) by lia. unfold MPPROC, MPIOAPIC, MPBUS, MPIOINTR, MPLINTR.
  destruct (Z.eqb_spec (rd m p) 0), (Z.eqb_spec (rd m p) 2), (Z.eqb_spec (rd m p) 1), (Z.eqb_spec (rd m p) 3),
    (Z.eqb_spec (rd m p) 4); try lia. cbn [orb]. unfold upd_mp. apply IH.
Qed.

(** mpinit() does not survive an entry of a type it does not know: it reports the
    type and clears ismp, but stays on the entry, so that it loops for ever instead of
    falling back to one processor. *)
Theorem mpinit_unknown_entry_hangs (m : gmap Z Z) (mp conf imcr : Z) (fuel : nat) (s : mpst) :
  mpconfig m = Some (mp, conf) → sizeof_mpconf < word16 m (conf + 4) → MPLINTR < rd m (conf + sizeof_mpconf) →
  mpinit m fuel imcr s = Hang.
Proof.
  intros Hc Hl Ht. unfold mpinit, upd_mp. rewrite (bind_Ok _ _ s tt (set_bcpu 0 s)), Hc by done.
  unfold modify, mbind, M_bind. rewrite mpinit_loop_stuck by lia. done.
Qed.

(** *** Witnesses *)

Definition le32 (v : Z) : list Z := [v mod 256; v / 256 mod 256; v / 65536 mod 256; v / 16777216].
(** Set byte [i] so that all bytes add up to 0. *)
Definition checksummed (i : nat) (l : list Z) : list Z := <[i := (- (foldl Z.add 0 l)) mod 256]> l.
Definition conf_ex (entries : list Z) : list Z :=
  checksummed 7 (([80; 67; 77; 80; 44 + Z.of_nat (length entries); 0; 4; 0] ++ replicate 20 32 ++ replicate 8 0 ++ le32 4276092928 ++ replicate 4 0) ++ entries).
(** The EBDA at 0x9fc00, with the floating pointer and the table. *)
Definition machine_ex (entries : list Z) : gmap Z Z :=
  list_to_map (zip (seqZ 654336 200) (checksummed 10 ([95; 77; 80; 95] ++ le32 654352 ++ [1; 4; 0; 0; 128; 0; 0; 0]) ++ conf_ex entries))
  ∪ {[1038 := 192; 1039 := 159]}.
Definition mp0 : mpst := mkmpst 0 0 0 0 0 (replicate 8 0) [] [].
Definition two_cpus : gmap Z Z :=
  Eval vm_compute in machine_ex ([0; 0; 20; 3] ++ replicate 16 0 ++ [0; 1; 20; 1] ++ replicate 16 0 ++ [2; 2; 17; 1] ++ le32 4273995776 ++ [3] ++ replicate 7 0).
Definition strange_table : gmap Z Z := Eval vm_compute in machine_ex (replicate 8 128).

Lemma mpinit_finds_cpus_witness :
  ∃ s', mpinit two_cpus 10 0 mp0 = Ok tt s' ∧ mp_ncpu s' = 2 ∧ mp_ismp s' = 1 ∧ mp_bcpu s' = 0 ∧ mp_ioapicid s' = 2.
Proof.
  destruct (mpinit_finds_cpus two_cpus 654336 654352 0 [Eproc 0 3; Eproc 1 1; Eioapic 2; Eother 3] 10 mp0)
    as (s' & E & H1 & H2 & H3 & H4 & _).
  - by vm_compute.
  - vm_compute. split_and!; try done. auto.
  - cbn. lia.
  - done.
  - done.
  - by vm_compute.
  - by vm_compute.
  - exists s'. rewrite H1, H2, H3, H4. split; [exact E|]. clear. by vm_compute.
Defined.

Lemma mpinit_unknown_entry_hangs_witness : mpinit strange_table 1000 0 mp0 = Hang.
Proof. apply (mpinit_unknown_entry_hangs strange_table 654336 654352 0 1000 mp0); by vm_compute. Defined.
