(* ===== verification/Devices.v ===== *)
(** * Devices: interrupt controllers, timer, clock and descriptor tables (picirq.c,
    ioapic.c, lapic.c, timer.c, uart.c, the gates of trap.c and the segments of vm.c)

    Each device is the registers the code writes, with the trace of the writes where their
    order matters; values read from hardware are arguments. *)

From S2P Require Import Prelude Machine.
From stdpp Require Import options.

Definition T_IRQ0 : Z := 32.
Definition T_SYSCALL : Z := 64.
Definition IRQ_TIMER : Z := 0.
Definition IRQ_COM1 : Z := 4.
Definition IRQ_ERROR : Z := 19.
Definition IRQ_SPURIOUS : Z := 31.

(** ** Ports: the 8259A controllers, the timer and the serial port *)

(** The variable irqmask and all port writes so far, oldest first. *)
Record ports := mkports { po_irqmask : Z; po_outs : list (Z * Z) }.

Definition IO_PIC1 : Z := 32.
Definition IO_PIC2 : Z := 160.
Definition IRQ_SLAVE : Z := 2.

Definition out (p v : Z) (s : ports) : ports := mkports (po_irqmask s) (po_outs s ++ [(p, u8 v)]).

(** The initial value of irqmask. *)
Definition irqmask0 : Z := Z.land 65535 (Z.lnot (Z.shiftl 1 IRQ_SLAVE)).

Definition picsetmask (mask : Z) (s : ports) : ports :=
  let s := mkports mask (po_outs s) in
  out (IO_PIC2 + 1) (Z.shiftr mask 8) (out (IO_PIC1 + 1) mask s).

Definition picenable (irq : Z) (s : ports) : ports :=
  picsetmask (u16 (Z.land (po_irqmask s) (Z.lnot (Z.shiftl 1 irq)))) s.

Definition picinit (s : ports) : ports :=
  let s := out (IO_PIC1 + 1) 255 s in
  let s := out (IO_PIC2 + 1) 255 s in
  let s := out IO_PIC1 17 s in
  let s := out (IO_PIC1 + 1) T_IRQ0 s in
  let s := out (IO_PIC1 + 1) (Z.shiftl 1 IRQ_SLAVE) s in
  let s := out (IO_PIC1 + 1) 3 s in
  let s := out IO_PIC2 17 s in
  let s := out (IO_PIC2 + 1) (T_IRQ0 + 8) s in
  let s := out (IO_PIC2 + 1) IRQ_SLAVE s in
  let s := out (IO_PIC2 + 1) 3 s in
  let s := out IO_PIC1 104 s in
  let s := out IO_PIC1 10 s in
  let s := out IO_PIC2 104 s in
  let s := out IO_PIC2 10 s in
  if negb (po_irqmask s =? 65535) then picsetmask (po_irqmask s) s else s.

Definition IO_TIMER1 : Z := 64.
Definition TIMER_FREQ : Z := 1193182.
Definition TIMER_DIV (x : Z) : Z := (TIMER_FREQ + x / 2) / x.
Definition TIMER_MODE : Z := IO_TIMER1 + 3.

Definition timerinit (s : ports) : ports :=
  let s := out TIMER_MODE (Z.lor (Z.lor 0 4) 48) s in
  let s := out IO_TIMER1 (TIMER_DIV 100 mod 256) s in
  let s := out IO_TIMER1 (TIMER_DIV 100 / 256) s in
  picenable IRQ_TIMER s.

Definition COM1 : Z := 1016.

(** uartinit() without its call of ioapicenable(); [lsr] is the line status it reads. The
    result says whether there is a port. *)
Definition uartinit (lsr : Z) (s : ports) : bool * ports :=
  let s := out (COM1 + 2) 0 s in
  let s := out (COM1 + 3) 128 s in
  let s := out (COM1 + 0) (115200 / 9600) s in
  let s := out (COM1 + 1) 0 s in
  let s := out (COM1 + 3) 3 s in
  let s := out (COM1 + 4) 0 s in
  let s := out (COM1 + 1) 1 s in
  if lsr =? 255 then (false, s) else (true, picenable IRQ_COM1 s).

(** ** The I/O APIC *)

(** Its registers, through the pair reg and data. *)
Record ioapic := mkioapic { io_reg : Z; io_regs : gmap Z Z }.

Definition REG_ID : Z := 0.
Definition REG_VER : Z := 1.
Definition REG_TABLE : Z := 16.
Definition INT_DISABLED : Z := 65536.

Definition ioapicread (reg : Z) (d : ioapic) : Z * ioapic := (default 0 (io_regs d !! reg), mkioapic reg (io_regs d)).
Definition ioapicwrite (reg data : Z) (d : ioapic) : ioapic := mkioapic reg (<[reg := u32 data]> (io_regs d)).

Definition ioapicinit_entry (d : ioapic) (i : Z) : ioapic :=
  ioapicwrite (REG_TABLE + 2 * i + 1) 0 (ioapicwrite (REG_TABLE + 2 * i) (Z.lor INT_DISABLED (T_IRQ0 + i)) d).

(** ioapicinit(); the boolean is the warning about the id. *)
Definition ioapicinit (ismp ioapicid : Z) (d : ioapic) : bool * ioapic :=
  if ismp =? 0 then (false, d) else
  let '(ver, d) := ioapicread REG_VER d in
  let maxintr := Z.land (Z.shiftr ver 16) 255 in
  let '(idreg, d) := ioapicread REG_ID d in
  let id := Z.shiftr idreg 24 in
  (negb (id =? ioapicid), fold_left ioapicinit_entry (seqZ 0 (maxintr + 1)) d).

Definition ioapicenable (ismp irq cpunum : Z) (d : ioapic) : ioapic :=
  if ismp =? 0 then d else
  ioapicwrite (REG_TABLE + 2 * irq + 1) (Z.shiftl cpunum 24) (ioapicwrite (REG_TABLE + 2 * irq) (T_IRQ0 + irq) d).

(** ** The local APIC *)

(** Register indices. *)
Definition VER : Z := 12.
Definition TPR : Z := 32.
Definition EOI : Z := 44.
Definition SVR : Z := 60.
Definition ESR : Z := 160.
Definition ICRLO : Z := 192.
Definition ICRHI : Z := 196.
Definition TIMER : Z := 200.
Definition PCINT : Z := 208.
Definition LINT0 : Z := 212.
Definition LINT1 : Z := 216.
Definition ERROR : Z := 220.
Definition TICR : Z := 224.
Definition TDCR : Z := 248.
Definition ENABLE : Z := 256.
Definition INIT : Z := 1280.
Definition STARTUP : Z := 1536.
Definition ASSERT : Z := 16384.
Definition LEVEL : Z := 32768.
Definition BCAST : Z := 524288.
Definition X1 : Z := 11.
Definition PERIODIC : Z := 131072.
Definition MASKED : Z := 65536.

(** The writes to the registers, oldest first. *)
Definition lapicw (index value : Z) (w : list (Z * Z)) : list (Z * Z) := w ++ [(index, u32 value)].

(** [present] is lapic != 0 and [ver] the version register; the wait for the delivery
    of the message is not part of the trace. *)
Definition lapicinit (present : bool) (ver : Z) (w : list (Z * Z)) : list (Z * Z) :=
  if negb present then w else
  let w := lapicw SVR (Z.lor ENABLE (T_IRQ0 + IRQ_SPURIOUS)) w in
  let w := lapicw TDCR X1 w in
  let w := lapicw TIMER (Z.lor PERIODIC (T_IRQ0 + IRQ_TIMER)) w in
  let w := lapicw TICR 10000000 w in
  let w := lapicw LINT0 MASKED w in
  let w := lapicw LINT1 MASKED w in
  let w := if 4 <=? Z.land (Z.shiftr ver 16) 255 then lapicw PCINT MASKED w else w in
  let w := lapicw ERROR (T_IRQ0 + IRQ_ERROR) w in
  let w := lapicw ESR 0 w in
  let w := lapicw ESR 0 w in
  let w := lapicw EOI 0 w in
  let w := lapicw ICRHI 0 w in
  let w := lapicw ICRLO (Z.lor (Z.lor BCAST INIT) LEVEL) w in
  lapicw TPR 0 w.

Definition lapiceoi (present : bool) (w : list (Z * Z)) : list (Z * Z) := if present then lapicw EOI 0 w else w.

(** cpunum() with interrupts off; [idreg] is the ID register. *)
Definition cpunum (present : bool) (idreg : Z) : Z := if present then Z.shiftr idreg 24 else 0.

(** lapicstartap(): port writes, the warm reset vector (two 16-bit words at 0x467) and
    register writes. *)
Definition startup_ipi (apicid addr : Z) (w : list (Z * Z)) : list (Z * Z) :=
  lapicw ICRLO (Z.lor STARTUP (Z.shiftr addr 12)) (lapicw ICRHI (Z.shiftl apicid 24) w).
Definition lapicstartap (apicid addr : Z) (s : ports) (w : list (Z * Z)) : ports * (Z * Z) * list (Z * Z) :=
  let s := out 112 15 s in
  let s := out 113 10 s in
  let wrv := (0, u16 (Z.shiftr addr 4)) in
  let w := lapicw ICRHI (Z.shiftl apicid 24) w in
  let w := lapicw ICRLO (Z.lor (Z.lor INIT LEVEL) ASSERT) w in
  let w := lapicw ICRLO (Z.lor INIT LEVEL) w in
  let w := startup_ipi apicid addr w in
  let w := startup_ipi apicid addr w in
  (s, wrv, w).

(** ** The real-time clock *)

Record rtcdate := mkdate { r_second : Z; r_minute : Z; r_hour : Z; r_day : Z; r_month : Z; r_year : Z }.
#[global] Instance rtcdate_eq_dec : EqDecision rtcdate.
Proof. solve_decision. Defined.

Definition CMOS_STATA : Z := 10.
Definition CMOS_STATB : Z := 11.
Definition CMOS_UIP : Z := 128.

Section Clock.
(** The clock chip: the value of a register at the n-th read since power-on. *)
Variable clock : nat → Z → Z.

Definition cmos_read (reg : Z) : M nat Z := λ t, Ok (clock t reg) (S t).

Definition fill_rtcdate : M nat rtcdate :=
  second ← cmos_read 0;
  minute ← cmos_read 2;
  hour ← cmos_read 4;
  day ← cmos_read 7;
  month ← cmos_read 8;
  year ← cmos_read 9;
  mret (mkdate second minute hour day month year).

(** [for (;;)] until two readings agree. *)
Fixpoint cmos_loop (fuel : nat) : M nat rtcdate :=
  match fuel with
  | O => hang
  | S n =>
    t1 ← fill_rtcdate;
    a ← cmos_read CMOS_STATA;
    if has a CMOS_UIP then cmos_loop n else
    t2 ← fill_rtcdate;
    if decide (t1 = t2) then mret t1 else cmos_loop n
  end.

Definition CONV (x : Z) : Z := Z.shiftr x 4 * 10 + Z.land x 15.

Definition cmostime (fuel : nat) : M nat rtcdate :=
  sb ← cmos_read CMOS_STATB;
  let bcd := Z.land sb (Z.shiftl 1 2) =? 0 in
  t1 ← cmos_loop fuel;
  let t1 := if bcd then mkdate (CONV (r_second t1)) (CONV (r_minute t1)) (CONV (r_hour t1)) (CONV (r_day t1))
                          (CONV (r_month t1)) (CONV (r_year t1)) else t1 in
  mret (mkdate (r_second t1) (r_minute t1) (r_hour t1) (r_day t1) (r_month t1) (r_year t1 + 2000)).

End Clock.

(** ** Segments and gates (mmu.h) *)

Definition SEG_KCODE : Z := 1.
Definition SEG_KDATA : Z := 2.
Definition SEG_KCPU : Z := 3.
Definition SEG_UCODE : Z := 4.
Definition SEG_UDATA : Z := 5.
Definition SEG_TSS : Z := 6.
Definition DPL_USER : Z := 3.
Definition STA_X : Z := 8.
Definition STA_W : Z := 2.
Definition STA_R : Z := 2.
Definition STS_T32A : Z := 9.
Definition STS_IG32 : Z := 14.
Definition STS_TG32 : Z := 15.

(** struct segdesc, field by field. *)
Record segdesc := mkseg {
  sg_lim_15_0 : Z; sg_base_15_0 : Z; sg_base_23_16 : Z; sg_type : Z; sg_s : Z; sg_dpl : Z; sg_p : Z;
  sg_lim_19_16 : Z; sg_avl : Z; sg_rsv1 : Z; sg_db : Z; sg_g : Z; sg_base_31_24 : Z
}.

Definition SEG (type base lim dpl : Z) : segdesc :=
  mkseg (Z.land (Z.shiftr lim 12) 65535) (Z.land base 65535) (Z.land (Z.shiftr base 16) 255) type 1 dpl 1
    (Z.shiftr lim 28) 0 0 1 1 (Z.shiftr base 24).
Definition SEG16 (type base lim dpl : Z) : segdesc :=
  mkseg (Z.land lim 65535) (Z.land base 65535) (Z.land (Z.shiftr base 16) 255) type 1 dpl 1
    (Z.land (Z.shiftr lim 16) 15) 0 0 1 0 (Z.shiftr base 24).

(** How the processor reads a descriptor: its base and the last offset it allows. *)
Definition seg_base (d : segdesc) : Z := sg_base_15_0 d + 65536 * sg_base_23_16 d + 16777216 * sg_base_31_24 d.
Definition seg_last (d : segdesc) : Z :=
  let lim := sg_lim_15_0 d + 65536 * sg_lim_19_16 d in
  if sg_g d =? 0 then lim else lim * 4096 + 4095.

(** The descriptors seginit() loads, [cpuaddr] being &c->cpu. *)
Definition seginit (cpuaddr : Z) (gdt : gmap Z segdesc) : gmap Z segdesc :=
  let gdt := <[SEG_KCODE := SEG (Z.lor STA_X STA_R) 0 4294967295 0]> gdt in
  let gdt := <[SEG_KDATA := SEG STA_W 0 4294967295 0]> gdt in
  let gdt := <[SEG_UCODE := SEG (Z.lor STA_X STA_R) 0 4294967295 DPL_USER]> gdt in
  let gdt := <[SEG_UDATA := SEG STA_W 0 4294967295 DPL_USER]> gdt in
  <[SEG_KCPU := SEG STA_W cpuaddr 8 0]> gdt.

(** struct gatedesc. *)
Record gatedesc := mkgate {
  gt_off_15_0 : Z; gt_cs : Z; gt_args : Z; gt_rsv1 : Z; gt_type : Z; gt_s : Z; gt_dpl : Z; gt_p : Z; gt_off_31_16 : Z
}.

Definition SETGATE (istrap : bool) (sel off d : Z) : gatedesc :=
  mkgate (Z.land off 65535) sel 0 0 (if istrap then STS_TG32 else STS_IG32) 0 d 1 (Z.shiftr off 16).
Definition gate_offset (g : gatedesc) : Z := gt_off_15_0 g + 65536 * gt_off_31_16 g.

(** tvinit() on the array idt. *)
Definition tvinit (vectors : Z → Z) (idt : gmap Z gatedesc) : gmap Z gatedesc :=
  let idt := fold_left (λ idt i, <[i := SETGATE false (Z.shiftl SEG_KCODE 3) (vectors i) 0]> idt) (seqZ 0 256) idt in
  <[T_SYSCALL := SETGATE true (Z.shiftl SEG_KCODE 3) (vectors T_SYSCALL) DPL_USER]> idt.

(** ** Properties *)

(** The value last written to a port. *)
Definition last_out (s : ports) (p : Z) : option Z := last (omap (λ x, if decide (x.1 = p) then Some x.2 else None) (po_outs s)).

Lemma last_out_out p v s q : last_out (out p v s) q = if decide (p = q) then Some (u8 v) else last_out s q.
Proof.
  unfold last_out, out. cbn [po_outs]. rewrite omap_app. cbn [omap list_omap fst snd].
  destruct (decide (p = q)); [by rewrite last_snoc|by rewrite app_nil_r].
Qed.

Lemma land_clear_bit x i n : 0 <= i → 0 <= n →
  Z.testbit (Z.land x (Z.lnot (Z.shiftl 1 i))) n = Z.testbit x n && negb (n =? i).
Proof.
  intros Hi Hn. rewrite Z.land_spec, Z.lnot_spec, Z.shiftl_1_l by lia. f_equal. f_equal.
  rewrite Z.pow2_bits_eqb by lia. apply Z.eqb_sym.
Qed.

(** The mask registers hold the variable irqmask. *)
Definition pic_ok (s : ports) : Prop :=
  0 <= po_irqmask s < 65536 ∧ last_out s (IO_PIC1 + 1) = Some (u8 (po_irqmask s)) ∧
  last_out s (IO_PIC2 + 1) = Some (u8 (Z.shiftr (po_irqmask s) 8)).

Lemma picsetmask_ok mask s : 0 <= mask < 65536 → pic_ok (picsetmask mask s).
Proof.
  intros Hm. unfold pic_ok, picsetmask. cbn [po_irqmask out]. split; [done|]. rewrite !last_out_out.
  rewrite (decide_False (P := IO_PIC2 + 1 = IO_PIC1 + 1)) by done. by rewrite !decide_True by done.
Qed.

Lemma u16_land x y : 0 <= x < 65536 → u16 (Z.land x y) = Z.land x y.
Proof.
  intros Hx. unfold u16. rewrite <- (Z.land_ones _ 16) by lia. rewrite <- Z.land_assoc, (Z.land_comm y), Z.land_assoc.
  rewrite Z.land_ones by lia. f_equal. by apply Z.mod_small.
Qed.

Lemma land_range x y : 0 <= x < 65536 → 0 <= Z.land x y < 65536.
Proof. intros Hx. rewrite <- u16_land by done. unfold u16. apply Z.mod_pos_bound. lia. Qed.

Lemma picenables irqs s :
  Forall (λ i, 0 <= i) irqs → pic_ok s →
  pic_ok (fold_left (λ s i, picenable i s) irqs s) ∧
  (∀ n, 0 <= n → Z.testbit (po_irqmask (fold_left (λ s i, picenable i s) irqs s)) n =
    Z.testbit (po_irqmask s) n && bool_decide (n ∉ irqs)).
Proof.
  intros Hi. revert s. induction Hi as [|i irqs Hi0 Hi IH]; intros s Hs; cbn [fold_left].
  { split; [done|]. intros n Hn. rewrite bool_decide_eq_true_2 by set_solver. by rewrite andb_true_r. }
  destruct Hs as [Hr _]. destruct (IH (picenable i s)) as [Hok Hbits].
  { apply picsetmask_ok. rewrite u16_land by done. by apply land_range. }
  split; [done|]. intros n Hn. rewrite Hbits by done. unfold picenable, picsetmask. cbn [po_irqmask out].
  rewrite u16_land, land_clear_bit by done. rewrite <- andb_assoc. f_equal.
  destruct (Z.eqb_spec n i) as [->|Hne]; cbn [negb andb].
  - symmetry. apply bool_decide_eq_false. set_solver.
  - apply bool_decide_ext. set_solver.
Qed.

(** The interrupt controllers let through exactly the interrupts that were enabled:
    after picinit() and picenable() of a list of lines, the mask registers of the two
    controllers hold the two halves of irqmask, and of the sixteen lines those unmasked
    are the enabled ones and the line of the slave controller. *)
Theorem pic_unmasks_enabled (irqs : list Z) (outs : list (Z * Z)) :
  Forall (λ i, 0 <= i < 16) irqs →
  let s := fold_left (λ s i, picenable i s) irqs (picinit (mkports irqmask0 outs)) in
  last_out s (IO_PIC1 + 1) = Some (u8 (po_irqmask s)) ∧
  last_out s (IO_PIC2 + 1) = Some (u8 (Z.shiftr (po_irqmask s) 8)) ∧
  ∀ n, 0 <= n < 16 → Z.testbit (po_irqmask s) n = false ↔ n = IRQ_SLAVE ∨ n ∈ irqs.
Proof.
  intros Hi. cbn zeta. set (s0 := picinit _).
  assert (pic_ok s0 ∧ po_irqmask s0 = irqmask0) as [Hok Hm] by (split; [by apply picsetmask_ok|done]).
  destruct (picenables irqs s0) as [(_ & H1 & H2) Hbits]; [eapply Forall_impl; [exact Hi|]; cbn; lia|done|].
  split; [done|]. split; [done|]. intros n Hn. rewrite Hbits, Hm by lia.
  assert (Z.testbit irqmask0 n = negb (n =? IRQ_SLAVE)) as ->.
  { unfold irqmask0. rewrite land_clear_bit by (unfold IRQ_SLAVE; lia). replace (Z.testbit 65535 n) with true; [done|].
    symmetry. change 65535 with (Z.ones 16). apply Z.ones_spec_low. lia. }
  rewrite andb_false_iff, negb_false_iff, Z.eqb_eq, bool_decide_eq_false. destruct (decide (n ∈ irqs)); naive_solver.
Qed.

Lemma pic_unmasks_enabled_witness :
  let s := fold_left (λ s i, picenable i s) [1; 4; 14] (picinit (mkports irqmask0 [])) in
  last_out s (IO_PIC1 + 1) = Some (u8 (po_irqmask s)) ∧
  last_out s (IO_PIC2 + 1) = Some (u8 (Z.shiftr (po_irqmask s) 8)) ∧
  ∀ n, 0 <= n < 16 → Z.testbit (po_irqmask s) n = false ↔ n = IRQ_SLAVE ∨ n ∈ [1; 4; 14].
Proof. apply (pic_unmasks_enabled [1; 4; 14] []). repeat constructor; lia. Defined.

(** ** Gates *)

Lemma fold_insert_lookup {A} (f : Z → A) (l : list Z) (m : gmap Z A) i :
  fold_left (λ m i, <[i := f i]> m) l m !! i = if decide (i ∈ l) then Some (f i) else m !! i.
Proof.
  revert m. induction l as [|k l IH]; intros m; cbn [fold_left]; [by rewrite decide_False by set_solver|].
  rewrite IH. destruct (decide (i = k)) as [->|Hne].
  - rewrite (decide_True (P := k ∈ k :: l)) by set_solver. case_decide; [done|]. apply lookup_insert_eq.
  - rewrite lookup_insert_ne by done. destruct (decide (i ∈ l)), (decide (i ∈ k :: l)); set_solver.
Qed.

Lemma gate_offset_setgate istrap sel off d : is_u32 off → gate_offset (SETGATE istrap sel off d) = off.
Proof.
  unfold is_u32, gate_offset, SETGATE. intros Ho. cbn [gt_off_15_0 gt_off_31_16].
  rewrite (land_ones_mod off 16 : _ → Z.land off 65535 = _), Z.shiftr_div_pow2 by lia.
  change (2 ^ 16) with 65536. pose proof (Z.div_mod off 65536). lia.
Qed.

(** The interrupt table leads where it should: after tvinit() each of the 256 gates is
    present, enters the kernel's code segment at the vector of its number, and only the
    gate of system calls may be used by an int instruction in user mode; that one alone
    leaves interrupts enabled. *)
Theorem tvinit_gates (vectors : Z → Z) (idt : gmap Z gatedesc) (i : Z) :
  is_u32 (vectors i) → 0 <= i < 256 →
  ∃ g, tvinit vectors idt !! i = Some g ∧ gt_p g = 1 ∧ gt_s g = 0 ∧ gt_cs g = Z.shiftl SEG_KCODE 3 ∧
    gate_offset g = vectors i ∧ (gt_dpl g = if decide (i = T_SYSCALL) then DPL_USER else 0) ∧
    (gt_type g = if decide (i = T_SYSCALL) then STS_TG32 else STS_IG32).
Proof.
  intros Hv Hi. unfold tvinit. destruct (decide (i = T_SYSCALL)) as [->|Hne].
  - rewrite lookup_insert_eq. eexists. split; [done|]. by rewrite gate_offset_setgate.
  - rewrite lookup_insert_ne by done.
    rewrite (fold_insert_lookup (λ i, SETGATE false (Z.shiftl SEG_KCODE 3) (vectors i) 0)).
    rewrite decide_True by (apply elem_of_seqZ; lia). eexists. split; [done|]. by rewrite gate_offset_setgate.
Qed.

Lemma tvinit_gates_witness :
  ∃ g, tvinit (λ i, 2148560896 + 16 * i) ∅ !! 64 = Some g ∧ gate_offset g = 2148561920 ∧ gt_dpl g = 3.
Proof.
  destruct (tvinit_gates (λ i, 2148560896 + 16 * i) ∅ 64) as (g & Hg & _ & _ & _ & Ho & Hd & _); [vm_compute; intuition congruence|lia|].
  by exists g.
Defined.

(** ** Segments *)

Lemma seg_base_SEG type base lim dpl : is_u32 base → seg_base (SEG type base lim dpl) = base.
Proof.
  unfold is_u32, seg_base, SEG. intros Hb. cbn [sg_base_15_0 sg_base_23_16 sg_base_31_24].
  rewrite (land_ones_mod base 16 : _ → Z.land base 65535 = _), (land_ones_mod _ 8 : _ → Z.land _ 255 = _), !Z.shiftr_div_pow2 by lia.
  change (2 ^ 16) with 65536. change (2 ^ 24) with 16777216. change (2 ^ 8) with 256.
  replace (base / 16777216) with (base / 65536 / 256) by (rewrite Z.div_div by lia; done).
  pose proof (Z.div_mod base 65536). pose proof (Z.div_mod (base / 65536) 256). lia.
Qed.

(** The segments seginit() loads do not restrict addresses: kernel and user code and
    data start at 0 and reach up to 2^32-1, the user ones with user privilege; the
    segment of the per-cpu variables starts at the given address. *)
Theorem seginit_flat (cpuaddr : Z) (gdt : gmap Z segdesc) :
  is_u32 cpuaddr →
  (∀ i dpl, (i, dpl) ∈ [(SEG_KCODE, 0); (SEG_KDATA, 0); (SEG_UCODE, DPL_USER); (SEG_UDATA, DPL_USER)] →
    ∃ d, seginit cpuaddr gdt !! i = Some d ∧ seg_base d = 0 ∧ seg_last d = 4294967295 ∧ sg_dpl d = dpl ∧ sg_p d = 1) ∧
  ∃ d, seginit cpuaddr gdt !! SEG_KCPU = Some d ∧ seg_base d = cpuaddr ∧ sg_dpl d = 0.
Proof.
  intros Hc. unfold seginit. split.
  - intros i dpl Hin. rewrite !elem_of_cons in Hin.
    destruct Hin as [[= -> ->]|[[= -> ->]|[[= -> ->]|[[= -> ->]|?%elem_of_nil]]]]; [..|done];
      repeat first [rewrite lookup_insert_eq | rewrite lookup_insert_ne by done]; eexists; (split; [reflexivity|]); by vm_compute.
  - rewrite lookup_insert_eq. eexists. split; [done|]. by rewrite seg_base_SEG.
Qed.

Lemma seginit_flat_witness :
  (∀ i dpl, (i, dpl) ∈ [(SEG_KCODE, 0); (SEG_KDATA, 0); (SEG_UCODE, DPL_USER); (SEG_UDATA, DPL_USER)] →
    ∃ d, seginit 2148630720 ∅ !! i = Some d ∧ seg_base d = 0 ∧ seg_last d = 4294967295 ∧ sg_dpl d = dpl ∧ sg_p d = 1) ∧
  ∃ d, seginit 2148630720 ∅ !! SEG_KCPU = Some d ∧ seg_base d = 2148630720 ∧ sg_dpl d = 0.
Proof. apply (seginit_flat 2148630720 ∅). split; lia. Defined.

(** ** The clock *)

(** How the chip encodes a number below 100. *)
Definition encode (bcd : bool) (x : Z) : Z := if bcd then 16 * (x / 10) + x mod 10 else x.
Definition encode_date (bcd : bool) (d : rtcdate) : rtcdate :=
  mkdate (encode bcd (r_second d)) (encode bcd (r_minute d)) (encode bcd (r_hour d)) (encode bcd (r_day d))
    (encode bcd (r_month d)) (encode bcd (r_year d)).
Definition date_ok (d : rtcdate) : Prop :=
  0 <= r_second d < 100 ∧ 0 <= r_minute d < 100 ∧ 0 <= r_hour d < 100 ∧ 0 <= r_day d < 100 ∧ 0 <= r_month d < 100 ∧ 0 <= r_year d < 100.

(** A clock that shows the date [d] at read [t]. *)
Definition shows (clock : nat → Z → Z) (t : nat) (d : rtcdate) : Prop :=
  clock t 0 = r_second d ∧ clock t 2 = r_minute d ∧ clock t 4 = r_hour d ∧ clock t 7 = r_day d ∧
  clock t 8 = r_month d ∧ clock t 9 = r_year d.

Lemma CONV_encode x : 0 <= x < 100 → CONV (encode true x) = x.
Proof.
  intros Hx. unfold CONV, encode. rewrite Z.shiftr_div_pow2, (land_ones_mod _ 4 : _ → Z.land _ 15 = _) by lia.
  change (2 ^ 4) with 16. pose proof (Z.mod_pos_bound x 10 ltac:(lia)) as Hm.
  rewrite <- (Z.div_unique (16 * (x / 10) + x mod 10) 16 (x / 10) (x mod 10)) by lia.
  rewrite <- (Z.mod_unique (16 * (x / 10) + x mod 10) 16 (x / 10) (x mod 10)) by lia.
  pose proof (Z.div_mod x 10). lia.
Qed.

Lemma fill_rtcdate_shows clock t d :
  (∀ i, (i < 6)%nat → shows clock (t + i) d) → fill_rtcdate clock t = Ok d (6 + t)%nat.
Proof.
  intros Hs. unfold fill_rtcdate, cmos_read, mbind, M_bind, mret, M_ret.
  pose proof (Hs 0%nat ltac:(lia)) as (H0 & _). pose proof (Hs 1%nat ltac:(lia)) as (_ & H1 & _).
  pose proof (Hs 2%nat ltac:(lia)) as (_ & _ & H2 & _). pose proof (Hs 3%nat ltac:(lia)) as (_ & _ & _ & H3 & _).
  pose proof (Hs 4%nat ltac:(lia)) as (_ & _ & _ & _ & H4 & _). pose proof (Hs 5%nat ltac:(lia)) as (_ & _ & _ & _ & _ & H5).
  rewrite Nat.add_comm in H0, H1, H2, H3, H4, H5. cbn [Nat.add] in *. rewrite H0, H1, H2, H3, H4, H5. by destruct d.
Qed.

(** cmostime() reads the clock: if the chip shows one date (of the years 2000 to 2099,
    in BCD or binary as its status register B says) while it is read, the result is that
    date, whichever encoding the chip uses. *)
Theorem cmostime_decodes (clock : nat → Z → Z) (t fuel : nat) (d : rtcdate) :
  let bcd := Z.land (clock t CMOS_STATB) 4 =? 0 in
  date_ok d → (0 < fuel)%nat →
  (∀ i, (1 ≤ i ≤ 13)%nat → shows clock (t + i) (encode_date bcd d)) → has (clock (t + 7)%nat CMOS_STATA) CMOS_UIP = false →
  ∃ t', cmostime clock fuel t = Ok (mkdate (r_second d) (r_minute d) (r_hour d) (r_day d) (r_month d) (r_year d + 2000)) t'.
Proof.
  intros bcd Hd Hf Hs Ha. destruct fuel as [|fuel]; [lia|]. unfold cmostime. cbn [cmos_loop].
  rewrite (bind_Ok _ _ t (clock t CMOS_STATB) (S t)) by done. change (Z.shiftl 1 2) with 4. fold bcd.
  assert (cmos_loop clock (S fuel) (S t) = Ok (encode_date bcd d) (14 + t)%nat) as E.
  { cbn [cmos_loop]. rewrite (bind_Ok _ _ _ _ _ (fill_rtcdate_shows clock (S t) (encode_date bcd d) ltac:(intros i Hi; replace (S t + i)%nat with (t + S i)%nat by lia; apply Hs; lia))).
    rewrite (bind_Ok _ _ _ (clock (6 + S t)%nat CMOS_STATA) (7 + S t)%nat) by done. replace (6 + S t)%nat with (t + 7)%nat by lia. rewrite Ha.
    rewrite (bind_Ok _ _ _ _ _ (fill_rtcdate_shows clock (7 + S t) (encode_date bcd d) ltac:(intros i Hi; replace (7 + S t + i)%nat with (t + (8 + i))%nat by lia; apply Hs; lia))).
    rewrite decide_True by done. unfold mret, M_ret. done. }
  exists (14 + t)%nat. cbn [cmos_loop] in E. rewrite (bind_Ok _ _ _ _ _ E). unfold mret, M_ret. f_equal.
  destruct d as [se mi ho da mo ye], Hd as (? & ? & ? & ? & ? & ?). cbn [r_second r_minute r_hour r_day r_month r_year] in *.
  unfold encode_date. destruct bcd; cbn [r_second r_minute r_hour r_day r_month r_year].
  - by rewrite !CONV_encode.
  - done.
Qed.

Lemma cmostime_decodes_witness :
  ∃ t', cmostime (λ _ r, if r =? 10 then 38 else if r =? 11 then 2 else if r =? 0 then 89 else if r =? 2 then 69 else
      if r =? 4 then 35 else if r =? 7 then 49 else if r =? 8 then 18 else 37) 3 0%nat = Ok (mkdate 59 45 23 31 12 2025) t'.
Proof.
  apply (cmostime_decodes (λ _ r, if r =? 10 then 38 else if r =? 11 then 2 else if r =? 0 then 89 else if r =? 2 then 69 else
      if r =? 4 then 35 else if r =? 7 then 49 else if r =? 8 then 18 else 37) 0 3 (mkdate 59 45 23 31 12 25)).
  - split_and!; cbn; lia.
  - lia.
  - by vm_compute.
  - by vm_compute.
Defined.
