(* ===== verification/Main.v ===== *)
(** * Main: the boot page table and the start of the other processors (main.c)

    [entrypgdir] is the page directory entry.S and entryother.S run on, read by
    [translate4] as a processor with 4 MB pages does. [startothers] starts the other
    processors one at a time. Which processors start, and where, is what the local
    APIC does with the registers lapicstartap() writes; [aps] records what each
    finds when it starts. *)

From S2P Require Import Prelude Machine CMem Mmu Kalloc ConsOut Vm Devices.
From stdpp Require Import options.

(** ** The boot page table *)

Definition entrypgdir : list Z :=
  <[Z.to_nat 0 := Z.lor (Z.lor (Z.lor 0 PTE_P) PTE_W) PTE_PS]>
  (<[Z.to_nat (Z.shiftr KERNBASE PDXSHIFT) := Z.lor (Z.lor (Z.lor 0 PTE_P) PTE_W) PTE_PS]>
   (replicate (Z.to_nat NPDENTRIES) 0)).

(** The processor's walk for a directory entry with PTE_PS: the top ten bits of the
    entry, then the low 22 bits of the address. *)
Definition translate4 (pgdir : list Z) (va : Z) : option Z :=
  e ← pgdir !! Z.to_nat (PDX va);
  if has e PTE_P && has e PTE_PS then Some (Z.shiftl (Z.shiftr e PDXSHIFT) PDXSHIFT + va mod 4194304) else None.

Lemma entrypgdir_lookup d : 0 <= d < 1024 →
  entrypgdir !! Z.to_nat d = Some (if decide (d = 0 ∨ d = 512) then 131 else 0).
Proof.
  intros H. unfold entrypgdir. change (Z.to_nat (Z.shiftr KERNBASE PDXSHIFT)) with 512%nat.
  change (Z.to_nat 0) with 0%nat. change (Z.to_nat NPDENTRIES) with 1024%nat.
  destruct (decide (d = 0)) as [->|H0].
  { rewrite list_lookup_insert_eq; [done|]. rewrite length_insert, length_replicate. lia. }
  rewrite list_lookup_insert_ne by lia. destruct (decide (d = 512)) as [->|H1].
  { rewrite list_lookup_insert_eq; [done|]. rewrite length_replicate. lia. }
  rewrite list_lookup_insert_ne by lia. rewrite decide_False by lia. apply lookup_replicate_2. lia.
Qed.

(** On the boot page table the first 4 MB of memory are at their own addresses and from
    KERNBASE on, and nothing else is mapped. *)
Theorem entrypgdir_maps (va : Z) :
  is_u32 va →
  translate4 entrypgdir va =
    if decide (va < 4194304) then Some va
    else if decide (KERNBASE <= va < KERNBASE + 4194304) then Some (v2p va) else None.
Proof.
  intros Hva. unfold translate4. rewrite entrypgdir_lookup by apply PDX_range. cbn [mbind option_bind].
  unfold is_u32 in Hva. rewrite PDX_eq, (Z.mod_small (va / _)) by (Z.div_mod_to_equations; lia).
  pose proof (Z.div_mod va 4194304 ltac:(lia)). pose proof (Z.mod_pos_bound va 4194304 ltac:(lia)).
  unfold KERNBASE. destruct (decide (va / 4194304 = 0 ∨ va / 4194304 = 512)) as [[Hd|Hd]|Hn].
  - rewrite decide_True by lia. change (has 131 PTE_P && has 131 PTE_PS) with true. cbv iota.
    f_equal. change (Z.shiftl (Z.shiftr 131 PDXSHIFT) PDXSHIFT) with 0. lia.
  - rewrite decide_False, decide_True by lia. change (has 131 PTE_P && has 131 PTE_PS) with true. cbv iota.
    f_equal. change (Z.shiftl (Z.shiftr 131 PDXSHIFT) PDXSHIFT) with 0. unfold v2p, KERNBASE, u32.
    rewrite (Z.mod_small (va - _)); lia.
  - rewrite !decide_False by lia. done.
Qed.

Lemma entrypgdir_maps_witness : translate4 entrypgdir (KERNBASE + 1048588) = Some 1048588.
Proof. rewrite (entrypgdir_maps (KERNBASE + 1048588)) by (unfold is_u32, KERNBASE; lia). reflexivity. Defined.

(** ** Starting the other processors *)

(** The interrupt command register: writing its low half sends the message. An INIT
    with ASSERT halts the processor whose APIC id is in bits 24 to 31 of the high half; a
    STARTUP makes it run at the page its low 8 bits name, if it is halted by an INIT,
    and is ignored otherwise. [x_halted] are the processors halted by an INIT. The
    result is the processor started, with its start address. *)
Record apic := mkapic { x_hi : Z; x_halted : gset Z }.
Definition apic_write (x : apic) (rv : Z * Z) : apic * option (Z * Z) :=
  let '(r, v) := rv in
  if r =? ICRHI then (mkapic v (x_halted x), None)
  else if r =? ICRLO then
    let dest := Z.land (Z.shiftr (x_hi x) 24) 255 in
    let mode := Z.land v 1792 in
    if mode =? INIT then
      (if has v ASSERT then mkapic (x_hi x) ({[ dest ]} ∪ x_halted x) else x, None)
    else if (mode =? STARTUP) && bool_decide (dest ∈ x_halted x) then
      (mkapic (x_hi x) (x_halted x ∖ {[ dest ]}), Some (dest, Z.shiftl (Z.land v 255) 12))
    else (x, None)
  else (x, None).
Fixpoint apic_writes (x : apic) (w : list (Z * Z)) : apic * list (Z * Z) :=
  match w with
  | [] => (x, [])
  | rv :: w =>
    let '(x, up) := apic_write x rv in
    let '(x, ups) := apic_writes x w in
    (x, option_list up ++ ups)
  end.

(** A processor that starts: its APIC id, the physical address it starts at, the port
    writes before it (the CMOS shutdown code) and memory. *)
Record ap := mkap { ap_id : Z; ap_eip : Z; ap_ports : ports; ap_mem : gmap Z Z }.

(** The ports and local APIC writes so far, the local APICs, and the processors
    started, in order. *)
Record aps := mkaps { a_ports : ports; a_lapic : list (Z * Z); a_apic : apic; a_started : list ap }.

Section Main.
Context {E : Env}.

(** Where the linker put the image of entryother.S, its size, mpenter() and entrypgdir;
    cpunum(); and whether a processor that starts gets to set cpu->started. *)
Context (binary_start binary_size mpenter pgdir me : Z) (started : ap → bool).

Definition code : Z := p2v 28672.

(** The body of the loop, for cpus[i] with APIC id [id]. lapicstartap() stores the
    two halves of the warm reset vector at 40:67. A processor finds its struct cpu by its
    APIC id (seginit), so cpus[i].started is set by a processor with APIC id [i]. *)
Definition start_ap (i id : Z) (d : aps) : K aps :=
  if i =? me then mret d else
  stack ← kalloc;
  store (code - 4) (u32 (stack + KSTACKSIZE)) ;;
  store (code - 8) mpenter ;;
  store (code - 12) (v2p pgdir) ;;
  let '(p, wrv, w) := lapicstartap id (v2p code) (a_ports d) (a_lapic d) in
  store (p2v 1127) (wrv.1 + Z.shiftl wrv.2 16) ;;
  m ← gets k_mem;
  let '(x, ups) := apic_writes (a_apic d) (drop (length (a_lapic d)) w) in
  let new := (λ '(id', eip), mkap id' eip p m) <$> ups in
  if existsb (λ y, (ap_id y =? i) && started y) new then mret (mkaps p w x (a_started d ++ new)) else hang.

Fixpoint start_aps (i : Z) (ids : list Z) (d : aps) : K aps :=
  match ids with
  | [] => mret d
  | id :: ids => d ← start_ap i id d; start_aps (i + 1) ids d
  end.

(** [ids] are the APIC ids of cpus[0], ..., cpus[ncpu - 1]. *)
Definition startothers (ids : list Z) (d : aps) : K aps :=
  do_memmove code binary_start binary_size ;;
  start_aps 0 ids d.

(** The processors to start. *)
Fixpoint others (i : Z) (ids : list Z) : list Z :=
  match ids with
  | [] => []
  | id :: ids => if i =? me then others (i + 1) ids else id :: others (i + 1) ids
  end.

(** Processor [id] starts at 0x7000, in the copied code, with the top of page [a] as its
    stack, mpenter() to enter and the boot page table; a processor that starts through
    the BIOS instead finds the shutdown code 10 and the warm reset vector 0x700:0. *)
Record ap_ok (m0 : gmap Z Z) (ida : Z * Z) (x : ap) : Prop := {
  ao_id : ap_id x = ida.1;
  ao_eip : ap_eip x = v2p code;
  ao_stack : read32 (ap_mem x) (code - 4) = ida.2 + KSTACKSIZE;
  ao_entry : read32 (ap_mem x) (code - 8) = mpenter;
  ao_pgdir : read32 (ap_mem x) (code - 12) = v2p pgdir;
  ao_code j : 0 <= j < binary_size → rd (ap_mem x) (code + j) = rd m0 (binary_start + j);
  ao_cmos : ∃ pre, po_outs (ap_ports x) = pre ++ [(112, 15); (113, 10)];
  ao_vector : read32 (ap_mem x) (p2v 1127) = Z.shiftl (v2p code / 16) 16
}.

Context (Hsize : 0 <= binary_size) (Hend : code + binary_size <= sym_end) (Hmp : is_u32 mpenter).

Lemma kmem_ok_low s l m :
  mem_ok m → (∀ b, sym_end <= b → rd m b = rd (k_mem s) b) → kmem_ok s l → kmem_ok (set_k_mem m s) l.
Proof using Type.
  intros Hm Hs (_ & Hl & Hnd & Hok). split_and!; try done. eapply free_list_ext; [|exact Hl].
  intros a Ha. rewrite Forall_forall in Hok. destruct (Hok a Ha) as (_ & ? & _). unfold read32. by rewrite !Hs by lia.
Qed.

(** Memory with the code copied, and the four stores that start a processor. *)
Definition copied (m0 m : gmap Z Z) : Prop :=
  mem_ok m ∧ ∀ j, 0 <= j < binary_size → rd m (code + j) = rd m0 (binary_start + j).
Definition ap_stores (m : gmap Z Z) (a : Z) : gmap Z Z :=
  write32 (write32 (write32 (write32 m (code - 4) (u32 (a + KSTACKSIZE))) (code - 8) mpenter) (code - 12) (v2p pgdir))
    (p2v 1127) (0 + Z.shiftl (u16 (Z.shiftr (v2p code) 4)) 16).

Lemma ap_stores_rd m a b : code <= b → rd (ap_stores m a) b = rd m b.
Proof using Type.
  change code with 2147512320. intros Hb. unfold ap_stores. change code with 2147512320. change (p2v 1127) with 2147484775.
  rewrite !rd_write32. repeat (case_decide; try lia).
Qed.

Lemma ap_stores_ok m0 m a id po :
  copied m0 m → page_ok a →
  ap_ok m0 (id, a) (mkap id (v2p code) (out 113 10 (out 112 15 po)) (ap_stores m a)).
Proof using Hsize Hend Hmp.
  intros [Hm Hc] (_ & Ha & Hr & Hp). revert Hend. change code with 2147512320. intros He.
  assert (is_u32 (a + KSTACKSIZE)) as Hu.
  { unfold is_u32, KSTACKSIZE. unfold v2p, KERNBASE, PHYSTOP, u32 in Hp. rewrite Z.mod_small in Hp by lia. lia. }
  split; cbn [ap_id ap_eip ap_ports ap_mem fst snd]; [done|done|..].
  4: { intros j Hj. rewrite ap_stores_rd by lia. by apply Hc. }
  4: { exists (po_outs po). cbn. by rewrite <- (assoc_L (++)). }
  all: unfold ap_stores; change code with 2147512320; change (p2v 1127) with 2147484775.
  - rewrite !read32_write32_ne, read32_write32, !u32_small by (done || lia || by rewrite u32_small). done.
  - rewrite !read32_write32_ne, read32_write32, u32_small by (done || lia). done.
  - rewrite !read32_write32_ne, read32_write32, u32_small by (lia || apply Z.mod_pos_bound; lia). done.
  - rewrite read32_write32. reflexivity.
Qed.

(** The messages of lapicstartap() start processor [id] at [addr], once. *)
Lemma startap_messages id po w :
  0 <= id < 256 → ∀ x,
  ∃ x', apic_writes x (drop (length w) (lapicstartap id (v2p code) po w).2) = (x', [(id, v2p code)]).
Proof using Type.
  clear Hsize Hend Hmp. intros Hid x. unfold lapicstartap, startup_ipi, lapicw. cbn [snd].
  rewrite <- !(assoc_L (++)), drop_app_length. cbn [app].
  set (h := u32 (Z.shiftl id 24)).
  assert (Z.land (Z.shiftr h 24) 255 = id) as Hh.
  { unfold h. rewrite Z.shiftl_mul_pow2, u32_small, Z.shiftr_div_pow2, Z.div_mul by (unfold is_u32; lia).
    change 255 with (Z.ones 8). rewrite Z.land_ones by lia. apply Z.mod_small. lia. }
  change (u32 (Z.lor (Z.lor INIT LEVEL) ASSERT)) with 50432. change (u32 (Z.lor INIT LEVEL)) with 34048.
  change (u32 (Z.lor STARTUP (Z.shiftr (v2p code) 12))) with 1543.
  assert (∀ x, apic_write x (ICRHI, h) = (mkapic h (x_halted x), None)) as E1 by done.
  assert (∀ H, apic_write (mkapic h H) (ICRLO, 50432) = (mkapic h ({[ id ]} ∪ H), None)) as E2.
  { intros H. unfold apic_write. cbn [x_hi x_halted]. by rewrite Hh. }
  assert (∀ H, apic_write (mkapic h H) (ICRLO, 34048) = (mkapic h H, None)) as E3 by done.
  assert (∀ H, apic_write (mkapic h H) (ICRLO, 1543) =
    if bool_decide (id ∈ H) then (mkapic h (H ∖ {[ id ]}), Some (id, 28672)) else (mkapic h H, None)) as E4.
  { intros H. unfold apic_write. cbn [x_hi x_halted]. by rewrite Hh. }
  cbn [apic_writes]. rewrite E1. cbn [x_halted]. rewrite E2, E3, E1. cbn [x_halted].
  rewrite E4, bool_decide_eq_true_2 by set_solver. rewrite E1. cbn [x_halted].
  rewrite E4, bool_decide_eq_false_2 by set_solver. by eexists.
Qed.

(** A processor that starts as it should gets to set its [started]. *)
Context (Hup : ∀ m0 ida x, ap_ok m0 ida x → started x = true).

Lemma start_ap_spec s i d m0 a l :
  kmem_ok s (a :: l) → kmem_free s → copied m0 (k_mem s) → i ≠ me → 0 <= i < 256 →
  ∃ d' s' x, start_ap i i d s = Ok d' s' ∧ a_started d' = a_started d ++ [x] ∧ ap_ok m0 (i, a) x ∧
    kmem_ok s' l ∧ kmem_free s' ∧ copied m0 (k_mem s').
Proof using Hsize Hend Hmp Hup.
  intros Hk Hf [Hm Hc] Hi Hr. unfold start_ap. rewrite (proj2 (Z.eqb_neq i me)) by done.
  destruct (kalloc_spec s (a :: l) Hk Hf) as (s1 & E1 & Hk1 & Hf1 & Hp & _ & Hm1 & _).
  rewrite (bind_Ok _ _ _ _ _ E1). destruct (startap_messages i (a_ports d) (a_lapic d) Hr (a_apic d)) as (x' & Ex).
  destruct (lapicstartap i (v2p code) (a_ports d) (a_lapic d)) as [[po wrv] w] eqn:El. cbn [snd] in Ex.
  injection El as <- <- _. unfold store, modify, gets, mbind, M_bind. cbn [fst snd]. rewrite Ex, Hm1. cbn [fmap list_fmap].
  assert (mem_ok (ap_stores (k_mem s) a)) as Hok by (unfold ap_stores; auto with xv6).
  pose proof (ap_stores_ok m0 (k_mem s) a i (a_ports d) (conj Hm Hc) Hp) as Hap.
  cbn [existsb ap_id]. rewrite Z.eqb_refl.
  match goal with |- context [started ?y] => assert (started y = true) as -> by exact (Hup _ _ _ Hap) end. cbn [andb orb].
  eexists _, (set_k_mem (ap_stores (k_mem s) a) s1), _. split; [done|]. split; [done|]. split; [exact Hap|]. split; [|split; [done|split]].
  - apply kmem_ok_low; [done| |done]. intros b Hb. rewrite Hm1. apply ap_stores_rd. lia.
  - done.
  - intros j Hj. cbn. rewrite ap_stores_rd by lia. by apply Hc.
Qed.

Lemma start_aps_spec n i s d m0 l1 l2 :
  kmem_ok s (l1 ++ l2) → kmem_free s → copied m0 (k_mem s) → 0 <= i → i + Z.of_nat n <= 256 →
  length l1 = length (others i (seqZ i (Z.of_nat n))) →
  ∃ d' s' new, start_aps i (seqZ i (Z.of_nat n)) d s = Ok d' s' ∧ a_started d' = a_started d ++ new ∧
    Forall2 (ap_ok m0) (zip (others i (seqZ i (Z.of_nat n))) l1) new ∧ kmem_ok s' l2.
Proof using Hsize Hend Hmp Hup.
  revert i s d l1. induction n as [|n IH]; intros i s d l1 Hk Hf Hc H0 Hn Hl.
  { apply nil_length_inv in Hl as ->. exists d, s, []. by rewrite app_nil_r. }
  rewrite seqZ_cons in * by lia. replace (Z.pred (Z.of_nat (S n))) with (Z.of_nat n) in * by lia.
  change (Z.succ i) with (i + 1) in *. cbn [start_aps others] in *.
  destruct (Z.eqb_spec i me) as [->|Hi].
  - rewrite (bind_Ok _ _ s d s) by (unfold start_ap; by rewrite Z.eqb_refl). apply IH; (done || lia).
  - destruct l1 as [|a l1]; [done|]. cbn [length] in Hl. injection Hl as Hl.
    destruct (start_ap_spec s i d m0 a (l1 ++ l2)) as (d1 & s1 & x & E1 & Hd1 & Hp & Hk1 & Hf1 & Hc1); try done; [lia|].
    rewrite (bind_Ok _ _ _ _ _ E1).
    destruct (IH (i + 1) s1 d1 l1) as (d2 & s2 & new & E2 & Hd2 & Hnew & Hk2); try (done || lia).
    exists d2, s2, (x :: new). split; [done|]. split; [by rewrite Hd2, Hd1, <- (assoc_L (++))|].
    split; [|done]. cbn [zip zip_with]. by constructor.
Qed.

(** C35. Let [n] processors have the APIC ids 0 to n - 1, as mpinit() requires, and let a
    processor that is started as it should be get to set its [started]. With a free page
    for each of the other processors, startothers() returns, and its messages to the local
    APICs have started exactly those, once each and in the order of the table: each starts
    at 0x7000, finds the boot code there, mpenter() and the boot page table as parameters,
    and the top of a page of its own from the free list as its stack; the shutdown code and
    the warm reset vector are set for it as well. *)
Theorem startothers_starts (n : nat) (l1 l2 : list Z) (d : aps) (s : kstate) :
  kmem_ok s (l1 ++ l2) → kmem_free s → Z.of_nat n <= 256 →
  length l1 = length (others 0 (seqZ 0 (Z.of_nat n))) →
  ∃ d' s' new, startothers (seqZ 0 (Z.of_nat n)) d s = Ok d' s' ∧ a_started d' = a_started d ++ new ∧
    Forall2 (ap_ok (k_mem s)) (zip (others 0 (seqZ 0 (Z.of_nat n))) l1) new ∧ NoDup l1 ∧ kmem_ok s' l2.
Proof using Hsize Hend Hmp Hup.
  intros Hk Hf Hn Hl. pose proof Hk as (Hm & _ & Hnd & _). unfold startothers, do_memmove, modify.
  set (m1 := memmove (k_mem s) code binary_start binary_size).
  assert (mem_ok m1) as Hm1 by (unfold m1; auto with xv6).
  rewrite (bind_Ok _ _ s tt (set_k_mem m1 s)) by done.
  destruct (start_aps_spec n 0 (set_k_mem m1 s) d (k_mem s) l1 l2) as (d' & s' & new & E1 & Hd & Hnew & Hk'); try (done || lia).
  - apply kmem_ok_low; [done| |done]. intros b Hb. unfold m1. rewrite rd_memmove, decide_False by (done || lia). done.
  - split; [done|]. intros j Hj. cbn. unfold m1. rewrite rd_memmove, decide_True by (done || lia). f_equal. lia.
  - exists d', s', new. split_and!; try done. by apply NoDup_app in Hnd as [? _].
Qed.

End Main.

(** Two processors, the one of cpus[0] running, and one free page. A processor that starts
    at 0x7000 with a stack and mpenter() there sets its [started]. *)
Section Example.
#[local] Existing Instance env_idle.

Definition comes_up (x : ap) : bool :=
  (ap_eip x =? 28672) && (read32 (ap_mem x) (code - 8) =? 2148536320).

Lemma startothers_starts_witness :
  let d := mkaps (mkports 0 []) [] (mkapic 0 ∅) [] in
  ∃ d' s' new, startothers 2148564992 64 2148536320 2148540416 0 comes_up [0; 1] d kalloc_ex = Ok d' s' ∧
    a_started d' = [] ++ new ∧
    Forall2 (ap_ok 2148564992 64 2148536320 2148540416 (k_mem kalloc_ex)) (zip [1] [2148630528]) new ∧
    NoDup [2148630528] ∧ kmem_ok s' [].
Proof.
  apply (startothers_starts 2148564992 64 2148536320 2148540416 0 comes_up) with (n := 2%nat) (l1 := [2148630528]) (l2 := []).
  - done.
  - done.
  - done.
  - intros m0 ida x Hx. unfold comes_up. rewrite (ao_eip _ _ _ _ _ _ _ Hx), (ao_entry _ _ _ _ _ _ _ Hx). reflexivity.
  - exact kalloc_ex_ok.
  - done.
  - done.
  - done.
Defined.

End Example.
