(* ===== verification/Ide.v ===== *)
(** * Ide: the IDE disk driver (ide.c)

    The driver's queue is the linked list the code builds: the variable idequeue and the
    field qnext of the buffers. The controller is its register file, the command last
    given to it and the sectors of its two drives; reads of the status port take the next
    value of a list, which is the controller's side of the polling. A handler that polls
    beyond the list hangs. The steps are the critical sections of idelock: the part of
    iderw() before it sleeps, and the interrupt handler. *)

From S2P Require Import Prelude Machine.
From stdpp Require Import options.

Definition SECTOR_SIZE : Z := 512.
Definition IDE_BSY : Z := 128.
Definition IDE_DRDY : Z := 64.
Definition IDE_DF : Z := 32.
Definition IDE_ERR : Z := 1.
Definition IDE_CMD_READ : Z := 32.
Definition IDE_CMD_WRITE : Z := 48.

(** A command as the controller decodes it from its registers. *)
Record command := mkcommand { cm_op : Z; cm_drive : Z; cm_sector : Z; cm_count : Z }.

Record ide := mkide {
  id_bufs : list buf;
  id_queue : option nat;
  id_havedisk1 : Z;
  id_status : list Z;
  id_regs : gmap Z Z;
  id_cmd : option command;
  id_disk : gmap (Z * Z) (list Z);
  id_woken : list nat
}.

Notation I := (M ide).

(** ** The controller *)

Definition reg (s : ide) (p : Z) : Z := default 0 (id_regs s !! p).

(** The 28-bit sector number and drive in registers 0x1f3 to 0x1f6. *)
Definition decode (s : ide) (op : Z) : command :=
  mkcommand op (Z.shiftr (Z.land (reg s 502) 16) 4)
    (reg s 499 + 256 * reg s 500 + 65536 * reg s 501 + 16777216 * Z.land (reg s 502) 15) (reg s 498).

Definition set_regs (r : gmap Z Z) (s : ide) : ide :=
  mkide (id_bufs s) (id_queue s) (id_havedisk1 s) (id_status s) r (id_cmd s) (id_disk s) (id_woken s).
Definition set_cmd (c : command) (s : ide) : ide :=
  mkide (id_bufs s) (id_queue s) (id_havedisk1 s) (id_status s) (id_regs s) (Some c) (id_disk s) (id_woken s).

(** Writing the command register 0x1f7 starts the command. *)
Definition outb (p v : Z) : I unit := modify (λ s,
  if p =? 503 then set_cmd (decode s (u8 v)) s else set_regs (<[p := u8 v]> (id_regs s)) s).

(** The status port 0x1f7. *)
Definition inb_status : I Z := λ s,
  match id_status s with
  | [] => Hang
  | r :: st => Ok r (mkide (id_bufs s) (id_queue s) (id_havedisk1 s) st (id_regs s) (id_cmd s) (id_disk s) (id_woken s))
  end.

(** The sectors of a command, in order; a transfer moves all of them. *)
Definition sectors (c : command) : list (Z * Z) := (λ i, (cm_drive c, cm_sector c + i)) <$> seqZ 0 (cm_count c).
Definition read_sectors (d : gmap (Z * Z) (list Z)) (c : command) : list Z :=
  concat ((λ k, default (replicate 512 0) (d !! k)) <$> sectors c).
Fixpoint write_sectors (d : gmap (Z * Z) (list Z)) (ks : list (Z * Z)) (data : list Z) : gmap (Z * Z) (list Z) :=
  match ks with
  | [] => d
  | k :: ks => write_sectors (<[k := take 512 data]> d) ks (drop 512 data)
  end.

(** outsl and insl on the data port, for a command of a whole block. *)
Definition outsl (data : list Z) : I unit :=
  oc ← gets id_cmd;
  c ← deref oc;
  modify (λ s, mkide (id_bufs s) (id_queue s) (id_havedisk1 s) (id_status s) (id_regs s) (id_cmd s)
    (write_sectors (id_disk s) (sectors c) data) (id_woken s)).
Definition insl : I (list Z) :=
  oc ← gets id_cmd;
  c ← deref oc;
  d ← gets id_disk;
  mret (read_sectors d c).

(** ** The driver *)

Definition get_buf (b : nat) : I buf := o ← gets (λ s, id_bufs s !! b); deref o.
Definition upd_buf (b : nat) (f : buf → buf) : I unit := modify (λ s,
  mkide (alter f b (id_bufs s)) (id_queue s) (id_havedisk1 s) (id_status s) (id_regs s) (id_cmd s) (id_disk s) (id_woken s)).
Definition set_queue (q : option nat) : I unit := modify (λ s,
  mkide (id_bufs s) q (id_havedisk1 s) (id_status s) (id_regs s) (id_cmd s) (id_disk s) (id_woken s)).

(** The polling loop; it runs as long as the controller is busy. *)
Fixpoint poll (fuel : nat) : I Z :=
  match fuel with
  | O => hang
  | S n => r ← inb_status; if Z.land r (Z.lor IDE_BSY IDE_DRDY) =? IDE_DRDY then mret r else poll n
  end.
Definition idewait (checkerr : bool) : I Z :=
  n ← gets (λ s, length (id_status s));
  r ← poll n;
  if checkerr && negb (Z.land r (Z.lor IDE_DF IDE_ERR) =? 0) then mret (-1) else mret 0.

Definition sector_per_block : Z := Z.quot BSIZE SECTOR_SIZE.

Definition idestart (ob : option nat) : I unit :=
  match ob with
  | None => panic "idestart"
  | Some b =>
    x ← get_buf b;
    if FSSIZE <=? b_blockno x then panic "incorrect blockno" else
    let sector := s32 (b_blockno x * sector_per_block) in
    if 7 <? sector_per_block then panic "idestart" else
    idewait false ;;
    outb 1014 0 ;;
    outb 498 sector_per_block ;;
    outb 499 (Z.land sector 255) ;;
    outb 500 (Z.land (Z.shiftr sector 8) 255) ;;
    outb 501 (Z.land (Z.shiftr sector 16) 255) ;;
    outb 502 (Z.lor (Z.lor 224 (Z.shiftl (Z.land (b_dev x) 1) 4)) (Z.land (Z.shiftr sector 24) 15)) ;;
    if has (b_flags x) B_DIRTY then
      outb 503 IDE_CMD_WRITE ;;
      outsl (b_data x)
    else outb 503 IDE_CMD_READ
  end.

(** ideinit() after the interrupt is enabled: is there a second drive? *)
Fixpoint probe (n : nat) : I bool :=
  match n with
  | O => mret false
  | S n => r ← inb_status; if negb (r =? 0) then mret true else probe n
  end.
Definition ideinit : I unit :=
  idewait false ;;
  outb 502 (Z.lor 224 (Z.shiftl 1 4)) ;;
  present ← probe 1000;
  when present (modify (λ s, mkide (id_bufs s) (id_queue s) 1 (id_status s) (id_regs s) (id_cmd s) (id_disk s) (id_woken s))) ;;
  outb 502 (Z.lor 224 (Z.shiftl 0 4)).

Definition wakeup (b : nat) : I unit := modify (λ s,
  mkide (id_bufs s) (id_queue s) (id_havedisk1 s) (id_status s) (id_regs s) (id_cmd s) (id_disk s) (id_woken s ++ [b])).

(** [if(!(b->flags & B_DIRTY) && idewait(1) >= 0) insl(...);] *)
Definition intr_data (b : nat) (x : buf) : I unit :=
  if has (b_flags x) B_DIRTY then skip else
  r ← idewait true;
  if 0 <=? r then d ← insl; upd_buf b (set_b_data d) else skip.

Definition ideintr : I unit :=
  q ← gets id_queue;
  match q with
  | None => skip
  | Some b =>
    x ← get_buf b;
    set_queue (b_qnext x) ;;
    intr_data b x ;;
    upd_buf b (λ x, set_b_flags (Z.lor (b_flags x) B_VALID) x) ;;
    upd_buf b (λ x, set_b_flags (Z.land (b_flags x) (Z.lnot B_DIRTY)) x) ;;
    wakeup b ;;
    q' ← gets id_queue;
    match q' with None => skip | Some _ => idestart q' end
  end.

(** [for(pp=&idequeue; *pp; pp=&( *pp)->qnext); *pp = b;] from the buffer [p]. *)
Fixpoint append (fuel : nat) (p b : nat) : I unit :=
  match fuel with
  | O => hang
  | S n =>
    x ← get_buf p;
    match b_qnext x with
    | None => upd_buf p (set_b_qnext (Some b))
    | Some p' => append n p' b
    end
  end.

(** iderw() up to the loop that sleeps. *)
Definition iderw_start (b : nat) : I unit :=
  x ← get_buf b;
  if negb (has (b_flags x) B_BUSY) then panic "iderw: buf not busy" else
  if Z.land (b_flags x) (Z.lor B_VALID B_DIRTY) =? B_VALID then panic "iderw: nothing to do" else
  hd ← gets id_havedisk1;
  if negb (b_dev x =? 0) && (hd =? 0) then panic "iderw: ide disk 1 not present" else
  upd_buf b (set_b_qnext None) ;;
  q ← gets id_queue;
  n ← gets (λ s, length (id_bufs s));
  match q with
  | None => set_queue (Some b)
  | Some p => append n p b
  end ;;
  q ← gets id_queue;
  when (bool_decide (q = Some b)) (idestart (Some b)).

(** The condition on which it stops sleeping. *)
Definition iderw_done (x : buf) : bool := Z.land (b_flags x) (Z.lor B_VALID B_DIRTY) =? B_VALID.

(** ** The queue *)

(** [l] is the linked list that starts at [q]. *)
Fixpoint chain (bs : list buf) (q : option nat) (l : list nat) : Prop :=
  match l with
  | [] => q = None
  | b :: l => q = Some b ∧ ∃ x, bs !! b = Some x ∧ chain bs (b_qnext x) l
  end.

Lemma chain_unique bs q l l' : chain bs q l → chain bs q l' → l = l'.
Proof.
  revert q l'. induction l as [|b l IH]; intros q l' Hl Hl'; destruct l' as [|b' l']; cbn [chain] in *; naive_solver.
Qed.

(** A change that keeps qnext, or is elsewhere, keeps the list. *)
Lemma chain_alter bs q l f b :
  chain bs q l → (b ∈ l → ∀ x, b_qnext (f x) = b_qnext x) → chain (alter f b bs) q l.
Proof.
  revert q. induction l as [|b' l IH]; intros q; cbn [chain]; [done|]. intros (-> & x & Hx & Hl) Hf. split; [done|].
  rewrite list_lookup_alter_case. case_decide as Hd.
  - subst. rewrite Hx. exists (f x). split; [done|]. rewrite Hf by set_solver. apply IH; [done|set_solver].
  - exists x. split; [done|]. apply IH; [done|set_solver].
Qed.

Lemma get_buf_Ok s b x : id_bufs s !! b = Some x → get_buf b s = Ok x s.
Proof. intros Hx. unfold get_buf, gets, mbind, M_bind. by rewrite Hx. Qed.

Lemma get_buf_inv s b x s' : get_buf b s = Ok x s' → id_bufs s !! b = Some x ∧ s' = s.
Proof.
  unfold get_buf, gets, mbind, M_bind, deref. destruct (id_bufs s !! b); [|done].
  intros [= -> ->]. done.
Qed.

(** Appending to a list that is not empty. *)
Lemma append_spec n bs p l b x s :
  id_bufs s = bs → chain bs (Some p) (p :: l) → NoDup (p :: l) → b ∉ p :: l → bs !! b = Some x → b_qnext x = None →
  (length l < n)%nat →
  ∃ k, k ∈ p :: l ∧ append n p b s = upd_buf k (set_b_qnext (Some b)) s ∧ chain (alter (set_b_qnext (Some b)) k bs) (Some p) (p :: l ++ [b]).
Proof.
  intros Hs. revert n p. induction l as [|p' l IH]; intros n p Hc Hnd Hb Hx Hq Hn; (destruct n as [|n]; [lia|]); cbn [append].
  - destruct Hc as (_ & y & Hy & Hc). cbn [chain] in Hc. exists p. split; [set_solver|]. 
    rewrite (bind_Ok _ _ _ _ _ (get_buf_Ok s p y ltac:(by rewrite Hs))), Hc.
    split; [done|]. cbn [app chain]. split; [done|]. rewrite list_lookup_alter_case, decide_True, Hy by done.
    exists (set_b_qnext (Some b) y). split; [done|]. split; [done|]. exists x. rewrite list_lookup_alter_case, decide_False by set_solver. done.
  - destruct Hc as (_ & y & Hy & Hc). assert (b_qnext y = Some p') as Hqy by (cbn [chain] in Hc; naive_solver).
    rewrite (bind_Ok _ _ _ _ _ (get_buf_Ok s p y ltac:(by rewrite Hs))), Hqy. rewrite Hqy in Hc. cbn [length] in Hn.
    apply NoDup_cons in Hnd as [Hp Hnd]. destruct (IH n p' Hc Hnd) as (k & Hk & E & Hc'); [set_solver|done|done|lia|].
    exists k. split; [set_solver|]. split; [exact E|]. cbn [app]. change (chain ?B (Some p) (p :: ?L)) with (Some p = Some p ∧ ∃ x, B !! p = Some x ∧ chain B (b_qnext x) L).
    split; [done|]. rewrite list_lookup_alter_case, decide_False by set_solver. exists y. by rewrite Hqy.
Qed.

(** ** Starting a request *)

Definition set_status (st : list Z) (s : ide) : ide :=
  mkide (id_bufs s) (id_queue s) (id_havedisk1 s) st (id_regs s) (id_cmd s) (id_disk s) (id_woken s).

Definition ready (r : Z) : Prop := Z.land r (Z.lor IDE_BSY IDE_DRDY) = IDE_DRDY.
Definition failed (r : Z) : bool := negb (Z.land r (Z.lor IDE_DF IDE_ERR) =? 0).

(** The request for a buffer, as the controller should see it. *)
Definition request (x : buf) : command :=
  mkcommand (if has (b_flags x) B_DIRTY then IDE_CMD_WRITE else IDE_CMD_READ) (Z.land (b_dev x) 1)
    (b_blockno x * sector_per_block) sector_per_block.

Lemma poll_frame n s r s' : poll n s = Ok r s' → ready r ∧ ∃ st, s' = set_status st s.
Proof.
  revert s. induction n as [|n IH]; intros s; cbn [poll]; [done|]. intros (r1 & s1 & E1 & E)%bind_Ok_inv.
  unfold inb_status in E1. destruct (id_status s) as [|r0 st]; [done|]. simplify_eq.
  destruct (Z.eqb_spec (Z.land r1 (Z.lor IDE_BSY IDE_DRDY)) IDE_DRDY) as [Hr|Hr].
  - unfold mret, M_ret in E. simplify_eq. split; [done|]. by exists st.
  - destruct (IH _ E) as (? & st' & ->). eauto.
Qed.

Lemma idewait_frame c s r s' : idewait c s = Ok r s' → ∃ st, s' = set_status st s.
Proof.
  unfold idewait. intros (n & s1 & E1 & (r1 & s2 & E2 & E)%bind_Ok_inv)%bind_Ok_inv.
  unfold gets in E1. simplify_eq. destruct (poll_frame _ _ _ _ E2) as (_ & st & ->).
  exists st. case_match; unfold mret, M_ret in E; by simplify_eq.
Qed.

Lemma idewait_ready c s r st :
  id_status s = r :: st → ready r → idewait c s = Ok (if c && failed r then -1 else 0) (set_status st s).
Proof.
  intros Hs Hr. unfold idewait. rewrite (bind_Ok _ _ s (length (id_status s)) s) by done. rewrite Hs. cbn [length poll].
  rewrite (bind_Ok _ _ s r (set_status st s)).
  2:{ rewrite (bind_Ok _ _ s r (set_status st s)) by (unfold inb_status; by rewrite Hs). unfold ready in Hr. by rewrite Hr. }
  unfold failed. by destruct (c && _).
Qed.

(** The registers hold the request when the command is given. *)
Lemma request_decoded s x op regs :
  0 <= b_blockno x < FSSIZE →
  let sector := s32 (b_blockno x * sector_per_block) in
  id_regs s =
    <[502 := u8 (Z.lor (Z.lor 224 (Z.shiftl (Z.land (b_dev x) 1) 4)) (Z.land (Z.shiftr sector 24) 15))]>
     (<[501 := u8 (Z.land (Z.shiftr sector 16) 255)]> (<[500 := u8 (Z.land (Z.shiftr sector 8) 255)]>
      (<[499 := u8 (Z.land sector 255)]> (<[498 := u8 sector_per_block]> (<[1014 := u8 0]> regs))))) →
  decode s op = mkcommand op (Z.land (b_dev x) 1) (b_blockno x * sector_per_block) sector_per_block.
Proof.
  unfold FSSIZE. intros Hb. change sector_per_block with 1. rewrite Z.mul_1_r, s32_small by lia. cbn zeta.
  intros Hregs. unfold decode, reg. rewrite Hregs. clear Hregs.
  repeat first [rewrite lookup_insert_eq | rewrite lookup_insert_ne by lia]. cbn [from_option id].
  generalize dependent (b_blockno x). intros n Hn. rewrite !Z.shiftr_div_pow2 by lia.
  change (2 ^ 24) with 16777216. change (2 ^ 16) with 65536. change (2 ^ 8) with 256.
  rewrite (Z.div_small n 16777216), (Z.div_small n 65536) by lia.
  assert (∀ a, Z.land a 255 = a mod 256) as H255 by (intros; by apply (land_ones_mod a 8)).
  assert (∀ a, Z.land a 1 = a mod 2) as H1 by (intros; by apply (land_ones_mod a 1)).
  rewrite !H255, !H1. unfold u8. rewrite !Z.mod_mod by lia.
  assert (n mod 256 + 256 * ((n / 256) mod 256) = n) as Hsum.
  { rewrite (Z.mod_small (n / 256)); [pose proof (Z.div_mod n 256); lia|].
    split; [apply Z.div_pos; lia|apply Z.div_lt_upper_bound; lia]. }
  assert (b_dev x mod 2 = 0 ∨ b_dev x mod 2 = 1) as [-> | ->] by (pose proof (Z.mod_pos_bound (b_dev x) 2); lia);
    f_equal; match goal with |- context [Z.land ?a 15] => change (Z.land a 15) with 0 end;
    change (0 mod 256) with 0; lia.
Qed.

(** The controller after the request for [x]. *)
Definition requested (s : ide) (x : buf) (st : list Z) (regs : gmap Z Z) : ide :=
  mkide (id_bufs s) (id_queue s) (id_havedisk1 s) st regs (Some (request x))
    (if has (b_flags x) B_DIRTY then write_sectors (id_disk s) (sectors (request x)) (b_data x) else id_disk s)
    (id_woken s).

Lemma outb_reg {A} p v (k : I A) s : p ≠ 503 → (outb p v ;; k) s = k (set_regs (<[p := u8 v]> (id_regs s)) s).
Proof. intros Hp. apply Z.eqb_neq in Hp. unfold outb, modify, mbind, M_bind. by rewrite Hp. Qed.

Lemma set_regs_regs r r' s : set_regs r (set_regs r' s) = set_regs r s.
Proof. done. Qed.

Lemma idestart_run b s x r st :
  id_bufs s !! b = Some x → 0 <= b_blockno x < FSSIZE → idewait false s = Ok r (set_status st s) →
  ∃ regs, idestart (Some b) s = Ok tt (requested s x st regs).
Proof.
  intros Hx Hb Hw. cbn [idestart]. rewrite (bind_Ok _ _ _ _ _ (get_buf_Ok s b x Hx)).
  destruct (Z.leb_spec FSSIZE (b_blockno x)); [lia|]. cbn zeta. change (7 <? sector_per_block) with false. cbn iota.
  rewrite (bind_Ok _ _ _ _ _ Hw). rewrite !outb_reg by done. rewrite !set_regs_regs. set (s1 := set_regs _ _).
  exists (id_regs s1). pose proof (λ op, request_decoded s1 x op (id_regs s) Hb eq_refl) as Hd.
  unfold requested, request. destruct (has (b_flags x) B_DIRTY).
  - rewrite (bind_Ok (outb 503 IDE_CMD_WRITE) _ s1 tt (set_cmd (decode s1 IDE_CMD_WRITE) s1)) by done. by rewrite Hd.
  - unfold outb, modify. change (503 =? 503) with true. change (u8 IDE_CMD_READ) with IDE_CMD_READ. cbn iota. by rewrite Hd.
Qed.

Lemma idestart_frame b s x s' :
  id_bufs s !! b = Some x → 0 <= b_blockno x → idestart (Some b) s = Ok tt s' →
  ∃ st regs, s' = requested s x st regs.
Proof.
  intros Hx Hb E. assert (b_blockno x < FSSIZE ∧ ∃ r st, idewait false s = Ok r (set_status st s)) as (Hlt & r & st & Hw).
  { cbn [idestart] in E. rewrite (bind_Ok _ _ _ _ _ (get_buf_Ok s b x Hx)) in E.
    destruct (Z.leb_spec FSSIZE (b_blockno x)); [done|]. cbn zeta in E. change (7 <? sector_per_block) with false in E.
    cbn iota in E. apply bind_Ok_inv in E as (r & s1 & E1 & _). split; [lia|]. destruct (idewait_frame _ _ _ _ E1) as (st & ->). eauto. }
  destruct (idestart_run b s x r st Hx ltac:(lia) Hw) as (regs & E'). rewrite E' in E. injection E as <-. eauto.
Qed.

(** ** The invariant *)

(** [l] are the requests not yet completed: they form the queue, each once, they are not
    done, and the controller is working on the first. *)
Record pending (s : ide) (l : list nat) : Prop := {
  pd_chain : chain (id_bufs s) (id_queue s) l;
  pd_nodup : NoDup l;
  pd_todo : ∀ b, b ∈ l → ∃ x, id_bufs s !! b = Some x ∧ iderw_done x = false;
  pd_active : ∀ b, head l = Some b → ∃ x, id_bufs s !! b = Some x ∧ id_cmd s = Some (request x);
  pd_blocks : ∀ b x, id_bufs s !! b = Some x → 0 <= b_blockno x
}.

Lemma done_flags f : Z.land (Z.land (Z.lor f B_VALID) (Z.lnot B_DIRTY)) (Z.lor B_VALID B_DIRTY) = B_VALID.
Proof.
  rewrite <- Z.land_assoc. change (Z.land (Z.lnot B_DIRTY) (Z.lor B_VALID B_DIRTY)) with B_VALID.
  apply Z.bits_inj'. intros n _. rewrite Z.land_spec, Z.lor_spec. by destruct (Z.testbit f n), (Z.testbit B_VALID n).
Qed.

Lemma alter_keeps_blocks (f : buf → buf) b (bs : list buf) :
  (∀ x, b_blockno (f x) = b_blockno x) → (∀ i x, bs !! i = Some x → 0 <= b_blockno x) →
  ∀ i x, alter f b bs !! i = Some x → 0 <= b_blockno x.
Proof.
  intros Hf Hb i x. rewrite list_lookup_alter_case. case_decide; [|apply Hb].
  destruct (bs !! i) eqn:E; [|done]. intros [= <-]. rewrite Hf. eauto.
Qed.

Lemma chain_length bs q l : chain bs q l → NoDup l → (length l ≤ length bs)%nat.
Proof.
  intros Hc Hnd. rewrite <- (length_seq (length bs) 0). apply submseteq_length, NoDup_submseteq; [done|].
  intros b Hb. rewrite elem_of_seq. split; [lia|]. clear Hnd. revert q Hc. induction l as [|b' l IH]; intros q Hc; [set_solver|].
  destruct Hc as (_ & x & Hx & Hc). apply elem_of_cons in Hb as [-> |Hb]; [by apply lookup_lt_Some in Hx|eauto].
Qed.

(** Adding a request. *)
Lemma iderw_start_pending s s' l b :
  pending s l → b ∉ l → iderw_start b s = Ok tt s' →
  pending s' (l ++ [b]) ∧ id_woken s' = id_woken s.
Proof.
  intros P Hb E. unfold iderw_start in E. apply bind_Ok_inv in E as (x & s1 & E1 & E).
  apply get_buf_inv in E1 as [Hx ->].
  destruct (negb (has (b_flags x) B_BUSY)); [done|].
  destruct (Z.land (b_flags x) (Z.lor B_VALID B_DIRTY) =? B_VALID) eqn:Hdone; [done|].
  rewrite (bind_Ok _ _ s (id_havedisk1 s) s) in E by done. destruct (negb (b_dev x =? 0) && _); [done|].
  set (bs1 := alter (set_b_qnext None) b (id_bufs s)).
  set (s1 := mkide bs1 (id_queue s) (id_havedisk1 s) (id_status s) (id_regs s) (id_cmd s) (id_disk s) (id_woken s)).
  rewrite (bind_Ok _ _ s tt s1) in E by done. rewrite (bind_Ok _ _ s1 (id_queue s) s1) in E by done.
  rewrite (bind_Ok _ _ s1 (length bs1) s1) in E by done.
  set (x1 := set_b_qnext None x).
  assert (bs1 !! b = Some x1) as Hx1 by (unfold bs1; by rewrite list_lookup_alter_case, decide_True, Hx).
  assert (chain bs1 (id_queue s) l) as Hc1 by (apply chain_alter; [apply P|done]).
  assert (∀ i y, bs1 !! i = Some y → 0 <= b_blockno y) as Hbl1 by (apply alter_keeps_blocks; [done|apply P]).
  destruct l as [|p l].
  - pose proof (pd_chain _ _ P) as Hq. cbn [chain] in Hq. rewrite Hq in E.
    set (s2 := mkide bs1 (Some b) (id_havedisk1 s) (id_status s) (id_regs s) (id_cmd s) (id_disk s) (id_woken s)).
    rewrite (bind_Ok _ _ s1 tt s2) in E by done. rewrite (bind_Ok _ _ s2 (Some b) s2) in E by done.
    rewrite bool_decide_eq_true_2 in E by done. cbn [when] in E.
    destruct (idestart_frame b s2 x1 s' Hx1 (Hbl1 _ _ Hx1) E) as (st & regs & ->). split; [|done].
    split; cbn [requested id_bufs id_queue id_cmd app head].
    + split; [done|]. by exists x1.
    + apply NoDup_singleton.
    + intros b' ->%list_elem_of_singleton. by exists x1.
    + intros b' [= <-]. by exists x1.
    + exact Hbl1.
  - assert (id_queue s = Some p) as Hq by apply P. rewrite Hq in E.
    assert (length l < length bs1)%nat as Hlen.
    { pose proof (chain_length _ _ _ Hc1 (pd_nodup _ _ P)) as Hl. cbn in Hl. lia. }
    destruct (append_spec (length bs1) bs1 p l b x1 s1) as (k & Hk & Ea & Hca); try done; [by rewrite <- Hq|apply P|].
    set (bs2 := alter (set_b_qnext (Some b)) k bs1) in *.
    set (s2 := mkide bs2 (id_queue s) (id_havedisk1 s) (id_status s) (id_regs s) (id_cmd s) (id_disk s) (id_woken s)).
    rewrite (bind_Ok _ _ s1 tt s2) in E by (by rewrite Ea). rewrite (bind_Ok _ _ s2 (Some p) s2) in E by (unfold gets; by rewrite <- Hq).
    rewrite bool_decide_eq_false_2 in E by set_solver. cbn in E. injection E as <-. split; [|done].
    assert (∀ i y, id_bufs s !! i = Some y → ∃ q, bs2 !! i = Some (set_b_qnext q y)) as Hsame.
    { intros i y Hi. unfold bs2, bs1. rewrite !list_lookup_alter_case. repeat case_decide; rewrite Hi; cbn; eauto.
      exists (b_qnext y). by destruct y. }
    split; cbn [s2 id_bufs id_queue id_cmd].
    + by rewrite Hq.
    + apply NoDup_app. split_and!; [apply P| |apply NoDup_singleton]. set_solver.
    + intros b' [Hb'|Hb']%elem_of_app.
      * destruct (pd_todo _ _ P b' Hb') as (y & Hy & ?). destruct (Hsame _ _ Hy) as (q & ->). eauto.
      * apply list_elem_of_singleton in Hb' as ->. destruct (Hsame _ _ Hx) as (q & ->). eauto.
    + intros b' [= <-]. destruct (pd_active _ _ P p eq_refl) as (y & Hy & ?). destruct (Hsame _ _ Hy) as (q & ->). eauto.
    + by apply alter_keeps_blocks.
Qed.

(** Completing the first request. *)

(** The buffer [y] when its request is complete, [d] being the data read. *)
Definition completed (d : option (list Z)) (y : buf) : buf :=
  let y := set_b_data (default (b_data y) d) y in
  set_b_flags (Z.land (Z.lor (b_flags y) B_VALID) (Z.lnot B_DIRTY)) y.

Lemma completed_done d y : iderw_done (completed d y) = true.
Proof. unfold iderw_done, completed. cbn [b_flags set_b_flags set_b_data]. rewrite done_flags. done. Qed.

Lemma intr_data_frame b x s s' :
  intr_data b x s = Ok tt s' →
  ∃ st d, s' = mkide (alter (λ y, set_b_data (default (b_data y) d) y) b (id_bufs s)) (id_queue s) (id_havedisk1 s) st
    (id_regs s) (id_cmd s) (id_disk s) (id_woken s).
Proof.
  assert (∀ bs : list buf, alter (λ y, set_b_data (default (b_data y) None) y) b bs = bs) as Hid.
  { intros bs. apply list_eq. intros i. rewrite list_lookup_alter_case. case_decide; [|done].
    destruct (bs !! i) as [[]|]; done. }
  unfold intr_data. intros E. destruct (has (b_flags x) B_DIRTY).
  { cbn in E. injection E as <-. exists (id_status s), None. rewrite Hid. by destruct s. }
  apply bind_Ok_inv in E as (r & s1 & E1 & E). destruct (idewait_frame _ _ _ _ E1) as (st & ->).
  destruct (0 <=? r); [|cbn in E; injection E as <-; exists st, None; rewrite Hid; by destruct s].
  apply bind_Ok_inv in E as (d & s2 & E2 & E). unfold insl, gets, mbind, M_bind, deref in E2. cbn in E2.
  destruct (id_cmd s) eqn:Hc; [|done]. injection E2 as E2 <-. cbn in E.
  injection E as <-. exists st, (Some d). by rewrite Hc.
Qed.

(** The handler up to the start of the next request. *)
Definition finish (s : ide) (b : nat) (x : buf) (st : list Z) (d : option (list Z)) : ide :=
  mkide (alter (completed d) b (id_bufs s)) (b_qnext x) (id_havedisk1 s) st (id_regs s) (id_cmd s) (id_disk s) (id_woken s ++ [b]).

Lemma ideintr_run s s' b x :
  id_queue s = Some b → id_bufs s !! b = Some x → ideintr s = Ok tt s' →
  ∃ st d, match b_qnext x with
    | None => s' = finish s b x st d
    | Some _ => idestart (b_qnext x) (finish s b x st d) = Ok tt s'
    end.
Proof.
  intros Hq Hx E. unfold ideintr in E. rewrite (bind_Ok _ _ s (Some b) s) in E by (unfold gets; by rewrite Hq).
  rewrite (bind_Ok _ _ _ _ _ (get_buf_Ok s b x Hx)) in E.
  set (s1 := mkide (id_bufs s) (b_qnext x) (id_havedisk1 s) (id_status s) (id_regs s) (id_cmd s) (id_disk s) (id_woken s)) in *.
  rewrite (bind_Ok _ _ s tt s1) in E by done. apply bind_Ok_inv in E as ([] & s2 & E2 & E).
  destruct (intr_data_frame _ _ _ _ E2) as (st & d & ->). exists st, d.
  cbv [upd_buf wakeup modify gets mbind M_bind] in E.
  cbn [id_queue id_bufs id_havedisk1 id_status id_regs id_cmd id_disk id_woken s1] in E.
  rewrite !list_alter_compose in E. unfold finish.
  destruct (b_qnext x); [exact E|]. cbn in E. by injection E as <-.
Qed.

Lemma ideintr_pending s s' b l :
  pending s (b :: l) → ideintr s = Ok tt s' →
  pending s' l ∧ id_woken s' = id_woken s ++ [b] ∧ ∃ y, id_bufs s' !! b = Some y ∧ iderw_done y = true.
Proof.
  intros P E. destruct (pd_chain _ _ P) as (Hq & x & Hx & Hc).
  destruct (ideintr_run s s' b x Hq Hx E) as (st & d & E'). set (s1 := finish s b x st d) in *.
  pose proof (pd_nodup _ _ P) as [Hb Hnd]%NoDup_cons.
  assert (id_bufs s1 !! b = Some (completed d x)) as Hb1.
  { cbn [s1 finish id_bufs]. by rewrite list_lookup_alter_case, decide_True, Hx. }
  assert (∀ b', b' ≠ b → id_bufs s1 !! b' = id_bufs s !! b') as Hother.
  { intros b' Hne. cbn [s1 finish id_bufs]. by rewrite list_lookup_alter_case, decide_False. }
  assert (chain (id_bufs s1) (b_qnext x) l) as Hc1 by (by apply chain_alter).
  assert (∀ i y, id_bufs s1 !! i = Some y → 0 <= b_blockno y) as Hbl by (apply alter_keeps_blocks; [done|apply P]).
  assert (∀ b', b' ∈ l → ∃ y, id_bufs s1 !! b' = Some y ∧ iderw_done y = false) as Htodo.
  { intros b' Hb'. rewrite Hother by set_solver. apply (pd_todo _ _ P). set_solver. }
  destruct l as [|b2 l].
  - cbn [chain] in Hc. rewrite Hc in E'. subst s'. split_and!; [|done|eauto using completed_done].
    split; [by cbn [s1 finish id_queue]; rewrite Hc|done|done|done|exact Hbl].
  - destruct Hc1 as (Hq2 & x2 & Hx2 & Hc2). rewrite Hq2 in E'.
    destruct (idestart_frame b2 s1 x2 s' Hx2 (Hbl _ _ Hx2) E') as (st' & regs & ->). split_and!; [|done|eauto using completed_done].
    split; cbn [requested id_bufs id_queue id_cmd]; [|done|done| |exact Hbl].
    + cbn [s1 finish id_queue]. rewrite Hq2. split; [done|]. by exists x2.
    + intros b' [= <-]. by exists x2.
Qed.

(** ** Runs of the driver *)

(** A request for [b] (whose owner waits for it, so it is not queued), an interrupt, or
    the controller preparing its next answers. *)
Inductive ievent := Erw (b : nat) | Eintr | Ehw (st : list Z).
Inductive istep : ide → ievent → ide → Prop :=
  | step_rw b s s' : (∀ l, chain (id_bufs s) (id_queue s) l → b ∉ l) → iderw_start b s = Ok tt s' → istep s (Erw b) s'
  | step_intr s s' : ideintr s = Ok tt s' → istep s Eintr s'
  | step_hw st s : istep s (Ehw st) (set_status st s).
Inductive iruns (s0 : ide) : list ievent → ide → Prop :=
  | runs_nil : iruns s0 [] s0
  | runs_step es s e s' : iruns s0 es s → istep s e s' → iruns s0 (es ++ [e]) s'.

Definition requests (es : list ievent) : list nat := omap (λ e, match e with Erw b => Some b | _ => None end) es.

(** C15. The disk driver serves requests in the order they were made. In every run of
    requests and interrupts from an idle driver, the requests made are the completed
    ones, in order, followed by those still in the queue; each queued buffer is there
    once and not yet done, and the command the controller is executing is the read or
    write of the first one's block. *)
Theorem ide_fifo (s0 s : ide) (es : list ievent) :
  id_queue s0 = None → id_woken s0 = [] → (∀ b x, id_bufs s0 !! b = Some x → 0 <= b_blockno x) →
  iruns s0 es s → ∃ l, pending s l ∧ requests es = id_woken s ++ l.
Proof.
  intros Hq Hw Hbl Hr. induction Hr as [|es s e s' Hr (l & P & Hl) Hs].
  { exists []. rewrite Hw. split; [|done]. split; try done; [constructor|set_solver]. }
  unfold requests in *. rewrite omap_app, Hl. destruct Hs as [b s s' Hb E|s s' E|st s]; cbn [omap list_omap].
  - destruct (iderw_start_pending s s' l b P (Hb l (pd_chain _ _ P)) E) as [P' Hw']. exists (l ++ [b]).
    by rewrite Hw', (assoc_L (++)).
  - rewrite app_nil_r. destruct l as [|b l].
    + exists []. pose proof (pd_chain _ _ P) as Hn. cbn in Hn. unfold ideintr in E.
      rewrite (bind_Ok _ _ s None s) in E by (unfold gets; by rewrite Hn). cbn in E. by injection E as <-.
    + destruct (ideintr_pending s s' b l P E) as (P' & Hw' & _). exists l. by rewrite Hw', <- (assoc_L (++)).
  - exists l. rewrite app_nil_r. split; [|done]. destruct P. by split.
Qed.

(** ** One request on an idle disk *)

Section Request.
Variables (s : ide) (b : nat) (x : buf) (r1 r2 : Z) (st : list Z).
Hypothesis Hidle : id_queue s = None.
Hypothesis Hx : id_bufs s !! b = Some x.
Hypothesis Hbusy : has (b_flags x) B_BUSY = true.
Hypothesis Htodo : iderw_done x = false.
Hypothesis Hdisk : b_dev x = 0 ∨ id_havedisk1 s ≠ 0.
Hypothesis Hblock : 0 <= b_blockno x < FSSIZE.
Hypothesis Hdata : length (b_data x) = 512%nat.
Hypothesis Hstatus : id_status s = r1 :: r2 :: st.
Hypothesis Hr1 : ready r1.
Hypothesis Hr2 : ready r2.

Definition sector_of : Z * Z := (Z.land (b_dev x) 1, b_blockno x).

Lemma request_sectors : sectors (request x) = [sector_of].
Proof.
  unfold sectors, request, sector_of. cbn [cm_drive cm_sector cm_count]. change sector_per_block with 1.
  change (seqZ 0 1) with [0]. cbn [fmap list_fmap]. by rewrite Z.mul_1_r, Z.add_0_r.
Qed.

Lemma iderw_start_idle : ∃ regs,
  iderw_start b s = Ok tt (mkide (alter (set_b_qnext None) b (id_bufs s)) (Some b) (id_havedisk1 s) (r2 :: st) regs
    (Some (request x)) (if has (b_flags x) B_DIRTY then <[sector_of := b_data x]> (id_disk s) else id_disk s) (id_woken s)).
Proof using Type*.
  unfold iderw_start. rewrite (bind_Ok _ _ _ _ _ (get_buf_Ok s b x Hx)), Hbusy. cbn [negb].
  unfold iderw_done in Htodo. rewrite Htodo. rewrite (bind_Ok _ _ s (id_havedisk1 s) s) by done.
  assert (negb (b_dev x =? 0) && (id_havedisk1 s =? 0) = false) as ->.
  { destruct (Z.eqb_spec (b_dev x) 0), (Z.eqb_spec (id_havedisk1 s) 0); naive_solver. }
  set (s1 := mkide (alter (set_b_qnext None) b (id_bufs s)) (Some b) (id_havedisk1 s) (id_status s) (id_regs s) (id_cmd s) (id_disk s) (id_woken s)).
  destruct (idestart_run b s1 (set_b_qnext None x) 0 (r2 :: st)) as (regs & E).
  { cbn [s1 id_bufs]. by rewrite list_lookup_alter_case, decide_True, Hx. }
  { done. }
  { by rewrite (idewait_ready false s1 r1 (r2 :: st)). }
  exists regs. cbv [upd_buf set_queue modify gets mbind M_bind]. cbn [id_queue id_bufs]. rewrite Hidle.
  rewrite bool_decide_eq_true_2 by done. cbn [when].
  transitivity (idestart (Some b) s1); [reflexivity|]. rewrite E. unfold requested.
  cbn [s1 id_bufs id_queue id_havedisk1 id_regs id_cmd id_disk id_woken set_b_qnext b_flags b_data].
  change (request (set_b_qnext None x)) with (request x). rewrite request_sectors. cbn [write_sectors].
  by rewrite take_ge by lia.
Qed.

(** What the interrupt leaves in the buffer. *)
Definition served : buf :=
  completed (if has (b_flags x) B_DIRTY || failed r2 then None
    else Some (default (replicate 512 0) (id_disk s !! sector_of))) (set_b_qnext None x).

Lemma ide_serve : ∃ s1 s2,
  iderw_start b s = Ok tt s1 ∧ ideintr s1 = Ok tt s2 ∧ id_queue s2 = None ∧ id_woken s2 = id_woken s ++ [b] ∧
  id_bufs s2 = <[b := served]> (id_bufs s) ∧
  id_disk s2 = if has (b_flags x) B_DIRTY then <[sector_of := b_data x]> (id_disk s) else id_disk s.
Proof using Type*.
  destruct iderw_start_idle as (regs & E). set (s1 := mkide _ _ _ _ _ _ _ _) in E. exists s1.
  assert (id_bufs s1 !! b = Some (set_b_qnext None x)) as Hx1.
  { cbn [s1 id_bufs]. by rewrite list_lookup_alter_case, decide_True, Hx. }
  assert (∀ f, alter f b (alter (set_b_qnext None) b (id_bufs s)) = <[b := f (set_b_qnext None x)]> (id_bufs s)) as Hins.
  { intros f. rewrite list_alter_compose. by rewrite (list_alter_lookup _ _ _ x). }
  unfold ideintr. rewrite (bind_Ok _ _ s1 (Some b) s1) by done. rewrite (bind_Ok _ _ _ _ _ (get_buf_Ok s1 b _ Hx1)).
  unfold intr_data, served. cbn [b_flags set_b_qnext b_qnext].
  destruct (has (b_flags x) B_DIRTY) eqn:Hd; cbn [orb].
  - eexists. split; [done|]. cbv [skip upd_buf set_queue wakeup modify gets mbind M_bind mret M_ret].
    cbn [s1 id_queue id_bufs id_havedisk1 id_status id_regs id_cmd id_disk id_woken]. split; [reflexivity|].
    cbn [id_queue id_bufs id_disk id_woken]. by rewrite list_alter_compose, Hins.
  - destruct (failed r2) eqn:Hf; (eexists; split; [done|]); cbv [skip set_queue modify mbind M_bind];
    cbn [s1 id_queue id_bufs id_havedisk1 id_status id_regs id_cmd id_disk id_woken];
    rewrite (idewait_ready true _ r2 st), Hf by done; cbn [andb].
    + change (0 <=? -1) with false. cbv [upd_buf wakeup modify gets mret M_ret]. cbn [set_status id_queue id_bufs id_havedisk1 id_status id_regs id_cmd id_disk id_woken].
      split; [reflexivity|]. cbn [id_queue id_bufs id_disk id_woken]. by rewrite list_alter_compose, Hins.
    + change (0 <=? 0) with true. cbv [insl upd_buf wakeup modify gets mret M_ret mbind M_bind deref].
      cbn [set_status id_queue id_bufs id_havedisk1 id_status id_regs id_cmd id_disk id_woken].
      split; [reflexivity|]. cbn [id_queue id_bufs id_disk id_woken]. rewrite !list_alter_compose, (list_alter_lookup _ _ _ x) by done. unfold read_sectors.
      rewrite request_sectors. cbn [fmap list_fmap concat]. by rewrite app_nil_r.
Qed.

End Request.

(** A request on an idle disk does what iderw() promises: with a controller that
    answers ready and without error, starting the request and its interrupt leave the
    driver idle, the buffer valid and no longer dirty; a dirty buffer's data is in the
    disk's sector, otherwise the buffer holds the sector and the disk is unchanged; no
    other buffer and no other sector changed. *)
Theorem ide_request_served (s : ide) (b : nat) (x : buf) (r1 r2 : Z) (st : list Z) :
  id_queue s = None → id_bufs s !! b = Some x → has (b_flags x) B_BUSY = true → iderw_done x = false →
  b_dev x = 0 ∨ id_havedisk1 s ≠ 0 → 0 <= b_blockno x < FSSIZE → length (b_data x) = 512%nat →
  id_status s = r1 :: r2 :: st → ready r1 → ready r2 → failed r2 = false →
  ∃ s1 s2 y, iderw_start b s = Ok tt s1 ∧ ideintr s1 = Ok tt s2 ∧ id_queue s2 = None ∧
    id_bufs s2 = <[b := y]> (id_bufs s) ∧ iderw_done y = true ∧
    (b_dev y, b_blockno y) = (b_dev x, b_blockno x) ∧
    if has (b_flags x) B_DIRTY then id_disk s2 = <[sector_of x := b_data x]> (id_disk s) ∧ b_data y = b_data x
    else id_disk s2 = id_disk s ∧ b_data y = default (replicate 512 0) (id_disk s !! sector_of x).
Proof.
  intros Hq Hx Hbusy Htodo Hdisk Hb Hd Hst Hr1 Hr2 Hf.
  destruct (ide_serve s b x r1 r2 st Hq Hx Hbusy Htodo Hdisk Hb Hd Hst Hr1 Hr2) as (s1 & s2 & E1 & E2 & Hq2 & _ & Hbs & Hdk).
  exists s1, s2, (served s x r2). split_and!; try done; [apply completed_done|].
  rewrite Hdk. unfold served. rewrite Hf. by destruct (has (b_flags x) B_DIRTY).
Qed.

(** A read the controller reports as failed is not noticed: the interrupt marks the
    buffer valid although its data is still what it was before the request. *)
Theorem ide_read_error_hidden (s : ide) (b : nat) (x : buf) (r1 r2 : Z) (st : list Z) :
  id_queue s = None → id_bufs s !! b = Some x → has (b_flags x) B_BUSY = true → iderw_done x = false →
  b_dev x = 0 ∨ id_havedisk1 s ≠ 0 → 0 <= b_blockno x < FSSIZE → length (b_data x) = 512%nat →
  id_status s = r1 :: r2 :: st → ready r1 → ready r2 → failed r2 = true → has (b_flags x) B_DIRTY = false →
  ∃ s1 s2 y, iderw_start b s = Ok tt s1 ∧ ideintr s1 = Ok tt s2 ∧
    id_bufs s2 !! b = Some y ∧ iderw_done y = true ∧ b_data y = b_data x.
Proof.
  intros Hq Hx Hbusy Htodo Hdisk Hb Hd Hst Hr1 Hr2 Hf Hdirty.
  destruct (ide_serve s b x r1 r2 st Hq Hx Hbusy Htodo Hdisk Hb Hd Hst Hr1 Hr2) as (s1 & s2 & E1 & E2 & _ & _ & Hbs & _).
  exists s1, s2, (served s x r2). split_and!; try done; [|apply completed_done|].
  - rewrite Hbs. rewrite list_lookup_insert_eq; [done|]. by apply lookup_lt_Some in Hx.
  - unfold served. by rewrite Hf, orb_true_r.
Qed.

(** *** Witnesses *)

Definition ide_ex (st : list Z) : ide :=
  mkide [mkbuf B_BUSY 1 7 0 0 None (replicate 512 5); mkbuf (Z.lor B_BUSY B_DIRTY) 1 8 0 0 None (replicate 512 6)]
    None 1 st ∅ None {[(1, 7) := replicate 512 9]} [].

Lemma ide_request_served_witness :
  ∃ s1 s2 y, iderw_start 0 (ide_ex [64; 64]) = Ok tt s1 ∧ ideintr s1 = Ok tt s2 ∧ id_bufs s2 !! 0%nat = Some y ∧
    b_data y = replicate 512 9.
Proof.
  destruct (ide_request_served (ide_ex [64; 64]) 0 (mkbuf B_BUSY 1 7 0 0 None (replicate 512 5)) 64 64 [])
    as (s1 & s2 & y & E1 & E2 & _ & Hb & _ & _ & Hd);
    [done|done|by vm_compute|by vm_compute|by right|by vm_compute|by vm_compute|done|by vm_compute|by vm_compute|by vm_compute|].
  change (has _ B_DIRTY) with false in Hd. exists s1, s2, y. rewrite Hb. split_and!; [done|done|done|].
  rewrite (proj2 Hd). by vm_compute.
Defined.

Lemma ide_read_error_hidden_witness :
  ∃ s1 s2 y, iderw_start 0 (ide_ex [64; 65]) = Ok tt s1 ∧ ideintr s1 = Ok tt s2 ∧ id_bufs s2 !! 0%nat = Some y ∧
    iderw_done y = true ∧ b_data y = replicate 512 5.
Proof.
  apply (ide_read_error_hidden (ide_ex [64; 65]) 0 (mkbuf B_BUSY 1 7 0 0 None (replicate 512 5)) 64 65 []);
    [done|done|by vm_compute|by vm_compute|by right|by vm_compute|by vm_compute|done|by vm_compute|by vm_compute|by vm_compute|by vm_compute].
Defined.

Definition ide_run_ex (n : nat) : ide :=
  match (iderw_start 0 ;; (if decide (1 ≤ n)%nat then iderw_start 1 else skip) ;; (if decide (2 ≤ n)%nat then ideintr else skip))
    (ide_ex [64; 64; 64; 64]) with Ok _ s => s | _ => ide_ex [] end.

Lemma ide_fifo_witness : ∃ l, pending (ide_run_ex 2) l ∧ [0; 1]%nat = id_woken (ide_run_ex 2) ++ l.
Proof.
  apply (ide_fifo (ide_ex [64; 64; 64; 64]) (ide_run_ex 2) [Erw 0; Erw 1; Eintr]); [done|done| |].
  - intros [|[|b]] x Hx; cbn in Hx; simplify_eq; cbn; lia.
  - apply (runs_step _ [Erw 0; Erw 1] (ide_run_ex 1) Eintr); [|by apply step_intr; vm_compute].
    apply (runs_step _ [Erw 0] (ide_run_ex 0) (Erw 1)).
    + apply (runs_step _ [] (ide_ex [64; 64; 64; 64]) (Erw 0)); [constructor|]. apply step_rw; [|by vm_compute].
      intros [|b l] Hc; [set_solver|]. by destruct Hc as [? _].
    + apply step_rw; [|by vm_compute]. intros l Hc.
      assert (chain (id_bufs (ide_run_ex 0)) (id_queue (ide_run_ex 0)) [0%nat]) as Hc0.
      { split; [by vm_compute|]. eexists. split; [by vm_compute|]. by vm_compute. }
      rewrite (chain_unique _ _ _ _ Hc Hc0), list_elem_of_singleton. lia.
Defined.
