(* ===== verification/Inode.v ===== *)
(** * Inode: blocks, inodes and the inode cache (fs.c, first part)

    The block allocator, the inode cache with its reference counts and its sleeping
    lock, and the map from a file's blocks to disk blocks. Pointers to struct inode
    are indices of icache.inode. *)

From S2P Require Import Prelude Machine CMem DiskFmt ConsOut Proc Bio Log.
From stdpp Require Import options.

Section Inode.
Context {E : Env}.

Definition bzero (dev bno : Z) : K unit :=
  bp ← bread dev (u32 bno);
  upd_buf bp (set_b_data (replicate (Z.to_nat BSIZE) 0)) ;;
  log_write bp ;;
  brelse bp.

(** The blocks that one bitmap block describes, from [b] on. *)
Definition balloc_bitmap (dev b : Z) : K (option Z) :=
  sb ← gets k_sb;
  bp ← bread dev (BBLOCK b sb);
  r ← for_ret (seqZ 0 (Z.min BPB (sb_size sb - b))) (λ bi,
    x ← get_buf bp;
    let m := Z.shiftl 1 (bi mod 8) in
    if Z.land (byte_at (b_data x) (bi / 8)) m =? 0 then
      upd_buf bp (λ x, set_b_data (put_byte (b_data x) (bi / 8) (Z.lor (byte_at (b_data x) (bi / 8)) m)) x) ;;
      log_write bp ;;
      brelse bp ;;
      bzero dev (b + bi) ;;
      mret (Some (b + bi))
    else mret None);
  match r with
  | Some b => mret (Some b)
  | None => brelse bp ;; mret None
  end.

(** [for(b = 0; b < sb.size; b += BPB)] *)
Definition balloc (dev : Z) : K Z :=
  sb ← gets k_sb;
  r ← for_ret ((λ k, k * BPB) <$> seqZ 0 ((sb_size sb + BPB - 1) / BPB)) (balloc_bitmap dev);
  match r with
  | Some b => mret b
  | None => panic "balloc: out of blocks"
  end.

Definition bfree (dev b : Z) : K unit :=
  sb ← readsb dev;
  modify (set_k_sb sb) ;;
  bp ← bread dev (BBLOCK b sb);
  let bi := b mod BPB in
  let m := Z.shiftl 1 (bi mod 8) in
  x ← get_buf bp;
  if Z.land (byte_at (b_data x) (bi / 8)) m =? 0 then panic "freeing free block" else
  upd_buf bp (λ x, set_b_data (put_byte (b_data x) (bi / 8) (Z.land (byte_at (b_data x) (bi / 8)) (Z.lnot m))) x) ;;
  log_write bp ;;
  brelse bp.

Definition iinit (dev : Z) : K unit :=
  initlock Licache ;;
  sb ← readsb dev;
  modify (set_k_sb sb) ;;
  cprintf (Some (str "sb: size %d nblocks %d ninodes %d nlog %d logstart %d inodestart %d bmap start %d" ++ [10]))
    [Aint (sb_size sb); Aint (sb_nblocks sb); Aint (sb_ninodes sb); Aint (sb_nlog sb);
     Aint (sb_logstart sb); Aint (sb_inodestart sb); Aint (sb_bmapstart sb)].

(** [for(ip = &icache.inode[0]; ip < &icache.inode[NINODE]; ip++)] of iget: the
    entry found ([inl]), or the first empty one ([inr]). *)
Fixpoint iget_scan (l : list nat) (dev inum : Z) (empty : option nat) : K (nat + option nat) :=
  match l with
  | [] => mret (inr empty)
  | i :: l =>
    ip ← get_inode i;
    if (i_ref ip >? 0) && (i_dev ip =? dev) && (i_inum ip =? inum) then
      upd_inode i (λ ip, set_i_ref (i_ref ip + 1) ip) ;;
      mret (inl i)
    else
      iget_scan l dev inum (match empty with
                            | None => if i_ref ip =? 0 then Some i else None
                            | Some e => Some e
                            end)
  end.

Definition iget (dev inum : Z) : K nat :=
  acquire Licache ;;
  r ← iget_scan (seq 0 (Z.to_nat NINODE)) dev inum None;
  match r with
  | inl i => release Licache ;; mret i
  | inr None => panic "iget: no inodes"
  | inr (Some i) =>
    upd_inode i (set_i_dev dev) ;;
    upd_inode i (set_i_inum inum) ;;
    upd_inode i (set_i_ref 1) ;;
    upd_inode i (set_i_flags 0) ;;
    release Licache ;;
    mret i
  end.

(** Byte offset of inode [inum] in its block. *)
Definition dip (inum : Z) : Z := DINODE_SIZE * (inum mod IPB).

Definition ialloc (dev type : Z) : K nat :=
  sb ← gets k_sb;
  r ← for_ret (seqZ 1 (sb_ninodes sb - 1)) (λ inum,
    bp ← bread dev (IBLOCK inum sb);
    x ← get_buf bp;
    if get16 (b_data x) (dip inum) =? 0 then
      upd_buf bp (λ x, set_b_data (put_list (b_data x) (dip inum) (replicate (Z.to_nat DINODE_SIZE) 0)) x) ;;
      upd_buf bp (λ x, set_b_data (put16 (b_data x) (dip inum) type) x) ;;
      log_write bp ;;
      brelse bp ;;
      ip ← iget dev inum;
      mret (Some ip)
    else brelse bp ;; mret None);
  match r with
  | Some ip => mret ip
  | None => panic "ialloc: no inodes"
  end.

(** The part of an in-memory inode that is on disk. *)
Definition dinode_of (ip : inode) : dinode :=
  mkdinode (i_type ip) (i_major ip) (i_minor ip) (i_nlink ip) (i_size ip) (i_addrs ip).

Definition iupdate (i : nat) : K unit :=
  ip ← get_inode i;
  sb ← gets k_sb;
  bp ← bread (i_dev ip) (IBLOCK (i_inum ip) sb);
  upd_buf bp (λ x, set_b_data (put_dinode (b_data x) (dip (i_inum ip)) (dinode_of ip)) x) ;;
  log_write bp ;;
  brelse bp.

Definition idup (i : nat) : K nat :=
  acquire Licache ;;
  ip ← get_inode i;
  upd_inode i (λ ip, set_i_ref (i_ref ip + 1) ip) ;;
  release Licache ;;
  mret i.

(** Fill an in-memory inode from the disk's copy. *)
Definition load_dinode (x : dinode) (ip : inode) : inode :=
  set_i_addrs (di_addrs x) (set_i_size (di_size x) (set_i_nlink (di_nlink x)
    (set_i_minor (di_minor x) (set_i_major (di_major x) (set_i_type (di_type x) ip))))).

Definition ilock (p : option nat) : K unit :=
  match p with
  | None => panic "ilock"
  | Some i =>
    ip ← get_inode i;
    if i_ref ip <? 1 then panic "ilock" else
    acquire Licache ;;
    loop wakeups (λ _ : unit,
      ip ← get_inode i;
      if has (i_flags ip) I_BUSY then sleep (Cinode i) (Some Licache) ;; mret (inl tt)
      else mret (inr tt)) tt ;;
    upd_inode i (λ ip, set_i_flags (Z.lor (i_flags ip) I_BUSY) ip) ;;
    release Licache ;;
    ip ← get_inode i;
    when (negb (has (i_flags ip) I_VALID))
      (sb ← gets k_sb;
       bp ← bread (i_dev ip) (IBLOCK (i_inum ip) sb);
       x ← get_buf bp;
       upd_inode i (load_dinode (get_dinode (b_data x) (dip (i_inum ip)))) ;;
       brelse bp ;;
       upd_inode i (λ ip, set_i_flags (Z.lor (i_flags ip) I_VALID) ip) ;;
       ip ← get_inode i;
       if i_type ip =? 0 then panic "ilock: no type" else skip)
  end.

Definition iunlock (p : option nat) : K unit :=
  match p with
  | None => panic "iunlock"
  | Some i =>
    ip ← get_inode i;
    if negb (has (i_flags ip) I_BUSY) || (i_ref ip <? 1) then panic "iunlock" else
    acquire Licache ;;
    upd_inode i (λ ip, set_i_flags (Z.land (i_flags ip) (Z.lnot I_BUSY)) ip) ;;
    wakeup (Cinode i) ;;
    release Licache
  end.

(** [ip->addrs[n]] *)
Definition get_addr (i : nat) (n : Z) : K Z :=
  ip ← get_inode i; deref (i_addrs ip !! Z.to_nat n).
Definition set_addr (i : nat) (n v : Z) : K unit :=
  upd_inode i (λ ip, set_i_addrs (<[Z.to_nat n := v]> (i_addrs ip)) ip).

(** The disk block of block [bn] of the file, allocated if there is none. *)
Definition bmap (i : nat) (bn : Z) : K Z :=
  ip ← get_inode i;
  if bn <? NDIRECT then
    addr ← get_addr i bn;
    if addr =? 0 then
      addr ← balloc (i_dev ip);
      set_addr i bn addr ;;
      mret addr
    else mret addr
  else
  let bn := bn - NDIRECT in
  if bn <? NINDIRECT then
    addr ← get_addr i NDIRECT;
    addr ← (if addr =? 0 then
              addr ← balloc (i_dev ip);
              set_addr i NDIRECT addr ;;
              mret addr
            else mret addr);
    bp ← bread (i_dev ip) addr;
    x ← get_buf bp;
    let addr := get32 (b_data x) (4 * bn) in
    addr ← (if addr =? 0 then
              addr ← balloc (i_dev ip);
              upd_buf bp (λ x, set_b_data (put32 (b_data x) (4 * bn) addr) x) ;;
              log_write bp ;;
              mret addr
            else mret addr);
    brelse bp ;;
    mret addr
  else panic "bmap: out of range".

Definition itrunc (i : nat) : K unit :=
  ip ← get_inode i;
  for_each (seqZ 0 NDIRECT) (λ n,
    addr ← get_addr i n;
    when (negb (addr =? 0)) (bfree (i_dev ip) addr ;; set_addr i n 0)) ;;
  ind ← get_addr i NDIRECT;
  when (negb (ind =? 0))
    (bp ← bread (i_dev ip) ind;
     for_each (seqZ 0 NINDIRECT) (λ j,
       x ← get_buf bp;
       let a := get32 (b_data x) (4 * j) in
       when (negb (a =? 0)) (bfree (i_dev ip) a)) ;;
     brelse bp ;;
     bfree (i_dev ip) ind ;;
     set_addr i NDIRECT 0) ;;
  upd_inode i (set_i_size 0) ;;
  iupdate i.

Definition iput (i : nat) : K unit :=
  acquire Licache ;;
  ip ← get_inode i;
  when ((i_ref ip =? 1) && has (i_flags ip) I_VALID && (i_nlink ip =? 0))
    (if has (i_flags ip) I_BUSY then panic "iput busy" else
     upd_inode i (λ ip, set_i_flags (Z.lor (i_flags ip) I_BUSY) ip) ;;
     release Licache ;;
     itrunc i ;;
     upd_inode i (set_i_type 0) ;;
     iupdate i ;;
     acquire Licache ;;
     upd_inode i (set_i_flags 0) ;;
     wakeup (Cinode i)) ;;
  upd_inode i (λ ip, set_i_ref (i_ref ip - 1) ip) ;;
  release Licache.

Definition iunlockput (i : nat) : K unit :=
  iunlock (Some i) ;;
  iput i.

(** struct stat (stat.h). *)
Record stat := mkstat {
  st_type : Z;
  st_dev : Z;
  st_ino : Z;
  st_nlink : Z;
  st_size : Z
}.
Definition stati (i : nat) : K stat :=
  ip ← get_inode i;
  mret (mkstat (i_type ip) (s32 (i_dev ip)) (i_inum ip) (i_nlink ip) (i_size ip)).

(** ** The inode's sleeping lock *)

Definition set_busy (ip : inode) : inode := set_i_flags (Z.lor (i_flags ip) I_BUSY) ip.
Definition clr_busy (ip : inode) : inode := set_i_flags (Z.land (i_flags ip) (Z.lnot I_BUSY)) ip.

Lemma get_inode_eq s i ip : k_inodes s !! i = Some ip → get_inode i s = Ok ip s.
Proof. intros H. unfold get_inode. by rewrite H. Qed.

Lemma iunlock_eq s i ip :
  k_inodes s !! i = Some ip → has (i_flags ip) I_BUSY = true → 1 <= i_ref ip →
  Licache ∉ k_held s → Lptable ∉ k_held s → ptable_ok s →
  iunlock (Some i) s =
    Ok tt (set_k_procs (woken (Some (Cinode i)) <$> k_procs s) (set_k_inodes (alter clr_busy i (k_inodes s)) s)).
Proof.
  intros Hi Hb Hr Hl Hp Hpt. unfold iunlock. rewrite (bind_Ok _ _ _ _ _ (get_inode_eq _ _ _ Hi)), Hb.
  rewrite (proj2 (Z.ltb_ge _ _)) by lia. cbn [negb orb].
  rewrite (bind_Ok _ _ _ _ _ (acquire_free _ _ Hl)). set (s1 := set_k_held _ s).
  unfold upd_inode, modify. mrun. rewrite wakeup_eq by (done || (cbn; set_solver)).
  rewrite release_held by (cbn; auto with xv6). f_equal. rec_eq. by apply held_roundtrip.
Qed.

(** ilock() of an inode that nobody has locked and whose contents are in memory. *)
Lemma ilock_eq s i ip :
  k_inodes s !! i = Some ip → has (i_flags ip) I_BUSY = false → has (i_flags ip) I_VALID = true → 1 <= i_ref ip →
  Licache ∉ k_held s → (0 < wakeups)%nat →
  ilock (Some i) s = Ok tt (set_k_inodes (alter set_busy i (k_inodes s)) s).
Proof.
  intros Hi Hb Hv Hr Hl Hw. unfold ilock. rewrite (bind_Ok _ _ _ _ _ (get_inode_eq _ _ _ Hi)).
  rewrite (proj2 (Z.ltb_ge _ _)) by lia. rewrite (bind_Ok _ _ _ _ _ (acquire_free _ _ Hl)).
  set (s1 := set_k_held _ s). destruct wakeups as [|w]; [lia|]. cbn [loop]. mrun.
  rewrite (get_inode_eq s1 i ip Hi), Hb. unfold upd_inode, modify.
  rewrite release_held by (cbn; auto with xv6). set (s2 := set_k_held _ _).
  rewrite (get_inode_eq s2 i (set_busy ip)) by (cbn; by rewrite list_lookup_alter_eq, Hi).
  assert (has (i_flags (set_busy ip)) I_VALID = true) as ->.
  { revert Hv. unfold has, set_busy, I_VALID, I_BUSY. cbn [i_flags set_i_flags].
    rewrite Z.land_lor_distr_l. change (Z.land 1 2) with 0. by rewrite Z.lor_0_r. }
  cbn [negb]. f_equal. unfold s2. rec_eq. by apply held_roundtrip.
Qed.

Lemma clr_busy_flags ip :
  has (i_flags (clr_busy ip)) I_BUSY = false ∧ has (i_flags (clr_busy ip)) I_VALID = has (i_flags ip) I_VALID.
Proof.
  unfold has, clr_busy, I_BUSY, I_VALID. cbn [i_flags set_i_flags]. rewrite <- !Z.land_assoc.
  change (Z.land (Z.lnot 1) 1) with 0. change (Z.land (Z.lnot 1) 2) with 2. by rewrite Z.land_0_r.
Qed.

(** Unlocking and locking again. *)
Lemma relock_flags ip : has (i_flags ip) I_BUSY = true → set_busy (clr_busy ip) = ip.
Proof.
  intros H. unfold set_busy, clr_busy. cbn [i_flags set_i_flags].
  assert (Z.lor (Z.land (i_flags ip) (Z.lnot I_BUSY)) I_BUSY = i_flags ip) as ->; [|by destruct ip].
  apply Z.bits_inj. intros k. rewrite Z.lor_spec, Z.land_spec. unfold I_BUSY in *.
  destruct (decide (k = 0)) as [->|Hk].
  - change (Z.testbit 1 0) with true. rewrite orb_true_r. unfold has in H.
    change 1 with (Z.ones 1) in H. rewrite Z.land_ones in H by lia. rewrite Z.bit0_odd.
    change (2 ^ 1) with 2 in H. rewrite Zodd_mod. destruct (i_flags ip mod 2 =? 0) eqn:E0; [done|].
    symmetry. apply Zeq_is_eq_bool. apply Z.eqb_neq in E0. pose proof (Z.mod_pos_bound (i_flags ip) 2). lia.
  - destruct (Z.neg_nonneg_cases k) as [Hn|Hn]; [by rewrite !Z.testbit_neg_r|].
    rewrite Z.lnot_spec by lia. change 1 with (2 ^ 0). rewrite !Z.pow2_bits_false by lia.
    by rewrite andb_true_r, orb_false_r.
Qed.

End Inode.
