(* ===== verification/Kbd.v ===== *)
(** * Kbd: the keyboard driver (kbd.c, kbd.h)

    Scan codes to characters. The static variable shift of kbdgetc() is passed
    explicitly; the bytes the controller delivers are the input. *)

From S2P Require Import Prelude Machine ConsOut.
From stdpp Require Import options.

Module Kbd.

Definition NO : Z := 0.
Definition SHIFT : Z := 1.
Definition CTL : Z := 2.
Definition ALT : Z := 4.
Definition CAPSLOCK : Z := 8.
Definition NUMLOCK : Z := 16.
Definition SCROLLLOCK : Z := 32.
Definition E0ESC : Z := 64.

(** Special keycodes. *)
Definition KEY_HOME : Z := 224.
Definition KEY_END : Z := 225.
Definition KEY_UP : Z := 226.
Definition KEY_DN : Z := 227.
Definition KEY_LF : Z := 228.
Definition KEY_RT : Z := 229.
Definition KEY_PGUP : Z := 230.
Definition KEY_PGDN : Z := 231.
Definition KEY_INS : Z := 232.
Definition KEY_DEL : Z := 233.

(** Control-x. *)
Definition C (x : Z) : Z := x - 64.

(** A uchar[256] initializer: the leading elements, then designated ones; the rest
    is zero. *)
Definition table (l : list Z) (es : list (Z * Z)) (i : Z) : Z :=
  match list_find (λ e, e.1 = i) es with
  | Some (_, e) => u8 e.2
  | None => u8 (default 0 (l !! Z.to_nat i))
  end.

Definition shiftcode : Z → Z :=
  table [] [(29, CTL); (42, SHIFT); (54, SHIFT); (56, ALT); (157, CTL); (184, ALT)].
Definition togglecode : Z → Z :=
  table [] [(58, CAPSLOCK); (69, NUMLOCK); (70, SCROLLLOCK)].

Definition keypad (enter div : Z) : list (Z * Z) :=
  [(156, enter); (181, div); (200, KEY_UP); (208, KEY_DN); (201, KEY_PGUP); (209, KEY_PGDN);
   (203, KEY_LF); (205, KEY_RT); (151, KEY_HOME); (207, KEY_END); (210, KEY_INS); (211, KEY_DEL)].

Definition normalmap : Z → Z := table
  ([NO; 27] ++ str "123456" ++
   str "7890-=" ++ [8; 9] ++
   str "qwertyui" ++
   str "op[]" ++ [10; NO] ++ str "as" ++
   str "dfghjkl;" ++
   [39; 96; NO; 92] ++ str "zxcv" ++
   str "bnm,./" ++ [NO] ++ str "*" ++
   [NO; 32; NO; NO; NO; NO; NO; NO] ++
   [NO; NO; NO; NO; NO; NO; NO] ++ str "7" ++
   str "89-456+1" ++
   str "230." ++ [NO; NO; NO; NO])
  (keypad 10 47).

Definition shiftmap : Z → Z := table
  ([NO; 27] ++ str "!@#$%^" ++
   str "&*()_+" ++ [8; 9] ++
   str "QWERTYUI" ++
   str "OP{}" ++ [10; NO] ++ str "AS" ++
   str "DFGHJKL:" ++
   [34; 126; NO; 124] ++ str "ZXCV" ++
   str "BNM<>?" ++ [NO] ++ str "*" ++
   [NO; 32; NO; NO; NO; NO; NO; NO] ++
   [NO; NO; NO; NO; NO; NO; NO] ++ str "7" ++
   str "89-456+1" ++
   str "230." ++ [NO; NO; NO; NO])
  (keypad 10 47).

Definition ctlmap : Z → Z := table
  ([NO; NO; NO; NO; NO; NO; NO; NO] ++
   [NO; NO; NO; NO; NO; NO; NO; NO] ++
   (C <$> str "QWERTYUI") ++
   (C <$> str "OP") ++ [NO; NO; 13; NO] ++ (C <$> str "AS") ++
   (C <$> str "DFGHJKL") ++ [NO] ++
   [NO; NO; NO; C 92] ++ (C <$> str "ZXCV") ++
   (C <$> str "BNM") ++ [NO; NO; C 47; NO; NO])
  (keypad 13 (C 47)).

(** [charcode[i]], for [i = shift & (CTL | SHIFT)]. *)
Definition charcode (i : Z) : Z → Z :=
  if i =? 0 then normalmap else if i =? SHIFT then shiftmap else ctlmap.

(** kbdgetc() with byte [data] in the controller's buffer: the new shift, and the
    result (0 for no character). *)
Definition kbdgetc (shift data : Z) : Z * Z :=
  if data =? 224 then (Z.lor shift E0ESC, 0)
  else if has data 128 then
    let data := if has shift E0ESC then data else Z.land data 127 in
    (Z.land shift (Z.lnot (Z.lor (shiftcode data) E0ESC)), 0)
  else
    let esc := has shift E0ESC in
    let data := if esc then Z.lor data 128 else data in
    let shift := if esc then Z.land shift (Z.lnot E0ESC) else shift in
    let shift := Z.lor shift (shiftcode data) in
    let shift := Z.lxor shift (togglecode data) in
    let c := charcode (Z.land shift (Z.lor CTL SHIFT)) data in
    let c := if has shift CAPSLOCK then
               if (97 <=? c) && (c <=? 122) then c + (65 - 97)
               else if (65 <=? c) && (c <=? 90) then c + (97 - 65)
               else c
             else c in
    (shift, c).

(** The results of successive calls, while the controller has bytes; the next call
    returns -1. *)
Fixpoint kbdgetcs (shift : Z) (data : list Z) : Z * list Z :=
  match data with
  | [] => (shift, [])
  | d :: data =>
    let (shift, c) := kbdgetc shift d in
    let (shift, cs) := kbdgetcs shift data in
    (shift, c :: cs)
  end.

(** ** Correctness *)

(** The bits of shift, and bytes, as lists: the driver's behaviour is finite. *)
Definition shifts : list Z := seqZ 0 128.
Definition codes : list Z := seqZ 0 256.

Lemma finite2 (P : Z → Z → bool) :
  forallb (λ s, forallb (P s) codes) shifts = true →
  ∀ s d, 0 <= s < 128 → 0 <= d < 256 → P s d = true.
Proof.
  intros H s d Hs Hd. rewrite forallb_forall in H.
  assert (In s shifts) as H1 by (apply list_elem_of_In, elem_of_seqZ; lia).
  assert (In d codes) as H2 by (apply list_elem_of_In, elem_of_seqZ; lia).
  specialize (H s H1). rewrite forallb_forall in H. by apply H.
Qed.

(** The result is a character, and shift stays within its bits. *)
Lemma kbdgetc_range s d :
  0 <= s < 128 → 0 <= d < 256 → 0 <= (kbdgetc s d).1 < 128 ∧ 0 <= (kbdgetc s d).2 < 256.
Proof.
  intros Hs Hd.
  pose proof (finite2 (λ s d, (0 <=? (kbdgetc s d).1) && ((kbdgetc s d).1 <? 128) &&
    (0 <=? (kbdgetc s d).2) && ((kbdgetc s d).2 <? 256)) ltac:(by vm_compute) s d Hs Hd) as H.
  rewrite !andb_true_iff, !Z.leb_le, !Z.ltb_lt in H. lia.
Qed.

(** Pressing and then releasing key [d] (a scan code below 0x60 that is not a lock
    key), in any state without a pending escape. *)
Definition press_release (s d : Z) : Z * Z :=
  let (s1, c) := kbdgetc s d in ((kbdgetc s1 (d + 128)).1, c).

(** The keyboard driver tracks modifiers and case correctly. For every state of
    the modifiers without a pending E0 prefix and every ordinary key (scan code below
    0x60): the key's press returns the character of the map that Control and Shift
    select, with case swapped under Caps Lock when it is a letter; pressing and
    releasing it restores the modifiers, but for its own bit, which the release of a
    modifier clears and the press of a lock key flips. *)
Theorem kbd_press_release s d :
  0 <= s < 64 → 0 <= d < 96 →
  let s1 := Z.lxor (Z.lor s (shiftcode d)) (togglecode d) in
  let c := charcode (Z.land s1 3) d in
  (kbdgetc s d).1 = s1 ∧
  (kbdgetc s d).2 =
    (if Z.testbit s1 3 && ((97 <=? c) && (c <=? 122) || (65 <=? c) && (c <=? 90)) then Z.lxor c 32 else c) ∧
  (press_release s d).1 = Z.land (Z.lxor s (togglecode d)) (Z.lnot (shiftcode d)).
Proof.
  intros Hs Hd s1 c.
  pose proof (finite2 (λ s d, if (s <? 64) && (d <? 96) then
    let s1 := Z.lxor (Z.lor s (shiftcode d)) (togglecode d) in
    let c := charcode (Z.land s1 3) d in
    ((kbdgetc s d).1 =? s1) &&
    ((kbdgetc s d).2 =?
      (if Z.testbit s1 3 && ((97 <=? c) && (c <=? 122) || (65 <=? c) && (c <=? 90)) then Z.lxor c 32 else c)) &&
    ((press_release s d).1 =? Z.land (Z.lxor s (togglecode d)) (Z.lnot (shiftcode d)))
    else true) ltac:(by vm_compute) s d ltac:(lia) ltac:(lia)) as H.
  cbv beta in H. rewrite (proj2 (andb_true_iff _ _)) in H by (rewrite !Z.ltb_lt; lia).
  cbv zeta in H. rewrite !andb_true_iff, !Z.eqb_eq in H. tauto.
Qed.

(** Shift held, the A key. *)
Lemma kbd_press_release_witness :
  let s1 := Z.lxor (Z.lor 1 (shiftcode 30)) (togglecode 30) in
  let c := charcode (Z.land s1 3) 30 in
  (kbdgetc 1 30).1 = s1 ∧
  (kbdgetc 1 30).2 =
    (if Z.testbit s1 3 && ((97 <=? c) && (c <=? 122) || (65 <=? c) && (c <=? 90)) then Z.lxor c 32 else c) ∧
  (press_release 1 30).1 = Z.land (Z.lxor 1 (togglecode 30)) (Z.lnot (shiftcode 30)).
Proof. apply (kbd_press_release 1 30); lia. Defined.

End Kbd.
