(* ===== verification/ConsIn.v ===== *)
(** * ConsIn: console input (console.c, second part; uart.c)

    The interrupt handler that edits the input line, and the read and write
    functions of the console device. The characters a handler is called with are
    those its getc() returns before -1. *)

From S2P Require Import Prelude Machine Ring CMem Spinlock Mmu ConsOut Proc Bio Log Inode Kbd.
From stdpp Require Import options.

Definition INPUT_BUF : Z := 128.
Definition Ctrl (x : Z) : Z := x - 64.

(** [input.buf[i % INPUT_BUF]] *)
Definition in_get (x : input) (i : Z) : Z := rget INPUT_BUF (in_buf x) i.
Definition in_put (x : input) (i c : Z) : input := set_in_buf (rput INPUT_BUF (in_buf x) i c) x.

Section ConsIn.
Context {E : Env}.

Definition upd_input (f : input → input) : K unit := modify (λ s, set_k_input (f (k_input s)) s).

(** [case C('U')]: erase back to the start of the line. *)
Fixpoint kill_line (fuel : nat) : K unit :=
  match fuel with
  | O => hang
  | S n =>
    x ← gets k_input;
    if negb (in_e x =? in_w x) && negb (in_get x (u32 (in_e x - 1)) =? 10) then
      upd_input (set_in_e (u32 (in_e x - 1))) ;;
      consputc BACKSPACE ;;
      kill_line n
    else skip
  end.

(** One character; the result is whether it asks for a process listing. *)
Definition consoleintr_char (c : Z) : K bool :=
  if c =? Ctrl 80 then mret true
  else if c =? Ctrl 85 then kill_line (S (Z.to_nat INPUT_BUF)) ;; mret false
  else if (c =? Ctrl 72) || (c =? 127) then
    x ← gets k_input;
    when (negb (in_e x =? in_w x)) (upd_input (set_in_e (u32 (in_e x - 1))) ;; consputc BACKSPACE) ;;
    mret false
  else
    x ← gets k_input;
    when (negb (c =? 0) && (u32 (in_e x - in_r x) <? INPUT_BUF))
      (let c := if c =? 13 then 10 else c in
       upd_input (λ x, set_in_e (u32 (in_e x + 1)) (in_put x (in_e x) c)) ;;
       consputc c ;;
       x ← gets k_input;
       when ((c =? 10) || (c =? Ctrl 68) || (in_e x =? u32 (in_r x + INPUT_BUF)))
         (upd_input (set_in_w (in_e x)) ;;
          wakeup Cinput)) ;;
    mret false.

Fixpoint consoleintr_loop (cs : list Z) (doprocdump : bool) : K bool :=
  match cs with
  | [] => mret doprocdump
  | c :: cs => p ← consoleintr_char c; consoleintr_loop cs (doprocdump || p)
  end.

Definition consoleintr (cs : list Z) : K unit :=
  acquire Lcons ;;
  p ← consoleintr_loop cs false;
  release Lcons ;;
  when p procdump.

(** The keyboard's and the serial port's handlers: [shift] is kbdgetc()'s static
    variable, [data] what the keyboard controller delivers, [cs] what the serial port
    does. *)
Definition kbdintr (shift : Z) (data : list Z) : K Z :=
  let (shift, cs) := Kbd.kbdgetcs shift data in
  consoleintr cs ;; mret shift.
Definition uartintr (cs : list Z) : K unit :=
  u ← gets (λ s, c_uart (k_cons s));
  consoleintr (if u =? 0 then [] else cs).

(** [while(input.r == input.w)]: wait for input; the result is false when the
    process is killed meanwhile. *)
Definition wait_input : K bool :=
  loop wakeups (λ _ : unit,
    x ← gets k_input;
    if negb (in_r x =? in_w x) then mret (inr true) else
    c ← curproc;
    p ← get_proc c;
    if negb (p_killed p =? 0) then mret (inr false) else
    sleep Cinput (Some Lcons) ;;
    mret (inl tt)) tt.

(** The result and the bytes stored at dst. *)
Definition consoleread (ip : option nat) (n : Z) : K (Z * list Z) :=
  iunlock ip ;;
  let target := u32 n in
  acquire Lcons ;;
  r ← loop (S (Z.to_nat n)) (λ '(n, dst),
    if negb (n >? 0) then mret (inr (true, n, dst)) else
    ok ← wait_input;
    if negb ok then mret (inr (false, n, dst)) else
    x ← gets k_input;
    let c := in_get x (in_r x) in
    upd_input (set_in_r (u32 (in_r x + 1))) ;;
    if c =? Ctrl 68 then
      when (n <? target) (upd_input (set_in_r (in_r x))) ;;
      mret (inr (true, n, dst))
    else
    if c =? 10 then mret (inr (true, n - 1, dst ++ [c]))
    else mret (inl (n - 1, dst ++ [c]))) (n, []);
  release Lcons ;;
  ilock ip ;;
  let '(ok, n, dst) := r in
  mret (if ok : bool then s32 (target - n) else -1, dst).

Definition consolewrite (ip : option nat) (buf : list Z) (n : Z) : K Z :=
  iunlock ip ;;
  acquire Lcons ;;
  for_each (seqZ 0 n) (λ i,
    c ← deref (buf !! Z.to_nat i);
    consputc (Z.land c 255)) ;;
  release Lcons ;;
  ilock ip ;;
  mret n.

(** devsw[], which consoleinit() fills: the console is the only device. *)
Definition devsw_read (major : Z) : option (nat → Z → K (Z * list Z)) :=
  if major =? CONSOLE then Some (λ ip n, consoleread (Some ip) n) else None.
Definition devsw_write (major : Z) : option (nat → list Z → Z → K Z) :=
  if major =? CONSOLE then Some (λ ip buf n, consolewrite (Some ip) buf n) else None.

(** The interrupt controllers' set-up is not modelled. *)
Definition consoleinit : K unit :=
  initlock Lcons ;;
  upd_cons (set_c_locking 1).

(** ** The input buffer as a queue of characters

    [r], [w] and [e] count characters modulo 2^32, a multiple of INPUT_BUF. *)

Definition queue (x : input) (a b : Z) : list Z := rqueue INPUT_BUF (in_buf x) a b.

(** [rd]: complete lines nobody has read yet; [ty]: the line being typed. *)
Record line_ok (x : input) (rd ty : list Z) (R W F : Z) : Prop := {
  lo_len : length (in_buf x) = 128%nat;
  lo_r : in_r x = u32 R;
  lo_w : in_w x = u32 W;
  lo_e : in_e x = u32 F;
  lo_order : 0 <= R <= W ∧ W <= F <= R + 128;
  lo_ready : rd = queue x R W;
  lo_typing : ty = queue x W F;
  lo_nl : 10 ∉ ty
}.
Definition line (x : input) (rd ty : list Z) : Prop := ∃ R W F, line_ok x rd ty R W F.

(** What a typed character does to the line: the specification. *)
Definition type_char (st : list Z * list Z) (c : Z) : list Z * list Z :=
  let (rd, ty) := st in
  if c =? Ctrl 80 then (rd, ty)
  else if c =? Ctrl 85 then (rd, [])
  else if (c =? Ctrl 72) || (c =? 127) then (rd, take (length ty - 1) ty)
  else if (c =? 0) || (128 <=? Z.of_nat (length (rd ++ ty))) then (rd, ty)
  else
    let c := if c =? 13 then 10 else c in
    if (c =? 10) || (c =? Ctrl 68) || (Z.of_nat (length (rd ++ ty ++ [c])) =? 128)
    then (rd ++ ty ++ [c], []) else (rd, ty ++ [c]).

(** ** The handler refines the specification *)

(** What the handler needs and keeps. *)
Record cin_ok (s : kstate) : Prop := {
  ci_cons : cons_ok s;
  ci_procs : ptable_ok s;
  ci_lock : Lptable ∉ k_held s
}.

(** Only the console, the input buffer and sleeping processes change. *)
Definition only_in (s s' : kstate) : Prop :=
  s' = set_k_cons (k_cons s') (set_k_input (k_input s') (set_k_procs (k_procs s') s)).

Lemma only_in_refl s : only_in s s.
Proof. unfold only_in. by destruct s. Qed.
Lemma only_in_trans s1 s2 s3 : only_in s1 s2 → only_in s2 s3 → only_in s1 s3.
Proof. unfold only_in. intros H1 H2. rewrite H2, H1. rec_eq. Qed.

Lemma consputc_in c s :
  cin_ok s → ∃ s', consputc c s = Ok tt s' ∧ cin_ok s' ∧ only_in s s' ∧ k_input s' = k_input s.
Proof.
  intros [H1 H2 H3]. pose proof (prints_consputc c s H1) as H. unfold wp in H.
  destruct (consputc c s) as [[] s'| | |]; try done. destruct H as (Hc & Ho & _).
  exists s'. split; [done|]. unfold only_cons in Ho. split; [|split].
  - split; [done|unfold ptable_ok; by rewrite Ho|by rewrite Ho].
  - unfold only_in. rewrite Ho at 1. rewrite Ho. rec_eq.
  - by rewrite Ho.
Qed.

Lemma upd_input_in f s :
  cin_ok s → cin_ok (set_k_input (f (k_input s)) s) ∧ only_in s (set_k_input (f (k_input s)) s).
Proof. intros [H1 H2 H3]. split; [by split|]. unfold only_in. rec_eq. Qed.

(** Erasing the last character typed. *)
Lemma line_erase x rd ty R W F :
  line_ok x rd ty R W F → W < F →
  in_e x ≠ in_w x ∧ in_get x (u32 (in_e x - 1)) ≠ 10 ∧
  line_ok (set_in_e (u32 (in_e x - 1)) x) rd (take (length ty - 1) ty) R W (F - 1).
Proof.
  intros [H1 H2 H3 H4 H5 H6 H7 H8] Hlt.
  assert (u32 (in_e x - 1) = u32 (F - 1)) as He by (by rewrite H4, u32_sub_l).
  assert (ty = queue x W (F - 1) ++ [in_get x (F - 1)]) as Hty.
  { unfold queue, in_get. rewrite <- rqueue_snoc by lia. by replace (F - 1 + 1) with F by lia. }
  split; [|split].
  - rewrite H4, H3. intros H%u32_inj_near; lia.
  - rewrite He. unfold in_get. rewrite (rget_u32 INPUT_BUF ltac:(done) 33554432 eq_refl). intros H. apply H8. rewrite Hty. unfold in_get. rewrite H. set_solver.
  - split; try done; cbn; [lia| |].
    + rewrite Hty, length_app, Nat.add_sub. apply take_app_length.
    + rewrite Hty, length_app, Nat.add_sub, take_app_length. rewrite Hty in H8. set_solver.
Qed.

Lemma kill_line_spec s rd ty R W F fuel :
  cin_ok s → line_ok (k_input s) rd ty R W F → (Z.to_nat (F - W) < fuel)%nat →
  ∃ s', kill_line fuel s = Ok tt s' ∧ cin_ok s' ∧ only_in s s' ∧ line_ok (k_input s') rd [] R W W.
Proof.
  revert s ty F. induction fuel as [|fuel IH]; intros s ty F Hs Hl Hf; [lia|].
  pose proof (lo_order _ _ _ _ _ _ Hl) as Ho. cbn [kill_line]. unfold gets, mbind at 1, M_bind at 1.
  destruct (decide (F = W)) as [->|Hne].
  - rewrite (lo_e _ _ _ _ _ _ Hl), (lo_w _ _ _ _ _ _ Hl), Z.eqb_refl. cbn. exists s.
    split; [done|]. split; [done|]. split; [apply only_in_refl|].
    assert (ty = []) as ->; [|done]. rewrite (lo_typing _ _ _ _ _ _ Hl). apply rqueue_nil.
  - destruct (line_erase _ _ _ _ _ _ Hl ltac:(lia)) as (E1 & E2 & Hl1).
    rewrite (proj2 (Z.eqb_neq _ _) E1), (proj2 (Z.eqb_neq _ _) E2). cbn [negb andb].
    destruct (upd_input_in (set_in_e (u32 (in_e (k_input s) - 1))) s Hs) as [C1 O1].
    set (s1 := set_k_input _ s) in *. rewrite (bind_Ok _ _ s tt s1) by done.
    destruct (consputc_in BACKSPACE s1 C1) as (s2 & H2 & C2 & O2 & I2). rewrite (bind_Ok _ _ _ _ _ H2).
    destruct (IH s2 (take (length ty - 1) ty) (F - 1) C2) as (s3 & H3 & C3 & O3 & L3); [rewrite I2; exact Hl1|lia|].
    exists s3. split; [done|]. split; [done|]. split; [|done].
    eapply only_in_trans; [exact O1|]. by eapply only_in_trans.
Qed.

(** Adding a character. *)
Lemma line_add x rd ty R W F c :
  line_ok x rd ty R W F → F < R + 128 → 0 <= c < 256 → c ≠ 10 →
  line_ok (set_in_e (u32 (in_e x + 1)) (in_put x (in_e x) c)) rd (ty ++ [c]) R W (F + 1).
Proof.
  intros [H1 H2 H3 H4 H5 H6 H7 H8] Hlt Hc Hn. assert (Z.of_nat (length (in_buf x)) = INPUT_BUF) by (by rewrite H1).
  rewrite H4, u32_add_l. unfold in_put. rewrite (rput_u32 INPUT_BUF ltac:(done) 33554432 eq_refl).
  split; cbn; try done; [by rewrite length_rput|lia|..]; unfold queue in *; cbn.
  - by rewrite rqueue_rput by (done || unfold INPUT_BUF; lia).
  - by rewrite rqueue_add, H7 by (done || unfold INPUT_BUF; lia).
  - set_solver.
Qed.

(** Completing the line with a last character. *)
Lemma line_commit x rd ty R W F c :
  line_ok x rd ty R W F → F < R + 128 → 0 <= c < 256 →
  line_ok (set_in_w (u32 (in_e x + 1)) (set_in_e (u32 (in_e x + 1)) (in_put x (in_e x) c)))
    (rd ++ ty ++ [c]) [] R (F + 1) (F + 1).
Proof.
  intros [H1 H2 H3 H4 H5 H6 H7 H8] Hlt Hc. assert (Z.of_nat (length (in_buf x)) = INPUT_BUF) by (by rewrite H1).
  rewrite H4, u32_add_l. unfold in_put. rewrite (rput_u32 INPUT_BUF ltac:(done) 33554432 eq_refl).
  split; cbn; try done; [by rewrite length_rput|lia|..]; unfold queue in *; cbn.
  - rewrite rqueue_add by (done || unfold INPUT_BUF; lia). rewrite H6, H7, (assoc_L (++)). by rewrite rqueue_app by lia.
  - by rewrite rqueue_nil.
  - apply not_elem_of_nil.
Qed.

Lemma wakeup_in s :
  cin_ok s → ∃ s', wakeup Cinput s = Ok tt s' ∧ cin_ok s' ∧ only_in s s' ∧ k_input s' = k_input s.
Proof.
  intros [H1 H2 H3]. rewrite wakeup_eq by done. eexists. split; [done|]. split; [|split; [|done]].
  - split; [done| |done]. unfold ptable_ok in *. cbn. by rewrite length_fmap.
  - unfold only_in. rec_eq.
Qed.

Lemma line_length x rd ty R W F :
  line_ok x rd ty R W F → Z.of_nat (length (rd ++ ty)) = F - R.
Proof.
  intros H. pose proof (lo_order _ _ _ _ _ _ H). rewrite (lo_ready _ _ _ _ _ _ H), (lo_typing _ _ _ _ _ _ H).
  unfold queue. rewrite rqueue_app by lia. rewrite length_rqueue. lia.
Qed.

(** The ordinary characters. *)
Lemma consoleintr_add s rd ty c :
  cin_ok s → line (k_input s) rd ty → 0 <= c < 256 → c ≠ Ctrl 80 → c ≠ Ctrl 85 → c ≠ Ctrl 72 → c ≠ 127 →
  ∃ s', consoleintr_char c s = Ok false s' ∧ cin_ok s' ∧ only_in s s' ∧
    line (k_input s') (type_char (rd, ty) c).1 (type_char (rd, ty) c).2.
Proof.
  intros Hs (R & W & F & Hl) Hc N1 N2 N3 N4. pose proof (lo_order _ _ _ _ _ _ Hl) as Ho.
  pose proof (line_length _ _ _ _ _ _ Hl) as Hlen.
  unfold consoleintr_char, type_char. rewrite !(proj2 (Z.eqb_neq _ _)) by done. cbn [orb].
  unfold gets, mbind at 1, M_bind at 1. rewrite (lo_e _ _ _ _ _ _ Hl), (lo_r _ _ _ _ _ _ Hl), u32_sub.
  rewrite (u32_small (F - R)) by (unfold is_u32; lia). rewrite Hlen. unfold INPUT_BUF.
  destruct (Z.eqb_spec c 0) as [Hc0|Hc0]; cbn [negb andb orb].
  { exists s. split; [done|]. split; [done|]. split; [apply only_in_refl|by exists R, W, F]. }
  destruct (Z.ltb_spec (F - R) 128) as [Hroom|Hroom].
  2:{ rewrite (proj2 (Z.leb_le _ _)) by lia. exists s. split; [done|]. split; [done|].
      split; [apply only_in_refl|by exists R, W, F]. }
  rewrite (proj2 (Z.leb_gt _ _)) by lia. set (c' := if c =? 13 then 10 else c).
  assert (0 <= c' < 256) as Hc' by (unfold c'; destruct (c =? 13); lia).
  cbv beta iota delta [when].
  destruct (upd_input_in (λ x, set_in_e (u32 (in_e x + 1)) (in_put x (in_e x) c')) s Hs) as [C1 O1].
  set (s1 := set_k_input _ s) in *. unfold mbind at 1, M_bind at 1. rewrite (bind_Ok _ _ s tt s1) by done.
  destruct (consputc_in c' s1 C1) as (s2 & H2 & C2 & O2 & I2). rewrite (bind_Ok _ _ _ _ _ H2).
  unfold gets, mbind at 1, M_bind at 1. rewrite I2.
  assert (in_e (k_input s1) = u32 (F + 1)) as He1 by (cbn; by rewrite (lo_e _ _ _ _ _ _ Hl), u32_add_l).
  assert (in_r (k_input s1) = u32 R) as Hr1 by apply Hl. rewrite Hr1, u32_add_l.
  assert ((in_e (k_input s1) =? u32 (R + 128)) = (F - R + 1 =? 128)) as ->.
  { rewrite He1. apply eq_true_iff_eq. rewrite !Z.eqb_eq. split; [intros H%u32_inj_near; lia|intros H; f_equal; lia]. }
  assert (Z.of_nat (length (rd ++ ty ++ [c'])) = F - R + 1) as ->.
  { rewrite (assoc_L (++)), length_app. cbn [length]. lia. }
  change (128 =? 128) with true.
  destruct ((c' =? 10) || (c' =? Ctrl 68) || (F - R + 1 =? 128)) eqn:Hend.
  - destruct (upd_input_in (set_in_w (in_e (k_input s1))) s2 C2) as [C3 O3]. rewrite I2 in C3, O3.
    set (s3 := set_k_input _ s2) in *. rewrite (bind_Ok _ _ s2 tt s3) by (unfold upd_input, modify; by rewrite I2).
    destruct (wakeup_in s3 C3) as (s4 & -> & C4 & O4 & I4). exists s4. split; [done|]. split; [done|]. split.
    + eapply only_in_trans; [exact O1|]. eapply only_in_trans; [exact O2|]. by eapply only_in_trans.
    + exists R, (F + 1), (F + 1). rewrite I4. unfold s3. cbn [k_input set_k_input fst snd].
      apply (line_commit _ _ _ _ _ _ _ Hl ltac:(lia) Hc').
  - exists s2. split; [done|]. split; [done|]. split; [by eapply only_in_trans|]. exists R, W, (F + 1).
    rewrite I2. apply (line_add _ _ _ _ _ _ _ Hl ltac:(lia) Hc'). intros ->. done.
Qed.

Lemma consoleintr_char_spec s rd ty c :
  cin_ok s → line (k_input s) rd ty → 0 <= c < 256 →
  ∃ s', consoleintr_char c s = Ok (c =? Ctrl 80) s' ∧ cin_ok s' ∧ only_in s s' ∧
    line (k_input s') (type_char (rd, ty) c).1 (type_char (rd, ty) c).2.
Proof.
  intros Hs Hl Hc. destruct (decide (c = Ctrl 80 ∨ c = Ctrl 85 ∨ c = Ctrl 72 ∨ c = 127)) as [Hsp|Hn].
  2:{ destruct (consoleintr_add s rd ty c Hs Hl Hc) as (s' & H); [naive_solver..|].
      exists s'. by rewrite (proj2 (Z.eqb_neq c (Ctrl 80))) by naive_solver. }
  destruct Hl as (R & W & F & Hl). pose proof (lo_order _ _ _ _ _ _ Hl) as Ho.
  destruct (decide (c = Ctrl 80)) as [->|N1].
  { exists s. split; [done|]. split; [done|]. split; [apply only_in_refl|by exists R, W, F]. }
  destruct (decide (c = Ctrl 85)) as [->|N2].
  { destruct (kill_line_spec s rd ty R W F (S (Z.to_nat INPUT_BUF)) Hs Hl) as (s' & H & C' & O' & L');
      [unfold INPUT_BUF; lia|].
    exists s'. unfold consoleintr_char. rewrite (proj2 (Z.eqb_neq (Ctrl 85) (Ctrl 80))) by done. rewrite Z.eqb_refl.
    rewrite (bind_Ok _ _ _ _ _ H). split; [done|]. split; [done|]. split; [done|by exists R, W, W]. }
  assert (((c =? Ctrl 72) || (c =? 127)) = true) as Hb.
  { destruct Hsp as [?|[?|[-> | ->]]]; done. }
  unfold consoleintr_char, type_char. rewrite (proj2 (Z.eqb_neq c (Ctrl 80))), (proj2 (Z.eqb_neq c (Ctrl 85))) by done.
  rewrite Hb. unfold gets, mbind at 1, M_bind at 1. cbn [fst snd].
  destruct (decide (F = W)) as [->|Hne].
  - rewrite (lo_e _ _ _ _ _ _ Hl), (lo_w _ _ _ _ _ _ Hl), Z.eqb_refl. exists s. split; [done|]. split; [done|].
    split; [apply only_in_refl|]. exists R, W, W. assert (ty = []) as ->; [|done].
    rewrite (lo_typing _ _ _ _ _ _ Hl). apply rqueue_nil.
  - destruct (line_erase _ _ _ _ _ _ Hl ltac:(lia)) as (E1 & _ & Hl1).
    rewrite (proj2 (Z.eqb_neq _ _) E1). cbn [negb when].
    destruct (upd_input_in (set_in_e (u32 (in_e (k_input s) - 1))) s Hs) as [C1 O1].
    set (s1 := set_k_input _ s) in *. unfold mbind at 1, M_bind at 1. rewrite (bind_Ok _ _ s tt s1) by done.
    destruct (consputc_in BACKSPACE s1 C1) as (s2 & -> & C2 & O2 & I2).
    exists s2. split; [done|]. split; [done|]. split; [by eapply only_in_trans|]. exists R, W, (F - 1). by rewrite I2.
Qed.

Lemma consoleintr_loop_spec s rd ty cs p :
  cin_ok s → line (k_input s) rd ty → Forall (λ c, 0 <= c < 256) cs →
  ∃ s' p', consoleintr_loop cs p s = Ok p' s' ∧ cin_ok s' ∧ only_in s s' ∧
    line (k_input s') (foldl type_char (rd, ty) cs).1 (foldl type_char (rd, ty) cs).2.
Proof.
  revert s rd ty p. induction cs as [|c cs IH]; intros s rd ty p Hs Hl Hc.
  { exists s, p. split; [done|]. split; [done|]. split; [apply only_in_refl|done]. }
  apply Forall_cons in Hc as [Hc Hcs]. destruct (consoleintr_char_spec s rd ty c Hs Hl Hc) as (s1 & H1 & C1 & O1 & L1).
  cbn [consoleintr_loop foldl]. rewrite (bind_Ok _ _ _ _ _ H1). destruct (type_char (rd, ty) c) as [rd1 ty1].
  destruct (IH s1 rd1 ty1 (p || (c =? Ctrl 80)) C1 L1 Hcs) as (s2 & p2 & H2 & C2 & O2 & L2).
  exists s2, p2. split; [done|]. split; [done|]. split; [by eapply only_in_trans|done].
Qed.

(** ** The process listing *)

Definition dump_ok (s : kstate) : Prop := cons_ok s ∧ ptable_ok s ∧ Lcons ∉ k_held s.
Definition dumps (m : K unit) : Prop := ∀ s, dump_ok s → wp m (λ _ s', dump_ok s' ∧ only_cons s s') s.

Lemma dumps_bind m m' : dumps m → dumps m' → dumps (m ;; m').
Proof.
  intros H H' s Hs. apply wp_bind. eapply wp_wand; [by apply H|]. intros _ s1 [C1 O1].
  eapply wp_wand; [by apply H'|]. intros _ s2 [C2 O2]. split; [done|by eapply only_cons_trans].
Qed.
Lemma dumps_skip : dumps skip.
Proof. intros s Hs. apply wp_ret. split; [done|apply only_cons_refl]. Qed.
Lemma dumps_for_each {A} (l : list A) f : (∀ x, x ∈ l → dumps (f x)) → dumps (for_each l f).
Proof.
  induction l as [|x l IH]; intros H; simpl; [apply dumps_skip|].
  apply dumps_bind; [apply H; set_solver|apply IH; set_solver].
Qed.
Lemma dumps_cprintf fmt args : fmt_ok fmt args = true → dumps (cprintf (Some fmt) args).
Proof.
  intros Hf s (H1 & H2 & H3). eapply wp_wand; [by apply prints_cprintf|]. intros _ s' (C' & O' & _).
  split; [|done]. unfold only_cons in O'. split_and!; [done|unfold ptable_ok; by rewrite O'|by rewrite O'].
Qed.

Lemma dumps_procdump : dumps procdump.
Proof.
  unfold procdump. apply dumps_for_each. intros i Hi s Hs. apply elem_of_seq in Hi.
  destruct (k_procs s !! i) as [p|] eqn:Hp.
  2:{ apply lookup_ge_None in Hp. destruct Hs as (_ & Hpt & _). unfold ptable_ok in Hpt. lia. }
  apply wp_bind. unfold get_proc at 1, deref at 1, wp at 1. rewrite Hp. cbv beta iota delta [mret M_ret].
  revert s Hs Hp. intros s Hs _. revert s Hs.
  destruct (state_eqb (p_state p) UNUSED); [exact dumps_skip|]. apply dumps_bind; [by apply dumps_cprintf|].
  apply dumps_bind; [|by apply dumps_cprintf]. destruct (state_eqb (p_state p) SLEEPING); [|exact dumps_skip].
  intros s Hs. apply wp_bind. unfold gets at 1, wp at 1. revert s Hs. intros s Hs.
  generalize (cstring (Spin.getcallerpcs (k_mem s) (read32 (k_mem s) (p_context p + CTX_EBP) + 8))).
  intros l. revert s Hs. apply dumps_for_each. intros x _. by apply dumps_cprintf.
Qed.

(** C18. The console's line discipline, as a refinement: for any characters an
    interrupt delivers, consoleintr() returns and the input buffer implements the
    specification [type_char] folded over them: backspace removes the last character of the
    line being typed, ^U the whole line, and never a completed line; a newline, ^D or
    the 128th pending character completes the line; characters that do not fit are
    dropped. The read, write and edit indices may wrap around 2^32. *)
Theorem console_line_editing s rd ty cs :
  cons_ok s → ptable_ok s → Lptable ∉ k_held s → Lcons ∉ k_held s →
  line (k_input s) rd ty → Forall (λ c, 0 <= c < 256) cs →
  ∃ s', consoleintr cs s = Ok tt s' ∧
    line (k_input s') (foldl type_char (rd, ty) cs).1 (foldl type_char (rd, ty) cs).2 ∧ k_held s' = k_held s.
Proof.
  intros H1 H2 H3 H4 Hl Hcs. unfold consoleintr. rewrite (bind_Ok _ _ _ _ _ (acquire_free _ _ H4)).
  set (s1 := set_k_held _ s).
  assert (cin_ok s1) as Hc1 by (split; [done|done|cbn; set_solver]).
  destruct (consoleintr_loop_spec s1 rd ty cs false Hc1 Hl Hcs) as (s2 & p & Hr & C2 & O2 & L2).
  rewrite (bind_Ok _ _ _ _ _ Hr). unfold only_in in O2.
  assert (k_held s2 = {[ Lcons ]} ∪ k_held s) as Hh2 by (by rewrite O2).
  assert (release Lcons s2 = Ok tt (set_k_held (k_held s) s2)) as Hrel.
  { rewrite release_held by (rewrite Hh2; set_solver). by rewrite Hh2, held_roundtrip. }
  rewrite (bind_Ok _ _ _ _ _ Hrel). set (s3 := set_k_held (k_held s) s2).
  destruct p; [|by exists s3]. cbn [when].
  assert (dump_ok s3) as Hd by (split_and!; [apply C2|apply C2|done]).
  pose proof (dumps_procdump s3 Hd) as H. unfold wp in H.
  destruct (procdump s3) as [[] s4| | |]; try done. destruct H as [_ O4]. exists s4. unfold only_cons in O4.
  split; [done|]. rewrite O4. done.
Qed.

End ConsIn.

Section Example.
#[local] Existing Instance env_idle.

Lemma line_empty : line (k_input kstate0) [] [].
Proof. exists 0, 0, 0. split; try done; apply not_elem_of_nil. Qed.

(** Typing l, x, backspace, s, return. *)
Lemma console_line_editing_witness :
  ∃ s', consoleintr [108; 120; 8; 115; 13] kstate0 = Ok tt s' ∧ line (k_input s') [108; 115; 10] [] ∧
    k_held s' = k_held kstate0.
Proof.
  apply (console_line_editing kstate0 [] [] [108; 120; 8; 115; 13]).
  - split; [cbn; lia|done].
  - done.
  - apply not_elem_of_empty.
  - apply not_elem_of_empty.
  - exact line_empty.
  - repeat constructor; lia.
Defined.

End Example.
