(* ===== verification/Fs.v ===== *)
(** * Fs: file contents, directories and paths (fs.c, second part)

    Buffers that readi() and writei() copy to and from are lists of bytes: readi()
    returns what it stores at dst, writei() takes the bytes at src. A path is the list
    of its bytes up to its NUL; the name buffer has DIRSIZ bytes. *)

From S2P Require Import Prelude Machine CMem DiskFmt Vm Proc Bio Log Inode ConsIn.
From stdpp Require Import options.

Section Fs.
Context {E : Env}.

(** [for(tot=0; tot<n; tot+=m, off+=m, dst+=m)]: every round but the first and the
    last moves a whole block. *)
Definition blocks_of (n : Z) : nat := Z.to_nat (n / BSIZE + 3).

(** One round: tot, off and the bytes stored so far; or those bytes, at the end. *)
Definition readi_body (i : nat) (n : Z) : Z * Z * list Z → K (Z * Z * list Z + list Z) := λ '(tot, off, dst),
  if negb (tot <? n) then mret (inr dst) else
  ip ← get_inode i;
  a ← bmap i (off / BSIZE);
  bp ← bread (i_dev ip) a;
  let m := Z.min (n - tot) (BSIZE - off mod BSIZE) in
  x ← get_buf bp;
  let piece := take (Z.to_nat m) (drop (Z.to_nat (off mod BSIZE)) (b_data x)) in
  brelse bp ;;
  mret (inl (tot + m, u32 (off + m), dst ++ piece)).
Definition readi_loop (i : nat) (n : Z) (off : Z) : K (list Z) := loop (blocks_of n) (readi_body i n) (0, off, []).

(** The result and the bytes stored at dst. *)
Definition readi (i : nat) (off n : Z) : K (Z * list Z) :=
  ip ← get_inode i;
  if i_type ip =? T_DEV then
    if (i_major ip <? 0) || (i_major ip >=? NDEV) then mret (-1, []) else
    match devsw_read (i_major ip) with
    | None => mret (-1, [])
    | Some f => f i (s32 n)
    end
  else
  if (off >? i_size ip) || (u32 (off + n) <? off) then mret (-1, []) else
  let n := if u32 (off + n) >? i_size ip then i_size ip - off else n in
  dst ← readi_loop i n off;
  mret (s32 n, dst).

Definition writei_body (i : nat) (src : list Z) (n : Z) : Z * Z → K (Z * Z + Z) := λ '(tot, off),
  if negb (tot <? n) then mret (inr off) else
  ip ← get_inode i;
  a ← bmap i (off / BSIZE);
  bp ← bread (i_dev ip) a;
  let m := Z.min (n - tot) (BSIZE - off mod BSIZE) in
  upd_buf bp (λ x, set_b_data (put_list (b_data x) (off mod BSIZE)
    (take (Z.to_nat m) (drop (Z.to_nat tot) src))) x) ;;
  log_write bp ;;
  brelse bp ;;
  mret (inl (tot + m, u32 (off + m))).
(** The result is the final value of off. *)
Definition writei_loop (i : nat) (src : list Z) (n : Z) (off : Z) : K Z := loop (blocks_of n) (writei_body i src n) (0, off).

Definition writei (i : nat) (src : list Z) (off n : Z) : K Z :=
  ip ← get_inode i;
  if i_type ip =? T_DEV then
    if (i_major ip <? 0) || (i_major ip >=? NDEV) then mret (-1) else
    match devsw_write (i_major ip) with
    | None => mret (-1)
    | Some f => f i src (s32 n)
    end
  else
  if (off >? i_size ip) || (u32 (off + n) <? off) then mret (-1) else
  if u32 (off + n) >? MAXFILE * BSIZE then mret (-1) else
  off ← writei_loop i src n off;
  ip ← get_inode i;
  when ((n >? 0) && (off >? i_size ip)) (upd_inode i (set_i_size off) ;; iupdate i) ;;
  mret (s32 n).

(** ** Directories *)

(** Two byte arrays of the kernel stack, at addresses 0 and 64, for the string
    functions of string.c. *)
Definition scratch (s t : list Z) : gmap Z Z := wr_list (wr_list ∅ 0 s) 64 t.

Definition namecmp (s t : list Z) : Z := strncmp (scratch s t) 0 64 DIRSIZ.

(** [for(off = 0; off < dp->size; off += sizeof(de))] *)
Definition dir_offsets (size : Z) : list Z :=
  (λ k, k * DIRENT_SIZE) <$> seqZ 0 ((size + DIRENT_SIZE - 1) / DIRENT_SIZE).

(** The inode found and the offset of its entry (what poff points to). *)
Definition dirlookup (dp : nat) (name : list Z) : K (option (nat * Z)) :=
  d ← get_inode dp;
  if negb (i_type d =? T_DIR) then panic "dirlookup not DIR" else
  for_ret (dir_offsets (i_size d)) (λ off,
    '(r, de) ← readi dp off DIRENT_SIZE;
    if negb (r =? DIRENT_SIZE) then panic "dirlink read" else
    if de_inum de =? 0 then mret None else
    if namecmp name (de_name de) =? 0 then
      ip ← iget (i_dev d) (de_inum de);
      mret (Some (ip, off))
    else mret None).

(** A struct dirent as bytes. *)
Definition mk_dirent (inum : Z) (name : list Z) : list Z :=
  [u8 inum; u8 (Z.shiftr inum 8)] ++ bytes (strncpy (scratch (replicate 14 0) name) 0 64 DIRSIZ) 0 14.

Definition dirlink (dp : nat) (name : list Z) (inum : Z) : K Z :=
  r ← dirlookup dp name;
  match r with
  | Some (ip, _) => iput ip ;; mret (-1)
  | None =>
    d ← get_inode dp;
    e ← for_ret (dir_offsets (i_size d)) (λ off,
      '(r, de) ← readi dp off DIRENT_SIZE;
      if negb (r =? DIRENT_SIZE) then panic "dirlink read" else
      mret (if de_inum de =? 0 then Some off else None));
    let off := default (DIRENT_SIZE * ((i_size d + DIRENT_SIZE - 1) / DIRENT_SIZE)) e in
    w ← writei dp (mk_dirent inum name) off DIRENT_SIZE;
    if negb (w =? DIRENT_SIZE) then panic "dirlink" else
    mret 0
  end.

(** ** Paths *)

Fixpoint skip_slashes (path : list Z) : list Z :=
  match path with
  | c :: p => if c =? 47 then skip_slashes p else path
  | [] => []
  end.
(** The bytes up to the next slash, and the rest. *)
Fixpoint elem (path : list Z) : list Z * list Z :=
  match path with
  | c :: p => if c =? 47 then ([], path) else let (e, r) := elem p in (c :: e, r)
  | [] => ([], [])
  end.

(** The rest of the path and the contents of the name buffer; [None] for a null
    result. *)
Definition skipelem (path name : list Z) : option (list Z * list Z) :=
  match skip_slashes path with
  | [] => None
  | path =>
    let (s, path) := elem path in
    let len := length s in
    let name :=
      if Z.of_nat len >=? DIRSIZ then take (Z.to_nat DIRSIZ) s
      else s ++ [0] ++ drop (S len) name in
    Some (skip_slashes path, name)
  end.

(** Each round removes at least one byte of the path. *)
Definition namex_loop (path : list Z) (nameiparent : bool) (ip : nat) (name : list Z) : K (option nat * list Z) :=
  loop (S (length path)) (λ '(path, ip, name),
    match skipelem path name with
    | None =>
      if nameiparent then iput ip ;; mret (inr (None, name)) else mret (inr (Some ip, name))
    | Some (path, name) =>
      ilock (Some ip) ;;
      x ← get_inode ip;
      if negb (i_type x =? T_DIR) then iunlockput ip ;; mret (inr (None, name)) else
      if nameiparent && bool_decide (path = []) then
        iunlock (Some ip) ;; mret (inr (Some ip, name))
      else
      next ← dirlookup ip name;
      match next with
      | None => iunlockput ip ;; mret (inr (None, name))
      | Some (next, _) => iunlockput ip ;; mret (inl (path, next, name))
      end
    end) (path, ip, name).

(** The inode, and the name buffer afterwards. *)
Definition namex (path : list Z) (nameiparent : bool) (name : list Z) : K (option nat * list Z) :=
  ip ← (if bool_decide (head path = Some 47) then iget ROOTDEV ROOTINO
        else c ← curproc; p ← get_proc c; ip ← deref (p_cwd p); idup ip);
  namex_loop path nameiparent ip name.

Definition namei (path : list Z) : K (option nat) :=
  '(ip, _) ← namex path false (replicate 14 0);
  mret ip.
Definition nameiparent (path name : list Z) : K (option nat * list Z) :=
  namex path true name.

End Fs.
