(* ===== verification/FsSpec.v ===== *)
(** * FsSpec: what reading and writing a file does

    The contents of a file are its blocks as the buffer cache has them ([bview]), found
    through the inode's direct addresses and its indirect block. readi() returns a range
    of the contents; writei() into blocks the file has replaces it, and with commit() does
    so atomically across crashes. *)

From S2P Require Import Prelude Machine CMem DiskFmt Vm Proc Bio BufSpec Log LogSpec LogCommit LogCrash LogTxn Inode ConsIn Fs.
From stdpp Require Import options.

(** ** File contents *)

(** The block with the indirect addresses, and the disk block of block [bn] of a file. *)
Definition ind_addr (ip : inode) : Z := default 0 (i_addrs ip !! 12%nat).
Definition file_addr (C : Z → list Z) (ip : inode) (bn : Z) : Z :=
  if bn <? NDIRECT then default 0 (i_addrs ip !! Z.to_nat bn) else get32 (C (ind_addr ip)) (4 * (bn - NDIRECT)).
Definition file_byte (C : Z → list Z) (ip : inode) (k : Z) : Z :=
  default 0 (C (file_addr C ip (k / BSIZE)) !! Z.to_nat (k mod BSIZE)).
Definition file_range (C : Z → list Z) (ip : inode) (off n : Z) : list Z := file_byte C ip <$> seqZ off n.

Lemma file_range_app C ip off a b :
  0 <= a → 0 <= b → file_range C ip off (a + b) = file_range C ip off a ++ file_range C ip (off + a) b.
Proof. intros. unfold file_range. by rewrite seqZ_app, fmap_app by lia. Qed.

Lemma length_file_range C ip off n : length (file_range C ip off n) = Z.to_nat n.
Proof. unfold file_range. by rewrite length_fmap, length_seqZ. Qed.

(** A part of one block. *)
Lemma file_range_block C ip off m :
  0 <= off → 0 <= m <= BSIZE - off mod BSIZE → length (C (file_addr C ip (off / BSIZE))) = 512%nat →
  file_range C ip off m = take (Z.to_nat m) (drop (Z.to_nat (off mod BSIZE)) (C (file_addr C ip (off / BSIZE)))).
Proof.
  unfold BSIZE. intros Ho Hm Hl. pose proof (Z.mod_pos_bound off 512 ltac:(lia)) as Hmod. apply list_eq. intros i.
  destruct (decide (i < Z.to_nat m)%nat) as [Hi|Hi].
  - rewrite lookup_take_lt, lookup_drop by lia. unfold file_range. rewrite list_lookup_fmap, lookup_seqZ_lt by lia.
    cbn [fmap option_fmap option_map]. unfold file_byte, BSIZE.
    pose proof (Z.div_mod off 512 ltac:(lia)) as Hd.
    assert ((off + Z.of_nat i) / 512 = off / 512) as ->
      by (symmetry; apply (Z.div_unique _ _ _ (off mod 512 + Z.of_nat i)); lia).
    assert ((off + Z.of_nat i) mod 512 = off mod 512 + Z.of_nat i) as ->
      by (symmetry; apply (Z.mod_unique _ _ (off / 512)); lia).
    replace (Z.to_nat (off mod 512 + Z.of_nat i)) with (Z.to_nat (off mod 512) + i)%nat by lia.
    destruct (lookup_lt_is_Some_2 (C (file_addr C ip (off / 512))) (Z.to_nat (off mod 512) + i)) as [x Hx]; [lia|].
    by rewrite Hx.
  - rewrite lookup_take_ge by lia. apply lookup_ge_None_2. rewrite length_file_range. lia.
Qed.

Section FsSpec.
Context {E : Env}.

(** Block [bn] of the file is there and free to be read. *)
Record mapped (D : gmap Z (list Z)) (B : gset Z) (C : Z → list Z) (ip : inode) (bn : Z) : Prop := {
  mp_bn : 0 <= bn < MAXFILE;
  mp_addr : file_addr C ip bn ≠ 0;
  mp_disk : is_Some (D !! file_addr C ip bn);
  mp_free : file_addr C ip bn ∉ B;
  mp_len : length (C (file_addr C ip bn)) = 512%nat;
  mp_ind : NDIRECT <= bn → ind_addr ip ≠ 0 ∧ is_Some (D !! ind_addr ip) ∧ ind_addr ip ∉ B
}.

(** An inode in memory, of the file system's device. *)
Definition inode_at (s : kstate) (i : nat) (ip : inode) : Prop :=
  k_inodes s !! i = Some ip ∧ i_dev ip = 1 ∧ length (i_addrs ip) = 13%nat.

Lemma inode_at_io s s' i ip : only_io s s' → inode_at s i ip → inode_at s' i ip.
Proof. intros [-> _] (H & ? & ?). by split. Qed.

Lemma get_addr_eq s i ip n :
  inode_at s i ip → 0 <= n < 13 → get_addr i n s = Ok (default 0 (i_addrs ip !! Z.to_nat n)) s.
Proof.
  intros (Hi & _ & Hl) Hn. unfold get_addr. rewrite (bind_Ok _ _ _ _ _ (get_inode_eq _ _ _ Hi)).
  destruct (lookup_lt_is_Some_2 (i_addrs ip) (Z.to_nat n)) as [x Hx]; [lia|]. by rewrite Hx.
Qed.

(** A block read through the cache and released. *)
Lemma read_block s D W Q B C n :
  bview s D W Q B C → is_Some (D !! n) → n ∉ B → (size (Q ∪ B) < bhead)%nat →
  ∃ b x s1 s2, bread 1 n s = Ok b s1 ∧ get_buf b s1 = Ok x s1 ∧ b_data x = C n ∧ brelse b s1 = Ok tt s2 ∧
    only_io s s2 ∧ bview s2 D W Q B C.
Proof.
  intros V [d0 HD] HB Hroom.
  destruct (bv_bread s D W Q B C n d0 V HD HB ltac:(by right)) as (b & s1 & E1 & V1 & A1 & S1 & _).
  destruct (buf_at_get _ _ _ _ _ A1) as (x & Ex & Hx & _).
  destruct (bv_brelse s1 _ _ _ _ _ b n _ _ V1 A1) as (s2 & E2 & V2 & S2).
  { case_bool_decide as Hq; [by left|right]. by rewrite (bv_clean s D W Q B C n d0 V Hq HB HD). }
  exists b, x, s1, s2. split_and!; try done; [eapply only_io_trans; [apply S1|apply S2]|].
  eapply bview_ext; [exact V2|done|clear -HB; set_solver|done].
Qed.

Lemma bmap_mapped s D W Q B C i ip bn :
  bview s D W Q B C → inode_at s i ip → mapped D B C ip bn → (size (Q ∪ B) < bhead)%nat →
  ∃ s', bmap i bn s = Ok (file_addr C ip bn) s' ∧ only_io s s' ∧ bview s' D W Q B C.
Proof.
  intros V Hi [Hbn Ha _ _ _ Hind] Hroom. pose proof Hi as (Hip & Hdev & _). unfold bmap.
  rewrite (bind_Ok _ _ _ _ _ (get_inode_eq _ _ _ Hip)). unfold file_addr in *.
  unfold MAXFILE, NINDIRECT, NDIRECT, BSIZE in *. change (512 / 4) with 128 in *. destruct (Z.ltb_spec bn 12) as [Hlt|Hge].
  - rewrite (bind_Ok _ _ _ _ _ (get_addr_eq s i ip bn Hi ltac:(lia))). apply Z.eqb_neq in Ha. rewrite Ha.
    exists s. split; [done|]. split; [apply only_io_refl|done].
  - destruct (Hind Hge) as (Hi0 & HiD & HiB). rewrite (proj2 (Z.ltb_lt _ _)) by lia.
    rewrite (bind_Ok _ _ _ _ _ (get_addr_eq s i ip 12 Hi ltac:(lia))). change (Z.to_nat 12) with 12%nat. fold (ind_addr ip).
    apply Z.eqb_neq in Hi0. rewrite Hi0. rewrite (bind_Ok _ _ s (ind_addr ip) s) by done. rewrite Hdev.
    destruct (read_block s D W Q B C (ind_addr ip) V HiD HiB Hroom) as (b & x & s1 & s2 & E1 & Ex & Hx & E2 & O & V2).
    rewrite (bind_Ok _ _ _ _ _ E1), (bind_Ok _ _ _ _ _ Ex), Hx. apply Z.eqb_neq in Ha. rewrite Ha.
    rewrite (bind_Ok _ _ s1 (get32 (C (ind_addr ip)) (4 * (bn - 12))) s1) by done. rewrite (bind_Ok _ _ _ _ _ E2).
    by exists s2.
Qed.

(** ** readi *)

(** One round moves a piece of a block. *)
Lemma readi_body_spec s D W Q B C i ip n tot off dst :
  bview s D W Q B C → inode_at s i ip → (size (Q ∪ B) < bhead)%nat → 0 <= off → 0 <= tot < n →
  mapped D B C ip (off / BSIZE) →
  let m := Z.min (n - tot) (BSIZE - off mod BSIZE) in
  ∃ s', readi_body i n (tot, off, dst) s = Ok (inl (tot + m, u32 (off + m), dst ++ file_range C ip off m)) s' ∧
    only_io s s' ∧ bview s' D W Q B C.
Proof.
  intros V Hi Hroom Hoff Htot Hm m. pose proof Hi as (Hip & Hdev & _).
  pose proof (Z.mod_pos_bound off BSIZE ltac:(done)) as Hmod. unfold readi_body. rewrite (proj2 (Z.ltb_lt tot n)) by lia. cbn [negb].
  rewrite (bind_Ok _ _ _ _ _ (get_inode_eq _ _ _ Hip)), Hdev.
  destruct (bmap_mapped s D W Q B C i ip (off / BSIZE) V Hi Hm Hroom) as (s1 & E1 & O1 & V1).
  rewrite (bind_Ok _ _ _ _ _ E1).
  destruct (read_block s1 D W Q B C (file_addr C ip (off / BSIZE)) V1 (mp_disk _ _ _ _ _ Hm) (mp_free _ _ _ _ _ Hm) Hroom)
    as (b & x & s2 & s3 & E2 & Ex & Hx & E3 & O3 & V3).
  rewrite (bind_Ok _ _ _ _ _ E2), (bind_Ok _ _ _ _ _ Ex), (bind_Ok _ _ _ _ _ E3), Hx. exists s3. split.
  - rewrite (file_range_block C ip off m); [done|done|unfold m; lia|apply Hm].
  - split; [by eapply only_io_trans|done].
Qed.

(** [k] blocks after the current one are enough for the rest. *)
Lemma readi_loop_spec fuel k s D W Q B C i ip n tot off dst :
  bview s D W Q B C → inode_at s i ip → (size (Q ∪ B) < bhead)%nat →
  0 <= off → 0 <= tot <= n → off + (n - tot) < 4294967296 →
  (∀ bn, off / BSIZE <= bn → bn * BSIZE < off + (n - tot) → mapped D B C ip bn) →
  n - tot <= BSIZE - off mod BSIZE + BSIZE * Z.of_nat k → (1 ≤ fuel)%nat → (tot < n → (k + 2 ≤ fuel)%nat) →
  ∃ s', loop fuel (readi_body i n) (tot, off, dst) s = Ok (dst ++ file_range C ip off (n - tot)) s' ∧
    only_io s s' ∧ bview s' D W Q B C.
Proof.
  revert k s tot off dst. induction fuel as [|fuel IH]; intros k s tot off dst V Hi Hroom Hoff Htot Hwrap Hmap Hk Hf1 Hfuel; [lia|].
  cbn [loop]. destruct (decide (tot = n)) as [->|Hne].
  { rewrite (bind_Ok _ _ s (inr dst) s) by (unfold readi_body; by rewrite (proj2 (Z.ltb_ge n n)) by lia).
    exists s. rewrite Z.sub_diag. unfold file_range. cbn. rewrite app_nil_r. split; [done|]. split; [apply only_io_refl|done]. }
  pose proof (Z.mod_pos_bound off BSIZE ltac:(done)) as Hmod. pose proof (Z.div_mod off BSIZE ltac:(done)) as Hdiv.
  destruct (readi_body_spec s D W Q B C i ip n tot off dst V Hi Hroom Hoff ltac:(lia)) as (s1 & E1 & O1 & V1).
  { apply Hmap; lia. }
  rewrite (bind_Ok _ _ _ _ _ E1). cbn beta iota. set (m := Z.min (n - tot) (BSIZE - off mod BSIZE)) in *.
  rewrite u32_small by (unfold is_u32; lia).
  destruct (IH (k - 1)%nat s1 (tot + m) (off + m) (dst ++ file_range C ip off m) V1 (inode_at_io _ _ _ _ O1 Hi) Hroom)
    as (s2 & E2 & O2 & V2); [lia|lia|lia| | |lia| |].
  { intros bn Hb1 Hb2. apply Hmap; [|lia]. pose proof (Z.div_le_mono off (off + m) BSIZE ltac:(done) ltac:(lia)). lia. }
  { destruct (Z.min_spec (n - tot) (BSIZE - off mod BSIZE)) as [[? Hme]|[? Hme]]; fold m in Hme.
    - pose proof (Z.mod_pos_bound (off + m) BSIZE ltac:(done)). unfold BSIZE in *. lia.
    - assert ((off + m) mod BSIZE = 0) as ->; [|unfold BSIZE in *; lia].
      replace (off + m) with ((off / BSIZE + 1) * BSIZE) by lia. apply Z.mod_mul. done. }
  { unfold BSIZE in *. lia. }
  exists s2. rewrite E2, <- (assoc_L (++)), <- file_range_app by lia. split; [do 2 f_equal; f_equal; lia|].
  split; [by eapply only_io_trans|done].
Qed.

(** readi() on a file whose blocks are there. *)
Lemma readi_spec s D W Q B C i ip off n :
  bview s D W Q B C → inode_at s i ip → (size (Q ∪ B) < bhead)%nat → i_type ip ≠ T_DEV →
  0 <= off < 4294967296 → 0 <= n < 4294967296 → 0 <= i_size ip <= MAXFILE * BSIZE →
  (∀ bn, 0 <= bn → bn * BSIZE < i_size ip → mapped D B C ip bn) →
  let m := Z.min n (i_size ip - off) in
  ∃ s', readi i off n s =
    Ok (if decide (off <= i_size ip ∧ off + n < 4294967296) then (m, file_range C ip off m) else (-1, [])) s' ∧
    only_io s s' ∧ bview s' D W Q B C.
Proof.
  intros V Hi Hroom Hty Hoff Hn Hsz Hmap m. pose proof Hi as (Hip & _). unfold readi.
  rewrite (bind_Ok _ _ _ _ _ (get_inode_eq _ _ _ Hip)). apply Z.eqb_neq in Hty. rewrite Hty.
  destruct (decide _) as [[Ho Hw]|Hbad].
  2:{ exists s. split; [|by split; [apply only_io_refl|]].
      assert ((off >? i_size ip) || (u32 (off + n) <? off) = true) as ->; [|done].
      rewrite Z.gtb_ltb. apply orb_true_iff. rewrite !Z.ltb_lt.
      destruct (decide (off <= i_size ip)); [right|lia]. unfold u32. rewrite <- (Z_mod_plus_full _ (-1)), Z.mod_small; lia. }
  rewrite u32_small by (unfold is_u32; lia).
  rewrite (proj2 (orb_false_iff _ _)) by (rewrite Z.gtb_ltb, !Z.ltb_ge; lia).
  assert ((if off + n >? i_size ip then i_size ip - off else n) = m) as ->.
  { rewrite Z.gtb_ltb. destruct (Z.ltb_spec (i_size ip) (off + n)); lia. }
  assert (m < 2147483648) as Hm by (unfold MAXFILE, NDIRECT, NINDIRECT, BSIZE in Hsz; change (512 / 4) with 128 in Hsz; lia).
  destruct (readi_loop_spec (blocks_of m) (Z.to_nat (m / BSIZE + 1)) s D W Q B C i ip m 0 off []) as (s' & Er & O & V'); try done; try lia.
  - intros bn Hb1 Hb2. apply Hmap; [|lia]. pose proof (Z.div_pos off BSIZE). unfold BSIZE in *. lia.
  - pose proof (Z.mod_pos_bound off BSIZE ltac:(done)). pose proof (Z.div_mod m BSIZE ltac:(done)).
    pose proof (Z.mod_pos_bound m BSIZE ltac:(done)). pose proof (Z.div_pos m BSIZE). unfold BSIZE in *. lia.
  - unfold blocks_of. pose proof (Z.div_pos m BSIZE). unfold BSIZE in *. lia.
  - unfold blocks_of. pose proof (Z.div_pos m BSIZE). unfold BSIZE in *. lia.
  - exists s'. unfold readi_loop. rewrite (bind_Ok _ _ _ _ _ Er). rewrite Z.sub_0_r, s32_small by lia. done.
Qed.

(** ** writei *)

Lemma length_put_list d o l : length (put_list d o l) = length d.
Proof. revert d o. induction l as [|x l IH]; intros d o; [done|]. cbn [put_list]. by rewrite IH, length_put_byte. Qed.

Lemma lookup_put_list d o l i :
  0 <= o → o + Z.of_nat (length l) <= Z.of_nat (length d) →
  put_list d o l !! i = if decide (o <= Z.of_nat i < o + Z.of_nat (length l)) then u8 <$> l !! Z.to_nat (Z.of_nat i - o) else d !! i.
Proof.
  revert d o. induction l as [|x l IH]; intros d o Ho Hl; cbn [put_list length] in *; [by rewrite decide_False by lia|].
  rewrite IH by (rewrite ?length_put_byte; lia). rewrite Nat2Z.inj_succ in *. unfold put_byte.
  destruct (decide (Z.of_nat i = o)) as [<-|Hne].
  - rewrite decide_False, decide_True by lia. rewrite Z.sub_diag, Nat2Z.id. cbn. apply list_lookup_insert_eq. lia.
  - destruct (decide (o + 1 <= _ < _)); [rewrite decide_True by lia|rewrite decide_False by lia].
    + by replace (Z.to_nat (Z.of_nat i - o)) with (S (Z.to_nat (Z.of_nat i - (o + 1)))) by lia.
    + apply list_lookup_insert_ne. lia.
Qed.

(** Inside an operation, with room in the log for [k] more blocks. *)
Record logging (s : kstate) (D : gmap Z (list Z)) (k : Z) : Prop := {
  lg_held : Llog ∉ k_held s;
  lg_wf : log_wf (k_log s) D;
  lg_room : lh_n (k_log s) + k <= l_size (k_log s) - 1;
  lg_size : l_size (k_log s) <= LOGSIZE;
  lg_op : 1 <= l_outstanding (k_log s)
}.

Lemma log_entry_same g i n : l_start (log_entry g i n) = l_start g ∧ l_size (log_entry g i n) = l_size g ∧
  l_outstanding (log_entry g i n) = l_outstanding g ∧ lh_n g <= lh_n (log_entry g i n) <= lh_n g + 1.
Proof. unfold log_entry. destruct (Z.of_nat i =? lh_n g); cbn; split_and!; try done; lia. Qed.

(** The blocks of the transaction. *)
Definition in_log (s : kstate) : gset Z := list_to_set (lblocks (k_log s)).

Lemma log_write_logging s D W Q B C b n d q k :
  bview s D W Q B C → buf_at s b n d q → logging s D k → 1 <= k →
  0 <= n < 2147483648 → ¬ log_area (k_log s) n → is_Some (D !! n) →
  ∃ s', log_write b s = Ok tt s' ∧ logging s' D (k - 1) ∧ in_log s' = {[ n ]} ∪ in_log s ∧ only_log s s' ∧
    (∀ a, log_area (k_log s') a ↔ log_area (k_log s) a) ∧ bview s' D W ({[ n ]} ∪ Q) B C ∧ buf_at s' b n d true ∧
    (∀ b' n' d' q', b' ≠ b → buf_at s b' n' d' q' → buf_at s' b' n' d' q').
Proof.
  intros V A [H1 H2 H3 H4 H5] Hk Hn Ha HD. pose proof (lw_n _ _ H2) as Hln.
  destruct (log_write_spec s D W Q B C (k_log s) b n d q V A eq_refl H2 H1) as (s' & i & Hr & Hg' & Hi & Ho & V' & A');
    [unfold LOGSIZE, MAXOPBLOCKS in *; lia..|].
  destruct (log_entry_same (k_log s) i n) as (G1 & G2 & G3 & G4). exists s'. split; [done|]. split; [|split; [|split; [done|split; [|done]]]].
  - split; rewrite ?Hg', ?G2, ?G3; try lia.
    + destruct Ho as [-> _]. done.
    + apply log_entry_wf; try done; unfold NBUF, LOGSIZE, MAXOPBLOCKS in *; lia.
  - unfold in_log. rewrite Hg'. unfold log_entry. rewrite (logged_entry _ D) by (done || (unfold LOGSIZE, MAXOPBLOCKS in *; lia)).
    unfold logged. case_decide; [|rewrite list_to_set_app_L; set_solver]. set_solver.
  - intros a. rewrite Hg'. unfold log_area. by rewrite G1, G2.
Qed.

(** The first [K] blocks of a file: all there, different from each other and from the
    indirect block, and none in the log's area. *)
Record file_blocks (D : gmap Z (list Z)) (B : gset Z) (C : Z → list Z) (L : Z → Prop) (ip : inode) (K : Z) : Prop := {
  fb_map bn : 0 <= bn < K → mapped D B C ip bn;
  fb_inj bn bn' : 0 <= bn < K → 0 <= bn' < K → file_addr C ip bn = file_addr C ip bn' → bn = bn';
  fb_ind bn : 0 <= bn < K → file_addr C ip bn ≠ ind_addr ip;
  fb_num bn : 0 <= bn < K → 0 <= file_addr C ip bn < 2147483648 ∧ ¬ L (file_addr C ip bn)
}.

(** The cache after [l] is stored at offset [off], in one block. *)
Definition file_store (C : Z → list Z) (ip : inode) (off : Z) (l : list Z) : Z → list Z :=
  fupd C (file_addr C ip (off / BSIZE)) (put_list (C (file_addr C ip (off / BSIZE))) (off mod BSIZE) l).

Section Store.
Context (D : gmap Z (list Z)) (B : gset Z) (C : Z → list Z) (L : Z → Prop) (ip : inode) (K off : Z) (l : list Z).
Context (F : file_blocks D B C L ip K) (Hoff : 0 <= off / BSIZE < K).
Context (Hl : Z.of_nat (length l) <= BSIZE - off mod BSIZE).

Lemma file_store_addr bn : file_addr (file_store C ip off l) ip bn = file_addr C ip bn.
Proof using F Hoff.
  unfold file_addr at 1. destruct (Z.ltb_spec bn NDIRECT) as [Hd|Hd]; [unfold file_addr; by rewrite (proj2 (Z.ltb_lt _ _)) by done|].
  unfold file_store, fupd. rewrite decide_False by (apply not_eq_sym, F; done).
  unfold file_addr. by rewrite (proj2 (Z.ltb_ge _ _)) by done.
Qed.

Lemma file_store_byte k : 0 <= k / BSIZE < K →
  file_byte (file_store C ip off l) ip k =
  if decide (off <= k < off + Z.of_nat (length l)) then default 0 (u8 <$> l !! Z.to_nat (k - off)) else file_byte C ip k.
Proof using F Hoff Hl.
  intros Hk. unfold file_byte. rewrite file_store_addr. unfold file_store, fupd.
  pose proof (Z.mod_pos_bound k BSIZE ltac:(done)). pose proof (Z.mod_pos_bound off BSIZE ltac:(done)).
  pose proof (Z.div_mod k BSIZE ltac:(done)). pose proof (Z.div_mod off BSIZE ltac:(done)).
  destruct (decide (k / BSIZE = off / BSIZE)) as [Heq|Hne].
  - rewrite decide_True by congruence. rewrite lookup_put_list; [|lia|rewrite (mp_len _ _ _ _ _ (fb_map _ _ _ _ _ _ F _ Hoff)); unfold BSIZE in *; lia].
    rewrite Z2Nat.id, Heq by lia. destruct (decide (off <= k < _)); [rewrite decide_True by (rewrite Heq in *; lia)|rewrite decide_False by (rewrite Heq in *; lia)].
    + by replace (k mod BSIZE - off mod BSIZE) with (k - off) by (rewrite Heq in *; lia).
    + done.
  - rewrite decide_False by (intros Hc; apply Hne; by apply (fb_inj _ _ _ _ _ _ F)).
    rewrite decide_False; [done|]. intros Hr. apply Hne.
    assert (k / BSIZE < off / BSIZE ∨ off / BSIZE < k / BSIZE) as [?|?] by lia; unfold BSIZE in *; nia.
Qed.

Lemma file_store_blocks : file_blocks D B (file_store C ip off l) L ip K.
Proof using F Hoff.
  split.
  - intros bn Hbn. destruct (fb_map _ _ _ _ _ _ F bn Hbn) as [M1 M2 M3 M4 M5 M6].
    split; rewrite ?file_store_addr; try done. unfold file_store, fupd. case_decide; [|done].
    rewrite length_put_list. apply (fb_map _ _ _ _ _ _ F _ Hoff).
  - intros bn bn' H1 H2. rewrite !file_store_addr. by apply F.
  - intros bn H1. rewrite file_store_addr. by apply F.
  - intros bn H1. rewrite file_store_addr. by apply F.
Qed.

End Store.

(** One round of writei(). *)
Lemma writei_body_spec s D W Q B C L i ip K src n tot off k :
  bview s D W Q B C → inode_at s i ip → (size (Q ∪ B) < bhead)%nat → 0 <= off → 0 <= tot < n → Z.of_nat (length src) = n →
  file_blocks D B C L ip K → off / BSIZE < K → logging s D k → 1 <= k → (∀ a, log_area (k_log s) a ↔ L a) →
  let m := Z.min (n - tot) (BSIZE - off mod BSIZE) in
  let C' := file_store C ip off (take (Z.to_nat m) (drop (Z.to_nat tot) src)) in
  ∃ s', writei_body i src n (tot, off) s = Ok (inl (tot + m, u32 (off + m))) s' ∧
    inode_at s' i ip ∧ k_inodes s' = k_inodes s ∧ logging s' D (k - 1) ∧ (∀ a, log_area (k_log s') a ↔ L a) ∧
    in_log s' = {[ file_addr C ip (off / BSIZE) ]} ∪ in_log s ∧ bview s' D W ({[ file_addr C ip (off / BSIZE) ]} ∪ Q) B C'.
Proof.
  intros V Hi Hroom Hoff Htot Hsrc F HK Hlog Hk HL m C'. pose proof Hi as (Hip & Hdev & Hal).
  pose proof (Z.mod_pos_bound off BSIZE ltac:(done)) as Hmod. assert (0 <= off / BSIZE) as Hb0 by (apply Z.div_pos; done).
  pose proof (fb_map _ _ _ _ _ _ F (off / BSIZE) ltac:(lia)) as Hm. set (a := file_addr C ip (off / BSIZE)) in *.
  unfold writei_body. rewrite (proj2 (Z.ltb_lt tot n)) by lia. cbn [negb].
  rewrite (bind_Ok _ _ _ _ _ (get_inode_eq _ _ _ Hip)), Hdev.
  destruct (bmap_mapped s D W Q B C i ip (off / BSIZE) V Hi Hm Hroom) as (s1 & E1 & O1 & V1). fold a in E1.
  rewrite (bind_Ok _ _ _ _ _ E1). destruct (mp_disk _ _ _ _ _ Hm) as [d0 HD]. fold a in HD.
  destruct (bv_bread s1 D W Q B C a d0 V1 HD (mp_free _ _ _ _ _ Hm) ltac:(by right)) as (b & s2 & E2 & V2 & A2 & S2 & _).
  rewrite (bind_Ok _ _ _ _ _ E2). fold m.
  destruct (bv_bmod s2 _ _ _ _ _ b a _ _ (λ d, put_list d (off mod BSIZE) (take (Z.to_nat m) (drop (Z.to_nat tot) src))) V2 A2)
    as (s3 & E3 & V3 & A3 & S3). cbn beta in V3, A3. rewrite (bind_Ok _ _ _ _ _ E3).
  assert (only_io s s3) as O3 by (eapply only_io_trans; [exact O1|]; eapply only_io_trans; [apply S2|apply S3]).
  assert (logging s3 D k ∧ k_log s3 = k_log s) as [Hlog3 Hlg3] by (destruct O3 as [-> _]; split; [by destruct Hlog|done]).
  destruct (fb_num _ _ _ _ _ _ F (off / BSIZE) ltac:(lia)) as [Han HaL]. fold a in Han, HaL.
  destruct (log_write_logging s3 _ _ _ _ _ b a _ _ k V3 A3 Hlog3 Hk Han) as (s4 & E4 & Hlog4 & Hin4 & O4 & HL4 & V4 & A4 & _);
    [rewrite Hlg3; by rewrite HL|by eexists|]. rewrite (bind_Ok _ _ _ _ _ E4).
  destruct (bv_brelse s4 _ _ _ _ _ b a _ _ V4 A4 ltac:(by left)) as (s5 & E5 & V5 & S5). rewrite (bind_Ok _ _ _ _ _ E5).
  exists s5. assert (k_inodes s5 = k_inodes s ∧ k_log s5 = k_log s4 ∧ logging s5 D (k - 1)) as (Hin & Hlg5 & Hlog5).
  { pose proof (bs_only _ _ _ S5) as [-> _]. destruct O4 as [Ho4 _], O3 as [Ho3 _]. split_and!.
    - cbn. rewrite Ho4. cbn. by rewrite Ho3.
    - done.
    - by destruct Hlog4. }
  split; [done|]. split; [split; [by rewrite Hin|done]|]. split; [done|]. split; [done|]. split; [|split].
  - intros a'. rewrite Hlg5, HL4, Hlg3. apply HL.
  - unfold in_log in *. by rewrite Hlg5, Hin4, Hlg3.
  - eapply bview_ext; [exact V5|done| |done]. pose proof (mp_free _ _ _ _ _ Hm) as Hf. fold a in Hf. clear -Hf. set_solver.
Qed.

(** The file after the bytes of [src] from [tot] on went to [off]; the blocks of the
    disk that are not its own are as they were. *)
Record stored (D : gmap Z (list Z)) (B : gset Z) (L : Z → Prop) (ip : inode) (K off : Z) (src : list Z) (C C' : Z → list Z) : Prop := {
  st_blocks : file_blocks D B C' L ip K;
  st_addr bn : file_addr C' ip bn = file_addr C ip bn;
  st_byte k : 0 <= k / BSIZE < K → file_byte C' ip k =
    if decide (off <= k < off + Z.of_nat (length src)) then default 0 (u8 <$> src !! Z.to_nat (k - off)) else file_byte C ip k;
  st_other b : (∀ bn, 0 <= bn < K → b ≠ file_addr C ip bn) → C' b = C b
}.

Lemma stored_nil D B L ip K off C : file_blocks D B C L ip K → stored D B L ip K off [] C C.
Proof. intros F. split; try done. intros k _. rewrite decide_False by (cbn; lia). done. Qed.

Lemma stored_one D B L ip K off l C :
  file_blocks D B C L ip K → 0 <= off / BSIZE < K → Z.of_nat (length l) <= BSIZE - off mod BSIZE →
  stored D B L ip K off l C (file_store C ip off l).
Proof.
  intros F Ho Hl. split.
  - by apply file_store_blocks.
  - intros. by eapply file_store_addr.
  - intros k Hk. by eapply file_store_byte.
  - intros b Hb. unfold file_store, fupd. rewrite decide_False; [done|]. intros Hc. by apply (Hb (off / BSIZE)).
Qed.

Lemma stored_app D B L ip K off l1 l2 C C1 C2 :
  stored D B L ip K off l1 C C1 → stored D B L ip K (off + Z.of_nat (length l1)) l2 C1 C2 →
  stored D B L ip K off (l1 ++ l2) C C2.
Proof.
  intros [F1 A1 B1 O1] [F2 A2 B2 O2]. split; [done|intros; by rewrite A2, A1| |].
  - intros k Hk. rewrite B2, B1, length_app by done. destruct (decide (off + Z.of_nat (length l1) <= k < _)).
    + rewrite decide_True by lia. rewrite lookup_app_r by lia. do 3 f_equal. lia.
    + destruct (decide (off <= k < off + Z.of_nat (length l1))).
      * rewrite decide_True by lia. by rewrite lookup_app_l by lia.
      * by rewrite decide_False by lia.
  - intros b Hb. rewrite O2, O1; [done|done|]. intros bn Hbn. rewrite A1. by apply Hb.
Qed.

(** What a run of writei() leaves behind besides the contents. *)
Record after_write (s s' : kstate) (D : gmap Z (list Z)) (L : Z → Prop) (i : nat) (ip : inode) (k : Z) : Prop := {
  aw_inode : inode_at s' i ip;
  aw_inodes : k_inodes s' = k_inodes s;
  aw_log : logging s' D k;
  aw_area a : log_area (k_log s') a ↔ L a
}.

Lemma writei_loop_spec fuel k s D W Q B C L i ip K src n tot off r :
  bview s D W Q B C → after_write s s D L i ip (r + Z.of_nat k + 1) → (size (Q ∪ B) + k < bhead)%nat → 0 <= r →
  0 <= off → 0 <= tot <= n → Z.of_nat (length src) = n → off + (n - tot) < 4294967296 →
  file_blocks D B C L ip K → off + (n - tot) <= K * BSIZE →
  n - tot <= BSIZE - off mod BSIZE + BSIZE * Z.of_nat k → (1 ≤ fuel)%nat → (tot < n → (k + 2 ≤ fuel)%nat) →
  ∃ s' C' Q', loop fuel (writei_body i src n) (tot, off) s = Ok (off + (n - tot)) s' ∧ after_write s s' D L i ip r ∧
    bview s' D W Q' B C' ∧ stored D B L ip K off (drop (Z.to_nat tot) src) C C' ∧ (size (Q' ∪ B) <= size (Q ∪ B) + k + 1)%nat ∧
    (Q = in_log s → Q' = in_log s') ∧ Q ⊆ Q' ∧ (tot < n → file_addr C ip (off / BSIZE) ∈ Q').
Proof.
  revert k s Q C tot off. induction fuel as [|fuel IH];
    intros k s Q C tot off V HA Hroom Hr Hoff Htot Hsrc Hwrap F HK Hk Hf1 Hfuel; [lia|].
  cbn [loop]. destruct (decide (tot = n)) as [->|Hne].
  { rewrite (bind_Ok _ _ s (inr off) s) by (unfold writei_body; by rewrite (proj2 (Z.ltb_ge n n)) by lia).
    exists s, C, Q. rewrite drop_ge by lia. split; [by rewrite Z.sub_diag, Z.add_0_r|]. split; [|by split_and!; [|apply stored_nil|lia| |done|lia]].
    destruct HA as [? ? [] ?]. split; try done. split; try done. lia. }
  pose proof (Z.mod_pos_bound off BSIZE ltac:(done)) as Hmod. pose proof (Z.div_mod off BSIZE ltac:(done)) as Hdiv.
  assert (0 <= off / BSIZE) as Hb0 by (apply Z.div_pos; done).
  assert (off / BSIZE < K) as HbK by (unfold BSIZE in *; lia). destruct HA as [Hi _ Hlog HL].
  destruct (writei_body_spec s D W Q B C L i ip K src n tot off (r + Z.of_nat k + 1) V Hi ltac:(lia) Hoff ltac:(lia) Hsrc F HbK Hlog ltac:(lia) HL)
    as (s1 & E1 & Hi1 & Hin1 & Hlog1 & HL1 & Hil1 & V1).
  rewrite (bind_Ok _ _ _ _ _ E1). cbn beta iota. set (m := Z.min (n - tot) (BSIZE - off mod BSIZE)) in *.
  rewrite u32_small by (unfold is_u32; lia).
  set (l1 := take (Z.to_nat m) (drop (Z.to_nat tot) src)) in *.
  assert (Z.of_nat (length l1) = m) as Hl1 by (unfold l1; rewrite length_take, length_drop; lia).
  assert (stored D B L ip K off l1 C (file_store C ip off l1)) as S1 by (apply stored_one; lia || done).
  assert (drop (Z.to_nat tot) src = l1 ++ drop (Z.to_nat (tot + m)) src) as ->.
  { unfold l1. rewrite Z2Nat.inj_add, <- drop_drop, take_drop by lia. done. }
  assert (size ({[file_addr C ip (off / BSIZE)]} ∪ Q ∪ B) <= size (Q ∪ B) + 1)%nat as Hsz1.
  { rewrite <- (assoc_L (∪)). pose proof (size_union_alt ({[file_addr C ip (off / BSIZE)]} : gset Z) (Q ∪ B)).
    pose proof (subseteq_size ((Q ∪ B) ∖ {[file_addr C ip (off / BSIZE)]}) (Q ∪ B) ltac:(set_solver)).
    rewrite size_singleton in *. lia. }
  destruct (decide (tot + m = n)) as [Hend|Hmore].
  { destruct fuel as [|fuel]; [lia|]. cbn [loop].
    rewrite (bind_Ok _ _ s1 (inr (off + m)) s1) by (unfold writei_body; by rewrite (proj2 (Z.ltb_ge (tot + m) n)) by lia).
    do 3 eexists. split; [replace (off + (n - tot)) with (off + m) by lia; done|]. split; [|split; [exact V1|split]].
    - split; try done. destruct Hlog1; split; try done. lia.
    - rewrite (drop_ge src) by lia. rewrite app_nil_r. done.
    - split; [lia|]. split; [intros ->; by rewrite Hil1|set_solver]. }
  assert (m = BSIZE - off mod BSIZE) as Hm by lia. destruct k as [|k]; [unfold BSIZE in *; lia|].
  assert ((off + m) mod BSIZE = 0) as Hm0.
  { replace (off + m) with ((off / BSIZE + 1) * BSIZE) by lia. apply Z.mod_mul. done. }
  destruct (IH k s1 _ _ (tot + m) (off + m) V1) as (s2 & C2 & Q2 & E2 & HA2 & V2 & S2 & Hsz2 & Hq2 & Hsub2 & _); try lia.
  - split; try done. destruct Hlog1; split; try done. lia.
  - apply S1.
  - exists s2, C2, Q2. split; [replace (off + (n - tot)) with (off + m + (n - (tot + m))) by lia; done|].
    split; [by destruct HA2 as [? Hin2 ? ?]; split; [|by rewrite Hin2|..]|]. split; [done|].
    split; [apply stored_app with (file_store C ip off l1); [done|by rewrite Hl1]|]. split; [lia|].
    split; [intros ->; apply Hq2; by rewrite Hil1|set_solver].
Qed.

(** The bytes of a file after [src] replaced those from [off] on. *)
Definition splice (F : list Z) (off : Z) (src : list Z) : list Z :=
  take (Z.to_nat off) F ++ src ++ drop (Z.to_nat off + length src) F.

Lemma stored_range D B L ip K off src C C' sz :
  stored D B L ip K off src C C' → Forall is_u8 src → 0 <= off → off + Z.of_nat (length src) <= sz → sz <= K * BSIZE →
  file_range C' ip 0 sz = splice (file_range C ip 0 sz) off src.
Proof.
  intros S Hs Ho Hsz HK. apply list_eq. intros j. unfold splice. destruct (decide (j < Z.to_nat sz)%nat) as [Hj|Hj].
  2:{ rewrite !lookup_ge_None_2; [done|..]; rewrite ?length_app, ?length_take, ?length_drop, ?length_file_range; lia. }
  assert (∀ C, file_range C ip 0 sz !! j = Some (file_byte C ip (Z.of_nat j))) as Hf.
  { intros C0. unfold file_range. by rewrite list_lookup_fmap, lookup_seqZ_lt by lia. }
  rewrite Hf, (st_byte _ _ _ _ _ _ _ _ _ S) by (split; [apply Z.div_pos; lia || done|apply Z.div_lt_upper_bound; [done|lia]]).
  destruct (decide _) as [Hin|Hout].
  - rewrite lookup_app_r, lookup_app_l by (rewrite length_take, length_file_range; lia).
    rewrite length_take, length_file_range, Nat.min_l by lia.
    replace (Z.to_nat (Z.of_nat j - off)) with (j - Z.to_nat off)%nat by lia.
    destruct (lookup_lt_is_Some_2 src (j - Z.to_nat off)) as [x Hx]; [lia|]. rewrite Hx. cbn. f_equal.
    apply u8_small. by eapply (proj1 (Forall_lookup _ _) Hs).
  - rewrite <- Hf. destruct (decide (Z.of_nat j < off)).
    + rewrite lookup_app_l by (rewrite length_take, length_file_range; lia). by rewrite lookup_take_lt by lia.
    + rewrite !lookup_app_r by (rewrite ?length_take, ?length_file_range; lia).
      rewrite lookup_drop, length_take, length_file_range. f_equal. lia.
Qed.

Lemma file_range_sub C ip off m sz : 0 <= off → 0 <= m → off + m <= sz →
  file_range C ip off m = take (Z.to_nat m) (drop (Z.to_nat off) (file_range C ip 0 sz)).
Proof.
  intros. replace sz with (off + (m + (sz - off - m))) by lia. rewrite !file_range_app by lia.
  rewrite drop_app_length', take_app_length'; rewrite ?length_file_range; done.
Qed.

(** writei() over bytes that the file has, with room in the log for its blocks. *)
Lemma writei_spec s D W Q B C L i ip K src off n :
  bview s D W Q B C → inode_at s i ip → i_type ip ≠ T_DEV →
  logging s D (n / BSIZE + 2) → (∀ a, log_area (k_log s) a ↔ L a) → (size (Q ∪ B) + Z.to_nat (n / BSIZE + 2) < bhead)%nat →
  file_blocks D B C L ip K → i_size ip <= K * BSIZE → K <= MAXFILE →
  Z.of_nat (length src) = n → 0 <= off → off + n <= i_size ip →
  ∃ s' C' Q', writei i src off n s = Ok n s' ∧ after_write s s' D L i ip 0 ∧
    bview s' D W Q' B C' ∧ stored D B L ip K off src C C' ∧ (size (Q' ∪ B) < bhead)%nat ∧
    (Q = in_log s → Q' = in_log s') ∧ (0 < n → file_addr C ip (off / BSIZE) ∈ Q').
Proof.
  intros V Hi Hty Hlog HL Hroom F HK HKM Hsrc Hoff Hend. pose proof Hi as (Hip & _).
  assert (K * BSIZE <= 71680) as HM by (revert HKM; unfold MAXFILE, NDIRECT, NINDIRECT, BSIZE; change (512 / 4) with 128; lia).
  pose proof (Z.mod_pos_bound off BSIZE ltac:(done)). pose proof (Z.div_mod n BSIZE ltac:(done)).
  pose proof (Z.mod_pos_bound n BSIZE ltac:(done)). pose proof (Z.div_pos n BSIZE ltac:(lia) ltac:(done)) as Hdp.
  destruct (writei_loop_spec (blocks_of n) (Z.to_nat (n / BSIZE + 1)) s D W Q B C L i ip K src n 0 off 0)
    as (s1 & C' & Q' & E1 & A1 & V1 & S1 & Hsz & Hq & _ & Hin); try done; try lia.
  { split; try done. destruct Hlog; split; try done. lia. }
  all: try (unfold blocks_of; lia).
  change (drop (Z.to_nat 0) src) with src in S1. rewrite Z.sub_0_r in E1.
  pose proof (aw_inode _ _ _ _ _ _ _ A1) as (Hip1 & _).
  exists s1, C', Q'. split; [|split_and!; done || lia].
  unfold writei. rewrite (bind_Ok _ _ _ _ _ (get_inode_eq _ _ _ Hip)). apply Z.eqb_neq in Hty. rewrite Hty.
  rewrite u32_small by (unfold is_u32; lia). rewrite (proj2 (orb_false_iff _ _)) by (rewrite Z.gtb_ltb, !Z.ltb_ge; lia).
  rewrite Z.gtb_ltb, (proj2 (Z.ltb_ge _ _)) by (unfold MAXFILE, NDIRECT, NINDIRECT, BSIZE in *; lia).
  unfold writei_loop. rewrite (bind_Ok _ _ _ _ _ E1), (bind_Ok _ _ _ _ _ (get_inode_eq _ _ _ Hip1)).
  rewrite (Z.gtb_ltb (off + n)), (proj2 (Z.ltb_ge (i_size ip) (off + n))), andb_false_r by lia. cbn [when].
  rewrite (bind_Ok _ _ s1 tt s1) by done. by rewrite s32_small by lia.
Qed.

(** A file keeps what is written to it. writei() over bytes that the file already has,
    inside a transaction with room for the blocks, returns the count and logs the
    blocks; from then on readi() of any range of the file returns the new bytes where
    they were written and the old ones everywhere else, cut at the end of the file, or
    -1 for an offset past the end or an overflowing range; and no block of another file
    has changed. *)
Theorem file_read_after_write s D W Q B C L i ip K src off n off' n' :
  bview s D W Q B C → inode_at s i ip → i_type ip ≠ T_DEV →
  logging s D (n / BSIZE + 2) → (∀ a, log_area (k_log s) a ↔ L a) → (size (Q ∪ B) + Z.to_nat (n / BSIZE + 2) < bhead)%nat →
  file_blocks D B C L ip K → i_size ip <= K * BSIZE → K <= MAXFILE →
  Z.of_nat (length src) = n → Forall is_u8 src → 0 <= off → off + n <= i_size ip →
  0 <= off' < 4294967296 → 0 <= n' < 4294967296 →
  let F' := splice (file_range C ip 0 (i_size ip)) off src in
  let m := Z.min n' (i_size ip - off') in
  ∃ s1 s2 Q' C', writei i src off n s = Ok n s1 ∧
    readi i off' n' s1 = Ok (if decide (off' <= i_size ip ∧ off' + n' < 4294967296)
                             then (m, take (Z.to_nat m) (drop (Z.to_nat off') F')) else (-1, [])) s2 ∧
    bview s2 D W Q' B C' ∧ (∀ b, (∀ bn, 0 <= bn < K → b ≠ file_addr C ip bn) → C' b = C b).
Proof.
  intros V Hi Hty Hlog HL Hroom F HK HKM Hsrc H8 Hoff Hend Hoff' Hn' F' m.
  assert (K * BSIZE <= 71680) as HM by (revert HKM; unfold MAXFILE, NDIRECT, NINDIRECT, BSIZE; change (512 / 4) with 128; lia).
  destruct (writei_spec s D W Q B C L i ip K src off n) as (s1 & C' & Q' & E1 & A1 & V1 & S1 & Hsz & _); try done.
  destruct (readi_spec s1 D W Q' B C' i ip off' n' V1 (aw_inode _ _ _ _ _ _ _ A1) Hsz Hty Hoff' Hn') as (s2 & E2 & _ & V2);
    [unfold MAXFILE, NDIRECT, NINDIRECT, BSIZE in *; lia| |].
  { intros bn Hb0 Hb1. apply S1. unfold BSIZE in *. lia. }
  exists s1, s2, Q', C'. split; [done|split; [|split; [done|apply S1]]].
  rewrite E2. destruct (decide _) as [Hok|]; [|done]. do 2 f_equal.
  rewrite (file_range_sub C' ip off' _ (i_size ip)) by lia. unfold F'.
  by rewrite (stored_range _ _ _ _ _ _ _ _ _ _ S1) by (done || lia).
Qed.

(** ** A write and a crash *)

Lemma file_range_ext C C' ip K sz :
  (∀ bn, 0 <= bn < K → C' (file_addr C ip bn) = C (file_addr C ip bn)) →
  (NDIRECT < K → C' (ind_addr ip) = C (ind_addr ip)) → sz <= K * BSIZE →
  file_range C' ip 0 sz = file_range C ip 0 sz.
Proof.
  intros Hb Hind Hsz. apply list_fmap_ext. intros j k [-> Hj]%lookup_seqZ. unfold file_byte.
  assert (0 <= (0 + Z.of_nat j) / BSIZE < K) as Hbn
    by (split; [apply Z.div_pos; [lia|done]|apply Z.div_lt_upper_bound; [done|lia]]).
  set (bn := (0 + Z.of_nat j) / BSIZE) in *.
  assert (file_addr C' ip bn = file_addr C ip bn) as ->; [|by rewrite Hb].
  unfold file_addr. destruct (Z.ltb_spec bn NDIRECT); [done|]. by rewrite Hind by lia.
Qed.

(** A disk that holds the blocks of a view outside the log holds the file. *)
Lemma file_range_on_disk D D' B C L ip K :
  file_blocks D B C L ip K → (NDIRECT < K → ¬ L (ind_addr ip)) → i_size ip <= K * BSIZE →
  (∀ n, ¬ L n → is_Some (D !! n) → D' !! n = Some (C n)) →
  file_range (on_disk D') ip 0 (i_size ip) = file_range C ip 0 (i_size ip).
Proof.
  intros F Hind Hsz HD. apply file_range_ext with K; [..|done].
  - intros bn Hbn. unfold on_disk. rewrite HD; [done|by apply F|apply F, Hbn].
  - intros HK. unfold on_disk. rewrite HD; [done|by apply Hind|].
    apply (mp_ind _ _ _ _ _ (fb_map _ _ _ _ _ _ F NDIRECT ltac:(done))). done.
Qed.

Lemma same_area g g' D :
  log_wf g D → log_wf g' D → (∀ a, log_area g' a ↔ log_area g a) → l_start g' = l_start g ∧ l_size g' = l_size g.
Proof.
  intros H H' Ha. pose proof (lw_n _ _ H). pose proof (lw_n _ _ H'). unfold log_area in Ha.
  pose proof (Ha (l_start g)). pose proof (Ha (l_start g')).
  pose proof (Ha (l_start g + l_size g - 1)). pose proof (Ha (l_start g' + l_size g' - 1)). lia.
Qed.

(** C3. A write to a file is atomic across crashes. writei() over bytes that the file
    already has, in a fresh transaction, followed by commit(), succeeds; and after a
    crash that lets only the first [k] disk writes of the two through, recovery on the
    rebooted system succeeds and the file on the disk has all its old bytes or all the
    new ones: the old ones exactly when the log header was not yet written. *)
Theorem file_write_crash_atomic s D W C L i ip K src off n hd :
  bview s D W ∅ ∅ C → lblocks (k_log s) = [] → D !! l_start (k_log s) = Some hd →
  Z.of_nat (length hd) = BSIZE → head_n hd = 0 →
  inode_at s i ip → i_type ip ≠ T_DEV → logging s D (n / BSIZE + 2) → (∀ a, log_area (k_log s) a ↔ L a) →
  (Z.to_nat (n / BSIZE + 2) < bhead)%nat →
  file_blocks D ∅ C L ip K → (NDIRECT < K → ¬ L (ind_addr ip)) → i_size ip <= K * BSIZE → K <= MAXFILE →
  Z.of_nat (length src) = n → Forall is_u8 src → 0 < n → 0 <= off → off + n <= i_size ip →
  let F := file_range C ip 0 (i_size ip) in
  ∃ s1 s2 ws, writei i src off n s = Ok n s1 ∧ commit s1 = Ok tt s2 ∧ k_dwrites s2 = reverse ws ++ W ∧
    ∀ k s3 W3 C3,
      bview s3 (apply_writes D (take k ws)) W3 ∅ ∅ C3 → same_place (k_log s) (k_log s3) →
      ∃ s4, recover_from_log s3 = Ok tt s4 ∧
        file_range (on_disk (k_disk s4)) ip 0 (i_size ip) =
          if decide (k <= length (lblocks (k_log s1)))%nat then F else splice F off src.
Proof.
  intros V Hnil Hhd Hlen Hn0 Hi Hty Hlog HL Hroom Fb Hind HK HKM Hsrc H8 Hn Hoff Hend F.
  destruct (writei_spec s D W ∅ ∅ C L i ip K src off n) as (s1 & C1 & Q1 & E1 & A1 & V1 & S1 & _ & Hq & Hin); try done.
  assert (Q1 = in_log s1) as -> by (apply Hq; unfold in_log; by rewrite Hnil).
  specialize (Hin Hn). pose proof (lg_wf _ _ _ (aw_log _ _ _ _ _ _ _ A1)) as Hwf1.
  assert (∀ a, log_area (k_log s1) a ↔ log_area (k_log s) a) as Hare by (intros a; rewrite (aw_area _ _ _ _ _ _ _ A1); by rewrite HL).
  destruct (same_area _ _ D (lg_wf _ _ _ Hlog) Hwf1 Hare) as [Hst Hsz].
  destruct (commit_crash s1 D W (in_log s1) C1 (k_log s1) hd V1 eq_refl Hwf1) as (s2 & ws & E2 & Hws & _ & Hrec); try done.
  { by rewrite Hst. }
  { rewrite <- (lblocks_length _ _ Hwf1). unfold in_log in Hin. destruct (lblocks (k_log s1)); [set_solver|cbn; lia]. }
  exists s1, s2, ws. split_and!; try done. intros k s3 W3 C3 V3 Hsp.
  destruct (Hrec k s3 W3 C3 V3) as (s4 & E4 & Hd4).
  { destruct Hsp as [P1 P2 P3 P4]. split; [|congruence..|done].
    rewrite P1, (lw_dev _ _ Hwf1). apply (lg_wf _ _ _ Hlog). }
  exists s4. split; [done|]. case_decide.
  - apply (file_range_on_disk D _ ∅ C L ip K); try done. intros b Hb [d Hd].
    rewrite Hd4, Hd by (by rewrite (aw_area _ _ _ _ _ _ _ A1)). by rewrite (bv_clean _ _ _ _ _ _ _ _ V (not_elem_of_empty _) (not_elem_of_empty _) Hd).
  - unfold F. rewrite <- (stored_range _ _ _ _ _ _ _ _ _ _ S1) by (done || lia).
    apply (file_range_on_disk D _ ∅ C1 L ip K); try done; [apply S1|]. intros b Hb [d Hd].
    rewrite Hd4 by (by rewrite (aw_area _ _ _ _ _ _ _ A1)). case_decide as Hbl; [done|]. rewrite Hd.
    by rewrite (bv_clean _ _ _ _ _ _ b d V1) by (done || set_solver || (unfold in_log; by rewrite elem_of_list_to_set)).
Qed.

End FsSpec.

(** A file of 600 bytes in blocks 40 and 41, written across the border. *)
Section Example.
#[local] Existing Instance env_idle.

Definition inode_ex : inode := mkinode 1 5 1 2 T_FILE 0 0 1 600 (40 :: 41 :: replicate 11 0).
Definition file_ex : kstate := Eval vm_compute in set_k_inodes (<[0%nat := inode_ex]> (k_inodes txn_ex)) txn_ex.

Lemma ex_blocks C L :
  length (C 40) = 512%nat → length (C 41) = 512%nat → (∀ a, L a → a < 40) → file_blocks disk_ex ∅ C L inode_ex 2.
Proof.
  intros H40 H41 HL. assert (∀ bn, 0 <= bn < 2 → bn = 0 ∨ bn = 1) as Hbn by lia.
  assert (file_addr C inode_ex 0 = 40) as E0 by done. assert (file_addr C inode_ex 1 = 41) as E1 by done.
  assert (ind_addr inode_ex = 0) as EI by done.
  split.
  - intros bn [-> | ->]%Hbn; split; rewrite ?E0, ?E1; try done; try (by eexists); set_solver.
  - intros bn bn' [-> | ->]%Hbn [-> | ->]%Hbn; rewrite ?E0, ?E1; lia.
  - intros bn [-> | ->]%Hbn; rewrite ?E0, ?E1, EI; lia.
  - intros bn [-> | ->]%Hbn; rewrite ?E0, ?E1; (split; [lia|intros ?%HL; lia]).
Qed.

Lemma file_read_after_write_witness :
  ∃ s1 s2 Q' C', writei 0 (replicate 20 9) 505 20 file_ex = Ok 20 s1 ∧
    readi 0 500 200 s1 = Ok (100, replicate 5 1 ++ replicate 20 9 ++ replicate 75 2) s2 ∧
    bview s2 disk_ex [] Q' ∅ C' ∧ (∀ b, (∀ bn, 0 <= bn < 2 → b ≠ file_addr (blk file_ex) inode_ex bn) → C' b = blk file_ex b).
Proof.
  assert (Hval : (if decide (500 <= i_size inode_ex ∧ 500 + 200 < 4294967296)
     then (Z.min 200 (i_size inode_ex - 500), take (Z.to_nat (Z.min 200 (i_size inode_ex - 500)))
             (drop (Z.to_nat 500) (splice (file_range (blk file_ex) inode_ex 0 (i_size inode_ex)) 505 (replicate 20 9))))
     else (-1, [])) = (100, replicate 5 1 ++ replicate 20 9 ++ replicate 75 2)) by (by vm_compute).
  rewrite <- Hval.
  apply (file_read_after_write file_ex disk_ex [] (list_to_set [41; 40]) ∅ (blk file_ex) (log_area (k_log file_ex))
           0 inode_ex 2 (replicate 20 9) 505 20 500 200).
  - apply (bview_check file_ex ([1; 0] ++ reverse (seq 2 28))%nat); [|by vm_compute]. split_and!; try done; vm_compute; lia.
  - by split_and!.
  - done.
  - split; [apply (bool_decide_unpack _); by vm_compute|exact txn_ex_wf|by vm_compute..].
  - done.
  - apply Nat.ltb_lt. by vm_compute.
  - apply ex_blocks; [by vm_compute..|]. unfold log_area. cbn. lia.
  - done.
  - done.
  - done.
  - apply Forall_replicate. by vm_compute.
  - done.
  - done.
  - done.
  - done.
Defined.

(** The same file at the start of an operation. *)
Definition fresh_ex : kstate := Eval vm_compute in
  set_k_inodes (<[0%nat := inode_ex]> (k_inodes (after (boot_ex ;; begin_op)))) (after (boot_ex ;; begin_op)).

Lemma fresh_ex_wf : log_wf (k_log fresh_ex) disk_ex.
Proof.
  split; [done|done|done|by vm_compute|done|done|..].
  - intros b Hb. change (b ∈ ([] : list Z)) in Hb. by apply not_elem_of_nil in Hb.
  - apply NoDup_nil_2.
  - exact disk_ex_area.
Qed.

Lemma file_write_crash_atomic_witness :
  let F := file_range (blk fresh_ex) inode_ex 0 600 in
  ∃ s1 s2 ws, writei 0 (replicate 20 9) 505 20 fresh_ex = Ok 20 s1 ∧ commit s1 = Ok tt s2 ∧ k_dwrites s2 = reverse ws ++ [] ∧
    ∀ k s3 W3 C3,
      bview s3 (apply_writes disk_ex (take k ws)) W3 ∅ ∅ C3 → same_place (k_log fresh_ex) (k_log s3) →
      ∃ s4, recover_from_log s3 = Ok tt s4 ∧
        file_range (on_disk (k_disk s4)) inode_ex 0 600 =
          if decide (k <= length (lblocks (k_log s1)))%nat then F else splice F 505 (replicate 20 9).
Proof.
  apply (file_write_crash_atomic fresh_ex disk_ex [] (blk fresh_ex) (log_area (k_log fresh_ex))
           0 inode_ex 2 (replicate 20 9) 505 20 (block 0)).
  - apply (bview_check fresh_ex (reverse (seq 0 30))%nat); [|by vm_compute]. split_and!; try done; vm_compute; lia.
  - done.
  - done.
  - done.
  - done.
  - by split_and!.
  - done.
  - split; [apply (bool_decide_unpack _); by vm_compute|exact fresh_ex_wf|by vm_compute..].
  - done.
  - apply Nat.ltb_lt. by vm_compute.
  - apply ex_blocks; [by vm_compute..|]. unfold log_area. cbn. lia.
  - done.
  - done.
  - done.
  - done.
  - apply Forall_replicate. by vm_compute.
  - done.
  - done.
  - done.
Defined.

End Example.
