(* ===== verification/BlockSpec.v ===== *)
(** * BlockSpec: the block allocator (fs.c)

    [txn] is the file system's view of a running transaction: the blocks that are logged,
    the blocks whose buffers are held and the contents of blocks. Against it, balloc()
    takes the first block whose bit in the bitmap is clear, and bfree() gives it back. *)

From S2P Require Import Prelude Machine CMem DiskFmt Proc Bio BufSpec Log LogSpec LogCommit LogTxn Inode FsSpec.
From stdpp Require Import options.

(** A block that can be logged. *)
Record block_ok (D : gmap Z (list Z)) (L : Z → Prop) (n : Z) : Prop := {
  bk_num : 0 <= n < 2147483648;
  bk_area : ¬ L n;
  bk_disk : is_Some (D !! n)
}.

Lemma only_io_only_log s s' : only_io s s' → only_log s s'.
Proof. intros [H Hl]. split; [|done]. rewrite H at 1. rec_eq. by rewrite H. Qed.

Lemma only_log_trans s1 s2 s3 : only_log s1 s2 → only_log s2 s3 → only_log s1 s3.
Proof. intros [H1 L1] [H2 L2]. split; [|cbn in *; congruence]. rewrite H2, H1. rec_eq. Qed.

Lemma only_log_refl s : only_log s s.
Proof. apply only_io_only_log, only_io_refl. Qed.

(** The buffers held in [s], but perhaps [b], are held in [s']. *)
Definition keeps (b : nat) (s s' : kstate) : Prop :=
  ∀ b' n d q, b' ≠ b → buf_at s b' n d q → buf_at s' b' n d q.
Definition holds (s s' : kstate) : Prop := ∀ b n d q, buf_at s b n d q → buf_at s' b n d q.

Lemma keeps_trans b s1 s2 s3 : keeps b s1 s2 → keeps b s2 s3 → keeps b s1 s3.
Proof. intros H1 H2 b' n d q Hb H. by apply H2, H1. Qed.
Lemma holds_trans s1 s2 s3 : holds s1 s2 → holds s2 s3 → holds s1 s3.
Proof. intros H1 H2 b n d q H. by apply H2, H1. Qed.

(** A buffer that was not held is taken and given back. *)
Lemma keeps_holds b s1 s2 s3 :
  keeps b s1 s2 → keeps b s2 s3 → (∀ b' n d q, buf_at s1 b' n d q → b' ≠ b) → holds s1 s3.
Proof. intros H1 H2 Hb b' n d q A. pose proof (Hb _ _ _ _ A). by apply H2, H1. Qed.

(** ** A running transaction

    On disk [D] with the writes [W] so far, log area [L] and room for [cap] blocks in the
    log: [I] are the logged blocks, whose buffers are dirty, [B] the blocks whose
    buffers are held, [C] the contents of blocks. *)
Section Txn.
Context {E : Env} (D : gmap Z (list Z)) (W : list (Z * list Z)) (L : Z → Prop) (cap : nat).

Record txn (s : kstate) (I B : gset Z) (C : Z → list Z) : Prop := {
  tx_view : bview s D W I B C;
  tx_in : in_log s = I;
  tx_log : logging s D 0;
  tx_cap : l_size (k_log s) - 1 = Z.of_nat cap;
  tx_area a : log_area (k_log s) a ↔ L a
}.

Lemma txn_ext s I B B' C C' : txn s I B C → B ≡ B' → (∀ n, C n = C' n) → txn s I B' C'.
Proof. intros [V G A] HB HC. split; try done. by eapply bview_ext. Qed.

Lemma txn_size s I B C : txn s I B C → Z.of_nat (size I) = lh_n (k_log s) ∧ (cap < 30)%nat.
Proof.
  intros [V <- [_ Hwf _ Hs _] Hc _]. pose proof (lblocks_length _ _ Hwf).
  assert (size (in_log s) = length (lblocks (k_log s))) by (apply size_list_to_set, Hwf).
  unfold LOGSIZE, MAXOPBLOCKS in *. lia.
Qed.

(** The log's room is room in the cache as well. *)
Lemma txn_room s I B C : txn s I B C → (size I < cap)%nat → (size B <= 1)%nat → (size (I ∪ B) < bhead)%nat.
Proof.
  intros T HI HB. destruct (txn_size _ _ _ _ T) as [_ Hc]. rewrite size_union_alt.
  pose proof (subseteq_size (B ∖ I) B ltac:(set_solver)). change bhead with 30%nat. lia.
Qed.

(** Steps on buffers leave the log alone. *)
Lemma txn_io s s' I B B' C C' : txn s I B C → only_io s s' → bview s' D W I B' C' → txn s' I B' C'.
Proof.
  intros [V Hi [G1 G2 G3 G4 G5] Hc A] [Ho _] V'. assert (k_log s' = k_log s) as Hg by (by rewrite Ho).
  split; rewrite ?Hg; try done; [unfold in_log in *; by rewrite Hg|].
  split; rewrite ?Hg; try done. by rewrite Ho.
Qed.

Lemma tx_bread s I B C n :
  txn s I B C → is_Some (D !! n) → n ∉ B → (size I < cap)%nat → (size B <= 1)%nat →
  ∃ b s' q, bread 1 n s = Ok b s' ∧ txn s' I ({[ n ]} ∪ B) C ∧ buf_at s' b n (C n) q ∧
    (q = true ∨ D !! n = Some (C n)) ∧ only_log s s' ∧ keeps b s s' ∧ (∀ b' n' d' q', buf_at s b' n' d' q' → b' ≠ b).
Proof.
  intros T [d HD] HB HI Hs. pose proof (txn_room _ _ _ _ T HI Hs) as Hroom. pose proof (tx_view _ _ _ _ T) as V.
  destruct (bv_bread s D W _ B C n d V HD HB ltac:(by right)) as (b & s' & E1 & V1 & A1 & S1 & Hf).
  eexists b, s', _. split; [done|]. split; [by eapply txn_io; [done|apply S1|]|]. split; [exact A1|].
  split; [|split; [apply only_io_only_log, S1|split; [exact (bs_other _ _ _ S1)|done]]].
  case_bool_decide as Hq; [by left|right]. by rewrite (bv_clean _ _ _ _ _ _ _ _ V Hq HB HD).
Qed.

Lemma tx_brelse s I B C b n d q :
  txn s I ({[ n ]} ∪ B) C → n ∉ B → buf_at s b n d q → q = true ∨ D !! n = Some d →
  ∃ s', brelse b s = Ok tt s' ∧ txn s' I B C ∧ only_log s s' ∧ keeps b s s'.
Proof.
  intros T HB A Hq. pose proof (tx_view _ _ _ _ T) as V.
  destruct (bv_brelse s _ _ _ _ _ b n d q V A Hq) as (s' & E1 & V1 & S1).
  exists s'. split; [done|]. split; [|split; [apply only_io_only_log, S1|exact (bs_other _ _ _ S1)]].
  eapply txn_ext; [by eapply txn_io; [done|apply S1|exact V1]|set_solver|done].
Qed.

Lemma tx_set s I B C b n d q (f : list Z → list Z) :
  txn s I B C → buf_at s b n d q →
  ∃ s', upd_buf b (λ x, set_b_data (f (b_data x)) x) s = Ok tt s' ∧ txn s' I B (fupd C n (f d)) ∧
    buf_at s' b n (f d) q ∧ only_log s s' ∧ keeps b s s'.
Proof.
  intros T A. destruct (bv_bmod s _ _ _ _ _ b n d q f (tx_view _ _ _ _ T) A) as (s' & E1 & V1 & A1 & S1).
  exists s'. split; [done|]. split; [by eapply txn_io; [done|apply S1|]|]. split; [done|].
  split; [apply only_io_only_log, S1|exact (bs_other _ _ _ S1)].
Qed.

Lemma tx_log_write s I B C b n d q :
  txn s I B C → buf_at s b n d q → (size I < cap)%nat → block_ok D L n →
  ∃ s', log_write b s = Ok tt s' ∧ txn s' ({[ n ]} ∪ I) B C ∧ buf_at s' b n d true ∧ only_log s s' ∧ keeps b s s'.
Proof.
  intros T A HI [N1 N2 N3]. destruct (txn_size _ _ _ _ T) as [Hn _]. destruct T as [V Hin [G1 G2 G3 G4 G5] Hc Ha].
  destruct (log_write_logging s D W _ B C b n d q 1 V A) as (s' & E1 & G' & I1 & O1 & A1 & V1 & B1 & K1); try done; try lia.
  { split; try done. lia. } { by rewrite Ha. }
  exists s'. split; [done|]. split; [|by split_and!]. split; try done; [by rewrite I1, Hin| |by intros a; rewrite A1].
  rewrite <- Hc. do 1 f_equal. apply (same_area (k_log s) (k_log s') D G2 (lg_wf _ _ _ G') A1).
Qed.

(** Changing a held block, logging and releasing it. *)
Lemma tx_store s I B C b n d q (f : list Z → list Z) :
  txn s I ({[ n ]} ∪ B) C → n ∉ B → buf_at s b n d q → (size I < cap)%nat → block_ok D L n →
  ∃ s1 s2 s', upd_buf b (λ x, set_b_data (f (b_data x)) x) s = Ok tt s1 ∧ log_write b s1 = Ok tt s2 ∧
    brelse b s2 = Ok tt s' ∧ txn s' ({[ n ]} ∪ I) B (fupd C n (f d)) ∧ only_log s s' ∧ keeps b s s'.
Proof.
  intros T HB A HI Hn.
  destruct (tx_set s _ _ _ b n d q f T A) as (s1 & E1 & T1 & A1 & O1 & K1).
  destruct (tx_log_write s1 _ _ _ b n _ _ T1 A1 HI Hn) as (s2 & E2 & T2 & A2 & O2 & K2).
  destruct (tx_brelse s2 _ _ _ b n _ _ T2 HB A2 ltac:(by left)) as (s3 & E3 & T3 & O3 & K3).
  exists s1, s2, s3. split_and!; try done.
  - eapply only_log_trans; [exact O1|]. by eapply only_log_trans.
  - eapply keeps_trans; [exact K1|]. by eapply keeps_trans.
Qed.

(** The same for a block read for the purpose. *)
Lemma tx_modify s I B C n (f : list Z → list Z) :
  txn s I B C → block_ok D L n → n ∉ B → (size I < cap)%nat → (size B <= 1)%nat →
  ∃ b x s1 s2 s3 s', bread 1 n s = Ok b s1 ∧ get_buf b s1 = Ok x s1 ∧ b_data x = C n ∧
    upd_buf b (λ x, set_b_data (f (b_data x)) x) s1 = Ok tt s2 ∧ log_write b s2 = Ok tt s3 ∧ brelse b s3 = Ok tt s' ∧
    txn s' ({[ n ]} ∪ I) B (fupd C n (f (C n))) ∧ only_log s s' ∧ holds s s'.
Proof.
  intros T Hn HB HI Hs.
  destruct (tx_bread s _ _ _ n T (bk_disk _ _ _ Hn) HB HI Hs) as (b & s1 & q & E1 & T1 & A1 & _ & O1 & K1 & F1).
  destruct (buf_at_get _ _ _ _ _ A1) as (x & Ex & Hx & _).
  destruct (tx_store s1 _ _ _ b n _ _ f T1 HB A1 HI Hn) as (s2 & s3 & s4 & E2 & E3 & E4 & T4 & O4 & K4).
  exists b, x, s1, s2, s3, s4. split_and!; try done; [by eapply only_log_trans|by eapply keeps_holds].
Qed.

(** Reading a block without holding on to it. *)
Lemma tx_peek s I B C n :
  txn s I B C → is_Some (D !! n) → n ∉ B → (size I < cap)%nat → (size B <= 1)%nat →
  ∃ b x s1 s2, bread 1 n s = Ok b s1 ∧ get_buf b s1 = Ok x s1 ∧ b_data x = C n ∧ brelse b s1 = Ok tt s2 ∧
    txn s2 I B C ∧ only_log s s2 ∧ holds s s2.
Proof.
  intros T HD HB HI Hs. destruct (tx_bread s _ _ _ n T HD HB HI Hs) as (b & s1 & q & E1 & T1 & A1 & Hq & O1 & K1 & F1).
  destruct (buf_at_get _ _ _ _ _ A1) as (x & Ex & Hx & _).
  destruct (tx_brelse s1 _ _ _ b n _ _ T1 HB A1 Hq) as (s2 & E2 & T2 & O2 & K2).
  exists b, x, s1, s2. split_and!; try done; [by eapply only_log_trans|by eapply keeps_holds].
Qed.

(** ** bzero *)

Definition zero_block : list Z := replicate (Z.to_nat BSIZE) 0.

Lemma bzero_spec s I B C n :
  txn s I B C → block_ok D L n → n ∉ B → (size I < cap)%nat → (size B <= 1)%nat →
  ∃ s', bzero 1 n s = Ok tt s' ∧ txn s' ({[ n ]} ∪ I) B (fupd C n zero_block) ∧ only_log s s' ∧ holds s s'.
Proof.
  intros T Hn HB HI Hs. unfold bzero. pose proof (bk_num _ _ _ Hn). rewrite u32_small by (unfold is_u32; lia).
  destruct (tx_modify s I B C n (λ _, zero_block) T Hn HB HI Hs) as (b & x & s1 & s2 & s3 & s4 & E1 & _ & _ & E2 & E3 & E4 & HT).
  rewrite (bind_Ok _ _ _ _ _ E1), (bind_Ok _ _ _ _ _ E2), (bind_Ok _ _ _ _ _ E3). by exists s4.
Qed.

(** ** The bitmap *)

(** The bit of block [b]. *)
Definition bit (C : Z → list Z) (sb : superblock) (b : Z) : bool :=
  Z.testbit (byte_at (C (BBLOCK b sb)) (b mod BPB / 8)) (b mod 8).

(** The contents with the bit of [b] set or cleared. *)
Definition put_bit (v : bool) (b : Z) (d : list Z) : list Z :=
  let x := byte_at d (b mod BPB / 8) in
  let m := Z.shiftl 1 (b mod BPB mod 8) in
  put_byte d (b mod BPB / 8) (if v then Z.lor x m else Z.land x (Z.lnot m)).
Definition mark (v : bool) (C : Z → list Z) (sb : superblock) (b : Z) : Z → list Z :=
  fupd C (BBLOCK b sb) (put_bit v b (C (BBLOCK b sb))).

(** The bitmap's blocks are there and free to be used. *)
Record bitmap_ok (B : gset Z) (C : Z → list Z) (sb : superblock) : Prop := {
  bm_size : 0 <= sb_size sb < 2147483648;
  bm_start : 0 <= sb_bmapstart sb < 2147483648;
  bm_block b : 0 <= b < sb_size sb → block_ok D L (BBLOCK b sb) ∧ BBLOCK b sb ∉ B;
  bm_len b : 0 <= b < sb_size sb → length (C (BBLOCK b sb)) = 512%nat
}.

Lemma BBLOCK_eq B C sb b : bitmap_ok B C sb → 0 <= b < sb_size sb → BBLOCK b sb = b / BPB + sb_bmapstart sb.
Proof.
  intros [H1 H2 _ _] Hb. unfold BBLOCK. apply u32_small. unfold is_u32, BPB, BSIZE.
  pose proof (Z.div_pos b (512 * 8) ltac:(lia) ltac:(lia)). pose proof (Z.div_le_upper_bound b (512 * 8) b). lia.
Qed.

Lemma land_bit x i : 0 <= i → (Z.land x (Z.shiftl 1 i) =? 0) = negb (Z.testbit x i).
Proof. intros Hi. rewrite Z.shiftl_1_l, <- has_bit by done. unfold has. by rewrite negb_involutive. Qed.

Lemma u8_testbit x i : 0 <= i < 8 → Z.testbit (u8 x) i = Z.testbit x i.
Proof. intros Hi. unfold u8. change 256 with (2 ^ 8). apply Z.mod_pow2_bits_low. lia. Qed.

Lemma put_bit_testbit v x m i : 0 <= m < 8 → 0 <= i < 8 →
  Z.testbit (if v : bool then Z.lor x (Z.shiftl 1 m) else Z.land x (Z.lnot (Z.shiftl 1 m))) i =
    if decide (i = m) then v else Z.testbit x i.
Proof.
  intros Hm Hi. rewrite Z.shiftl_1_l.
  destruct v; rewrite ?Z.lor_spec, ?Z.land_spec, ?Z.lnot_spec, Z.pow2_bits_eqb by lia;
    (case_decide as Hd; [subst; rewrite Z.eqb_refl|rewrite (proj2 (Z.eqb_neq m i)) by lia]); cbn [negb];
    by rewrite ?orb_true_r, ?orb_false_r, ?andb_false_r, ?andb_true_r.
Qed.

(** Marking a block changes its bit and no other. *)
Lemma bit_mark B C sb v b b' :
  bitmap_ok B C sb → 0 <= b < sb_size sb → 0 <= b' < sb_size sb →
  bit (mark v C sb b) sb b' = if decide (b' = b) then v else bit C sb b'.
Proof.
  intros M Hb Hb'. unfold bit, mark, fupd. pose proof (bm_len _ _ _ M b Hb) as Hl.
  rewrite !(BBLOCK_eq _ _ _ _ M) by done.
  pose proof (Z.mod_pos_bound b BPB ltac:(done)). pose proof (Z.mod_pos_bound b' BPB ltac:(done)).
  pose proof (Z.mod_pos_bound b 8 ltac:(done)). pose proof (Z.mod_pos_bound b' 8 ltac:(done)).
  destruct (decide (b' / BPB + _ = _)) as [Eb|Nb]; [|by rewrite decide_False by (intros ->; lia)].
  rewrite <- (BBLOCK_eq _ _ _ _ M Hb'). replace (BBLOCK b' sb) with (BBLOCK b sb) by (by rewrite !(BBLOCK_eq _ _ _ _ M)).
  rewrite <- (BBLOCK_eq _ _ _ _ M Hb). unfold put_bit.
  assert (b mod BPB mod 8 = b mod 8) as -> by (unfold BPB, BSIZE; Z.div_mod_to_equations; lia).
  rewrite byte_at_put by (unfold BPB, BSIZE in *; rewrite ?Hl; Z.div_mod_to_equations; lia).
  destruct (decide (b' mod BPB / 8 = b mod BPB / 8)) as [Eo|No].
  - rewrite u8_testbit, put_bit_testbit by lia.
    rewrite Eo. destruct (decide (b' mod 8 = b mod 8)), (decide (b' = b)); try done; unfold BPB, BSIZE in *; Z.div_mod_to_equations; lia.
  - by rewrite decide_False by (intros ->; lia).
Qed.

(** ** balloc *)

(** The blocks that the bitmap block of [b0] describes. *)
Lemma bitmap_group B C sb j t :
  bitmap_ok B C sb → 0 <= j → j * BPB <= t < j * BPB + BPB → 0 <= t < sb_size sb →
  BBLOCK (j * BPB) sb = BBLOCK t sb ∧ t mod BPB = t - j * BPB ∧ (t - j * BPB) mod 8 = t mod 8 ∧ t / BPB = j.
Proof.
  intros M Hj Ht Hs. rewrite !(BBLOCK_eq _ _ _ _ M) by (unfold BPB, BSIZE in *; lia).
  unfold BPB, BSIZE in *. Z.div_mod_to_equations. lia.
Qed.

(** A round of the scan that finds the bit set. *)
Lemma bitmap_bit B C sb j bi x :
  bitmap_ok B C sb → 0 <= j → 0 <= bi < BPB → j * BPB + bi < sb_size sb → b_data x = C (BBLOCK (j * BPB) sb) →
  (Z.land (byte_at (b_data x) (bi / 8)) (Z.shiftl 1 (bi mod 8)) =? 0) = negb (bit C sb (j * BPB + bi)).
Proof.
  intros M Hj Hb Hs Hx. assert (0 <= j * BPB + bi) by (unfold BPB, BSIZE in *; lia).
  destruct (bitmap_group _ _ _ j (j * BPB + bi) M Hj ltac:(lia) ltac:(lia)) as (E1 & E2 & E3 & _).
  rewrite land_bit by (apply Z.mod_pos_bound; lia). unfold bit. rewrite <- E1, E2, <- E3, Z.add_simpl_l. by rewrite Hx.
Qed.

Lemma balloc_bitmap_none s I B C sb j :
  txn s I B C → k_sb s = sb → bitmap_ok B C sb → (size I < cap)%nat → (size B <= 1)%nat → 0 <= j → j * BPB < sb_size sb →
  (∀ t, j * BPB <= t < j * BPB + BPB → t < sb_size sb → bit C sb t = true) →
  ∃ s', balloc_bitmap 1 (j * BPB) s = Ok None s' ∧ txn s' I B C ∧ only_log s s' ∧ holds s s'.
Proof.
  intros T Hsb M HI Hs Hj Hlt Hall. assert (0 <= j * BPB) as H0 by (unfold BPB, BSIZE; lia).
  destruct (bm_block _ _ _ M (j * BPB) ltac:(lia)) as [Hn HB].
  destruct (tx_peek s _ _ _ _ T (bk_disk _ _ _ Hn) HB HI Hs) as (b & x & s1 & s2 & E1 & Ex & Hx & E2 & T2 & O2 & K2).
  unfold balloc_bitmap. rewrite (bind_Ok (gets k_sb) _ s sb s) by (unfold gets; by rewrite Hsb). rewrite (bind_Ok _ _ _ _ _ E1).
  rewrite (bind_Ok _ _ s1 None s1); [rewrite (bind_Ok _ _ _ _ _ E2); by exists s2|].
  rewrite <- (app_nil_r (seqZ _ _)), for_ret_skip; [done|]. intros bi Hbi%elem_of_seqZ. rewrite (bind_Ok _ _ _ _ _ Ex).
  rewrite (bitmap_bit B C sb j bi x M Hj ltac:(lia) ltac:(lia) Hx). by rewrite Hall by lia.
Qed.

Lemma balloc_bitmap_hit s I B C sb j t :
  txn s I B C → k_sb s = sb → bitmap_ok B C sb → (size ({[ BBLOCK t sb ]} ∪ I) < cap)%nat → (size B <= 1)%nat → 0 <= j →
  j * BPB <= t < j * BPB + BPB → t < sb_size sb → (∀ t', j * BPB <= t' < t → bit C sb t' = true) → bit C sb t = false →
  block_ok D L t → t ∉ B →
  ∃ s', balloc_bitmap 1 (j * BPB) s = Ok (Some t) s' ∧
    txn s' ({[ t ]} ∪ ({[ BBLOCK t sb ]} ∪ I)) B (fupd (mark true C sb t) t zero_block) ∧ only_log s s' ∧ holds s s'.
Proof.
  intros T Hsb M HI Hs Hj Ht Hsz Hall Hfree Htn HtB. assert (0 <= j * BPB) as H0 by (unfold BPB, BSIZE; lia).
  destruct (bm_block _ _ _ M t ltac:(lia)) as [Hn HB]. pose proof (subseteq_size I ({[ BBLOCK t sb ]} ∪ I) ltac:(set_solver)).
  destruct (bitmap_group _ _ _ j t M Hj Ht ltac:(lia)) as (G1 & G2 & G3 & _).
  destruct (tx_modify s _ _ _ _ (put_bit true t) T Hn HB ltac:(lia) Hs) as (b & x & s1 & s2 & s3 & s4 & E1 & Ex & Hx & E2 & E3 & E4 & T4 & O4 & K4).
  unfold balloc_bitmap. rewrite (bind_Ok (gets k_sb) _ s sb s) by (unfold gets; by rewrite Hsb). rewrite G1, (bind_Ok _ _ _ _ _ E1).
  destruct (bzero_spec s4 _ _ _ t T4 Htn HtB HI Hs) as (s5 & E5 & T5 & O5 & K5). rewrite <- G1 in Hx.
  replace (Z.min BPB (sb_size sb - j * BPB)) with ((t - j * BPB) + Z.succ (Z.min BPB (sb_size sb - j * BPB) - (t - j * BPB) - 1)) by lia.
  rewrite seqZ_app, Z.add_0_l, (seqZ_cons (t - j * BPB)) by lia. exists s5. split.
  - rewrite (bind_Ok _ _ s1 (Some t) s5); [done|]. rewrite for_ret_skip.
    + cbn [for_ret]. rewrite (bind_Ok _ _ s1 (Some t) s5); [done|].
      rewrite (bind_Ok _ _ _ _ _ Ex), (bitmap_bit B C sb j (t - j * BPB) x M Hj ltac:(lia) ltac:(lia) Hx).
      replace (j * BPB + (t - j * BPB)) with t by lia. rewrite Hfree. cbn [negb]. unfold put_bit in E2. rewrite G2 in E2.
      by rewrite (bind_Ok _ _ _ _ _ E2), (bind_Ok _ _ _ _ _ E3), (bind_Ok _ _ _ _ _ E4), (bind_Ok _ _ _ _ _ E5).
    + intros bi Hbi%elem_of_seqZ.
      rewrite (bind_Ok _ _ _ _ _ Ex), (bitmap_bit B C sb j bi x M Hj ltac:(lia) ltac:(lia) Hx). by rewrite Hall by lia.
  - split; [done|]. split; [by eapply only_log_trans|by eapply holds_trans].
Qed.

(** The rounds over bitmap blocks without a clear bit. *)
Lemma balloc_skip (m : nat) s I B C sb i l :
  txn s I B C → k_sb s = sb → bitmap_ok B C sb → (size I < cap)%nat → (size B <= 1)%nat → 0 <= i →
  (i + Z.of_nat m - 1) * BPB < sb_size sb →
  (∀ t, i * BPB <= t < (i + Z.of_nat m) * BPB → t < sb_size sb → bit C sb t = true) →
  ∃ s', for_ret ((λ k, k * BPB) <$> (seqZ i (Z.of_nat m) ++ l)) (balloc_bitmap 1) s =
      for_ret ((λ k, k * BPB) <$> l) (balloc_bitmap 1) s' ∧ txn s' I B C ∧ only_log s s' ∧ holds s s'.
Proof.
  revert s i. induction m as [|m IH]; intros s i T Hsb M HI Hs Hi Hlt Hall.
  { exists s. split; [done|]. split; [done|]. split; [apply only_log_refl|]. by intros ????. }
  rewrite Nat2Z.inj_succ, seqZ_cons by lia. cbn [app fmap list_fmap for_ret]. rewrite Z.pred_succ.
  destruct (balloc_bitmap_none s I B C sb i T Hsb M HI Hs Hi) as (s1 & E1 & T1 & O1 & K1).
  { unfold BPB, BSIZE in *. lia. } { intros t Ht. apply Hall. unfold BPB, BSIZE in *. lia. }
  rewrite (bind_Ok _ _ _ _ _ E1).
  destruct (IH s1 (Z.succ i) T1) as (s2 & E2 & T2 & O2 & K2); try done; try lia.
  { destruct O1 as [-> _]. done. }
  { intros t Ht. apply Hall. unfold BPB, BSIZE in *. lia. }
  exists s2. split; [done|]. split; [done|]. split; [by eapply only_log_trans|by eapply holds_trans].
Qed.

(** balloc() takes the first block whose bit is clear. *)
Lemma balloc_spec s I B C sb t :
  txn s I B C → k_sb s = sb → bitmap_ok B C sb → (size ({[ BBLOCK t sb ]} ∪ I) < cap)%nat → (size B <= 1)%nat →
  0 <= t < sb_size sb → (∀ t', 0 <= t' < t → bit C sb t' = true) → bit C sb t = false → block_ok D L t → t ∉ B →
  ∃ s', balloc 1 s = Ok t s' ∧ txn s' ({[ t ]} ∪ ({[ BBLOCK t sb ]} ∪ I)) B (fupd (mark true C sb t) t zero_block) ∧
    only_log s s' ∧ holds s s'.
Proof.
  intros T Hsb M HI Hs Ht Hall Hfree Htn HtB. unfold balloc. pose proof (subseteq_size I ({[ BBLOCK t sb ]} ∪ I) ltac:(set_solver)).
  rewrite (bind_Ok (gets k_sb) _ s sb s) by (unfold gets; by rewrite Hsb).
  set (j := t / BPB). assert (0 <= j) as Hj by (apply Z.div_pos; [lia|done]).
  pose proof (Z.div_mod t BPB ltac:(done)) as Hdm. pose proof (Z.mod_pos_bound t BPB ltac:(done)) as Hmod. fold j in Hdm.
  assert (j < (sb_size sb + BPB - 1) / BPB) as Hlt.
  { pose proof (Z.div_le_lower_bound (sb_size sb + BPB - 1) BPB (j + 1) ltac:(done)). unfold BPB, BSIZE in *. lia. }
  replace ((sb_size sb + BPB - 1) / BPB) with (Z.of_nat (Z.to_nat j) + Z.succ ((sb_size sb + BPB - 1) / BPB - j - 1)) by lia.
  rewrite seqZ_app by lia.
  destruct (balloc_skip (Z.to_nat j) s I B C sb 0 (seqZ (0 + Z.of_nat (Z.to_nat j)) (Z.succ ((sb_size sb + BPB - 1) / BPB - j - 1))) T Hsb M)
    as (s1 & E1 & T1 & O1 & K1); try lia.
  { intros t' Ht' _. apply Hall. unfold BPB, BSIZE in *. lia. }
  rewrite Z2Nat.id, Z.add_0_l in * by lia.
  assert (k_sb s1 = sb) as Hsb1 by (by destruct O1 as [-> _]).
  destruct (balloc_bitmap_hit s1 I B C sb j t T1 Hsb1 M HI Hs Hj) as (s2 & E2 & T2 & O2 & K2); try done; try lia.
  { intros t' Ht'. apply Hall. unfold BPB, BSIZE in *. lia. }
  exists s2. split; [|split; [done|split; [by eapply only_log_trans|by eapply holds_trans]]].
  rewrite (bind_Ok _ _ s (Some t) s2); [done|]. rewrite E1, seqZ_cons by lia. cbn [fmap list_fmap for_ret].
  by rewrite (bind_Ok _ _ _ _ _ E2).
Qed.

Lemma balloc_full s I B C sb :
  txn s I B C → k_sb s = sb → bitmap_ok B C sb → (size I < cap)%nat → (size B <= 1)%nat →
  (∀ t, 0 <= t < sb_size sb → bit C sb t = true) → balloc 1 s = Panic "balloc: out of blocks".
Proof.
  intros T Hsb M HI Hs Hall. unfold balloc. rewrite (bind_Ok (gets k_sb) _ s sb s) by (unfold gets; by rewrite Hsb).
  pose proof (bm_size _ _ _ M). set (m := (sb_size sb + BPB - 1) / BPB).
  assert (0 <= m ∧ (m - 1) * BPB < sb_size sb) as [Hm Hml].
  { unfold m, BPB, BSIZE. split; [apply Z.div_pos; lia|]. Z.div_mod_to_equations. lia. }
  destruct (balloc_skip (Z.to_nat m) s I B C sb 0 [] T Hsb M HI Hs) as (s1 & E1 & _); try lia.
  { rewrite Z2Nat.id by lia. lia. } { intros t Ht Hts. apply Hall. unfold BPB, BSIZE in *. lia. }
  rewrite Z2Nat.id, app_nil_r in E1 by lia. by rewrite (bind_Ok _ _ _ _ _ E1).
Qed.

(** ** bfree *)

Lemma readsb_tx s I B C sb :
  txn s I B C → get_sb (C 1) = sb → is_Some (D !! 1) → 1 ∉ B → (size I < cap)%nat → (size B <= 1)%nat →
  ∃ s', readsb 1 s = Ok sb s' ∧ txn s' I B C ∧ only_log s s' ∧ holds s s'.
Proof.
  intros T Hsb1 H1D H1B HI Hs. unfold readsb.
  destruct (tx_peek s _ _ _ 1 T H1D H1B HI Hs) as (b & x & s1 & s2 & E1 & Ex & Hx & E2 & HT).
  exists s2. rewrite (bind_Ok _ _ _ _ _ E1), (bind_Ok _ _ _ _ _ Ex), (bind_Ok _ _ _ _ _ E2), Hx, Hsb1. done.
Qed.

(** bfree() up to its test of the bit. *)
Lemma bfree_start s I B C sb t :
  txn s I B C → k_sb s = sb → get_sb (C 1) = sb → is_Some (D !! 1) → 1 ∉ B →
  bitmap_ok B C sb → (size I < cap)%nat → (size B <= 1)%nat → 0 <= t < sb_size sb →
  ∃ s2, txn s2 I B C ∧ only_log s s2 ∧ holds s s2 ∧
    ∀ b x s3, bread 1 (BBLOCK t sb) s2 = Ok b s3 → get_buf b s3 = Ok x s3 → b_data x = C (BBLOCK t sb) →
      bfree 1 t s = (if negb (bit C sb t) then panic "freeing free block" else
        upd_buf b (λ x, set_b_data (put_bit false t (b_data x)) x) ;; log_write b ;; brelse b) s3.
Proof.
  intros T Hsb Hsb1 H1D H1B M HI Hs Ht. unfold bfree.
  destruct (readsb_tx s I B C sb T Hsb1 H1D H1B HI Hs) as (s2 & E2 & T2 & O2 & K2).
  exists s2. split_and!; try done. intros b x s3 E3 Ex Hx. rewrite (bind_Ok _ _ _ _ _ E2).
  assert (k_sb s2 = sb) as Hsb2 by (by destruct O2 as [-> _]).
  rewrite (bind_Ok (modify _) _ s2 tt s2) by (unfold modify; f_equal; rewrite <- Hsb2; by destruct s2).
  rewrite (bind_Ok _ _ _ _ _ E3), (bind_Ok _ _ _ _ _ Ex), Hx. pose proof (Z.mod_pos_bound (t mod BPB) 8 ltac:(done)).
  rewrite land_bit by lia. assert (t mod BPB mod 8 = t mod 8) as Em by (unfold BPB, BSIZE; Z.div_mod_to_equations; lia).
  rewrite Em. fold (bit C sb t). unfold put_bit. by rewrite Em.
Qed.

Lemma bfree_spec s I B C sb t :
  txn s I B C → k_sb s = sb → get_sb (C 1) = sb → is_Some (D !! 1) → 1 ∉ B →
  bitmap_ok B C sb → (size I < cap)%nat → (size B <= 1)%nat → 0 <= t < sb_size sb → bit C sb t = true →
  ∃ s', bfree 1 t s = Ok tt s' ∧ txn s' ({[ BBLOCK t sb ]} ∪ I) B (mark false C sb t) ∧ only_log s s' ∧ holds s s'.
Proof.
  intros T Hsb Hsb1 H1D H1B M HI Hs Ht Hused.
  destruct (bfree_start s I B C sb t) as (s2 & T2 & O2 & K2 & Hrun); try done. destruct (bm_block _ _ _ M t Ht) as [Hn HB].
  destruct (tx_modify s2 _ _ _ _ (put_bit false t) T2 Hn HB HI Hs) as (b3 & y & s3 & s4 & s5 & s6 & E3 & Ey & Hy & E4 & E5 & E6 & T6 & O6 & K6).
  rewrite (Hrun _ _ _ E3 Ey Hy), Hused. cbn [negb]. rewrite (bind_Ok _ _ _ _ _ E4), (bind_Ok _ _ _ _ _ E5).
  exists s6. split; [done|]. split; [done|]. split; [by eapply only_log_trans|by eapply holds_trans].
Qed.

Lemma bfree_free s I B C sb t :
  txn s I B C → k_sb s = sb → get_sb (C 1) = sb → is_Some (D !! 1) → 1 ∉ B →
  bitmap_ok B C sb → (size I < cap)%nat → (size B <= 1)%nat → 0 <= t < sb_size sb → bit C sb t = false →
  bfree 1 t s = Panic "freeing free block".
Proof.
  intros T Hsb Hsb1 H1D H1B M HI Hs Ht Hfree.
  destruct (bfree_start s I B C sb t) as (s2 & T2 & O2 & K2 & Hrun); try done. destruct (bm_block _ _ _ M t Ht) as [Hn HB].
  destruct (tx_bread s2 _ _ _ _ T2 (bk_disk _ _ _ Hn) HB HI Hs) as (b & s3 & q & E3 & T3 & A3 & _).
  destruct (buf_at_get _ _ _ _ _ A3) as (x & Ex & Hx & _). by rewrite (Hrun _ _ _ E3 Ex Hx), Hfree.
Qed.

(** ** The allocator as a list of free blocks *)

(** The bitmap in one block, as mkfs makes it, and the free blocks fit to be used. *)
Record alloc_ok (B : gset Z) (C : Z → list Z) (sb : superblock) : Prop := {
  al_map : bitmap_ok B C sb;
  al_one : 0 < sb_size sb <= BPB;
  al_zero : bit C sb 0 = true;
  al_free b : 0 <= b < sb_size sb → bit C sb b = false → block_ok D L b ∧ b ∉ B ∧ b ≠ sb_bmapstart sb
}.

Definition free_blocks (C : Z → list Z) (sb : superblock) : list Z :=
  filter (λ b, bit C sb b = false) (seqZ 0 (sb_size sb)).

Lemma elem_of_free_blocks C sb b : b ∈ free_blocks C sb ↔ bit C sb b = false ∧ 0 <= b < sb_size sb.
Proof. unfold free_blocks. rewrite list_elem_of_filter, elem_of_seqZ. by rewrite Z.add_0_l. Qed.

Lemma BBLOCK_one B C sb b : alloc_ok B C sb → 0 <= b < sb_size sb → BBLOCK b sb = sb_bmapstart sb.
Proof.
  intros [M Ho _ _] Hb. rewrite (BBLOCK_eq _ _ _ _ M) by done. rewrite Z.div_small by lia. lia.
Qed.

(** The first free block, and those before it. *)
Lemma free_blocks_cons C sb t F :
  free_blocks C sb = t :: F → 0 <= t < sb_size sb ∧ bit C sb t = false ∧ (∀ t', 0 <= t' < t → bit C sb t' = true) ∧
  F = filter (λ b, bit C sb b = false) (seqZ (t + 1) (sb_size sb - t - 1)).
Proof.
  intros Hf. assert (t ∈ free_blocks C sb) as [Ht Hr]%elem_of_free_blocks by (rewrite Hf; left).
  unfold free_blocks in Hf. replace (sb_size sb) with (t + Z.succ (sb_size sb - t - 1)) in Hf by lia.
  rewrite seqZ_app, Z.add_0_l, (seqZ_cons t), filter_app, filter_cons, decide_True in Hf by (done || lia).
  assert (filter (λ b, bit C sb b = false) (seqZ 0 t) = []) as H0.
  { destruct (filter _ (seqZ 0 t)) as [|t' l] eqn:El; [done|]. cbn in Hf. injection Hf as -> _.
    assert (t ∈ filter (λ b, bit C sb b = false) (seqZ 0 t)) as [_ Hin%elem_of_seqZ]%list_elem_of_filter by (rewrite El; left). lia. }
  split; [done|]. split; [done|]. split.
  - intros t' Ht'. destruct (bit C sb t') eqn:Eb; [done|]. exfalso. apply (not_elem_of_nil t'). rewrite <- H0.
    apply list_elem_of_filter. split; [done|]. apply elem_of_seqZ. lia.
  - rewrite H0 in Hf. cbn in Hf. injection Hf as <-. by rewrite Z.pred_succ.
Qed.

Definition take_block (C : Z → list Z) (sb : superblock) (t : Z) : Z → list Z := fupd (mark true C sb t) t zero_block.

Section Take.
Context (B : gset Z) (C : Z → list Z) (sb : superblock) (t : Z) (F : list Z).
Context (A : alloc_ok B C sb) (Hf : free_blocks C sb = t :: F).

Lemma take_block_bit b : 0 <= b < sb_size sb → bit (take_block C sb t) sb b = if decide (b = t) then true else bit C sb b.
Proof using A Hf.
  intros Hb. destruct (free_blocks_cons _ _ _ _ Hf) as (Ht & Hbt & _). destruct (al_free _ _ _ A t Ht Hbt) as (_ & _ & Hne).
  rewrite <- (bit_mark B C sb true t b (al_map _ _ _ A) Ht Hb). unfold take_block, bit, fupd at 1.
  rewrite decide_False; [done|]. by rewrite (BBLOCK_one _ _ _ _ A).
Qed.

Lemma take_block_other n : n ≠ t → n ≠ sb_bmapstart sb → take_block C sb t n = C n.
Proof using A Hf.
  intros H1 H2. destruct (free_blocks_cons _ _ _ _ Hf) as (Ht & _). unfold take_block, mark, fupd.
  by rewrite !decide_False by (rewrite ?(BBLOCK_one _ _ _ _ A); done).
Qed.

Lemma take_block_free : free_blocks (take_block C sb t) sb = F.
Proof using A Hf.
  destruct (free_blocks_cons _ _ _ _ Hf) as (Ht & Hbt & Hlow & HF). rewrite HF. unfold free_blocks.
  replace (seqZ 0 (sb_size sb)) with (seqZ 0 t ++ t :: seqZ (t + 1) (sb_size sb - t - 1)).
  2:{ replace (sb_size sb) with (t + Z.succ (sb_size sb - t - 1)) at 2 by lia. rewrite seqZ_app, Z.add_0_l, (seqZ_cons t), Z.pred_succ by lia. done. }
  rewrite filter_app, filter_cons, decide_False by (by rewrite take_block_bit, decide_True by lia).
  rewrite filter_none; [apply filter_ext_in|]; intros b Hb%elem_of_seqZ.
  - by rewrite take_block_bit, decide_False by lia.
  - rewrite take_block_bit, decide_False, Hlow by lia. done.
Qed.

Lemma take_block_ok : alloc_ok B (take_block C sb t) sb.
Proof using A Hf.
  destruct (free_blocks_cons _ _ _ _ Hf) as (Ht & Hbt & _). destruct (al_free _ _ _ A t Ht Hbt) as (_ & _ & Hne).
  destruct A as [[M1 M2 M3 M4] Ho Hz Hfr] eqn:EA. split; [split|done| |]; try done.
  - intros b Hb. unfold take_block, mark, fupd. rewrite !(BBLOCK_one _ _ _ _ A), decide_False, decide_True by done.
    unfold put_bit. rewrite length_put_byte. rewrite <- (BBLOCK_one _ _ _ t A Ht). by apply M4.
  - rewrite take_block_bit by lia. by case_decide.
  - intros b Hb. rewrite take_block_bit by done. case_decide; [done|]. by apply Hfr.
Qed.

End Take.

(** balloc() takes the head of the list. *)
Lemma balloc_pop s I B C sb t F :
  txn s I B C → k_sb s = sb → alloc_ok B C sb → free_blocks C sb = t :: F →
  (size ({[ sb_bmapstart sb ]} ∪ I) < cap)%nat → (size B <= 1)%nat →
  ∃ s', balloc 1 s = Ok t s' ∧ txn s' ({[ t ]} ∪ ({[ sb_bmapstart sb ]} ∪ I)) B (take_block C sb t) ∧ only_log s s' ∧ holds s s'.
Proof.
  intros T Hsb A Hf HI Hs. destruct (free_blocks_cons _ _ _ _ Hf) as (Ht & Hbt & Hlow & _).
  destruct (al_free _ _ _ A t Ht Hbt) as (Hok & HtB & _). rewrite <- (BBLOCK_one _ _ _ t A Ht) in *.
  by apply balloc_spec; [..|apply A|done|done|done|done|done|done|done].
Qed.

(** bfree() puts a block back. *)
Section Give.
Context (B : gset Z) (C : Z → list Z) (sb : superblock) (t : Z).
Context (A : alloc_ok B C sb) (Ht : 0 < t < sb_size sb) (Hok : block_ok D L t) (HtB : t ∉ B) (Hm : t ≠ sb_bmapstart sb).

Lemma give_bit b : 0 <= b < sb_size sb → bit (mark false C sb t) sb b = if decide (b = t) then false else bit C sb b.
Proof using A Ht. intros Hb. apply (bit_mark B); [apply A|lia|done]. Qed.

Lemma give_other n : n ≠ sb_bmapstart sb → mark false C sb t n = C n.
Proof using A Ht. intros Hn. unfold mark, fupd. by rewrite (BBLOCK_one _ _ _ t A), decide_False by lia. Qed.

Lemma give_ok : alloc_ok B (mark false C sb t) sb.
Proof using A Ht Hok HtB Hm.
  destruct A as [[M1 M2 M3 M4] Ho Hz Hfr] eqn:EA. split; [split|done| |]; try done.
  - intros b Hb. unfold mark, fupd. rewrite !(BBLOCK_one _ _ _ _ A), decide_True by (done || lia).
    unfold put_bit. rewrite length_put_byte. rewrite <- (BBLOCK_one _ _ _ b A Hb). by apply M4.
  - rewrite give_bit by lia. rewrite decide_False by lia. done.
  - intros b Hb. rewrite give_bit by done. case_decide; [by subst|]. by apply Hfr.
Qed.

Lemma give_free b : b ∈ free_blocks (mark false C sb t) sb ↔ b = t ∨ b ∈ free_blocks C sb.
Proof using A Ht.
  rewrite !elem_of_free_blocks. split.
  - intros [Hb Hr]. rewrite give_bit in Hb by done. case_decide; [by left|by right].
  - intros Hb. assert (0 <= b < sb_size sb) as Hr by (destruct Hb as [->|[_ ?]]; lia). split; [|done]. rewrite give_bit by done.
    case_decide; [done|]. by destruct Hb as [?|[? _]].
Qed.

End Give.

Lemma take_give B C sb t F :
  alloc_ok B C sb → free_blocks C sb = t :: F → 0 < t → free_blocks (mark false (take_block C sb t) sb t) sb = t :: F.
Proof.
  intros A Hf H0. rewrite <- Hf. pose proof (take_block_ok _ _ _ _ _ A Hf) as A'. destruct (free_blocks_cons _ _ _ _ Hf) as (Ht & Hb & _).
  apply filter_ext_in. intros b Hr%elem_of_seqZ. rewrite (give_bit B) by (done || lia). rewrite (take_block_bit B _ _ _ F) by (done || lia).
  case_decide as He; [by subst|done].
Qed.

(** C10. The block allocator, as a list of free blocks in ascending order. balloc() takes the
    first, full of zeroes, or panics when there is none; no block but that one and the bitmap
    has changed. bfree() puts it back, where it was, and panics when it is called again. *)
Theorem block_allocator s I C sb :
  txn s I ∅ C → k_sb s = sb → get_sb (C 1) = sb → is_Some (D !! 1) → bit C sb 1 = true → sb_bmapstart sb ≠ 1 →
  alloc_ok ∅ C sb → 1 < sb_size sb → (size ({[ sb_bmapstart sb ]} ∪ I) + 1 < cap)%nat →
  match free_blocks C sb with
  | [] => balloc 1 s = Panic "balloc: out of blocks"
  | t :: F => ∃ s1 s2 C1 C2 I1 I2,
      balloc 1 s = Ok t s1 ∧ txn s1 I1 ∅ C1 ∧ free_blocks C1 sb = F ∧
      C1 t = zero_block ∧ (∀ b, b ≠ t → b ≠ sb_bmapstart sb → C1 b = C b) ∧
      bfree 1 t s1 = Ok tt s2 ∧ txn s2 I2 ∅ C2 ∧ free_blocks C2 sb = t :: F ∧
      (∀ b, b ≠ t → b ≠ sb_bmapstart sb → C2 b = C b) ∧
      bfree 1 t s2 = Panic "freeing free block"
  end.
Proof.
  intros T Hsb Hsb1 H1D H1b H1m A Hsz HI. assert (size (∅ : gset Z) <= 1)%nat as Hs0 by (vm_compute; lia).
  pose proof (subseteq_size I ({[ sb_bmapstart sb ]} ∪ I) ltac:(set_solver)).
  destruct (free_blocks C sb) as [|t F] eqn:Hf.
  { apply (balloc_full s I ∅ C sb); try done; [apply A|lia|]. intros t Ht. apply not_false_iff_true. intros Hb.
    apply (not_elem_of_nil t). rewrite <- Hf. by apply elem_of_free_blocks. }
  destruct (free_blocks_cons _ _ _ _ Hf) as (Ht & Hbt & _). destruct (al_free _ _ _ A t Ht Hbt) as (Hok & _ & Htm).
  assert (t ≠ 0) by (intros ->; pose proof (al_zero _ _ _ A); congruence). assert (t ≠ 1) by congruence.
  destruct (balloc_pop s I ∅ C sb t F T Hsb A Hf ltac:(lia) Hs0) as (s1 & E1 & T1 & O1 & _).
  pose proof (take_block_ok _ _ _ _ _ A Hf) as A1. pose proof (take_block_bit _ _ _ _ _ A Hf t Ht) as Hb1. rewrite decide_True in Hb1 by done.
  set (C1 := take_block C sb t) in *. assert (get_sb (C1 1) = sb) as Hsb1' by (unfold C1; by rewrite (take_block_other _ _ _ _ _ A Hf)).
  set (I1 := {[ t ]} ∪ ({[ sb_bmapstart sb ]} ∪ I)) in *.
  assert (size I1 < cap)%nat as HI1.
  { unfold I1. rewrite size_union_alt, size_singleton. pose proof (subseteq_size (({[ sb_bmapstart sb ]} ∪ I) ∖ {[ t ]}) ({[ sb_bmapstart sb ]} ∪ I) ltac:(set_solver)). lia. }
  assert (k_sb s1 = sb) as Hk1 by (by destruct O1 as [-> _]).
  destruct (bfree_spec s1 I1 ∅ C1 sb t T1 Hk1 Hsb1' H1D ltac:(set_solver) (al_map _ _ _ A1) HI1 Hs0 Ht Hb1) as (s2 & E2 & T2 & O2 & _).
  assert (k_sb s2 = sb) as Hk2 by (by destruct O2 as [-> _]).
  assert (alloc_ok ∅ (mark false C1 sb t) sb) as A2 by (apply give_ok; try done; lia).
  rewrite (BBLOCK_one ∅ C1 sb t A1 Ht) in T2. replace ({[ sb_bmapstart sb ]} ∪ I1) with I1 in T2 by (unfold I1; set_solver).
  exists s1, s2, C1, (mark false C1 sb t), I1, I1. split_and!; try done.
  - by apply (take_block_free ∅).
  - unfold C1, take_block, fupd. by rewrite decide_True.
  - intros b. by apply (take_block_other ∅ _ _ _ F).
  - apply (take_give ∅); [done|done|lia].
  - intros b Hbt' Hbm. rewrite (give_other ∅) by (done || lia). by apply (take_block_other ∅ _ _ _ F).
  - apply (bfree_free s2 I1 ∅ (mark false C1 sb t) sb); try done; [by rewrite (give_other ∅) by (done || lia)|apply A2|].
    rewrite (give_bit ∅) by (done || lia). by rewrite decide_True.
Qed.

End Txn.
