(* ===== verification/GrowSpec.v ===== *)
(** * GrowSpec: files that grow (fs.c)

    bmap() of the first block a file does not have takes a free block for it, and one for
    the indirect addresses when they begin; writei() past the end of a file extends it. *)

From S2P Require Import Prelude Machine CMem DiskFmt Vm Proc Bio BufSpec Log LogSpec LogCommit LogTxn LogCrash Inode ConsIn Fs FsSpec BlockSpec.
From stdpp Require Import options.

(** Only the inode cache has changed, besides what a transaction changes. *)
Definition only_fs (s s' : kstate) : Prop := only_log (set_k_inodes (k_inodes s') s) s'.

Lemma only_log_fs s s' : only_log s s' → only_fs s s'.
Proof. intros [H Hl]. split; [|done]. rewrite H at 1. rec_eq. by rewrite H. Qed.
Lemma only_fs_trans s1 s2 s3 : only_fs s1 s2 → only_fs s2 s3 → only_fs s1 s3.
Proof. intros [H1 L1] [H2 L2]. split; [|cbn in *; congruence]. rewrite H2, H1. rec_eq. Qed.
Lemma only_log_inodes s s' : only_log s s' → k_inodes s' = k_inodes s.
Proof. by intros [-> _]. Qed.
Lemma only_fs_sb s s' : only_fs s s' → k_sb s' = k_sb s.
Proof. by intros [-> _]. Qed.
Lemma only_log_sb s s' : only_log s s' → k_sb s' = k_sb s.
Proof. by intros [-> _]. Qed.

Lemma MAXFILE_eq : MAXFILE = 140.
Proof. done. Qed.

Section Cost.
Context (sb : superblock).

(** The blocks of the log a write takes, besides those it stores. *)
Definition cost (I : gset Z) (ip : inode) : nat :=
  size ({[ sb_bmapstart sb ]} ∪ I) + if decide (ind_addr ip ≠ 0 ∧ ind_addr ip ∈ I) then 0 else 1.
Definition no_ind (ip : inode) : nat := if decide (ind_addr ip = 0) then 1 else 0.

Lemma size_cost I ip : (size I <= size ({[ sb_bmapstart sb ]} ∪ I) <= cost I ip)%nat.
Proof. unfold cost. split; [apply subseteq_size; set_solver|lia]. Qed.

Lemma size_add (n : Z) (X : gset Z) : (size ({[ n ]} ∪ X) <= S (size X))%nat.
Proof. rewrite size_union_alt, size_singleton. pose proof (subseteq_size (X ∖ {[ n ]}) X ltac:(set_solver)). lia. Qed.

Lemma cost_add I ip t : (cost ({[ t ]} ∪ I) ip <= cost I ip + 1)%nat.
Proof.
  unfold cost. rewrite union_assoc_L, (union_comm_L {[ sb_bmapstart sb ]}), <- union_assoc_L.
  pose proof (size_add t ({[ sb_bmapstart sb ]} ∪ I)). repeat case_decide; set_solver || lia.
Qed.

Lemma cost_take I ip ip' t :
  ind_addr ip' = ind_addr ip → (cost ({[ t ]} ∪ ({[ sb_bmapstart sb ]} ∪ I)) ip' <= cost I ip + 1)%nat.
Proof.
  intros Hi. unfold cost. rewrite Hi. replace ({[ sb_bmapstart sb ]} ∪ ({[ t ]} ∪ ({[ sb_bmapstart sb ]} ∪ I))) with ({[ t ]} ∪ ({[ sb_bmapstart sb ]} ∪ I)) by set_solver.
  pose proof (size_add t ({[ sb_bmapstart sb ]} ∪ I)). repeat case_decide; set_solver || lia.
Qed.

Lemma cost_new I ip ip' t :
  ind_addr ip = 0 → ind_addr ip' = t → t ≠ 0 → (cost ({[ t ]} ∪ ({[ sb_bmapstart sb ]} ∪ I)) ip' <= cost I ip + 0)%nat.
Proof.
  intros Hi Hi' Ht. unfold cost. rewrite Hi, Hi', (decide_True (P := t ≠ 0 ∧ _)), decide_False by set_solver.
  replace ({[ sb_bmapstart sb ]} ∪ ({[ t ]} ∪ ({[ sb_bmapstart sb ]} ∪ I))) with ({[ t ]} ∪ ({[ sb_bmapstart sb ]} ∪ I)) by set_solver.
  pose proof (size_add t ({[ sb_bmapstart sb ]} ∪ I)). lia.
Qed.

Lemma cost_entry I ip t :
  ind_addr ip ≠ 0 → (cost ({[ ind_addr ip ]} ∪ ({[ t ]} ∪ ({[ sb_bmapstart sb ]} ∪ I))) ip <= cost I ip + 1)%nat.
Proof.
  intros Hi. unfold cost. rewrite decide_True by set_solver. pose proof (size_add t ({[ sb_bmapstart sb ]} ∪ I)).
  replace ({[ sb_bmapstart sb ]} ∪ ({[ ind_addr ip ]} ∪ ({[ t ]} ∪ ({[ sb_bmapstart sb ]} ∪ I))))
    with ({[ ind_addr ip ]} ∪ ({[ t ]} ∪ ({[ sb_bmapstart sb ]} ∪ I))) by set_solver.
  case_decide.
  - replace ({[ ind_addr ip ]} ∪ ({[ t ]} ∪ ({[ sb_bmapstart sb ]} ∪ I))) with ({[ t ]} ∪ ({[ sb_bmapstart sb ]} ∪ I)) by set_solver. lia.
  - pose proof (size_add (ind_addr ip) ({[ t ]} ∪ ({[ sb_bmapstart sb ]} ∪ I))). lia.
Qed.

End Cost.

Section Grow.
Context {E : Env} (D : gmap Z (list Z)) (W : list (Z * list Z)) (L : Z → Prop) (cap : nat) (sb : superblock) (i : nat).
Notation txn := (txn D W L cap).
Notation alloc_ok := (alloc_ok D L).
Notation cost := (cost sb).

(** A block in use that is no part of the bitmap. *)
Record used (C : Z → list Z) (n : Z) : Prop := {
  us_ok : block_ok D L n;
  us_range : 0 < n < sb_size sb;
  us_bit : bit C sb n = true;
  us_map : n ≠ sb_bmapstart sb;
  us_len : length (C n) = 512%nat
}.

(** A file whose first [K] blocks are there and whose others are not. *)
Record file_ok (C : Z → list Z) (ip : inode) (K : Z) : Prop := {
  fo_K : 0 <= K <= MAXFILE;
  fo_used bn : 0 <= bn < K → used C (file_addr C ip bn);
  fo_inj bn bn' : 0 <= bn < K → 0 <= bn' < K → file_addr C ip bn = file_addr C ip bn' → bn = bn';
  fo_ind : K <= NDIRECT ∧ ind_addr ip = 0 ∨
           used C (ind_addr ip) ∧ (∀ bn, 0 <= bn < K → file_addr C ip bn ≠ ind_addr ip) ∧
           ∀ bn, K <= bn < MAXFILE → NDIRECT <= bn → file_addr C ip bn = 0;
  fo_rest bn : K <= bn < NDIRECT → file_addr C ip bn = 0
}.

Lemma file_ok_ind C ip K bn : file_ok C ip K → 0 <= bn < K → file_addr C ip bn ≠ ind_addr ip.
Proof. intros [_ F2 _ [[_ F4]|(_ & F4 & _)] _] Hbn; [|by apply F4]. rewrite F4. destruct (F2 bn Hbn). lia. Qed.

Lemma file_ok_blocks C ip K : file_ok C ip K → file_blocks D ∅ C L ip K.
Proof.
  intros F. pose proof F as [F1 F2 F3 F4 F5]. split.
  - intros bn Hbn. destruct (F2 bn Hbn) as [[] ? ? ? ?]. split; [lia|lia|done|apply not_elem_of_empty|done|].
    intros Hd. destruct F4 as [[F4 _]|[[[] ? ? ? ?] _]]; [lia|]. split_and!; [lia|done|apply not_elem_of_empty].
  - done.
  - intros bn Hbn. by eapply file_ok_ind.
  - intros bn Hbn. destruct (F2 bn Hbn) as [[] ? ? ? ?]. done.
Qed.

(** A block in use that is no part of the file. *)
Definition foreign (C : Z → list Z) (ip : inode) (K n : Z) : Prop :=
  used C n ∧ n ≠ ind_addr ip ∧ ∀ bn, 0 <= bn < K → n ≠ file_addr C ip bn.

(** [src] is stored at [off], in a file that has grown from [K] to [K'] blocks. *)
Record wrote (C : Z → list Z) (ip : inode) (K off : Z) (src : list Z) (C' : Z → list Z) (ip' : inode) (K' : Z) : Prop := {
  wr_ok : file_ok C' ip' K';
  wr_K : K <= K';
  wr_ip : ip' = set_i_addrs (i_addrs ip') ip;
  wr_end k : off <= k < off + Z.of_nat (length src) → k / BSIZE < K';
  wr_byte k : 0 <= k / BSIZE < K' → file_byte C' ip' k =
    if decide (off <= k < off + Z.of_nat (length src)) then default 0 (u8 <$> src !! Z.to_nat (k - off))
    else if decide (k / BSIZE < K) then file_byte C ip k else 0;
  wr_other n : foreign C ip K n → foreign C' ip' K' n ∧ C' n = C n
}.

Lemma wrote_refl C ip K off : file_ok C ip K → wrote C ip K off [] C ip K.
Proof.
  intros F. split; try done; [by destruct ip|cbn; lia|]. intros k Hk. rewrite decide_False by (cbn; lia). by rewrite decide_True by lia.
Qed.

Lemma wrote_app C ip K off l1 C1 ip1 K1 l2 C2 ip2 K2 :
  wrote C ip K off l1 C1 ip1 K1 → wrote C1 ip1 K1 (off + Z.of_nat (length l1)) l2 C2 ip2 K2 →
  wrote C ip K off (l1 ++ l2) C2 ip2 K2.
Proof.
  intros [A1 A2 A3 A4 A5 A6] [B1 B2 B3 B4 B5 B6]. split; [done|lia|rewrite B3, A3; by destruct ip2|..].
  - rewrite length_app. intros k Hk. destruct (decide (k < off + Z.of_nat (length l1))); [pose proof (A4 k ltac:(lia)); lia|apply B4; lia].
  - rewrite length_app. intros k Hk. rewrite B5 by done. destruct (decide (_ <= k < _)) as [Hr|Hr].
    { rewrite decide_True, lookup_app_r by lia. do 3 f_equal. lia. }
    destruct (decide (k / BSIZE < K1)) as [H1|H1].
    + rewrite A5 by lia. destruct (decide (off <= k < off + Z.of_nat (length l1))).
      * rewrite decide_True, lookup_app_l by lia. done.
      * by rewrite (decide_False (P := off <= k < _)) by lia.
    + rewrite (decide_False (P := off <= k < _)), decide_False; [done|lia|].
      intros Hc. apply H1, A4. lia.
  - intros n Hn. destruct (A6 n Hn) as [H1 H2]. destruct (B6 n H1) as [H3 H4]. split; [done|congruence].
Qed.

(** ** Taking a block *)

Section Take.
Context (C : Z → list Z) (t : Z) (F : list Z) (A : alloc_ok ∅ C sb) (Hf : free_blocks C sb = t :: F).

Lemma used_ne n : used C n → n ≠ t.
Proof using A Hf.
  intros [_ _ Hb _ _] ->. destruct (free_blocks_cons _ _ _ _ Hf) as (_ & Hb' & _). congruence.
Qed.

Lemma used_take n : used C n → used (take_block C sb t) n.
Proof using A Hf.
  intros U. pose proof (used_ne n U). destruct U as [U1 U2 U3 U4 U5]. split; try done.
  - rewrite (take_block_bit _ _ _ _ _ _ _ A Hf) by lia. by case_decide.
  - by rewrite (take_block_other _ _ _ _ _ _ _ A Hf).
Qed.

Lemma used_new : used (take_block C sb t) t.
Proof using A Hf.
  destruct (free_blocks_cons _ _ _ _ Hf) as (Ht & Hb & _). destruct (al_free _ _ _ _ _ A t Ht Hb) as (Hok & _ & Hm).
  split; try done.
  - assert (t ≠ 0); [|lia]. intros ->. pose proof (al_zero _ _ _ _ _ A). congruence.
  - rewrite (take_block_bit _ _ _ _ _ _ _ A Hf) by lia. by rewrite decide_True.
  - unfold take_block, fupd. by rewrite decide_True.
Qed.

Lemma take_block_new : take_block C sb t t = zero_block.
Proof using Type. unfold take_block, fupd. by rewrite decide_True. Qed.

(** The allocator while the buffer of a block in use is held. *)
Lemma alloc_held a : used C a → alloc_ok {[ a ]} C sb.
Proof using A.
  intros U. destruct A as [[M1 M2 M3 M4] Ho Hz Hfr]. split; [split|done|done|]; try done.
  - intros b Hb. destruct (M3 b Hb) as [? _]. split; [done|]. rewrite (BBLOCK_one _ _ _ _ _ _ A) by done.
    apply not_elem_of_singleton, not_eq_sym, U.
  - intros b Hb Hbit. destruct (Hfr b Hb Hbit) as (? & _ & ?). split; [done|]. split; [|done].
    apply not_elem_of_singleton. intros ->. destruct U. congruence.
Qed.

End Take.

(** A block in use other than the bitmap may be changed. *)
Lemma alloc_store C a d : alloc_ok ∅ C sb → a ≠ sb_bmapstart sb → alloc_ok ∅ (fupd C a d) sb.
Proof.
  intros A Ha. assert (∀ b, 0 <= b < sb_size sb → fupd C a d (BBLOCK b sb) = C (BBLOCK b sb)) as Hm.
  { intros b Hb. unfold fupd. rewrite decide_False; [done|]. rewrite (BBLOCK_one _ _ _ _ _ _ A) by done. by apply not_eq_sym. }
  destruct A as [[M1 M2 M3 M4] Ho Hz Hfr]. split; [split|done|..]; try done.
  - intros b Hb. rewrite Hm by done. by apply M4.
  - unfold bit. rewrite Hm by lia. done.
  - intros b Hb. unfold bit. rewrite Hm by done. by apply Hfr.
Qed.

Lemma bit_store C a d b : alloc_ok ∅ C sb → a ≠ sb_bmapstart sb → 0 <= b < sb_size sb → bit (fupd C a d) sb b = bit C sb b.
Proof.
  intros A Ha Hb. unfold bit, fupd. rewrite decide_False; [done|]. rewrite (BBLOCK_one _ _ _ _ _ _ A) by done. by apply not_eq_sym.
Qed.

Lemma used_store C a d n : alloc_ok ∅ C sb → a ≠ sb_bmapstart sb → length d = 512%nat → used C n → used (fupd C a d) n.
Proof.
  intros A Ha Hd [U1 U2 U3 U4 U5]. split; try done; [by rewrite bit_store by (done || lia)|].
  unfold fupd. by case_decide.
Qed.

Lemma free_store C a d : alloc_ok ∅ C sb → a ≠ sb_bmapstart sb → free_blocks (fupd C a d) sb = free_blocks C sb.
Proof.
  intros A Ha. unfold free_blocks. apply filter_ext_in. intros b Hb. apply elem_of_seqZ in Hb. by rewrite bit_store by (done || lia).
Qed.

(** The file after blocks are added at its end: what was there is where it was. *)
Lemma wrote_grow C ip K off C' ip' K' :
  file_ok C ip K → file_ok C' ip' K' → K <= K' → ip' = set_i_addrs (i_addrs ip') ip →
  (∀ bn, 0 <= bn < K → file_addr C' ip' bn = file_addr C ip bn) →
  (∀ n, used C n → used C' n ∧ (n ≠ ind_addr ip → C' n = C n)) →
  (∀ bn, K <= bn < K' → ¬ used C (file_addr C' ip' bn) ∧ C' (file_addr C' ip' bn) = zero_block) →
  (ind_addr ip' = ind_addr ip ∨ ¬ used C (ind_addr ip')) →
  wrote C ip K off [] C' ip' K'.
Proof.
  intros F F' HK Hip Ha Hu Hn Hi. split; try done; [cbn; lia|..].
  - intros k Hk. rewrite decide_False by (cbn; lia). unfold file_byte. case_decide.
    + rewrite Ha by lia. f_equal. f_equal. apply Hu; [apply (fo_used _ _ _ F); lia|]. apply (file_ok_ind _ _ K); [done|lia].
    + destruct (Hn (k / BSIZE)) as [_ ->]; [lia|]. pose proof (Z.mod_pos_bound k BSIZE ltac:(done)).
      unfold zero_block. by rewrite lookup_replicate_2 by (unfold BSIZE in *; lia).
  - intros n (U & N1 & N2). split; [|by apply Hu]. split; [by apply Hu|]. split; [by destruct Hi as [->|?]; congruence|].
    intros bn Hbn. destruct (decide (bn < K)); [rewrite Ha by lia; apply N2; lia|]. destruct (Hn bn) as [? _]; [lia|congruence].
Qed.

Section Grown.
Context (C : Z → list Z) (ip : inode) (K t off : Z) (F : list Z).
Context (A : alloc_ok ∅ C sb) (Hf : free_blocks C sb = t :: F) (Hl : length (i_addrs ip) = 13%nat) (FO : file_ok C ip K).

Lemma t_fresh : ¬ used C t.
Proof using A Hf. intros U. by apply (used_ne C t F A Hf t). Qed.

Lemma used_take_same n : used C n → take_block C sb t n = C n.
Proof using A Hf. intros U. apply (take_block_other _ _ _ _ _ _ _ A Hf); [by eapply used_ne|apply U]. Qed.

Lemma used_take_both n : used C n → used (take_block C sb t) n ∧ (n ≠ ind_addr ip → take_block C sb t n = C n).
Proof using A Hf. intros U. split; [by eapply used_take|intros _; by apply used_take_same]. Qed.

(** A direct block is added. *)
Lemma wrote_direct :
  K < NDIRECT →
  let ip' := set_i_addrs (<[Z.to_nat K := t]> (i_addrs ip)) ip in
  wrote C ip K off [] (take_block C sb t) ip' (K + 1) ∧ file_addr (take_block C sb t) ip' K = t.
Proof using A Hf Hl FO.
  intros HK ip'. pose proof FO as [F1 F2 F3 F4 F5]. pose proof t_fresh as Hfr. unfold NDIRECT in *.
  assert (ind_addr ip' = ind_addr ip) as Hind.
  { unfold ind_addr, ip'. cbn [set_i_addrs i_addrs]. by rewrite list_lookup_insert_ne by lia. }
  assert (∀ bn, 0 <= bn < 12 → file_addr (take_block C sb t) ip' bn = if decide (bn = K) then t else file_addr C ip bn) as Ha.
  { intros bn Hbn. unfold file_addr, NDIRECT. rewrite !(proj2 (Z.ltb_lt bn 12)) by lia. unfold ip'. cbn [set_i_addrs i_addrs].
    case_decide as Heq; [subst bn; by rewrite list_lookup_insert_eq by lia|by rewrite list_lookup_insert_ne by lia]. }
  split; [|by rewrite Ha, decide_True by lia].
  assert (file_ok (take_block C sb t) ip' (K + 1)) as FO'.
  { split; [rewrite MAXFILE_eq; lia|..].
    - intros bn Hbn. rewrite Ha by lia. case_decide; [by eapply used_new|eapply used_take, F2; lia || done].
    - intros bn bn' H1 H2. rewrite !Ha by lia. assert (∀ x, 0 <= x < K → file_addr C ip x ≠ t) as Hx.
      { intros x Hx Hc. apply Hfr. rewrite <- Hc. by apply F2. }
      repeat case_decide; intros Heq; subst; try done; [by destruct (Hx bn' ltac:(lia))|by destruct (Hx bn ltac:(lia))|apply F3; lia || done].
    - rewrite Hind. destruct F4 as [[_ F4]|(U & N & Z0)]; [left; split; [unfold NDIRECT; lia|done]|right].
      split; [by eapply used_take|]. split.
      + intros bn Hbn. rewrite Ha by lia. case_decide; [by eapply not_eq_sym, used_ne|apply N; lia].
      + intros bn H1 H2. unfold NDIRECT in H2. rewrite <- (Z0 bn) by (unfold NDIRECT; lia). unfold file_addr, NDIRECT.
        rewrite (proj2 (Z.ltb_ge bn 12)), Hind, used_take_same by (done || lia). done.
    - intros bn Hbn. unfold NDIRECT in Hbn. rewrite Ha, decide_False by lia. apply F5. unfold NDIRECT; lia. }
  apply wrote_grow; try done; [lia| | |intros bn Hbn|by left].
  - intros bn Hbn. by rewrite Ha, decide_False by lia.
  - apply used_take_both.
  - rewrite Ha, decide_True by lia. split; [done|]. eapply take_block_new.
Qed.

Lemma get32_zero_block o : get32 zero_block o = 0.
Proof using Type.
  assert (∀ o, byte_at zero_block o = 0) as Hz; [|unfold get32; by rewrite !Hz].
  intros o'. unfold byte_at, zero_block. destruct (_ !! _) eqn:El; [|done]. by apply lookup_replicate in El as [-> _].
Qed.

(** A block for the indirect addresses is added. *)
Lemma wrote_ind :
  K = NDIRECT → ind_addr ip = 0 →
  let ip' := set_i_addrs (<[Z.to_nat NDIRECT := t]> (i_addrs ip)) ip in
  wrote C ip K off [] (take_block C sb t) ip' K ∧ ind_addr ip' = t.
Proof using A Hf Hl FO.
  intros HK H0 ip'. pose proof FO as [F1 F2 F3 F4 F5]. unfold NDIRECT in *.
  assert (ind_addr ip' = t) as Hind.
  { unfold ind_addr, ip'. cbn [set_i_addrs i_addrs]. by rewrite list_lookup_insert_eq by lia. }
  assert (∀ bn, 0 <= bn < 12 → file_addr (take_block C sb t) ip' bn = file_addr C ip bn) as Ha.
  { intros bn Hbn. unfold file_addr, NDIRECT. rewrite !(proj2 (Z.ltb_lt bn 12)) by lia. unfold ip'. cbn [set_i_addrs i_addrs].
    by rewrite list_lookup_insert_ne by lia. }
  split; [|done]. apply wrote_grow; try done; [split| | |intros; lia|right; rewrite Hind; apply t_fresh].
  - done.
  - intros bn Hbn. rewrite Ha by lia. eapply used_take, F2; done.
  - intros bn bn' H1 H2. rewrite !Ha by lia. by apply F3.
  - right. rewrite Hind. split; [by eapply used_new|]. split.
    + intros bn Hbn. rewrite Ha by lia. eapply used_ne, F2; done.
    + intros bn H1 H2. unfold file_addr, NDIRECT in *. rewrite (proj2 (Z.ltb_ge bn 12)), Hind by lia.
      unfold MAXFILE, NINDIRECT, NDIRECT in H1. rewrite take_block_new. by apply get32_zero_block.
  - intros bn Hbn. unfold NDIRECT in Hbn. lia.
  - intros bn Hbn. apply Ha. lia.
  - apply used_take_both.
Qed.

(** A block whose address is in the indirect block is added. *)
Definition put_ind (a bn : Z) : Z → list Z := fupd (take_block C sb t) a (put32 (C a) (4 * bn) t).

Lemma put_ind_ok a bn : used C a → alloc_ok ∅ (put_ind a bn) sb.
Proof using A Hf.
  intros U. apply alloc_store; [|apply U]. eapply take_block_ok; done.
Qed.

Lemma put_ind_used a bn n : used C a → used C n → used (put_ind a bn) n.
Proof using A Hf.
  intros U Un. apply used_store; [by eapply take_block_ok|apply U|rewrite length_put32; apply U|by eapply used_take].
Qed.

Lemma put_ind_addr bn :
  NDIRECT <= K < MAXFILE → used C (ind_addr ip) → 0 <= bn < MAXFILE →
  file_addr (put_ind (ind_addr ip) (K - NDIRECT)) ip bn = if decide (bn = K) then t else file_addr C ip bn.
Proof using A Hf.
  clear Hl FO. rewrite MAXFILE_eq. intros HK U Hbn. unfold file_addr. destruct (Z.ltb_spec bn NDIRECT) as [Hd|Hd]; [by rewrite decide_False by lia|].
  unfold put_ind, fupd. rewrite decide_True by done. unfold NDIRECT in *. pose proof (us_len _ _ U).
  destruct (free_blocks_cons _ _ _ _ Hf) as (Ht & Hbt & _). destruct (al_free _ _ _ _ _ A t Ht Hbt) as ([Hn _ _] & _).
  case_decide as Heq.
  - subst bn. rewrite get32_put32 by lia. unfold u32. rewrite Z.mod_small; [done|]. change (2 ^ 32) with 4294967296. lia.
  - rewrite get32_put32_ne by lia. done.
Qed.

Lemma wrote_entry :
  NDIRECT <= K < MAXFILE → ind_addr ip ≠ 0 →
  wrote C ip K off [] (put_ind (ind_addr ip) (K - NDIRECT)) ip (K + 1) ∧
  file_addr (put_ind (ind_addr ip) (K - NDIRECT)) ip K = t ∧ used C (ind_addr ip) ∧ file_addr C ip K = 0.
Proof using A Hf FO.
  clear Hl. intros HK H0. pose proof FO as [F1 F2 F3 [[_ F4]|(U & N & Z0)] F5]; [done|]. pose proof t_fresh as Hfr.
  pose proof (λ bn, put_ind_addr bn HK U) as Ha. set (C' := put_ind _ _) in *.
  assert (∀ x, 0 <= x < K → file_addr C ip x ≠ t) as Hx.
  { intros x Hx Hc. apply Hfr. rewrite <- Hc. by apply F2. }
  assert (C' t = zero_block) as Ht.
  { unfold C', put_ind, fupd. rewrite decide_False by (intros Hc; apply Hfr; congruence). apply take_block_new. }
  split_and!; [|by rewrite Ha, decide_True by lia|done|by apply Z0; lia].
  assert (file_ok C' ip (K + 1)) as FO'.
  { split; [lia|..].
    - intros bn Hbn. rewrite Ha by lia. case_decide; [|apply put_ind_used, F2; done || lia].
      apply used_store; [by eapply take_block_ok|apply U|rewrite length_put32; apply U|by eapply used_new].
    - intros bn bn' H1 H2. rewrite !Ha by lia.
      repeat case_decide; intros Heq; subst; try done; [by destruct (Hx bn' ltac:(lia))|by destruct (Hx bn ltac:(lia))|apply F3; lia || done].
    - right. split; [by apply put_ind_used|]. split.
      + intros bn Hbn. rewrite Ha by lia. case_decide; [by eapply not_eq_sym, used_ne|apply N; lia].
      + intros bn H1 H2. rewrite Ha, decide_False by lia. apply Z0; lia.
    - intros bn Hbn. lia. }
  apply wrote_grow; try done; [lia|by destruct ip| | |intros bn Hbn|by left].
  - intros bn Hbn. by rewrite Ha, decide_False by lia.
  - intros n Hn. split; [by apply put_ind_used|]. intros Hne. unfold C', put_ind, fupd.
    rewrite decide_False by done. by apply used_take_same.
  - rewrite Ha, decide_True by lia. done.
Qed.

End Grown.

(** ** bmap *)

(** The second half of bmap(): an address in the indirect block [a]. *)
Lemma bmap_ind s I C a bn t F :
  txn s I ∅ C → k_sb s = sb → alloc_ok ∅ C sb → free_blocks C sb = t :: F → used C a →
  0 <= bn < 128 → get32 (C a) (4 * bn) = 0 → (size ({[ t ]} ∪ ({[ sb_bmapstart sb ]} ∪ I)) < cap)%nat →
  ∃ s', (bp ← bread 1 a; x ← get_buf bp;
         addr ← (if get32 (b_data x) (4 * bn) =? 0 then
                   addr ← balloc 1;
                   upd_buf bp (λ x, set_b_data (put32 (b_data x) (4 * bn) addr) x) ;;
                   log_write bp ;;
                   mret addr
                 else mret (get32 (b_data x) (4 * bn)));
         brelse bp ;;
         mret addr) s = Ok t s' ∧
    txn s' ({[ a ]} ∪ ({[ t ]} ∪ ({[ sb_bmapstart sb ]} ∪ I))) ∅ (fupd (take_block C sb t) a (put32 (C a) (4 * bn) t)) ∧
    only_log s s'.
Proof.
  intros T Hsb A Hf U Hbn H0 HI. pose proof (subseteq_size I ({[ t ]} ∪ ({[ sb_bmapstart sb ]} ∪ I)) ltac:(set_solver)).
  pose proof (subseteq_size ({[ sb_bmapstart sb ]} ∪ I) ({[ t ]} ∪ ({[ sb_bmapstart sb ]} ∪ I)) ltac:(set_solver)).
  destruct (tx_bread _ _ _ _ s I ∅ C a T (bk_disk _ _ _ (us_ok _ _ U)) ltac:(set_solver) ltac:(lia) ltac:(by vm_compute; lia))
    as (b & s1 & q & E1 & T1 & A1 & _ & O1 & _). rewrite (bind_Ok _ _ _ _ _ E1).
  destruct (buf_at_get _ _ _ _ _ A1) as (x & Ex & Hx & _). rewrite (bind_Ok _ _ _ _ _ Ex), Hx, H0. cbn [Z.eqb].
  rewrite union_empty_r_L in T1.
  destruct (balloc_pop _ _ _ _ s1 I {[ a ]} C sb t F T1) as (s2 & E2 & T2 & O2 & K2);
    [by rewrite (only_log_sb _ _ O1)|by apply alloc_held|done|lia|by rewrite size_singleton|].
  destruct (tx_set _ _ _ _ s2 _ _ _ b a _ _ (λ d, put32 d (4 * bn) t) T2 (K2 _ _ _ _ A1)) as (s3 & E3 & T3 & A3 & O3 & _).
  destruct (tx_log_write _ _ _ _ s3 _ _ _ b a _ _ T3 A3 HI (us_ok _ _ U)) as (s4 & E4 & T4 & A4 & O4 & _).
  rewrite <- (union_empty_r_L {[ a ]}) in T4 at 2.
  destruct (tx_brelse _ _ _ _ s4 _ _ _ b a _ _ T4 ltac:(set_solver) A4 ltac:(by left)) as (s5 & E5 & T5 & O5 & _).
  rewrite (bind_Ok _ _ s1 t s4) by (rewrite (bind_Ok _ _ _ _ _ E2), (bind_Ok _ _ _ _ _ E3), (bind_Ok _ _ _ _ _ E4); done).
  rewrite (bind_Ok _ _ _ _ _ E5). exists s5. split; [done|]. split; [done|].
  repeat (eapply only_log_trans; [eassumption|]). apply only_log_refl.
Qed.

(** A transaction that works on the file of inode [i]. *)
Record growing (s : kstate) (I : gset Z) (C : Z → list Z) (ip : inode) (K : Z) : Prop := {
  gw_tx : txn s I ∅ C;
  gw_sb : k_sb s = sb;
  gw_ip : inode_at s i ip;
  gw_file : file_ok C ip K;
  gw_alloc : alloc_ok ∅ C sb
}.

Lemma txn_inodes s I B C x : txn s I B C → txn (set_k_inodes x s) I B C.
Proof.
  intros [[V1 V2 V3 V4 V5 V6 V7] Hin [G1 G2 G3 G4 G5] Hc Ha]. split; try done. split; try done.
  destruct V1 as [l [W1 W2 W3]]. exists l. by split.
Qed.

Lemma upd_inode_eq s I C ip f :
  txn s I ∅ C → inode_at s i ip → i_dev (f ip) = 1 → length (i_addrs (f ip)) = 13%nat →
  ∃ s', upd_inode i f s = Ok tt s' ∧ txn s' I ∅ C ∧ inode_at s' i (f ip) ∧ k_inodes s' = <[i := f ip]> (k_inodes s) ∧ only_fs s s'.
Proof.
  intros T (Hi & Hd & Hl) Hd' Hl'. eexists. split; [done|]. split; [by apply txn_inodes|].
  cbn [set_k_inodes k_inodes]. rewrite (list_alter_lookup _ _ _ _ Hi). split; [|split; [done|]].
  - unfold inode_at. cbn [set_k_inodes k_inodes]. rewrite list_lookup_insert_eq by (by apply lookup_lt_Some in Hi). done.
  - split; [|done]. by rec_eq.
Qed.

Lemma set_addr_eq s I C ip n v :
  txn s I ∅ C → inode_at s i ip →
  let ip' := set_i_addrs (<[Z.to_nat n := v]> (i_addrs ip)) ip in
  ∃ s', set_addr i n v s = Ok tt s' ∧ txn s' I ∅ C ∧ inode_at s' i ip' ∧ k_inodes s' = <[i := ip']> (k_inodes s) ∧ only_fs s s'.
Proof.
  intros T Hi. pose proof Hi as (_ & Hd & Hl).
  apply (upd_inode_eq s I C ip (λ ip, set_i_addrs (<[Z.to_nat n := v]> (i_addrs ip)) ip) T Hi); [done|].
  cbn [set_i_addrs i_addrs]. by rewrite length_insert.
Qed.

(** What a write of [src] has done, in [m] rounds. *)
Record grown (m : nat) (s : kstate) (I : gset Z) (C : Z → list Z) (ip : inode) (K off : Z) (src : list Z)
    (s' : kstate) (I' : gset Z) (C' : Z → list Z) (ip' : inode) (K' : Z) : Prop := {
  gn_ok : growing s' I' C' ip' K';
  gn_wrote : wrote C ip K off src C' ip' K';
  gn_fs : only_fs s s';
  gn_inodes : k_inodes s' = <[i := ip']> (k_inodes s);
  gn_cost : (cost I' ip' <= cost I ip + m)%nat;
  gn_free : (length (free_blocks C sb) + no_ind ip' <= length (free_blocks C' sb) + no_ind ip + m)%nat
}.

Lemma grown_refl s I C ip K off : growing s I C ip K → grown 0 s I C ip K off [] s I C ip K.
Proof.
  intros G. pose proof G as [G1 G2 (G3 & _) G4 G5]. split; [done|by apply wrote_refl|by apply only_log_fs, only_log_refl|by rewrite list_insert_id|lia|lia].
Qed.

Lemma grown_app m1 m2 s I C ip K off l1 s1 I1 C1 ip1 K1 l2 s2 I2 C2 ip2 K2 :
  grown m1 s I C ip K off l1 s1 I1 C1 ip1 K1 →
  grown m2 s1 I1 C1 ip1 K1 (off + Z.of_nat (length l1)) l2 s2 I2 C2 ip2 K2 →
  grown (m1 + m2) s I C ip K off (l1 ++ l2) s2 I2 C2 ip2 K2.
Proof.
  intros [A1 A2 A3 A4 A5 A6] [B1 B2 B3 B4 B5 B6]. split; [done|by eapply wrote_app|by eapply only_fs_trans| |lia|lia].
  by rewrite B4, A4, list_insert_insert_eq.
Qed.

(** bmap() of the first block a file does not have. *)
Definition grows (s : kstate) (I : gset Z) (C : Z → list Z) (ip : inode) (K off bn : Z) : Prop :=
  ∃ s' I' C' ip' K', bmap i bn s = Ok (file_addr C' ip' bn) s' ∧ grown 1 s I C ip K off [] s' I' C' ip' K' ∧ bn < K' ∧
    (cost ({[ file_addr C' ip' bn ]} ∪ I') ip' <= cost I ip + 1)%nat.

Lemma bmap_direct s I C ip K off :
  growing s I C ip K → 0 <= K < NDIRECT → (cost I ip + 1 < cap)%nat → (1 + no_ind ip <= length (free_blocks C sb))%nat →
  grows s I C ip K off K.
Proof.
  intros G HK Hc Hfr. pose proof G as [T Hsb Hi FO A]. pose proof Hi as (Hip & Hdev & Hl). pose proof (size_cost sb I ip).
  destruct (free_blocks C sb) as [|t F] eqn:Hf; [cbn in Hfr; lia|].
  destruct (balloc_pop _ _ _ _ s I ∅ C sb t F T Hsb A Hf) as (s1 & E1 & T1 & O1 & _); [lia|by vm_compute; lia|].
  assert (inode_at s1 i ip) as Hi1 by (unfold inode_at; by rewrite (only_log_inodes _ _ O1)).
  destruct (set_addr_eq s1 _ _ ip K t T1 Hi1) as (s2 & E2 & T2 & Hi2 & Hin & O2).
  destruct (wrote_direct C ip K t off F A Hf Hl FO ltac:(lia)) as [Wr Ha].
  assert (ind_addr (set_i_addrs (<[Z.to_nat K := t]> (i_addrs ip)) ip) = ind_addr ip) as Hind.
  { unfold ind_addr. cbn [set_i_addrs i_addrs]. by rewrite list_lookup_insert_ne by (unfold NDIRECT in *; lia). }
  eexists s2, _, _, _, (K + 1). split; [|split; [split|split; [lia|]]].
  - unfold bmap. rewrite (bind_Ok _ _ _ _ _ (get_inode_eq _ _ _ Hip)), (proj2 (Z.ltb_lt _ _)) by lia.
    rewrite (bind_Ok _ _ _ _ _ (get_addr_eq s i ip K Hi ltac:(unfold NDIRECT in *; lia))).
    pose proof (fo_rest _ _ _ FO K ltac:(lia)) as H0. unfold file_addr in H0. rewrite (proj2 (Z.ltb_lt _ _)) in H0 by lia.
    rewrite H0, Z.eqb_refl, Hdev, (bind_Ok _ _ _ _ _ E1), (bind_Ok _ _ _ _ _ E2), Ha. done.
  - split; [done|by rewrite (only_fs_sb _ _ O2), (only_log_sb _ _ O1)|done|apply Wr|by eapply take_block_ok].
  - done.
  - eapply only_fs_trans; [by apply only_log_fs|done].
  - by rewrite Hin, (only_log_inodes _ _ O1).
  - by apply cost_take.
  - rewrite (take_block_free _ _ _ _ _ _ _ A Hf), Hf. unfold no_ind. rewrite Hind. cbn [length]. lia.
  - rewrite Ha, union_assoc_L, union_idemp_L. by apply cost_take.
Qed.

(** The block of the indirect addresses, taken when it is first needed. *)
Lemma bmap_new_ind s I C ip K off :
  growing s I C ip K → NDIRECT <= K < MAXFILE → (cost I ip + 1 < cap)%nat → (1 + no_ind ip <= length (free_blocks C sb))%nat →
  ∃ s' I' C' ip', (addr ← get_addr i NDIRECT;
    if addr =? 0 then addr ← balloc 1; set_addr i NDIRECT addr ;; mret addr else mret addr) s = Ok (ind_addr ip') s' ∧
    grown 0 s I C ip K off [] s' I' C' ip' K ∧ ind_addr ip' ≠ 0.
Proof.
  intros G HK Hc Hfr. pose proof G as [T Hsb Hi FO A]. pose proof Hi as (Hip & Hdev & Hl). pose proof (size_cost sb I ip).
  rewrite (bind_Ok _ _ _ _ _ (get_addr_eq s i ip NDIRECT Hi ltac:(unfold NDIRECT; lia))).
  change (default 0 (i_addrs ip !! Z.to_nat NDIRECT)) with (ind_addr ip).
  destruct (Z.eqb_spec (ind_addr ip) 0) as [H0|H0]; [|by exists s, I, C, ip; split; [done|split; [by apply grown_refl|done]]].
  assert (K = NDIRECT) as HK'. { destruct (fo_ind _ _ _ FO) as [[? _]|[[] _]]; lia. }
  destruct (free_blocks C sb) as [|t F] eqn:Hf; [cbn in Hfr; lia|].
  destruct (balloc_pop _ _ _ _ s I ∅ C sb t F T Hsb A Hf) as (s1 & E1 & T1 & O1 & _); [lia|by vm_compute; lia|].
  assert (inode_at s1 i ip) as Hi1 by (unfold inode_at; by rewrite (only_log_inodes _ _ O1)).
  destruct (set_addr_eq s1 _ _ ip NDIRECT t T1 Hi1) as (s2 & E2 & T2 & Hi2 & Hin & O2).
  destruct (wrote_ind C ip K t off F A Hf Hl FO HK' H0) as [Wr Ha].
  pose proof (us_range _ _ (used_new C t F A Hf)) as Ht.
  eexists s2, _, _, _. split; [|split; [split|by rewrite Ha; lia]].
  - rewrite (bind_Ok _ _ _ _ _ E1), (bind_Ok _ _ _ _ _ E2), Ha. done.
  - split; [done|by rewrite (only_fs_sb _ _ O2), (only_log_sb _ _ O1)|done|apply Wr|by eapply take_block_ok].
  - done.
  - eapply only_fs_trans; [by apply only_log_fs|done].
  - by rewrite Hin, (only_log_inodes _ _ O1).
  - apply cost_new; [done|done|lia].
  - rewrite (take_block_free _ _ _ _ _ _ _ A Hf). unfold no_ind. rewrite Ha, H0, Hf, decide_False, decide_True by lia. cbn [length]. lia.
Qed.

Lemma bmap_indirect s I C ip K off :
  growing s I C ip K → NDIRECT <= K < MAXFILE → (cost I ip + 1 < cap)%nat → (1 + no_ind ip <= length (free_blocks C sb))%nat →
  grows s I C ip K off K.
Proof.
  intros G HK Hc Hfr. pose proof (gw_ip _ _ _ _ _ G) as (Hip & Hdev & _).
  destruct (bmap_new_ind s I C ip K off G HK Hc Hfr) as (s1 & I1 & C1 & ip1 & E1 & G1 & H1).
  pose proof G1 as [[T Hsb Hi FO A] _ _ _ Hc1 Hf1]. pose proof (size_cost sb I1 ip1).
  unfold no_ind in Hf1 at 1. rewrite decide_False in Hf1 by done.
  destruct (free_blocks C1 sb) as [|t F] eqn:Hf; [cbn [length] in *; lia|].
  destruct (wrote_entry C1 ip1 K t (off + 0) F A Hf FO HK H1) as (Wr & Ha & U & H0).
  destruct (bmap_ind s1 I1 C1 (ind_addr ip1) (K - NDIRECT) t F T Hsb A Hf U) as (s2 & E2 & T2 & O2).
  { rewrite MAXFILE_eq in HK. unfold NDIRECT in *. lia. }
  { unfold file_addr in H0. by rewrite (proj2 (Z.ltb_ge _ _)) in H0 by lia. }
  { pose proof (size_add t ({[ sb_bmapstart sb ]} ∪ I1)). lia. }
  eexists s2, _, _, ip1, (K + 1). split; [|split; [|split; [lia|]]].
  - unfold bmap. rewrite (bind_Ok _ _ _ _ _ (get_inode_eq _ _ _ Hip)), (proj2 (Z.ltb_ge _ _)) by lia. cbv zeta.
    rewrite (proj2 (Z.ltb_lt _ NINDIRECT)) by (unfold MAXFILE in *; lia). rewrite Hdev.
    pose proof (get_addr_eq s i ip NDIRECT (gw_ip _ _ _ _ _ G) ltac:(unfold NDIRECT; lia)) as Ex.
    rewrite (bind_Ok _ _ _ _ _ Ex). rewrite (bind_Ok _ _ _ _ _ Ex) in E1.
    rewrite (bind_Ok _ _ _ _ _ E1), E2, Ha. done.
  - apply (grown_app 0 1 s I C ip K off [] s1 I1 C1 ip1 K []); [done|].
    pose proof (only_log_inodes _ _ O2) as Hin. pose proof Hi as (Hi0 & _). split.
    + split; [done|by rewrite (only_log_sb _ _ O2)|by unfold inode_at; rewrite Hin|apply Wr|by eapply put_ind_ok].
    + done.
    + by apply only_log_fs.
    + by rewrite Hin, list_insert_id.
    + by apply cost_entry.
    + unfold put_ind. rewrite free_store; [|by eapply take_block_ok|apply U].
      rewrite (take_block_free _ _ _ _ _ _ _ A Hf), Hf. cbn [length]. lia.
  - rewrite Ha, union_assoc_L, (union_comm_L {[ t ]}), <- union_assoc_L, (union_assoc_L {[ t ]} {[ t ]}), union_idemp_L.
    pose proof (cost_entry sb I1 ip1 t H1). lia.
Qed.

(** bmap() of a block the file has, or of the first it does not have. *)
Lemma bmap_any s I C ip K off bn :
  growing s I C ip K → 0 <= bn <= K → bn < MAXFILE → (cost I ip + 1 < cap)%nat → (1 + no_ind ip <= length (free_blocks C sb))%nat →
  grows s I C ip K off bn.
Proof.
  intros G Hbn HM Hc Hfr. destruct (decide (bn = K)) as [->|Hne].
  { destruct (decide (K < NDIRECT)); [apply bmap_direct|apply bmap_indirect]; done || lia. }
  pose proof G as [T Hsb Hi FO A]. pose proof (size_cost sb I ip). pose proof T as [V _ _ _ _].
  destruct (bmap_mapped s D W I ∅ C i ip bn V Hi) as (s' & E1 & O1 & V1).
  { apply (fb_map _ _ _ _ _ _ (file_ok_blocks _ _ _ FO)). lia. }
  { eapply txn_room; [done|lia|by vm_compute; lia]. }
  exists s', I, C, ip, K. split; [done|]. split; [|split; [lia|apply cost_add]].
  pose proof (only_io_only_log _ _ O1) as O1'. pose proof (only_log_inodes _ _ O1') as Hin. split; [split|..]; try done.
  - by eapply txn_io.
  - by rewrite (only_log_sb _ _ O1').
  - by unfold inode_at; rewrite Hin.
  - by apply wrote_refl.
  - by apply only_log_fs.
  - destruct Hi as (Hi & _). by rewrite Hin, list_insert_id.
  - lia.
  - lia.
Qed.

(** ** writei *)

Section Stored.
Context (C : Z → list Z) (ip : inode) (K off : Z) (l : list Z).
Context (FO : file_ok C ip K) (A : alloc_ok ∅ C sb) (Hoff : 0 <= off / BSIZE < K).
Context (Hl : Z.of_nat (length l) <= BSIZE - off mod BSIZE).
Notation C' := (file_store C ip off l).

Lemma store_addr bn : file_addr C' ip bn = file_addr C ip bn.
Proof using FO Hoff. by eapply file_store_addr; [apply file_ok_blocks|]. Qed.

Lemma store_used n : used C n → used C' n.
Proof using FO A Hoff.
  intros U. pose proof (fo_used _ _ _ FO _ Hoff) as Ua. apply used_store; try done; [apply Ua|]. rewrite length_put_list. apply Ua.
Qed.

Lemma wrote_store : wrote C ip K off l C' ip K.
Proof using FO A Hoff Hl.
  pose proof FO as [F1 F2 F3 F4 F5]. split; [split| | |..]; try done.
  - intros bn Hbn. rewrite store_addr. by apply store_used, F2.
  - intros bn bn' H1 H2. rewrite !store_addr. by apply F3.
  - destruct F4 as [F4|(U & N & Z0)]; [by left|right]. split; [by apply store_used|]. split; intros bn; rewrite store_addr; [by apply N|by apply Z0].
  - intros bn Hbn. rewrite store_addr. by apply F5.
  - by destruct ip.
  - intros k Hk. pose proof (Z.div_mod off BSIZE ltac:(done)). apply Z.div_lt_upper_bound; [done|]. unfold BSIZE in *. lia.
  - intros k Hk. rewrite (decide_True (P := k / BSIZE < K)) by lia. by eapply file_store_byte; [apply file_ok_blocks|..].
  - intros n (U & N1 & N2). split; [split; [by apply store_used|]|].
    + split; [done|]. intros bn Hbn. rewrite store_addr. by apply N2.
    + unfold file_store, fupd. by rewrite decide_False by (by apply N2).
Qed.

Lemma store_alloc : alloc_ok ∅ C' sb ∧ free_blocks C' sb = free_blocks C sb.
Proof using FO A Hoff.
  pose proof (us_map _ _ (fo_used _ _ _ FO _ Hoff)). split; [by apply alloc_store|by apply free_store].
Qed.

End Stored.

(** One round of writei(). *)
Lemma writei_round s I C ip K src n tot off :
  growing s I C ip K → 0 <= off → off / BSIZE <= K → off / BSIZE < MAXFILE → 0 <= tot < n → Z.of_nat (length src) = n →
  (cost I ip + 1 < cap)%nat → (1 + no_ind ip <= length (free_blocks C sb))%nat →
  let m := Z.min (n - tot) (BSIZE - off mod BSIZE) in
  ∃ s' I' C' ip' K', writei_body i src n (tot, off) s = Ok (inl (tot + m, u32 (off + m))) s' ∧
    grown 1 s I C ip K off (take (Z.to_nat m) (drop (Z.to_nat tot) src)) s' I' C' ip' K'.
Proof.
  intros G Ho HK HM Ht Hs Hc Hfr m. pose proof (Z.mod_pos_bound off BSIZE ltac:(done)). set (l := take _ _).
  assert (Z.of_nat (length l) = m) as Hlen by (unfold l; rewrite length_take, length_drop; lia).
  assert (0 <= off / BSIZE) by (by apply Z.div_pos).
  destruct (bmap_any s I C ip K off (off / BSIZE) G ltac:(lia) HM Hc Hfr) as (s1 & I1 & C1 & ip1 & K1 & E1 & G1 & HK1 & Hc1).
  pose proof G1 as [[T Hsb Hi FO A] W1 O1 Hin1 Hcost Hfree]. pose proof (size_cost sb I1 ip1).
  set (a := file_addr C1 ip1 (off / BSIZE)) in *. pose proof (fo_used _ _ _ FO (off / BSIZE) ltac:(lia)) as U. fold a in U.
  destruct (tx_modify D W L cap s1 I1 ∅ C1 a (λ d, put_list d (off mod BSIZE) l) T (us_ok _ _ U))
    as (b & x & s2 & s3 & s4 & s5 & F1 & _ & _ & F2 & F3 & F4 & T5 & O5 & _); [set_solver|lia|by vm_compute; lia|].
  pose proof (wrote_store C1 ip1 K1 off l FO A ltac:(lia) ltac:(lia)) as Wr.
  destruct (store_alloc C1 ip1 K1 off l FO A ltac:(lia)) as [A' Hfs]. change (fupd C1 a _) with (file_store C1 ip1 off l) in T5.
  exists s5, ({[ a ]} ∪ I1), (file_store C1 ip1 off l), ip1, K1. split.
  - unfold writei_body. rewrite (proj2 (Z.ltb_lt tot n)) by lia. cbn [negb].
    pose proof (gw_ip _ _ _ _ _ G) as (Hip & Hdev & _). rewrite (bind_Ok _ _ _ _ _ (get_inode_eq _ _ _ Hip)), Hdev.
    rewrite (bind_Ok _ _ _ _ _ E1), (bind_Ok _ _ _ _ _ F1), (bind_Ok _ _ _ _ _ F2), (bind_Ok _ _ _ _ _ F3), (bind_Ok _ _ _ _ _ F4). done.
  - pose proof (only_log_inodes _ _ O5) as Hin5. split.
    + split; [done|by rewrite (only_log_sb _ _ O5)|by unfold inode_at; rewrite Hin5|apply Wr|done].
    + apply (wrote_app C ip K off [] C1 ip1 K1 l); [done|]. by rewrite Z.add_0_r.
    + eapply only_fs_trans; [done|by apply only_log_fs].
    + by rewrite Hin5.
    + done.
    + by rewrite Hfs.
Qed.

Lemma grown_mono m m' s I C ip K off l s' I' C' ip' K' :
  (m <= m')%nat → grown m s I C ip K off l s' I' C' ip' K' → grown m' s I C ip K off l s' I' C' ip' K'.
Proof. intros Hm [G1 G2 G3 G4 G5 G6]. split; try done; lia. Qed.

Lemma writei_grow_loop fuel k s I C ip K src n tot off :
  growing s I C ip K → (cost I ip + k + 1 < cap)%nat → (k + 1 + no_ind ip <= length (free_blocks C sb))%nat →
  0 <= off <= K * BSIZE → off + (n - tot) <= MAXFILE * BSIZE → 0 <= tot <= n → Z.of_nat (length src) = n →
  n - tot <= BSIZE - off mod BSIZE + BSIZE * Z.of_nat k → (1 ≤ fuel)%nat → (tot < n → (k + 2 ≤ fuel)%nat) →
  ∃ s' I' C' ip' K', loop fuel (writei_body i src n) (tot, off) s = Ok (off + (n - tot)) s' ∧
    grown (k + 1) s I C ip K off (drop (Z.to_nat tot) src) s' I' C' ip' K'.
Proof.
  revert k s I C ip K tot off. induction fuel as [|fuel IH];
    intros k s I C ip K tot off G Hc Hfr Hoff Hend Htot Hsrc Hk Hf1 Hfuel; [lia|]. rewrite MAXFILE_eq in Hend. unfold BSIZE in Hend, Hoff.
  cbn [loop]. destruct (decide (tot = n)) as [->|Hne].
  { rewrite (bind_Ok _ _ s (inr off) s) by (unfold writei_body; by rewrite (proj2 (Z.ltb_ge n n)) by lia).
    exists s, I, C, ip, K. rewrite drop_ge by lia. split; [by rewrite Z.sub_diag, Z.add_0_r|].
    apply (grown_mono 0); [lia|]. by apply grown_refl. }
  pose proof (Z.mod_pos_bound off BSIZE ltac:(done)) as Hmod. pose proof (Z.div_mod off BSIZE ltac:(done)) as Hdiv.
  destruct (writei_round s I C ip K src n tot off G) as (s1 & I1 & C1 & ip1 & K1 & E1 & G1); try lia.
  { unfold BSIZE in *; lia. } { rewrite MAXFILE_eq. unfold BSIZE in *; lia. }
  rewrite (bind_Ok _ _ _ _ _ E1). cbn beta iota. set (m := Z.min (n - tot) (BSIZE - off mod BSIZE)) in *.
  rewrite u32_small by (unfold is_u32; unfold BSIZE in *; lia).
  set (l1 := take (Z.to_nat m) (drop (Z.to_nat tot) src)) in *.
  assert (Z.of_nat (length l1) = m) as Hl1 by (unfold l1; rewrite length_take, length_drop; lia).
  assert (drop (Z.to_nat tot) src = l1 ++ drop (Z.to_nat (tot + m)) src) as ->.
  { unfold l1. rewrite Z2Nat.inj_add, <- drop_drop, take_drop by lia. done. }
  destruct (decide (tot + m = n)) as [He|Hmore].
  { destruct fuel as [|fuel]; [lia|]. cbn [loop].
    rewrite (bind_Ok _ _ s1 (inr (off + m)) s1) by (unfold writei_body; by rewrite (proj2 (Z.ltb_ge (tot + m) n)) by lia).
    do 5 eexists. split; [replace (off + (n - tot)) with (off + m) by lia; done|].
    rewrite (drop_ge src), app_nil_r by lia. eapply grown_mono; [|done]. lia. }
  assert (m = BSIZE - off mod BSIZE) as Hm by lia. destruct k as [|k]; [unfold BSIZE in *; lia|].
  assert ((off + m) mod BSIZE = 0) as Hm0.
  { replace (off + m) with ((off / BSIZE + 1) * BSIZE) by lia. apply Z.mod_mul. done. }
  pose proof (wr_end _ _ _ _ _ _ _ _ (gn_wrote _ _ _ _ _ _ _ _ _ _ _ _ _ G1) (off + m - 1) ltac:(unfold BSIZE in *; lia)) as HK1.
  pose proof (Z.div_mod (off + m - 1) BSIZE ltac:(done)). pose proof (Z.mod_pos_bound (off + m - 1) BSIZE ltac:(done)).
  assert (0 <= off + m <= K1 * BSIZE) as HK1' by (unfold BSIZE in *; lia).
  pose proof (gn_cost _ _ _ _ _ _ _ _ _ _ _ _ _ G1). pose proof (gn_free _ _ _ _ _ _ _ _ _ _ _ _ _ G1).
  destruct (IH k s1 I1 C1 ip1 K1 (tot + m) (off + m) (gn_ok _ _ _ _ _ _ _ _ _ _ _ _ _ G1)) as (s2 & I2 & C2 & ip2 & K2 & E2 & G2);
    try lia; [rewrite MAXFILE_eq; unfold BSIZE in *; lia|].
  exists s2, I2, C2, ip2, K2. split; [replace (off + (n - tot)) with (off + m + (n - (tot + m))) by lia; done|].
  replace (S k + 1)%nat with (1 + (k + 1))%nat by lia. eapply grown_app; [done|]. by rewrite Hl1.
Qed.

(** A block of another file, or of inodes, is changed. *)
Section Foreign.
Context (C : Z → list Z) (ip : inode) (K a : Z) (d : list Z).
Context (FO : file_ok C ip K) (A : alloc_ok ∅ C sb) (Hf : foreign C ip K a) (Hd : length d = 512%nat).

Lemma foreign_addr bn : file_addr (fupd C a d) ip bn = file_addr C ip bn.
Proof using Hf.
  destruct Hf as (_ & N & _). unfold file_addr, fupd. by rewrite (decide_False (P := ind_addr ip = a)) by (by apply not_eq_sym).
Qed.

Lemma foreign_used n : used C n → used (fupd C a d) n.
Proof using A Hf Hd. apply used_store; [done|apply (us_map _ _ (proj1 Hf))|done]. Qed.

Lemma foreign_ok : file_ok (fupd C a d) ip K.
Proof using FO A Hf Hd.
  destruct FO as [F1 F2 F3 F4 F5]. split; [done|..].
  - intros bn Hbn. rewrite foreign_addr. by apply foreign_used, F2.
  - intros bn bn' H1 H2. rewrite !foreign_addr. by apply F3.
  - destruct F4 as [F4|(U & N & Z0)]; [by left|right]. split; [by apply foreign_used|]. split; intros bn; rewrite foreign_addr; [by apply N|by apply Z0].
  - intros bn Hbn. rewrite foreign_addr. by apply F5.
Qed.

Lemma foreign_byte k : 0 <= k / BSIZE < K → file_byte (fupd C a d) ip k = file_byte C ip k.
Proof using Hf.
  intros Hk. unfold file_byte. rewrite foreign_addr. destruct Hf as (_ & _ & N). unfold fupd. by rewrite decide_False by (apply not_eq_sym, N, Hk).
Qed.

Lemma foreign_foreign n : foreign C ip K n → foreign (fupd C a d) ip K n.
Proof using A Hf Hd.
  intros (U & N1 & N2). split; [by apply foreign_used|]. split; [done|]. intros bn Hbn. rewrite foreign_addr. by apply N2.
Qed.

End Foreign.

(** The inode is copied to its block. *)
Lemma iupdate_spec s I C ip K :
  growing s I C ip K → (size I < cap)%nat → foreign C ip K (IBLOCK (i_inum ip) sb) →
  let ib := IBLOCK (i_inum ip) sb in
  ∃ s', iupdate i s = Ok tt s' ∧ growing s' ({[ ib ]} ∪ I) (fupd C ib (put_dinode (C ib) (dip (i_inum ip)) (dinode_of ip))) ip K ∧
    only_log s s'.
Proof.
  intros [T Hsb Hi FO A] HI Hf ib. pose proof Hi as (Hip & Hdev & _). pose proof (us_ok _ _ (proj1 Hf)) as Hib.
  destruct (tx_modify D W L cap s I ∅ C ib (λ d, put_dinode d (dip (i_inum ip)) (dinode_of ip)) T Hib)
    as (b & x & s2 & s3 & s4 & s5 & F1 & _ & _ & F2 & F3 & F4 & T5 & O5 & _); [set_solver|lia|by vm_compute; lia|].
  assert (length (put_dinode (C ib) (dip (i_inum ip)) (dinode_of ip)) = 512%nat) by (rewrite length_put_dinode; apply Hf).
  exists s5. split; [|split; [split|done]].
  - unfold iupdate. rewrite (bind_Ok _ _ _ _ _ (get_inode_eq _ _ _ Hip)), (bind_Ok _ _ s sb s) by (unfold gets; by rewrite Hsb).
    rewrite Hdev, (bind_Ok _ _ _ _ _ F1), (bind_Ok _ _ _ _ _ F2), (bind_Ok _ _ _ _ _ F3). done.
  - done.
  - by rewrite (only_log_sb _ _ O5).
  - by unfold inode_at; rewrite (only_log_inodes _ _ O5).
  - by apply foreign_ok.
  - apply alloc_store; [done|apply Hf].
Qed.

(** ** The bytes of the file *)

Lemma lookup_file_range C ip n j : (j < Z.to_nat n)%nat → file_range C ip 0 n !! j = Some (file_byte C ip (Z.of_nat j)).
Proof. intros Hj. unfold file_range. by rewrite list_lookup_fmap, lookup_seqZ_lt by lia. Qed.

Lemma wrote_range C ip K off src C' ip' K' sz :
  wrote C ip K off src C' ip' K' → Forall is_u8 src → 0 <= off <= sz → sz <= K * BSIZE →
  file_range C' ip' 0 (Z.max sz (off + Z.of_nat (length src))) = splice (file_range C ip 0 sz) off src.
Proof.
  intros Wr H8 Ho HK. set (m := Z.max _ _). assert (length (splice (file_range C ip 0 sz) off src) = Z.to_nat m) as Hlen.
  { unfold splice. rewrite !length_app, length_take, length_drop, length_file_range. lia. }
  apply list_eq. intros j. destruct (decide (j < Z.to_nat m)%nat) as [Hj|Hj].
  2:{ rewrite !lookup_ge_None_2; [done|lia|rewrite length_file_range; lia]. }
  assert (Z.of_nat j < sz → Z.of_nat j / BSIZE < K) as HjK by (intros; apply Z.div_lt_upper_bound; [done|lia]).
  assert (0 <= Z.of_nat j / BSIZE) by (apply Z.div_pos; lia || done). pose proof (wr_K _ _ _ _ _ _ _ _ Wr).
  assert (Z.of_nat j / BSIZE < K') as HjK'.
  { destruct (decide (Z.of_nat j < sz)); [pose proof (HjK ltac:(lia)); lia|]. apply (wr_end _ _ _ _ _ _ _ _ Wr). lia. }
  rewrite lookup_file_range, (wr_byte _ _ _ _ _ _ _ _ Wr) by lia. unfold splice.
  assert (length (take (Z.to_nat off) (file_range C ip 0 sz)) = Z.to_nat off) as Hlt by (rewrite length_take, length_file_range; lia).
  destruct (decide (off <= Z.of_nat j < _)) as [Hin|Hout].
  - rewrite lookup_app_r, lookup_app_l by lia. rewrite Hlt. replace (Z.to_nat (Z.of_nat j - off)) with (j - Z.to_nat off)%nat by lia.
    destruct (lookup_lt_is_Some_2 src (j - Z.to_nat off)) as [x Hx]; [lia|]. rewrite Hx. cbn. f_equal. apply u8_small.
    by apply (proj1 (Forall_lookup _ _) H8 _ _ Hx).
  - rewrite decide_True by (apply HjK; lia). destruct (decide (Z.of_nat j < off)).
    + rewrite lookup_app_l, lookup_take_lt, lookup_file_range by lia. done.
    + rewrite lookup_app_r, lookup_app_r, lookup_drop by lia. rewrite Hlt.
      replace (Z.to_nat off + length src + (j - Z.to_nat off - length src))%nat with j by lia. by rewrite lookup_file_range by lia.
Qed.

(** The inode in memory can be kept on disk. *)
Lemma file_ok_addrs C ip K : file_ok C ip K → length (i_addrs ip) = 13%nat → Forall is_u32 (i_addrs ip).
Proof.
  intros [F1 F2 F3 F4 F5] Hl. assert (∀ n, used C n → is_u32 n) as Hu.
  { intros n [[Hn _ _] _ _ _ _]. unfold is_u32. lia. }
  apply Forall_lookup. intros j x Hj. pose proof (lookup_lt_Some _ _ _ Hj) as Hj'. destruct (decide (j < 12)%nat).
  - assert (file_addr C ip (Z.of_nat j) = x) as Hx.
    { unfold file_addr, NDIRECT. by rewrite (proj2 (Z.ltb_lt _ _)), Nat2Z.id, Hj by lia. }
    destruct (decide (Z.of_nat j < K)); [rewrite <- Hx; apply Hu, F2; lia|].
    rewrite <- Hx, F5 by (unfold NDIRECT; lia). done.
  - assert (j = 12%nat) as -> by lia. assert (ind_addr ip = x) as <- by (unfold ind_addr; by rewrite Hj).
    destruct F4 as [[_ ->]|[U _]]; [done|by apply Hu].
Qed.

(** What writei() leaves: the inode [ip'] of a file of [K'] blocks. *)
Record extended (s : kstate) (C : Z → list Z) (ip : inode) (K off : Z) (src : list Z)
    (s' : kstate) (C' : Z → list Z) (ip' : inode) (K' : Z) : Prop := {
  ex_size : i_size ip' = Z.max (i_size ip) (off + Z.of_nat (length src));
  ex_ip : ip' = set_i_size (i_size ip') (set_i_addrs (i_addrs ip') ip);
  ex_fs : only_fs s s';
  ex_inodes : k_inodes s' = <[i := ip']> (k_inodes s);
  ex_room : i_size ip' <= K' * BSIZE;
  ex_bytes : file_range C' ip' 0 (i_size ip') = splice (file_range C ip 0 (i_size ip)) off src;
  ex_other n : foreign C ip K n → foreign C' ip' K' n ∧ (n ≠ IBLOCK (i_inum ip) sb → C' n = C n);
  ex_disk : i_size ip < off + Z.of_nat (length src) → get_dinode (C' (IBLOCK (i_inum ip) sb)) (dip (i_inum ip)) = dinode_of ip'
}.

Lemma dip_range inum : 0 <= dip inum ∧ dip inum + DINODE_SIZE <= 512.
Proof.
  unfold dip. pose proof (Z.mod_pos_bound inum IPB ltac:(done)) as Hm. revert Hm. change IPB with 8. unfold DINODE_SIZE. lia.
Qed.

(** The end of a write past the end of the file: the new size goes to the inode's block. *)
Lemma writei_size s I C ip K s1 I1 C1 ip1 K1 m off src :
  grown m s I C ip K off src s1 I1 C1 ip1 K1 → Forall is_u8 src → 0 <= off <= i_size ip → i_size ip <= K * BSIZE →
  i_size ip < off + Z.of_nat (length src) → off + Z.of_nat (length src) <= MAXFILE * BSIZE → dinode_wf (dinode_of ip) →
  foreign C ip K (IBLOCK (i_inum ip) sb) → (cost I ip + m < cap)%nat →
  ∃ s' I' C' ip', (upd_inode i (set_i_size (off + Z.of_nat (length src))) ;; iupdate i) s1 = Ok tt s' ∧
    growing s' I' C' ip' K1 ∧ extended s C ip K off src s' C' ip' K1 ∧ (size I' <= cost I ip + m + 1)%nat.
Proof.
  intros [[T Hsb Hi FO A] Wr O1 Hin Hc Hf] H8 Ho HK Hlt HM Hwf Hfo Hcap. set (z := off + Z.of_nat (length src)) in *.
  pose proof Hi as (Hip & Hdev & Hl). pose proof (wr_ip _ _ _ _ _ _ _ _ Wr) as Hip1. pose proof (size_cost sb I1 ip1).
  destruct (upd_inode_eq s1 I1 C1 ip1 (set_i_size z) T Hi Hdev Hl) as (s2 & E2 & T2 & Hi2 & Hin2 & O2).
  assert (i_inum ip1 = i_inum ip) as Hnum by (by rewrite Hip1). destruct (wr_other _ _ _ _ _ _ _ _ Wr _ Hfo) as [Hfo1 HC1].
  assert (growing s2 I1 C1 (set_i_size z ip1) K1) as G2.
  { split; [done|by rewrite (only_fs_sb _ _ O2)|done|by destruct FO; split|done]. }
  destruct (iupdate_spec s2 I1 C1 _ K1 G2 ltac:(lia)) as (s3 & E3 & G3 & O3); [by cbn [set_i_size i_inum]; rewrite Hnum|].
  cbn [set_i_size i_inum] in E3, G3. rewrite Hnum in G3. set (ib := IBLOCK (i_inum ip) sb) in *.
  set (d := put_dinode (C1 ib) (dip (i_inum ip)) _) in G3.
  assert (length d = 512%nat) as Hd by (unfold d; rewrite length_put_dinode; apply Hfo1).
  eexists s3, _, _, (set_i_size z ip1). split; [by rewrite (bind_Ok _ _ _ _ _ E2)|]. split; [exact G3|]. split.
  2:{ pose proof (size_add ib I1). lia. }
  assert (z <= K1 * BSIZE) as HzK.
  { pose proof (wr_end _ _ _ _ _ _ _ _ Wr (z - 1) ltac:(lia)). pose proof (Z.div_mod (z - 1) BSIZE ltac:(done)).
    pose proof (Z.mod_pos_bound (z - 1) BSIZE ltac:(done)). unfold BSIZE in *. lia. }
  split; cbn [set_i_size i_size i_addrs].
  - lia.
  - rewrite Hip1. by destruct ip.
  - eapply only_fs_trans; [exact O1|]. eapply only_fs_trans; [exact O2|by apply only_log_fs].
  - by rewrite (only_log_inodes _ _ O3), Hin2, Hin, list_insert_insert_eq.
  - done.
  - rewrite <- (wrote_range _ _ _ _ _ _ _ _ _ Wr H8 Ho HK). fold z. rewrite Z.max_r by lia. unfold file_range. apply list_fmap_ext.
    intros j k Hk. apply lookup_seqZ in Hk as [-> Hk]. apply (foreign_byte C1 (set_i_size z ip1) K1 ib d Hfo1).
    split; [apply Z.div_pos; lia || done|]. apply Z.div_lt_upper_bound; [done|lia].
  - intros n Hn. destruct (wr_other _ _ _ _ _ _ _ _ Wr n Hn) as [Hn1 HCn].
    split; [by apply (foreign_foreign C1 (set_i_size z ip1) K1)|]. intros Hne. unfold fupd. by rewrite decide_False.
  - intros _. unfold fupd. rewrite decide_True by done. destruct (dip_range (i_inum ip)) as [D1 D2]. apply get_put_dinode; [|done|].
    + destruct Hwf as (W1 & W2 & W3 & W4 & _). unfold dinode_wf, dinode_of.
      cbn [di_type di_major di_minor di_nlink di_size di_addrs set_i_size i_type i_major i_minor i_nlink i_size i_addrs] in *.
      rewrite Hip1 at 1 2 3 4 5 6 7 8. cbn [set_i_addrs i_type i_major i_minor i_nlink]. split_and!; try done.
      * unfold is_u32. rewrite MAXFILE_eq in HM. unfold BSIZE in HM. lia.
      * by eapply file_ok_addrs.
    + rewrite (us_len _ _ (proj1 Hfo1)). lia.
Qed.

(** The whole of writei(), on a file that is no device. *)
Lemma writei_grow s I C ip K src off n :
  growing s I C ip K → i_type ip ≠ T_DEV → dinode_wf (dinode_of ip) → foreign C ip K (IBLOCK (i_inum ip) sb) →
  Z.of_nat (length src) = n → Forall is_u8 src → 0 <= off <= i_size ip → i_size ip <= K * BSIZE → off + n <= MAXFILE * BSIZE →
  (cost I ip + Z.to_nat (n / BSIZE) + 3 < cap)%nat → (Z.to_nat (n / BSIZE) + 2 + no_ind ip <= length (free_blocks C sb))%nat →
  ∃ s' I' C' ip' K', writei i src off n s = Ok n s' ∧ growing s' I' C' ip' K' ∧ extended s C ip K off src s' C' ip' K' ∧
    (size I' < cap)%nat.
Proof.
  intros G Hty Hwf Hfo Hsrc H8 Ho HK HM Hcap Hfr. pose proof (gw_ip _ _ _ _ _ G) as (Hip & _).
  pose proof (Z.mod_pos_bound off BSIZE ltac:(done)). pose proof (Z.div_mod n BSIZE ltac:(done)).
  pose proof (Z.mod_pos_bound n BSIZE ltac:(done)). pose proof (Z.div_pos n BSIZE ltac:(lia) ltac:(done)) as Hdp.
  destruct (writei_grow_loop (blocks_of n) (Z.to_nat (n / BSIZE + 1)) s I C ip K src n 0 off G)
    as (s1 & I1 & C1 & ip1 & K1 & E1 & G1); try lia; try (unfold blocks_of; lia).
  change (drop (Z.to_nat 0) src) with src in G1. rewrite Z.sub_0_r in E1.
  pose proof G1 as [[T1 _ Hi1 FO1 A1] Wr O1 Hin1 Hc1 _]. pose proof Hi1 as (Hip1 & _). pose proof (wr_ip _ _ _ _ _ _ _ _ Wr) as Hipe.
  assert (∀ r s', when ((n >? 0) && (off + n >? i_size ip)) (upd_inode i (set_i_size (off + n)) ;; iupdate i) s1 = Ok r s' →
    writei i src off n s = Ok n s') as Hrun.
  { intros r s' Ew. unfold writei. rewrite (bind_Ok _ _ _ _ _ (get_inode_eq _ _ _ Hip)), (proj2 (Z.eqb_neq _ _) Hty).
    assert (MAXFILE * BSIZE = 71680) as HMB by done.
    rewrite u32_small by (unfold is_u32; lia). rewrite (proj2 (orb_false_iff _ _)) by (rewrite Z.gtb_ltb, !Z.ltb_ge; lia).
    rewrite (Z.gtb_ltb (off + n)), (proj2 (Z.ltb_ge _ _)) by lia. unfold writei_loop.
    rewrite (bind_Ok _ _ _ _ _ E1), (bind_Ok _ _ _ _ _ (get_inode_eq _ _ _ Hip1)).
    replace (i_size ip1) with (i_size ip) by (by rewrite Hipe). rewrite (bind_Ok _ _ _ _ _ Ew), s32_small by lia. done. }
  rewrite !Z.gtb_ltb in Hrun. destruct (decide (i_size ip < off + n)) as [Hlt|Hge].
  - rewrite !(proj2 (Z.ltb_lt _ _)) in Hrun by lia. cbn [andb when] in Hrun.
    destruct (writei_size s I C ip K s1 I1 C1 ip1 K1 (Z.to_nat (n / BSIZE + 1) + 1) off src)
      as (s2 & I2 & C2 & ip2 & E2 & G2 & X2 & Hs2); try done; try lia.
    rewrite Hsrc in E2. exists s2, I2, C2, ip2, K1. split; [by eapply Hrun|]. split; [done|]. split; [done|lia].
  - rewrite (proj2 (Z.ltb_ge (i_size ip) _)), andb_false_r in Hrun by lia. specialize (Hrun tt s1 eq_refl).
    assert (i_size ip1 = i_size ip) as Hsz by (by rewrite Hipe). pose proof (wr_K _ _ _ _ _ _ _ _ Wr).
    exists s1, I1, C1, ip1, K1. split; [done|]. split; [by apply G1|]. split.
    + split; try done; rewrite ?Hsz; try lia.
      * rewrite Hipe. by destruct ip.
      * unfold BSIZE in *. lia.
      * rewrite <- (wrote_range _ _ _ _ _ _ _ _ _ Wr H8 Ho HK). by rewrite Z.max_l by lia.
      * intros x Hx. destruct (wr_other _ _ _ _ _ _ _ _ Wr x Hx). done.
    + pose proof (size_cost sb I1 ip1). lia.
Qed.

(** C5. A file is what was written to it, also past its end. writei() at an offset inside the
    file or at its end, inside a transaction with room in the log and with free blocks on
    the disk, returns the count; the file is then its old bytes with the new ones in their
    place, as long as the two need. readi() of any range returns those bytes, cut at the
    end, or -1 past it; a new length is in the inode's block; the blocks of other files
    have not changed. *)
Theorem file_grows s I C ip K src off n off' n' :
  growing s I C ip K → i_type ip ≠ T_DEV → dinode_wf (dinode_of ip) → foreign C ip K (IBLOCK (i_inum ip) sb) →
  Z.of_nat (length src) = n → Forall is_u8 src → 0 <= off <= i_size ip → i_size ip <= K * BSIZE → off + n <= MAXFILE * BSIZE →
  (cost I ip + Z.to_nat (n / BSIZE) + 3 < cap)%nat → (Z.to_nat (n / BSIZE) + 2 + no_ind ip <= length (free_blocks C sb))%nat →
  0 <= off' < 4294967296 → 0 <= n' < 4294967296 →
  let F' := splice (file_range C ip 0 (i_size ip)) off src in
  let sz := Z.of_nat (length F') in
  let m := Z.min n' (sz - off') in
  ∃ s1 s2 C' ip', writei i src off n s = Ok n s1 ∧ k_inodes s1 = <[i := ip']> (k_inodes s) ∧ i_size ip' = sz ∧
    readi i off' n' s1 = Ok (if decide (off' <= sz ∧ off' + n' < 4294967296)
                             then (m, take (Z.to_nat m) (drop (Z.to_nat off') F')) else (-1, [])) s2 ∧
    (i_size ip < sz → get_dinode (C' (IBLOCK (i_inum ip) sb)) (dip (i_inum ip)) = dinode_of ip') ∧
    (∀ b, foreign C ip K b → b ≠ IBLOCK (i_inum ip) sb → C' b = C b) ∧ ∃ I', txn s2 I' ∅ C'.
Proof.
  intros G Hty Hwf Hfo Hsrc H8 Ho HK HM Hcap Hfr Hoff' Hn' F' sz m.
  destruct (writei_grow s I C ip K src off n) as (s1 & I1 & C1 & ip1 & K1 & E1 & [T Hsb Hi FO A] & [X1 X2 X3 X4 X5 X6 X7 X8] & HI); try done.
  assert (sz = i_size ip1) as Hsz by (unfold sz, F'; rewrite <- X6, length_file_range; lia).
  assert (MAXFILE * BSIZE = 71680) as HMB by done. pose proof (fo_K _ _ _ FO).
  destruct (readi_spec s1 D W I1 ∅ C1 i ip1 off' n' (tx_view _ _ _ _ _ _ _ _ T) Hi) as (s2 & E2 & O2 & V2); try done.
  { eapply txn_room; [done|done|by vm_compute; lia]. } { by rewrite X2. }
  { unfold BSIZE in *. nia. }
  { intros bn Hb0 Hb1. apply (fb_map _ _ _ _ _ _ (file_ok_blocks _ _ _ FO)). unfold BSIZE in *. lia. }
  exists s1, s2, C1, ip1. split_and!; try done.
  - rewrite E2. unfold m. rewrite Hsz. case_decide as Hok; [|done]. do 2 f_equal.
    rewrite (file_range_sub C1 ip1 off' _ (i_size ip1)) by lia. unfold F'. by rewrite X6.
  - rewrite Hsz, X1. intros. apply X8. lia.
  - intros b Hb Hne. by apply X7.
  - exists I1. by eapply txn_io.
Qed.

End Grow.

(** ** Checking a concrete file *)

Definition block_okb (s : kstate) (n : Z) : bool :=
  (0 <=? n) && (n <? 2147483648) && bool_decide (is_Some (k_disk s !! n)) &&
  negb ((l_start (k_log s) <=? n) && (n <? l_start (k_log s) + l_size (k_log s))).
Definition usedb (s : kstate) (sb : superblock) (n : Z) : bool :=
  block_okb s n && (0 <? n) && (n <? sb_size sb) && bit (blk s) sb n && negb (n =? sb_bmapstart sb) &&
  (length (blk s n) =? 512)%nat.

Lemma block_okb_ok s n : block_okb s n = true → block_ok (k_disk s) (log_area (k_log s)) n.
Proof.
  unfold block_okb. rewrite !andb_true_iff, negb_true_iff, andb_false_iff, Z.leb_le, Z.ltb_lt, Z.leb_gt, Z.ltb_ge, bool_decide_eq_true.
  intros [[[H1 H2] H3] H4]. split; [lia| |done]. unfold log_area. lia.
Qed.

Lemma usedb_ok s sb n : usedb s sb n = true → used (k_disk s) (log_area (k_log s)) sb (blk s) n.
Proof.
  unfold usedb. rewrite !andb_true_iff, negb_true_iff, !Z.ltb_lt, Z.eqb_neq, Nat.eqb_eq.
  intros [[[[[H1 H2] H3] H4] H5] H6]. split; try done. by apply block_okb_ok.
Qed.

Lemma forall_range (f : Z → bool) (P : Z → Prop) a n :
  forallb f (seqZ a n) = true → (∀ b, f b = true → P b) → ∀ b, a <= b < a + n → P b.
Proof.
  intros H HP b Hb. apply HP. rewrite forallb_forall in H. apply H, list_elem_of_In, elem_of_seqZ. lia.
Qed.

(** A state at the start of an operation, with nothing in the log and nothing in use. *)
Definition txnb (s : kstate) : bool :=
  let g := k_log s in
  bool_decide (some_blocks (λ x, has (b_flags x) B_DIRTY) s = []) && bool_decide (some_blocks (λ x, has (b_flags x) B_BUSY) s = []) &&
  bool_decide (Llog ∉ k_held s) && (l_dev g =? 1) && (0 <=? l_start g) && (l_start g + l_size g <? 2147483648) &&
  (lh_n g =? 0) && (0 <? l_size g) && (Z.of_nat (length (lh_block g)) =? LOGSIZE) && (l_size g <=? LOGSIZE) &&
  (1 <=? l_outstanding g) && forallb (λ n, bool_decide (is_Some (k_disk s !! n))) (seqZ (l_start g) (l_size g)).

Lemma txn_check {E : Env} s l :
  io_ok s → binvb s l = true → txnb s = true →
  txn (k_disk s) (k_dwrites s) (log_area (k_log s)) (Z.to_nat (l_size (k_log s) - 1)) s ∅ ∅ (blk s).
Proof.
  intros Hio Hb. unfold txnb. rewrite !andb_true_iff, !bool_decide_eq_true, !Z.eqb_eq, !Z.leb_le, !Z.ltb_lt.
  intros [[[[[[[[[[[Q1 Q2] Q3] Q4] Q5] Q6] Q7] Q8] Q9] Q10] Q11] Q12].
  assert (lblocks (k_log s) = []) as Hl by (unfold lblocks; by rewrite Q7).
  pose proof (bview_check s l Hio Hb) as V. rewrite Q1, Q2 in V. split; [exact V|unfold in_log; by rewrite Hl| |lia|done].
  split; [done| |lia|done|done]. split; [done|done|done|lia|rewrite Q7; done|done|..].
  - rewrite Hl. intros b Hb'. by apply not_elem_of_nil in Hb'.
  - rewrite Hl. apply NoDup_nil_2.
  - apply (forall_range (λ n, bool_decide (is_Some (k_disk s !! n))) _ _ _ Q12). intros b. apply bool_decide_eq_true.
Qed.

(** A bitmap in one block, whose free blocks can be used. *)
Definition allocb (s : kstate) (sb : superblock) : bool :=
  (0 <? sb_size sb) && (sb_size sb <=? BPB) && (0 <=? sb_bmapstart sb) && (sb_bmapstart sb <? 2147483648) &&
  block_okb s (sb_bmapstart sb) && (length (blk s (sb_bmapstart sb)) =? 512)%nat && bit (blk s) sb 0 &&
  forallb (λ b, (BBLOCK b sb =? sb_bmapstart sb) && (bit (blk s) sb b || block_okb s b && negb (b =? sb_bmapstart sb)))
    (seqZ 0 (sb_size sb)).

Lemma alloc_check s sb : allocb s sb = true → alloc_ok (k_disk s) (log_area (k_log s)) ∅ (blk s) sb.
Proof.
  unfold allocb. rewrite !andb_true_iff, !Z.ltb_lt, !Z.leb_le, Nat.eqb_eq. intros [[[[[[[Q1 Q2] Q3] Q4] Q5] Q6] Q7] Q8].
  assert (∀ b, 0 <= b < sb_size sb → BBLOCK b sb = sb_bmapstart sb ∧
    (bit (blk s) sb b = false → block_okb s b = true ∧ b ≠ sb_bmapstart sb)) as Hall.
  { apply (forall_range _ _ 0 _ Q8). intros b. rewrite andb_true_iff, Z.eqb_eq. intros [Hb Hf]. split; [done|]. intros Hz.
    rewrite Hz, orb_false_l, andb_true_iff, negb_true_iff, Z.eqb_neq in Hf. done. }
  split; [split|..]; try done.
  - unfold BPB, BSIZE in Q2. lia.
  - intros b Hb. rewrite (proj1 (Hall b Hb)). split; [by apply block_okb_ok|apply not_elem_of_empty].
  - intros b Hb. by rewrite (proj1 (Hall b Hb)).
  - intros b Hb Hz. destruct (proj2 (Hall b Hb) Hz) as [Hok Hne]. split; [by apply block_okb_ok|]. split; [apply not_elem_of_empty|done].
Qed.

(** A disk of 40 blocks: the log in 2 to 21, inodes in 22, the bitmap in 23 and a file of
    twelve whole blocks from 24 on. The file is at the end of its direct blocks. *)
Section Example.
#[local] Existing Instance env_idle.

Definition grow_sb : superblock := mksb 40 16 8 20 2 22 23.
Definition grow_ip : inode := mkinode 1 1 1 2 T_FILE 0 0 1 6144 (seqZ 24 12 ++ [0]).
Definition grow_disk : gmap Z (list Z) :=
  list_to_map (((λ n, (n, if n =? 1 then put_words (block 0) 0 [40; 16; 8; 20; 2; 22; 23] else block 0)) <$> seqZ 0 22) ++
    (22, put_dinode (block 0) (dip 1) (dinode_of grow_ip)) :: (23, put_list (block 0) 0 [255; 255; 255; 255; 15]) ::
    ((λ n, (n, block n)) <$> seqZ 24 16)).
Definition fs_ex (disk : gmap Z (list Z)) (ip : inode) : kstate :=
  after (binit ;; modify (set_k_disk disk) ;; modify (set_k_sb grow_sb) ;;
         modify (set_k_log (mklog 2 20 0 0 1 0 (replicate 30 0))) ;; begin_op ;;
         modify (λ s, set_k_inodes (<[0%nat := ip]> (k_inodes s)) s)).
Definition grow_ex : kstate := Eval vm_compute in fs_ex grow_disk grow_ip.

Notation gD := (k_disk grow_ex).
Notation gL := (log_area (k_log grow_ex)).
Notation gC := (blk grow_ex).

Lemma grow_ex_txn : txn gD [] gL 19 grow_ex ∅ ∅ gC.
Proof. apply (txn_check grow_ex (reverse (seq 0 30))); [split_and!; try done; vm_compute; lia|by vm_compute..]. Qed.

Lemma grow_ex_alloc : alloc_ok gD gL ∅ gC grow_sb.
Proof. apply alloc_check. by vm_compute. Qed.

Lemma grow_ex_addr bn : 0 <= bn < 12 → file_addr gC grow_ip bn = 24 + bn.
Proof.
  revert bn. apply (forall_range (λ bn, file_addr gC grow_ip bn =? 24 + bn) _ 0 12); [by vm_compute|]. intros b. apply Z.eqb_eq.
Qed.

Lemma grow_ex_file : file_ok gD gL grow_sb gC grow_ip 12.
Proof.
  split.
  - by rewrite MAXFILE_eq.
  - intros bn Hbn. rewrite grow_ex_addr by done. revert bn Hbn.
    apply (forall_range (λ bn, usedb grow_ex grow_sb (24 + bn)) _ 0 12); [by vm_compute|]. intros b. apply usedb_ok.
  - intros bn bn' H1 H2. rewrite !grow_ex_addr by done. lia.
  - by left.
  - intros bn Hbn. unfold NDIRECT in Hbn. lia.
Qed.

Lemma grow_ex_dinode : dinode_wf (dinode_of grow_ip).
Proof.
  split; [by vm_compute|]. split; [by vm_compute|]. split; [by vm_compute|]. split; [by vm_compute|]. split; [by vm_compute|].
  split; [|done]. apply Forall_app. split; [|by repeat constructor]. apply Forall_forall. intros x Hx. apply elem_of_seqZ in Hx. unfold is_u32. lia.
Qed.

Lemma grow_ex_growing : growing gD [] gL 19 grow_sb 0 grow_ex ∅ gC grow_ip 12.
Proof. split; [exact grow_ex_txn|done|by split_and!|exact grow_ex_file|exact grow_ex_alloc]. Qed.

Lemma block_allocator_witness :
  free_blocks gC grow_sb = [36; 37; 38; 39] ∧ ∃ s1 s2 C1 C2 I1 I2,
    balloc 1 grow_ex = Ok 36 s1 ∧ txn gD [] gL 19 s1 I1 ∅ C1 ∧ free_blocks C1 grow_sb = [37; 38; 39] ∧
    C1 36 = zero_block ∧ (∀ b, b ≠ 36 → b ≠ 23 → C1 b = gC b) ∧
    bfree 1 36 s1 = Ok tt s2 ∧ txn gD [] gL 19 s2 I2 ∅ C2 ∧ free_blocks C2 grow_sb = [36; 37; 38; 39] ∧
    (∀ b, b ≠ 36 → b ≠ 23 → C2 b = gC b) ∧ bfree 1 36 s2 = Panic "freeing free block".
Proof.
  assert (free_blocks gC grow_sb = [36; 37; 38; 39]) as Hf by (by vm_compute). split; [done|].
  pose proof (block_allocator gD [] gL 19 grow_ex ∅ gC grow_sb grow_ex_txn eq_refl) as Hb. rewrite Hf in Hb.
  apply Hb; clear; [by vm_compute|by eexists|by vm_compute|done|exact grow_ex_alloc|done|apply Nat.ltb_lt; by vm_compute].
Defined.

Lemma file_grows_witness :
  ∃ s1 s2 C' ip', writei 0 (replicate 600 9) 6100 600 grow_ex = Ok 600 s1 ∧ k_inodes s1 = <[0%nat := ip']> (k_inodes grow_ex) ∧
    i_size ip' = 6700 ∧ readi 0 6090 1000 s1 = Ok (610, replicate 10 35 ++ replicate 600 9) s2 ∧
    (6144 < 6700 → get_dinode (C' 22) (dip 1) = dinode_of ip') ∧
    (∀ b, foreign gD gL grow_sb gC grow_ip 12 b → b ≠ 22 → C' b = gC b) ∧ ∃ I', txn gD [] gL 19 s2 I' ∅ C'.
Proof.
  pose proof (file_grows gD [] gL 19 grow_sb 0 grow_ex ∅ gC grow_ip 12 (replicate 600 9) 6100 600 6090 1000 grow_ex_growing) as Hg.
  cbv zeta in Hg. set (F' := splice _ _ _) in Hg.
  assert (Z.of_nat (length F') = 6700) as Hl by (by vm_compute). rewrite Hl in Hg.
  assert ((if decide (6090 <= 6700 ∧ 6090 + 1000 < 4294967296)
    then (Z.min 1000 (6700 - 6090), take (Z.to_nat (Z.min 1000 (6700 - 6090))) (drop (Z.to_nat 6090) F')) else (-1, [])) =
    (610, replicate 10 35 ++ replicate 600 9)) as Hv by (by vm_compute).
  rewrite Hv in Hg. apply Hg; clear.
  - done.
  - exact grow_ex_dinode.
  - split; [apply usedb_ok; by vm_compute|]. split; [done|]. intros bn Hbn. rewrite grow_ex_addr by done.
    change (22 ≠ 24 + bn). lia.
  - done.
  - by apply Forall_replicate.
  - done.
  - done.
  - done.
  - apply Nat.ltb_lt. by vm_compute.
  - apply Nat.leb_le. by vm_compute.
  - done.
  - done.
Defined.

End Example.
