(* ===== verification/TruncSpec.v ===== *)
(** * TruncSpec: the blocks of a file given back (itrunc of fs.c)

    itrunc() frees every block of a file, direct or indirect, and the block of the indirect
    addresses; the inode is then that of an empty file. *)

From S2P Require Import Prelude Machine CMem DiskFmt Vm Proc Bio BufSpec Log LogSpec LogCommit LogTxn LogCrash Inode ConsIn Fs FsSpec BlockSpec GrowSpec.
From stdpp Require Import options.

Section Trunc.
Context {E : Env} (D : gmap Z (list Z)) (W : list (Z * list Z)) (L : Z → Prop) (cap : nat) (sb : superblock) (i : nat).
Notation txn := (txn D W L cap).
Notation alloc_ok := (alloc_ok D L).
Notation used := (used D L sb).
Notation growing := (growing D W L cap sb i).
Notation foreign := (foreign D L sb).

Section File.
Context (s0 : kstate) (I0 : gset Z) (C0 : Z → list Z) (ip0 : inode) (K0 : Z).
Context (G : growing s0 I0 C0 ip0 K0) (H1 : foreign C0 ip0 K0 1) (Hsb1 : get_sb (C0 1) = sb).
Context (Hcap : (size ({[ sb_bmapstart sb ]} ∪ I0) + 1 < cap)%nat).

(** The blocks with [P] have been freed, and no block but the bitmap has changed. *)
Record freed (C : Z → list Z) (P : Z → Prop) : Prop := {
  fr_alloc : alloc_ok ∅ C sb;
  fr_same n : n ≠ sb_bmapstart sb → C n = C0 n;
  fr_bit b : 0 <= b < sb_size sb → bit C sb b = false ↔ bit C0 sb b = false ∨ P b
}.

Lemma freed_used C P n : freed C P → used C0 n → ¬ P n → used C n.
Proof using Type.
  clear Hcap. intros F [U1 U2 U3 U4 U5] HP. split; try done; [|by rewrite (fr_same _ _ F)].
  apply not_false_iff_true. rewrite (fr_bit _ _ F) by lia. intros [?|?]; [congruence|done].
Qed.

Lemma freed_ext C P Q : freed C P → (∀ b, P b ↔ Q b) → freed C Q.
Proof using Type. intros [F1 F2 F3] HPQ. split; try done. intros b Hb. by rewrite F3, HPQ. Qed.

Lemma room I : I ⊆ {[ sb_bmapstart sb ]} ∪ I0 → (size I < cap)%nat.
Proof using Hcap. intros HI. pose proof (subseteq_size _ _ HI). lia. Qed.

(** bfree() of a block of the file, with the buffers of [B] held. *)
Lemma bfree_step s I B C P t :
  txn s I B C → k_sb s = sb → I ⊆ {[ sb_bmapstart sb ]} ∪ I0 → freed C P → used C0 t → ¬ P t →
  alloc_ok B C sb → 1 ∉ B → (size B <= 1)%nat →
  ∃ s' I' C', bfree 1 t s = Ok tt s' ∧ txn s' I' B C' ∧ I' ⊆ {[ sb_bmapstart sb ]} ∪ I0 ∧
    freed C' (λ b, P b ∨ b = t) ∧ only_log s s' ∧ holds s s'.
Proof using G H1 Hsb1 Hcap.
  intros T Hsb HI F U HP A HB Hs. pose proof (freed_used _ _ _ F U HP) as U'. destruct H1 as (U1 & _ & _).
  destruct (bfree_spec D W L cap s I B C sb t T Hsb) as (s' & E1 & T1 & O1 & K1); try done.
  { by rewrite (fr_same _ _ F) by apply U1. } { apply U1. } { apply A. } { by apply room. }
  { pose proof (us_range _ _ _ _ _ U). lia. } { apply U'. }
  rewrite (BBLOCK_one _ _ _ _ _ t A) in T1 by (pose proof (us_range _ _ _ _ _ U); lia).
  exists s', ({[ sb_bmapstart sb ]} ∪ I), (mark false C sb t). split_and!; try done; [set_solver|].
  pose proof (fr_alloc _ _ F) as A0. pose proof (us_range _ _ _ _ _ U) as Ht. split.
  - apply give_ok; try done; [apply U|apply U].
  - intros n Hn. rewrite (give_other D L ∅) by done. by apply F.
  - intros b Hb. rewrite (give_bit D L ∅) by done. pose proof (fr_bit _ _ F b Hb). case_decide; naive_solver.
Qed.

(** What is left of the file: the inode is [ip], the blocks with [P] are free. *)
Definition cleared (s : kstate) (ip : inode) (P : Z → Prop) : Prop :=
  ∃ I C, txn s I ∅ C ∧ inode_at s i ip ∧ I ⊆ {[ sb_bmapstart sb ]} ∪ I0 ∧ freed C P ∧ only_fs s0 s ∧
    k_inodes s = <[i := ip]> (k_inodes s0).

Lemma only_fs_k_sb s : only_fs s0 s → k_sb s = sb.
Proof using G. intros O. rewrite (only_fs_sb _ _ O). apply G. Qed.

Lemma cleared_addr s ip P t n :
  cleared s ip P → used C0 t → ¬ P t →
  ∃ s1 s2, bfree 1 t s = Ok tt s1 ∧ set_addr i n 0 s1 = Ok tt s2 ∧
    cleared s2 (set_i_addrs (<[Z.to_nat n := 0]> (i_addrs ip)) ip) (λ b, P b ∨ b = t).
Proof using G H1 Hsb1 Hcap.
  intros (I & C & T & Hi & HI & F & O & Hin) U HP.
  destruct (bfree_step s I ∅ C P t T (only_fs_k_sb _ O) HI F U HP) as (s1 & I1 & C1 & E1 & T1 & HI1 & F1 & O1 & _);
    [apply F|set_solver|by vm_compute; lia|].
  assert (inode_at s1 i ip) as Hi1 by (unfold inode_at; by rewrite (only_log_inodes _ _ O1)).
  destruct (set_addr_eq D W L cap i s1 _ _ ip n 0 T1 Hi1) as (s2 & E2 & T2 & Hi2 & Hin2 & O2).
  exists s1, s2. split; [done|]. split; [done|]. exists I1, C1. split_and!; try done.
  - eapply only_fs_trans; [done|]. eapply only_fs_trans; [by apply only_log_fs|done].
  - by rewrite Hin2, (only_log_inodes _ _ O1), Hin, list_insert_insert_eq.
Qed.

(** *** The direct blocks *)

Definition ip_at (n : Z) : inode := set_i_addrs (replicate (Z.to_nat n) 0 ++ drop (Z.to_nat n) (i_addrs ip0)) ip0.
Definition blocks_to (n b : Z) : Prop := ∃ bn, 0 <= bn < Z.min n K0 ∧ b = file_addr C0 ip0 bn.

Lemma addrs_step n : (n < 13)%nat → <[n := 0]> (replicate n 0 ++ drop n (i_addrs ip0)) = replicate (S n) 0 ++ drop (S n) (i_addrs ip0).
Proof using G.
  clear Hcap. intros Hn. pose proof (gw_ip _ _ _ _ _ _ _ _ _ _ _ G) as (_ & _ & Hl).
  destruct (lookup_lt_is_Some_2 (i_addrs ip0) n) as [x Hx]; [lia|].
  rewrite (drop_S _ _ _ Hx), insert_app_r_alt by (by rewrite length_replicate). rewrite length_replicate, Nat.sub_diag. cbn [insert list_insert].
  by rewrite replicate_S_end, <- app_assoc.
Qed.

Lemma ip_at_lookup n j : 0 <= n → (Z.to_nat n <= j)%nat → i_addrs (ip_at n) !! j = i_addrs ip0 !! j.
Proof using Type.
  clear Hcap. intros Hn Hj. unfold ip_at. cbn [set_i_addrs i_addrs]. rewrite lookup_app_r by (by rewrite length_replicate).
  rewrite length_replicate, lookup_drop. f_equal. lia.
Qed.

Lemma blocks_step n : 0 <= n < K0 → ∀ b, blocks_to n b ∨ b = file_addr C0 ip0 n ↔ blocks_to (n + 1) b.
Proof using Type.
  clear Hcap. intros Hn b. split.
  - intros [(bn & Hb & ->)| ->]; [exists bn|exists n]; (split; [lia|done]).
  - intros (bn & Hb & ->). destruct (decide (bn = n)) as [->|]; [by right|left]. exists bn. split; [lia|done].
Qed.

Lemma blocks_stop n : K0 <= n → ∀ b, blocks_to n b ↔ blocks_to (n + 1) b.
Proof using Type. clear Hcap. intros Hn b. unfold blocks_to. by rewrite !Z.min_r by lia. Qed.

Lemma blocks_new n : 0 <= n < K0 → ¬ blocks_to n (file_addr C0 ip0 n).
Proof using G.
  clear Hcap. intros Hn (bn & Hb & Heq). apply (fo_inj _ _ _ _ _ _ (gw_file _ _ _ _ _ _ _ _ _ _ _ G)) in Heq; lia.
Qed.

Lemma trunc_direct k : ∀ n s, Z.of_nat k + n = NDIRECT → 0 <= n → cleared s (ip_at n) (blocks_to n) →
  ∃ s', for_each (seqZ n (Z.of_nat k)) (λ n,
    addr ← get_addr i n; when (negb (addr =? 0)) (bfree 1 addr ;; set_addr i n 0)) s = Ok tt s' ∧
    cleared s' (ip_at NDIRECT) (blocks_to NDIRECT).
Proof using G H1 Hsb1 Hcap.
  pose proof (gw_file _ _ _ _ _ _ _ _ _ _ _ G) as FO. pose proof (gw_ip _ _ _ _ _ _ _ _ _ _ _ G) as (_ & _ & Hl).
  induction k as [|k IH]; intros n s Hk Hn Hcl; [exists s; split; [done|]; by replace NDIRECT with n by lia|].
  rewrite (seqZ_cons n) by lia. replace (Z.pred (Z.of_nat (S k))) with (Z.of_nat k) by lia. cbn [for_each].
  unfold NDIRECT in Hk. pose proof Hcl as (I & C & T & Hi & HI & F & O & Hin).
  assert (∃ s1, (addr ← get_addr i n; when (negb (addr =? 0)) (bfree 1 addr ;; set_addr i n 0)) s = Ok tt s1 ∧
    cleared s1 (ip_at (n + 1)) (blocks_to (n + 1))) as (s1 & E1 & Hcl1).
  2:{ rewrite (bind_Ok _ _ _ _ _ E1). replace (Z.succ n) with (n + 1) by lia. apply IH; [unfold NDIRECT; lia|lia|done]. }
  rewrite (bind_Ok _ _ _ _ _ (get_addr_eq s i _ n Hi ltac:(lia))), ip_at_lookup by lia.
  assert (default 0 (i_addrs ip0 !! Z.to_nat n) = file_addr C0 ip0 n) as ->.
  { unfold file_addr, NDIRECT. by rewrite (proj2 (Z.ltb_lt n 12)) by lia. }
  assert (<[Z.to_nat n := 0]> (i_addrs (ip_at n)) = i_addrs (ip_at (n + 1))) as Hst.
  { unfold ip_at. cbn [set_i_addrs i_addrs]. rewrite addrs_step by lia. by replace (Z.to_nat (n + 1)) with (S (Z.to_nat n)) by lia. }
  destruct (decide (n < K0)) as [HnK|HnK].
  - pose proof (fo_used _ _ _ _ _ _ FO n ltac:(lia)) as U. rewrite (proj2 (Z.eqb_neq _ _)) by (pose proof (us_range _ _ _ _ _ U); lia).
    destruct (cleared_addr s _ _ (file_addr C0 ip0 n) n Hcl U (blocks_new n ltac:(lia))) as (s1 & s2 & E1 & E2 & (I2 & C2 & X1 & X2 & X3 & X4 & X5)).
    exists s2. cbn [negb when]. split; [by rewrite (bind_Ok _ _ _ _ _ E1)|]. rewrite Hst in X2, X5. exists I2, C2.
    split_and!; try done; [|apply X5..]. eapply freed_ext; [exact X4|]. by apply blocks_step.
  - rewrite (fo_rest _ _ _ _ _ _ FO n ltac:(unfold NDIRECT; lia)), Z.eqb_refl. exists s. split; [done|].
    assert (i_addrs (ip_at n) !! Z.to_nat n = Some 0) as H0.
    { rewrite ip_at_lookup by lia. destruct (lookup_lt_is_Some_2 (i_addrs ip0) (Z.to_nat n)) as [x Hx]; [lia|]. rewrite Hx. f_equal.
      pose proof (fo_rest _ _ _ _ _ _ FO n ltac:(unfold NDIRECT; lia)) as Hz. unfold file_addr in Hz.
      by rewrite (proj2 (Z.ltb_lt _ _)), Hx in Hz by (unfold NDIRECT; lia). }
    assert (ip_at (n + 1) = ip_at n) as ->.
    { rewrite list_insert_id in Hst by done. unfold ip_at in *. cbn [set_i_addrs i_addrs] in Hst. by rewrite <- Hst. }
    exists I, C. split_and!; try done. eapply freed_ext; [exact F|]. apply blocks_stop. lia.
Qed.

(** *** The indirect blocks *)

Lemma ind_not_to n : used C0 (ind_addr ip0) → ¬ blocks_to n (ind_addr ip0).
Proof using G.
  clear Hcap. intros U (bn & Hb & Heq). by apply (file_ok_ind D L sb C0 ip0 K0 bn (gw_file _ _ _ _ _ _ _ _ _ _ _ G)); [lia|].
Qed.

Lemma trunc_entries b q k : ∀ j s I C, Z.of_nat k + j = NINDIRECT → 0 <= j → used C0 (ind_addr ip0) → ind_addr ip0 ≠ 0 →
  txn s I {[ ind_addr ip0 ]} C → k_sb s = sb → I ⊆ {[ sb_bmapstart sb ]} ∪ I0 →
  buf_at s b (ind_addr ip0) (C0 (ind_addr ip0)) q → freed C (blocks_to (NDIRECT + j)) →
  ∃ s' I' C', for_each (seqZ j (Z.of_nat k)) (λ j,
      x ← get_buf b; let a := get32 (b_data x) (4 * j) in when (negb (a =? 0)) (bfree 1 a)) s = Ok tt s' ∧
    txn s' I' {[ ind_addr ip0 ]} C' ∧ I' ⊆ {[ sb_bmapstart sb ]} ∪ I0 ∧ buf_at s' b (ind_addr ip0) (C0 (ind_addr ip0)) q ∧
    freed C' (blocks_to MAXFILE) ∧ only_log s s'.
Proof using G H1 Hsb1 Hcap.
  pose proof (gw_file _ _ _ _ _ _ _ _ _ _ _ G) as FO. change NINDIRECT with 128. unfold NDIRECT.
  induction k as [|k IH]; intros j s I C Hk Hj U H0 T Hsb HI Hb F.
  { exists s, I, C. split; [done|]. split_and!; try done; [|apply only_log_refl]. replace MAXFILE with (12 + j) by (rewrite MAXFILE_eq; lia). done. }
  rewrite (seqZ_cons j) by lia. replace (Z.pred (Z.of_nat (S k))) with (Z.of_nat k) by lia. cbn [for_each].
  destruct (buf_at_get _ _ _ _ _ Hb) as (x & Ex & Hx & _).
  assert (get32 (C0 (ind_addr ip0)) (4 * j) = file_addr C0 ip0 (12 + j)) as Ha.
  { unfold file_addr, NDIRECT. rewrite (proj2 (Z.ltb_ge _ _)) by lia. do 2 f_equal. lia. }
  assert (∃ s1 I1 C1, (x ← get_buf b; let a := get32 (b_data x) (4 * j) in when (negb (a =? 0)) (bfree 1 a)) s = Ok tt s1 ∧
    txn s1 I1 {[ ind_addr ip0 ]} C1 ∧ I1 ⊆ {[ sb_bmapstart sb ]} ∪ I0 ∧ freed C1 (blocks_to (12 + (j + 1))) ∧ only_log s s1 ∧ holds s s1)
    as (s1 & I1 & C1 & E1 & T1 & HI1 & F1 & O1 & K1).
  2:{ rewrite (bind_Ok _ _ _ _ _ E1). replace (Z.succ j) with (j + 1) by lia.
      destruct (IH (j + 1) s1 I1 C1) as (s2 & I2 & C2 & E2 & T2 & HI2 & Hb2 & F2 & O2); try done; try lia.
      { by rewrite (only_log_sb _ _ O1). } { by apply K1. }
      exists s2, I2, C2. split_and!; try done. by eapply only_log_trans. }
  rewrite (bind_Ok _ _ _ _ _ Ex), Hx. cbv zeta. rewrite Ha. destruct (decide (12 + j < K0)) as [HK|HK].
  - pose proof (fo_used _ _ _ _ _ _ FO (12 + j) ltac:(lia)) as Ut. rewrite (proj2 (Z.eqb_neq _ _)) by (pose proof (us_range _ _ _ _ _ Ut); lia).
    destruct (bfree_step s I {[ ind_addr ip0 ]} C _ (file_addr C0 ip0 (12 + j)) T Hsb HI F Ut (blocks_new (12 + j) ltac:(lia)))
      as (s1 & I1 & C1 & E1 & T1 & HI1 & F1 & O1 & K1).
    { apply alloc_held; [apply F|]. by eapply freed_used; [..|apply ind_not_to]. }
    { apply not_elem_of_singleton. apply H1. } { by rewrite size_singleton. }
    exists s1, I1, C1. split_and!; try done. eapply freed_ext; [exact F1|]. intros b'. rewrite blocks_step by lia. by replace (12 + j + 1) with (12 + (j + 1)) by lia.
  - assert (file_addr C0 ip0 (12 + j) = 0) as ->.
    { destruct (fo_ind _ _ _ _ _ _ FO) as [[_ ?]|(_ & _ & Hz)]; [done|]. apply Hz; unfold NDIRECT; rewrite ?MAXFILE_eq; lia. }
    exists s, I, C. split_and!; try done; [|apply only_log_refl|by intros ? ? ? ?]. eapply freed_ext; [exact F|]. intros b'.
    rewrite blocks_stop by lia. by replace (12 + j + 1) with (12 + (j + 1)) by lia.
Qed.

(** The second half of itrunc(). *)
Lemma trunc_indirect s :
  cleared s (ip_at NDIRECT) (blocks_to NDIRECT) →
  ∃ s', (ind ← get_addr i NDIRECT;
    when (negb (ind =? 0))
      (bp ← bread 1 ind;
       for_each (seqZ 0 NINDIRECT) (λ j,
         x ← get_buf bp;
         let a := get32 (b_data x) (4 * j) in
         when (negb (a =? 0)) (bfree 1 a)) ;;
       brelse bp ;;
       bfree 1 ind ;;
       set_addr i NDIRECT 0)) s = Ok tt s' ∧
    cleared s' (ip_at 13) (λ b, blocks_to MAXFILE b ∨ ind_addr ip0 ≠ 0 ∧ b = ind_addr ip0).
Proof using G H1 Hsb1 Hcap.
  pose proof (gw_file _ _ _ _ _ _ _ _ _ _ _ G) as FO. pose proof (gw_ip _ _ _ _ _ _ _ _ _ _ _ G) as (_ & _ & Hl).
  intros Hcl. pose proof Hcl as (I & C & T & Hi & HI & F & O & Hin).
  rewrite (bind_Ok _ _ _ _ _ (get_addr_eq s i _ NDIRECT Hi ltac:(unfold NDIRECT; lia))), ip_at_lookup by (unfold NDIRECT; lia).
  change (default 0 (i_addrs ip0 !! Z.to_nat NDIRECT)) with (ind_addr ip0).
  assert (<[12%nat := 0]> (i_addrs (ip_at NDIRECT)) = i_addrs (ip_at 13)) as Hst by (apply (addrs_step 12); lia).
  destruct (Z.eqb_spec (ind_addr ip0) 0) as [H0|H0]; cbn [negb when].
  - exists s. split; [done|]. exists I, C. destruct (fo_ind _ _ _ _ _ _ FO) as [[HK _]|[U _]]; [|pose proof (us_range _ _ _ _ _ U); lia].
    assert (ip_at 13 = ip_at NDIRECT) as ->.
    { unfold ip_at in *. cbn [set_i_addrs i_addrs] in Hst. rewrite list_insert_id in Hst; [by rewrite <- Hst|].
      change (Z.to_nat NDIRECT) with 12%nat. rewrite lookup_app_r, length_replicate, lookup_drop by (by rewrite length_replicate).
      destruct (lookup_lt_is_Some_2 (i_addrs ip0) 12) as [x Hx]; [lia|]. unfold ind_addr in H0. rewrite Hx in H0. cbn in H0. by subst. }
    split_and!; try done. eapply freed_ext; [exact F|]. intros b. unfold blocks_to. unfold NDIRECT in *.
    rewrite !Z.min_r by (rewrite ?MAXFILE_eq; lia). naive_solver.
  - assert (used C0 (ind_addr ip0)) as U by (by destruct (fo_ind _ _ _ _ _ _ FO) as [[_ ?]|[U _]]).
    destruct (tx_bread D W L cap s I ∅ C (ind_addr ip0) T (bk_disk _ _ _ (us_ok _ _ _ _ _ U)) (not_elem_of_empty _) (room I HI) ltac:(by vm_compute; lia))
      as (b & s1 & q & E1 & T1 & A1 & Hq & O1 & _). rewrite (bind_Ok _ _ _ _ _ E1).
    rewrite (fr_same _ _ F) in A1, Hq by apply U. rewrite union_empty_r_L in T1.
    destruct (trunc_entries b q 128 0 s1 I C) as (s2 & I2 & C2 & E2 & T2 & HI2 & A2 & F2 & O2); try done.
    { rewrite (only_log_sb _ _ O1). by apply only_fs_k_sb. }
    change (Z.of_nat 128) with NINDIRECT in E2. rewrite (bind_Ok _ _ _ _ _ E2). rewrite <- (union_empty_r_L {[ ind_addr ip0 ]}) in T2.
    destruct (tx_brelse D W L cap s2 I2 ∅ C2 b (ind_addr ip0) _ _ T2 (not_elem_of_empty _) A2 Hq) as (s3 & E3 & T3 & O3 & _).
    rewrite (bind_Ok _ _ _ _ _ E3). assert (only_log s s3) as O13 by (do 2 (eapply only_log_trans; [eassumption|]); done).
    assert (cleared s3 (ip_at NDIRECT) (blocks_to MAXFILE)) as Hcl3.
    { exists I2, C2. unfold inode_at. rewrite (only_log_inodes _ _ O13). split_and!; try done; try apply Hi.
      eapply only_fs_trans; [done|by apply only_log_fs]. }
    destruct (cleared_addr s3 _ _ _ NDIRECT Hcl3 U (ind_not_to _ U)) as (s4 & s5 & E4 & E5 & (I5 & C5 & X1 & X2 & X3 & X4 & X5)).
    rewrite (bind_Ok _ _ _ _ _ E4). exists s5. split; [done|]. change (Z.to_nat NDIRECT) with 12%nat in X2, X5. rewrite Hst in X2, X5.
    exists I5, C5. split_and!; try done; [|apply X5..]. eapply freed_ext; [exact X4|]. naive_solver.
Qed.

(** *** The empty file *)

Definition part_of (b : Z) : Prop := blocks_to MAXFILE b ∨ ind_addr ip0 ≠ 0 ∧ b = ind_addr ip0.
Definition empty_ip : inode := set_i_size 0 (set_i_addrs (replicate 13 0) ip0).

Lemma part_of_used b : part_of b → used C0 b.
Proof using G.
  clear Hcap. pose proof (gw_file _ _ _ _ _ _ _ _ _ _ _ G) as FO.
  intros [(bn & Hb & ->)|[H0 ->]]; [apply (fo_used _ _ _ _ _ _ FO); lia|]. by destruct (fo_ind _ _ _ _ _ _ FO) as [[_ ?]|[U _]].
Qed.

Lemma foreign_part b : foreign C0 ip0 K0 b → ¬ part_of b.
Proof using Type.
  clear Hcap. intros (_ & N1 & N2) [(bn & Hb & ->)|[_ ->]]; [|done]. by apply (N2 bn); [lia|].
Qed.

Lemma freed_free C b : freed C part_of → b ∈ free_blocks C sb ↔ b ∈ free_blocks C0 sb ∨ part_of b.
Proof using G.
  clear Hcap. intros F. rewrite !elem_of_free_blocks. split.
  - intros [Hb Hr]. apply (fr_bit _ _ F) in Hb; [|done]. naive_solver.
  - intros Hb. assert (0 <= b < sb_size sb) as Hr.
    { destruct Hb as [[_ ?]|Hx]; [done|]. pose proof (us_range _ _ _ _ _ (part_of_used b Hx)). lia. }
    split; [|done]. apply (fr_bit _ _ F); [done|]. naive_solver.
Qed.

Lemma empty_file_ok C : file_ok D L sb C empty_ip 0.
Proof using Type.
  clear Hcap. split; try (intros; lia).
  - by rewrite MAXFILE_eq.
  - left. split; [by unfold NDIRECT|done].
  - intros bn Hbn. unfold file_addr. rewrite (proj2 (Z.ltb_lt _ _)) by lia.
    unfold empty_ip. cbn [set_i_size set_i_addrs i_addrs]. unfold NDIRECT in Hbn. by rewrite lookup_replicate_2 by lia.
Qed.

Lemma trunc_end s :
  cleared s (ip_at 13) part_of → foreign C0 ip0 K0 (IBLOCK (i_inum ip0) sb) → dinode_wf (dinode_of ip0) →
  let ib := IBLOCK (i_inum ip0) sb in
  ∃ s' I' C', (upd_inode i (set_i_size 0) ;; iupdate i) s = Ok tt s' ∧ growing s' I' C' empty_ip 0 ∧
    only_fs s0 s' ∧ k_inodes s' = <[i := empty_ip]> (k_inodes s0) ∧
    (∀ b, b ∈ free_blocks C' sb ↔ b ∈ free_blocks C0 sb ∨ part_of b) ∧
    (∀ b, b ≠ sb_bmapstart sb → b ≠ ib → C' b = C0 b) ∧ get_dinode (C' ib) (dip (i_inum ip0)) = dinode_of empty_ip.
Proof using G Hcap.
  intros (I & C & T & Hi & HI & F & O & Hin) Hfo Hwf ib. pose proof (gw_ip _ _ _ _ _ _ _ _ _ _ _ G) as (_ & Hdev & Hl).
  assert (set_i_size 0 (ip_at 13) = empty_ip) as He.
  { unfold ip_at. rewrite drop_ge, app_nil_r by (rewrite Hl; done). done. }
  destruct (upd_inode_eq D W L cap i s I C (ip_at 13) (set_i_size 0) T Hi) as (s1 & E1 & T1 & Hi1 & Hin1 & O1); [by rewrite He..|].
  rewrite He in Hi1, Hin1. assert (used C ib) as Ui by (eapply freed_used; [done|apply Hfo|by apply foreign_part]).
  assert (growing s1 I C empty_ip 0) as G1.
  { split; [done|by rewrite (only_fs_sb _ _ O1), (only_fs_k_sb _ O)|done|apply empty_file_ok|apply F]. }
  assert (foreign C empty_ip 0 ib) as Hf1.
  { split; [done|]. split; [pose proof (us_range _ _ _ _ _ Ui); change (ind_addr empty_ip) with 0; lia|intros; lia]. }
  destruct (iupdate_spec D W L cap sb i s1 I C empty_ip 0 G1 (room I HI) Hf1) as (s2 & E2 & G2 & O2).
  change (IBLOCK (i_inum empty_ip) sb) with ib in G2. change (i_inum empty_ip) with (i_inum ip0) in G2.
  eexists s2, _, _. split; [by rewrite (bind_Ok _ _ _ _ _ E1)|]. split; [exact G2|]. split_and!.
  - eapply only_fs_trans; [done|]. eapply only_fs_trans; [done|by apply only_log_fs].
  - by rewrite (only_log_inodes _ _ O2), Hin1, Hin, list_insert_insert_eq.
  - intros b. rewrite (free_store D L sb C ib _ (fr_alloc _ _ F) (us_map _ _ _ _ _ Ui)). by apply freed_free.
  - intros b Hm Hb. unfold fupd. rewrite decide_False by done. by apply F.
  - unfold fupd. rewrite decide_True by done. destruct (dip_range (i_inum ip0)) as [D1 D2].
    apply get_put_dinode; [|done|rewrite (us_len _ _ _ _ _ Ui); lia]. destruct Hwf as (W1 & W2 & W3 & W4 & _).
    split_and!; try done. cbn. by repeat constructor.
Qed.

End File.

(** C14. itrunc() makes a file empty: its inode, in memory and in its block, has size zero and no
    addresses. The free blocks are those that were free before and every block the file had,
    the one with its indirect addresses too; no block but the bitmap and the inode's has
    changed. *)
Theorem itrunc_frees s I C ip K :
  growing s I C ip K → foreign C ip K 1 → get_sb (C 1) = sb → foreign C ip K (IBLOCK (i_inum ip) sb) →
  dinode_wf (dinode_of ip) → (size ({[ sb_bmapstart sb ]} ∪ I) + 1 < cap)%nat →
  let ib := IBLOCK (i_inum ip) sb in
  let ip' := set_i_size 0 (set_i_addrs (replicate 13 0) ip) in
  ∃ s' I' C', itrunc i s = Ok tt s' ∧ growing s' I' C' ip' 0 ∧ only_fs s s' ∧ k_inodes s' = <[i := ip']> (k_inodes s) ∧
    (∀ b, b ∈ free_blocks C' sb ↔
       b ∈ free_blocks C sb ∨ (∃ bn, 0 <= bn < K ∧ b = file_addr C ip bn) ∨ ind_addr ip ≠ 0 ∧ b = ind_addr ip) ∧
    (∀ b, b ≠ sb_bmapstart sb → b ≠ ib → C' b = C b) ∧ get_dinode (C' ib) (dip (i_inum ip)) = dinode_of ip'.
Proof.
  intros G H1 Hsb1 Hib Hwf Hcap ib ip'. pose proof G as [T Hsb Hi FO A]. pose proof Hi as (Hip & Hdev & _).
  assert (ip_at ip 0 = ip) as H0 by (by destruct ip).
  destruct (trunc_direct s I C ip K G H1 Hsb1 Hcap 12 0 s eq_refl ltac:(lia)) as (s1 & E1 & Hcl1).
  { exists I, C. rewrite H0. split_and!; try done; [set_solver| |by apply only_log_fs, only_log_refl|by rewrite list_insert_id].
    split; [done|done|]. intros b _. split; [by left|]. intros [?|(bn & Hbn & _)]; [done|lia]. }
  destruct (trunc_indirect s I C ip K G H1 Hsb1 Hcap s1 Hcl1) as (s2 & E2 & Hcl2).
  destruct (trunc_end s I C ip K G Hcap s2 Hcl2 Hib Hwf) as (s3 & I3 & C3 & E3 & G3 & O3 & Hin3 & Hf3 & Hs3 & Hd3).
  exists s3, I3, C3. split_and!; try done.
  - unfold itrunc. rewrite (bind_Ok _ _ _ _ _ (get_inode_eq _ _ _ Hip)), Hdev. change (Z.of_nat 12) with NDIRECT in E1.
    rewrite (bind_Ok _ _ _ _ _ E1). destruct Hcl1 as (I1 & C1 & _ & Hi1 & _).
    pose proof (get_addr_eq s1 i _ NDIRECT Hi1 ltac:(unfold NDIRECT; lia)) as Ea.
    rewrite (bind_Ok _ _ _ _ _ Ea). rewrite (bind_Ok _ _ _ _ _ Ea) in E2. by rewrite (bind_Ok _ _ _ _ _ E2).
  - intros b. rewrite Hf3. unfold part_of, blocks_to. rewrite Z.min_r by apply FO. done.
Qed.

End Trunc.

(** A file of fourteen blocks, two of them indirect: 24 to 35, 37 and 38, with the indirect
    addresses in 36. *)
Section Example.
#[local] Existing Instance env_idle.

Definition trunc_ip : inode := mkinode 1 1 1 2 T_FILE 0 0 1 7000 (seqZ 24 12 ++ [36]).
Definition trunc_disk : gmap Z (list Z) :=
  <[22 := put_dinode (block 0) (dip 1) (dinode_of trunc_ip)]> (<[23 := put_list (block 0) 0 [255; 255; 255; 255; 127]]>
    (<[36 := put_words (block 0) 0 [37; 38]]> grow_disk)).
Definition trunc_ex : kstate := Eval vm_compute in fs_ex trunc_disk trunc_ip.
Notation tD := (k_disk trunc_ex).
Notation tL := (log_area (k_log trunc_ex)).
Notation tC := (blk trunc_ex).

Lemma trunc_ex_txn : txn tD [] tL 19 trunc_ex ∅ ∅ tC.
Proof. apply (txn_check trunc_ex (reverse (seq 0 30))); [split_and!; try done; vm_compute; lia|by vm_compute..]. Qed.

Lemma trunc_ex_alloc : alloc_ok tD tL ∅ tC grow_sb.
Proof. apply alloc_check. by vm_compute. Qed.

Lemma trunc_ex_addr bn : 0 <= bn < 14 → file_addr tC trunc_ip bn = if bn <? 12 then 24 + bn else 25 + bn.
Proof.
  revert bn. apply (forall_range (λ bn, file_addr tC trunc_ip bn =? if bn <? 12 then 24 + bn else 25 + bn) _ 0 14); [by vm_compute|].
  intros b. apply Z.eqb_eq.
Qed.

Lemma trunc_ex_file : file_ok tD tL grow_sb tC trunc_ip 14.
Proof.
  split.
  - by rewrite MAXFILE_eq.
  - apply (forall_range (λ bn, usedb trunc_ex grow_sb (file_addr tC trunc_ip bn)) _ 0 14); [by vm_compute|]. intros b. apply usedb_ok.
  - intros bn bn' H1 H2. rewrite !trunc_ex_addr by done. destruct (Z.ltb_spec bn 12), (Z.ltb_spec bn' 12); lia.
  - right. split; [apply usedb_ok; by vm_compute|]. split.
    + intros bn H1. rewrite trunc_ex_addr by done. change (ind_addr trunc_ip) with 36. destruct (Z.ltb_spec bn 12); lia.
    + intros bn Hbn _. rewrite MAXFILE_eq in Hbn. assert (14 <= bn < 14 + 126) as Hr by lia. clear Hbn. revert bn Hr.
      apply (forall_range (λ bn, file_addr tC trunc_ip bn =? 0) _ 14 126); [by vm_compute|]. intros b. apply Z.eqb_eq.
  - intros bn Hbn. unfold NDIRECT in Hbn. lia.
Qed.

Lemma trunc_ex_foreign n : usedb trunc_ex grow_sb n = true → 0 < n < 24 → foreign tD tL grow_sb tC trunc_ip 14 n.
Proof.
  intros U Hn. split; [by apply usedb_ok|]. split; [change (n ≠ 36); lia|]. intros bn Hbn. rewrite trunc_ex_addr by done.
  destruct (Z.ltb_spec bn 12); lia.
Qed.

Lemma itrunc_frees_witness :
  let ip' := set_i_size 0 (set_i_addrs (replicate 13 0) trunc_ip) in
  ∃ s' I' C', itrunc 0 trunc_ex = Ok tt s' ∧ growing tD [] tL 19 grow_sb 0 s' I' C' ip' 0 ∧ only_fs trunc_ex s' ∧
    k_inodes s' = <[0%nat := ip']> (k_inodes trunc_ex) ∧
    (∀ b, b ∈ free_blocks C' grow_sb ↔
       b ∈ free_blocks tC grow_sb ∨ (∃ bn, 0 <= bn < 14 ∧ b = file_addr tC trunc_ip bn) ∨ ind_addr trunc_ip ≠ 0 ∧ b = ind_addr trunc_ip) ∧
    (∀ b, b ≠ 23 → b ≠ 22 → C' b = tC b) ∧ get_dinode (C' 22) (dip 1) = dinode_of ip'.
Proof.
  apply (itrunc_frees tD [] tL 19 grow_sb 0 trunc_ex ∅ tC trunc_ip 14).
  - split; [exact trunc_ex_txn|done|by split_and!|exact trunc_ex_file|exact trunc_ex_alloc].
  - apply trunc_ex_foreign; [by vm_compute|lia].
  - by vm_compute.
  - apply trunc_ex_foreign; [by vm_compute|done].
  - split; [by vm_compute|]. split; [by vm_compute|]. split; [by vm_compute|]. split; [by vm_compute|]. split; [by vm_compute|].
    split; [|done]. apply (Forall_app_2 _ (seqZ 24 12) [36]); [|by repeat constructor].
    apply Forall_forall. intros x Hx. apply elem_of_seqZ in Hx. unfold is_u32. lia.
  - apply Nat.ltb_lt. by vm_compute.
Defined.

End Example.
