(* ===== verification/DirSpec.v ===== *)
(** * DirSpec: directories as maps from names to inodes (dirlookup and dirlink of fs.c)

    The bytes of a directory are entries of sixteen bytes. dirlookup() finds the first with
    the name that was asked for; dirlink() binds a new name in the first free entry, or in a
    new one at the end, and leaves every other name as it was. *)

From S2P Require Import Prelude Machine CMem DiskFmt Vm Proc Bio BufSpec Log LogSpec LogCommit LogTxn LogCrash Inode ConsIn Fs FsSpec BlockSpec GrowSpec.
From stdpp Require Import options.

(** ** Names *)

(** The string in at most [n] bytes, without its terminator. *)
Fixpoint cstr (n : nat) (l : list Z) : list Z :=
  match n, l with
  | S n, x :: l => if u8 x =? 0 then [] else u8 x :: cstr n l
  | _, _ => []
  end.

(** The bytes of [l], and zeroes after them, are in memory from [a] on. *)
Definition text_at (m : gmap Z Z) (a : Z) (n : nat) (l : list Z) : Prop :=
  ∀ k, (k < n)%nat → rd m (a + Z.of_nat k) = default 0 (u8 <$> l !! k).

Lemma text_at_tail m a n l : text_at m a (S n) l → text_at m (a + 1) n (tail l).
Proof.
  intros H k Hk. replace (a + 1 + Z.of_nat k) with (a + Z.of_nat (S k)) by lia. rewrite H by lia. by destruct l.
Qed.

Lemma text_at_head m a n l : text_at m a (S n) l → rd m a = default 0 (u8 <$> head l).
Proof. intros H. rewrite <- (Z.add_0_r a). change 0 with (Z.of_nat 0) at 1. rewrite H by lia. by destruct l. Qed.

Lemma cstr_S n l : cstr (S n) l = if default 0 (u8 <$> head l) =? 0 then [] else default 0 (u8 <$> head l) :: cstr n (tail l).
Proof. by destruct l. Qed.

Lemma strncmp_loop_names m n : ∀ p q l l', text_at m p n l → text_at m q n l' →
  strncmp_loop m p q n = 0 ↔ cstr n l = cstr n l'.
Proof.
  induction n as [|n IH]; intros p q l l' Hp Hq; [done|]. cbn [strncmp_loop]. rewrite !cstr_S.
  rewrite (text_at_head _ _ _ _ Hp), (text_at_head _ _ _ _ Hq).
  specialize (IH _ _ _ _ (text_at_tail _ _ _ _ Hp) (text_at_tail _ _ _ _ Hq)).
  set (x := default 0 (u8 <$> head l)). set (y := default 0 (u8 <$> head l')).
  destruct (Z.eqb_spec x 0) as [Hx|Hx]; cbn [negb andb]; destruct (Z.eqb_spec y 0) as [Hy|Hy].
  - split; [done|lia].
  - split; [lia|done].
  - rewrite (proj2 (Z.eqb_neq x y)) by lia. split; [lia|done].
  - destruct (Z.eqb_spec x y) as [He|He]; [rewrite IH; split; [by intros ->; rewrite He|by intros [=]]|split; [lia|by intros [=]]].
Qed.

Lemma rd_wr_list l : ∀ m a b,
  rd (wr_list m a l) b = if decide (a <= b < a + Z.of_nat (length l)) then default 0 (u8 <$> l !! Z.to_nat (b - a)) else rd m b.
Proof.
  induction l as [|x l IH]; intros m a b; cbn [wr_list length]; [by rewrite decide_False by lia|].
  rewrite IH, rd_wr. destruct (decide (a = b)) as [->|Hne].
  - rewrite decide_False, decide_True by lia. by rewrite Z.sub_diag.
  - destruct (decide (a + 1 <= b < _)).
    + rewrite decide_True by lia. replace (Z.to_nat (b - a)) with (S (Z.to_nat (b - (a + 1)))) by lia. done.
    + by rewrite decide_False by lia.
Qed.

Lemma scratch_text s t : (length s <= 64)%nat → text_at (scratch s t) 0 14 s ∧ text_at (scratch s t) 64 14 t.
Proof.
  intros Hs. unfold scratch. split; intros k Hk; rewrite rd_wr_list.
  - rewrite decide_False, rd_wr_list by lia. case_decide; [by replace (Z.to_nat (0 + Z.of_nat k - 0)) with k by lia|].
    by rewrite lookup_ge_None_2 by lia.
  - case_decide; [by replace (Z.to_nat (64 + Z.of_nat k - 64)) with k by lia|]. rewrite rd_wr_list, decide_False by lia.
    by rewrite lookup_ge_None_2 by lia.
Qed.

(** namecmp() compares the two strings. *)
Lemma namecmp_eq s t : (length s <= 64)%nat → (namecmp s t =? 0) = bool_decide (cstr 14 s = cstr 14 t).
Proof.
  intros Hs. destruct (scratch_text s t Hs) as [H1 H2]. pose proof (strncmp_loop_names _ _ _ _ _ _ H1 H2) as Hn.
  change (strncmp_loop (scratch s t) 0 64 14) with (namecmp s t) in Hn. case_bool_decide as Hd.
  - by apply Z.eqb_eq, Hn.
  - apply Z.eqb_neq. by rewrite Hn.
Qed.

(** strncpy() into memory apart from its source: the string, padded with zeroes. *)
Lemma rd_strncpy_other n : ∀ m s t b, ¬ (s <= b < s + Z.of_nat n) → rd (strncpy_loop m s t n) b = rd m b.
Proof.
  induction n as [|n IH]; intros m s t b Hb; [done|]. cbn [strncpy_loop]. case_match.
  - rewrite IH, rd_wr, decide_False by lia. done.
  - rewrite rd_stosb, decide_False, rd_wr, decide_False by lia. done.
Qed.

Lemma rd_strncpy n : ∀ m s t l k, text_at m t n l → s + Z.of_nat n <= t → (k < n)%nat →
  rd (strncpy_loop m s t n) (s + Z.of_nat k) = default 0 (cstr n l !! k).
Proof.
  induction n as [|n IH]; intros m s t l k Ht Hst Hk; [lia|]. cbn [strncpy_loop]. rewrite cstr_S.
  rewrite (text_at_head _ _ _ _ Ht), (rd_wr m s _ s), decide_True by done.
  set (x := default 0 (u8 <$> head l)). assert (u8 x = x) as Hx8 by (unfold x; destruct l; [done|]; apply u8_small, u8_range). rewrite Hx8.
  assert (rd (wr m s x) (s + Z.of_nat 0) = x) as H0 by (change (Z.of_nat 0) with 0; by rewrite Z.add_0_r, rd_wr, decide_True).
  destruct (Z.eqb_spec x 0) as [Hx|Hx]; cbn [negb].
  - rewrite rd_stosb. destruct k as [|k]; [rewrite decide_False by lia; rewrite H0; by rewrite Hx|].
    by rewrite decide_True by lia.
  - destruct k as [|k]; [rewrite rd_strncpy_other by lia; by rewrite H0|].
    replace (s + Z.of_nat (S k)) with (s + 1 + Z.of_nat k) by lia. apply IH; [|lia|lia].
    intros j Hj. rewrite rd_wr, decide_False by lia. by apply (text_at_tail _ _ n).
Qed.

Lemma cstr_length n : ∀ l, (length (cstr n l) <= n)%nat.
Proof. induction n as [|n IH]; intros [|x l]; cbn; try lia. case_match; cbn; [lia|]. specialize (IH l). lia. Qed.

Lemma cstr_cstr n : ∀ l k, cstr n (cstr n l ++ replicate k 0) = cstr n l.
Proof.
  induction n as [|n IH]; intros l k; [done|]. rewrite (cstr_S n l). destruct (Z.eqb_spec (default 0 (u8 <$> head l)) 0) as [Hx|Hx].
  - by destruct k.
  - cbn [app cstr]. assert (u8 (default 0 (u8 <$> head l)) = default 0 (u8 <$> head l)) as -> by (destruct l; [done|]; apply u8_small, u8_range).
    by rewrite (proj2 (Z.eqb_neq _ _) Hx), IH.
Qed.

(** ** Entries *)

Lemma mk_dirent_eq inum name :
  mk_dirent inum name = [u8 inum; u8 (Z.shiftr inum 8)] ++ cstr 14 name ++ replicate (14 - length (cstr 14 name)) 0.
Proof.
  unfold mk_dirent. f_equal. destruct (scratch_text (replicate 14 0) name ltac:(by vm_compute; lia)) as [_ Ht].
  pose proof (cstr_length 14 name) as Hl. apply list_eq. intros j. unfold bytes, strncpy. rewrite list_lookup_fmap.
  destruct (decide (j < 14)%nat) as [Hj|Hj].
  - rewrite lookup_seq_lt by done. change (Z.to_nat DIRSIZ) with 14%nat.
    change (Some (rd (strncpy_loop (scratch (replicate 14 0) name) 0 64 14) (0 + Z.of_nat j)) =
            (cstr 14 name ++ replicate (14 - length (cstr 14 name)) 0) !! j).
    rewrite (rd_strncpy 14 _ 0 64 name j Ht) by lia. destruct (decide (j < length (cstr 14 name))%nat).
    + rewrite lookup_app_l by done. destruct (lookup_lt_is_Some_2 (cstr 14 name) j) as [x Hx]; [done|]. by rewrite Hx.
    + rewrite (lookup_ge_None_2 (cstr 14 name)), lookup_app_r, lookup_replicate_2 by lia. done.
  - rewrite lookup_seq_ge by lia. by rewrite lookup_ge_None_2 by (rewrite length_app, length_replicate; lia).
Qed.

Lemma length_mk_dirent inum name : length (mk_dirent inum name) = 16%nat.
Proof. rewrite mk_dirent_eq. pose proof (cstr_length 14 name). rewrite !length_app, length_replicate. cbn [length]. lia. Qed.

Lemma cstr_u8 n : ∀ l, Forall is_u8 (cstr n l).
Proof. induction n as [|n IH]; intros [|x l]; cbn; try constructor. case_match; [constructor|]. constructor; [apply u8_range|apply IH]. Qed.

Lemma mk_dirent_u8 inum name : Forall is_u8 (mk_dirent inum name).
Proof.
  rewrite mk_dirent_eq. apply Forall_app. split; [by repeat constructor; apply u8_range|]. apply Forall_app. split; [apply cstr_u8|].
  by apply Forall_replicate.
Qed.

Lemma mk_dirent_inum inum name : 0 <= inum < 65536 → de_inum (mk_dirent inum name) = inum.
Proof.
  intros Hi. rewrite mk_dirent_eq. unfold de_inum, get16, byte_at. cbn [app]. change (Z.to_nat 0) with 0%nat. change (Z.to_nat (0 + 1)) with 1%nat.
  cbn [lookup list_lookup default]. unfold u8. rewrite Z.shiftr_div_pow2 by lia. change (2 ^ 8) with 256. cbn [id from_option].
  Z.div_mod_to_equations. lia.
Qed.

Lemma mk_dirent_name inum name : cstr 14 (de_name (mk_dirent inum name)) = cstr 14 name.
Proof.
  rewrite mk_dirent_eq. unfold de_name. pose proof (cstr_length 14 name). rewrite drop_app_length' by done.
  rewrite take_ge by (rewrite length_app, length_replicate; lia). apply cstr_cstr.
Qed.

(** ** The bytes of a directory *)

Definition dirent_at (F : list Z) (k : Z) : list Z := take 16 (drop (Z.to_nat (16 * k)) F).
Definition dir_count (F : list Z) : Z := Z.of_nat (length F) / 16.

(** The first answer of [f] on [l]. *)
Fixpoint first {A} (f : Z → option A) (l : list Z) : option A :=
  match l with
  | [] => None
  | k :: l => match f k with Some a => Some a | None => first f l end
  end.

(** The number of the inode a name is bound to, and the offset of the entry. *)
Definition match_name (name : list Z) (k : Z) (e : list Z) : option (Z * Z) :=
  if de_inum e =? 0 then None
  else if bool_decide (cstr 14 name = cstr 14 (de_name e)) then Some (de_inum e, 16 * k) else None.
Definition dir_find (F name : list Z) : option (Z * Z) :=
  first (λ k, match_name name k (dirent_at F k)) (seqZ 0 (dir_count F)).
(** Where a new entry goes. *)
Definition match_free (k : Z) (e : list Z) : option Z := if de_inum e =? 0 then Some (16 * k) else None.
Definition dir_free (F : list Z) : Z :=
  default (Z.of_nat (length F)) (first (λ k, match_free k (dirent_at F k)) (seqZ 0 (dir_count F))).

Lemma first_app {A} (f : Z → option A) l1 l2 : first f (l1 ++ l2) = match first f l1 with Some a => Some a | None => first f l2 end.
Proof. induction l1 as [|k l1 IH]; [done|]. cbn [app first]. by destruct (f k). Qed.

Lemma first_none {A} (f : Z → option A) l : (∀ k, k ∈ l → f k = None) → first f l = None.
Proof. induction l as [|k l IH]; intros H; [done|]. cbn [first]. rewrite H by left. apply IH. intros j Hj. apply H. by right. Qed.

Lemma first_none_inv {A} (f : Z → option A) l k : first f l = None → k ∈ l → f k = None.
Proof.
  induction l as [|j l IH]; intros H Hk; [by apply not_elem_of_nil in Hk|]. cbn [first] in H. destruct (f j) eqn:Ej; [done|].
  apply elem_of_cons in Hk as [->|Hk]; [done|by apply IH].
Qed.

Lemma first_ext {A} (f g : Z → option A) l : (∀ k, k ∈ l → f k = g k) → first f l = first g l.
Proof.
  induction l as [|k l IH]; intros H; [done|]. cbn [first]. rewrite H by left. case_match; [done|]. apply IH. intros j Hj. apply H. by right.
Qed.

(** The answer comes from a first entry. *)
Lemma first_some {A} (f : Z → option A) a n : ∀ m, first f (seqZ m n) = Some a →
  ∃ k, m <= k < m + n ∧ f k = Some a ∧ ∀ j, m <= j < k → f j = None.
Proof.
  intros m. destruct (decide (0 <= n)) as [Hn|Hn]; [|rewrite seqZ_nil by lia; done].
  revert m. revert n Hn. refine (natlike_ind _ _ _); [done|]. intros n Hn IH m. rewrite (seqZ_cons m), Z.pred_succ by lia. cbn [first].
  destruct (f m) as [x|] eqn:Em.
  - intros [= ->]. exists m. split; [lia|]. split; [done|lia].
  - intros (k & Hk & Hf & Hj)%IH. exists k. split; [lia|]. split; [done|]. intros j Hr. destruct (decide (j = m)) as [->|]; [done|apply Hj; lia].
Qed.

(** A new entry is stored at [16 * k], inside the directory or at its end. *)
Section Splice.
Context (F e : list Z) (N k : Z).
Context (HF : Z.of_nat (length F) = 16 * N) (He : length e = 16%nat) (Hk : 0 <= k <= N).
Notation F' := (splice F (16 * k) e).

Lemma length_entry_splice : Z.of_nat (length F') = 16 * Z.max N (k + 1).
Proof using HF He Hk. unfold splice. rewrite !length_app, length_take, length_drop. lia. Qed.

Lemma dir_count_splice : dir_count F' = Z.max N (k + 1).
Proof using HF He Hk. unfold dir_count. rewrite length_entry_splice. rewrite (Z.mul_comm 16), Z.div_mul by lia. done. Qed.

Lemma dirent_at_new : dirent_at F' k = e.
Proof using HF He Hk.
  unfold dirent_at, splice. rewrite drop_app_length' by (rewrite length_take; lia). by rewrite take_app_length'.
Qed.

Lemma dirent_at_old j : 0 <= j → j ≠ k → dirent_at F' j = dirent_at F j.
Proof using HF He Hk.
  intros Hj Hne. unfold dirent_at, splice. destruct (decide (j < k)).
  - rewrite drop_app_le by (rewrite length_take; lia). rewrite take_app_le by (rewrite length_drop, length_take; lia).
    rewrite skipn_firstn_comm, take_take. f_equal. lia.
  - rewrite drop_app_ge by (rewrite length_take; lia). rewrite drop_app_ge by (rewrite length_take; lia).
    rewrite drop_drop. do 2 f_equal. rewrite length_take. lia.
Qed.

End Splice.

Lemma seqZ_split k n : 0 <= k < n → seqZ 0 n = seqZ 0 k ++ k :: seqZ (k + 1) (n - k - 1).
Proof.
  intros Hk. replace n with (k + Z.succ (n - k - 1)) at 1 by lia. by rewrite seqZ_app, Z.add_0_l, (seqZ_cons k), Z.pred_succ by lia.
Qed.

(** The free entry is one that no name is bound in. *)
Lemma dir_free_spec F N :
  dir_count F = N → 0 <= N → Z.of_nat (length F) = 16 * N →
  ∃ k, dir_free F = 16 * k ∧ 0 <= k <= N ∧ ∀ nm, match_name nm k (dirent_at F k) = None ∨ k = N.
Proof.
  intros Hc HN HF. unfold dir_free. rewrite Hc. destruct (first _ _) as [o|] eqn:Ef.
  - apply first_some in Ef as (k & Hk & Hf & _). unfold match_free in Hf. destruct (Z.eqb_spec (de_inum (dirent_at F k)) 0) as [Hz|]; [|done].
    injection Hf as <-. exists k. split; [done|]. split; [lia|]. intros nm. left. unfold match_name. by rewrite Hz.
  - exists N. split; [done|]. split; [lia|]. by right.
Qed.

(** A directory after a new name is bound, seen through dir_find. *)
Lemma dir_find_link F N inum name :
  Z.of_nat (length F) = 16 * N → 0 <= N → 0 < inum < 65536 → dir_find F name = None →
  let k := dir_free F / 16 in
  dir_free F = 16 * k ∧ 0 <= k <= N ∧
  ∀ name', dir_find (splice F (dir_free F) (mk_dirent inum name)) name' =
    if decide (cstr 14 name' = cstr 14 name) then Some (inum, dir_free F) else dir_find F name'.
Proof.
  intros HF HN Hi Hno. assert (dir_count F = N) as Hc by (unfold dir_count; rewrite HF, (Z.mul_comm 16); by apply Z.div_mul).
  destruct (dir_free_spec F N Hc HN HF) as (k & Hk & Hr & Hkn).
  rewrite Hk, (Z.mul_comm 16), Z.div_mul, (Z.mul_comm k) by done. split; [done|]. split; [done|]. intros name'.
  pose proof (length_mk_dirent inum name) as Hl. unfold dir_find. rewrite (dir_count_splice F _ N k HF Hl Hr), Hc.
  set (F' := splice F (16 * k) (mk_dirent inum name)).
  assert (∀ nm, match_name nm k (dirent_at F' k) = if decide (cstr 14 nm = cstr 14 name) then Some (inum, 16 * k) else None) as Hnew.
  { intros nm. unfold F', match_name. rewrite (dirent_at_new F _ N k HF Hl Hr), mk_dirent_inum, mk_dirent_name by lia.
    rewrite (proj2 (Z.eqb_neq inum 0)) by lia. case_bool_decide; [by rewrite decide_True|by rewrite decide_False]. }
  assert (∀ nm j, 0 <= j → j ≠ k → match_name nm j (dirent_at F' j) = match_name nm j (dirent_at F j)) as Hold.
  { intros nm j Hj Hne. unfold F'. by rewrite (dirent_at_old F _ N k HF Hl Hr). }
  assert (∀ nm, first (λ j, match_name nm j (dirent_at F j)) (seqZ 0 N) =
    first (λ j, match_name nm j (dirent_at F j)) (seqZ 0 k ++ seqZ (k + 1) (Z.max N (k + 1) - k - 1))) as Hsplit.
  { intros nm. destruct (decide (k = N)) as [->|Hlt]; [by rewrite Z.max_r, (seqZ_nil (N + 1)), app_nil_r by lia|].
    rewrite Z.max_l, (seqZ_split k N), !first_app by lia. cbn [first]. by destruct (Hkn nm) as [->|?]. }
  rewrite (seqZ_split k (Z.max N (k + 1))) by lia.
  rewrite first_app. cbn [first]. rewrite Hnew.
  rewrite (first_ext _ (λ j, match_name name' j (dirent_at F j)) (seqZ 0 k)) by (intros j Hj%elem_of_seqZ; apply Hold; lia).
  rewrite (first_ext _ (λ j, match_name name' j (dirent_at F j)) (seqZ (k + 1) _)) by (intros j Hj%elem_of_seqZ; apply Hold; lia).
  destruct (decide _) as [Hn|Hn].
  - assert (∀ j, match_name name' j (dirent_at F j) = match_name name j (dirent_at F j)) as Hsame by (intros j; unfold match_name; by rewrite Hn).
    rewrite first_none; [done|]. intros j Hj%elem_of_seqZ. rewrite Hsame. unfold dir_find in Hno. rewrite Hc in Hno.
    apply (first_none_inv _ _ j Hno), elem_of_seqZ. lia.
  - rewrite Hsplit, first_app. done.
Qed.

(** ** dirlookup and dirlink *)

Section Dir.
Context {E : Env} (D : gmap Z (list Z)) (W : list (Z * list Z)) (L : Z → Prop) (cap : nat) (sb : superblock) (i : nat).
Notation growing := (growing D W L cap sb i).
Notation foreign := (foreign D L sb).

(** An open directory of [N] entries. *)
Record directory (s : kstate) (I : gset Z) (C : Z → list Z) (ip : inode) (K N : Z) : Prop := {
  dr_grow : growing s I C ip K;
  dr_type : i_type ip = T_DIR;
  dr_size : i_size ip = DIRENT_SIZE * N;
  dr_N : 0 <= N;
  dr_blocks : i_size ip <= K * BSIZE;
  dr_room : (size I < cap)%nat
}.

Notation dbytes C ip := (file_range C ip 0 (i_size ip)).

Lemma directory_io s s' I C ip K N : only_log s s' → growing s' I C ip K → directory s I C ip K N → directory s' I C ip K N.
Proof. intros O G [D1 D2 D3 D4 D5 D6]. by split. Qed.

Lemma dbytes_length s I C ip K N : directory s I C ip K N → Z.of_nat (length (dbytes C ip)) = 16 * N.
Proof. intros [_ _ D3 D4 _ _]. rewrite length_file_range, D3. unfold DIRENT_SIZE. lia. Qed.

Lemma dbytes_count s I C ip K N : directory s I C ip K N → dir_count (dbytes C ip) = N.
Proof. intros H. unfold dir_count. rewrite (dbytes_length _ _ _ _ _ _ H), (Z.mul_comm 16). by apply Z.div_mul. Qed.

Lemma readi_entry s I C ip K N k :
  directory s I C ip K N → 0 <= k < N →
  ∃ s', readi i (k * DIRENT_SIZE) DIRENT_SIZE s = Ok (DIRENT_SIZE, dirent_at (dbytes C ip) k) s' ∧ directory s' I C ip K N ∧ only_log s s'.
Proof.
  intros Dr Hk. pose proof Dr as [G Hty Hsz HN HK HI]. pose proof G as [T Hsb Hi FO A]. pose proof (fo_K _ _ _ _ _ _ FO) as HKM.
  assert (MAXFILE * BSIZE = 71680) as HMB by done. rewrite MAXFILE_eq in HKM. unfold DIRENT_SIZE in *.
  destruct (readi_spec s D W I ∅ C i ip (k * 16) 16 (tx_view _ _ _ _ _ _ _ _ T) Hi) as (s' & E1 & O1 & V1).
  { eapply txn_room; [done|done|by vm_compute; lia]. } { by rewrite Hty. } { unfold BSIZE in *. lia. } { done. } { unfold BSIZE in *. lia. }
  { intros bn Hb0 Hb1. apply (fb_map _ _ _ _ _ _ (file_ok_blocks _ _ _ _ _ _ FO)). unfold BSIZE in *. lia. }
  pose proof (only_io_only_log _ _ O1) as OL. exists s'. split; [|split; [|done]].
  - rewrite E1, decide_True by (unfold BSIZE in *; lia). rewrite Z.min_l by lia.
    rewrite (file_range_sub C ip (k * 16) 16 (i_size ip)) by lia. unfold dirent_at. by rewrite (Z.mul_comm k).
  - eapply directory_io; [done| |done]. split; try done; [by eapply txn_io|by rewrite (only_log_sb _ _ OL)|].
    unfold inode_at. by rewrite (only_log_inodes _ _ OL).
Qed.

(** A search of the directory: [h] says of an entry what to do, [f] does it. *)
Definition dir_scan {A B} (h : Z → list Z → option A) (f : A → M kstate (option B)) (off : Z) : M kstate (option B) :=
  '(r, de) ← readi i off DIRENT_SIZE;
  if negb (r =? DIRENT_SIZE) then panic "dirlink read" else
  match h (off / DIRENT_SIZE) de with Some a => f a | None => mret None end.

Lemma dir_scan_spec {A B} (h : Z → list Z → option A) (f : A → M kstate (option B)) n : ∀ m s I C ip K N,
  directory s I C ip K N → 0 <= m → m + Z.of_nat n <= N →
  (∀ a s, match f a s with Ok None _ => False | _ => True end) →
  ∃ s', directory s' I C ip K N ∧ only_log s s' ∧
    for_ret ((λ k, k * DIRENT_SIZE) <$> seqZ m (Z.of_nat n)) (dir_scan h f) s =
      match first (λ k, h k (dirent_at (dbytes C ip) k)) (seqZ m (Z.of_nat n)) with Some a => f a s' | None => Ok None s' end.
Proof.
  induction n as [|n IH]; intros m s I C ip K N Dr Hm HmN Hf.
  { exists s. split; [done|]. split; [apply only_log_refl|done]. }
  rewrite (seqZ_cons m) by lia. replace (Z.pred (Z.of_nat (S n))) with (Z.of_nat n) by lia. rewrite fmap_cons. cbn [for_ret first].
  destruct (readi_entry s I C ip K N m Dr ltac:(lia)) as (s1 & E1 & D1 & O1).
  assert (dir_scan h f (m * DIRENT_SIZE) s = match h m (dirent_at (dbytes C ip) m) with Some a => f a s1 | None => Ok None s1 end) as Es.
  { unfold dir_scan. rewrite (bind_Ok _ _ _ _ _ E1). rewrite Z.eqb_refl. cbn [negb]. rewrite Z.div_mul by done. by case_match. }
  destruct (h m (dirent_at (dbytes C ip) m)) as [a|].
  - exists s1. split; [done|]. split; [done|]. specialize (Hf a s1).
    destruct (f a s1) as [[b|] s2| | |] eqn:Ef; try done; by (unfold mbind, M_bind; rewrite Es).
  - destruct (IH (Z.succ m) s1 I C ip K N D1 ltac:(lia) ltac:(lia) Hf) as (s2 & D2 & O2 & E2).
    exists s2. split; [done|]. split; [by eapply only_log_trans|]. by rewrite (bind_Ok _ _ _ _ _ Es).
Qed.

Lemma for_ret_ext {A B} (l : list A) (f g : A → M kstate (option B)) :
  (∀ x s, x ∈ l → f x s = g x s) → ∀ s, for_ret l f s = for_ret l g s.
Proof.
  induction l as [|x l IH]; intros H s; [done|]. cbn [for_ret]. unfold mbind, M_bind. rewrite H by left.
  destruct (g x s) as [[b|] s'| | |]; try done. apply IH. intros y s'' Hy. apply H. by right.
Qed.

Lemma dir_offsets_eq s I C ip K N : directory s I C ip K N → dir_offsets (i_size ip) = (λ k, k * DIRENT_SIZE) <$> seqZ 0 (Z.of_nat (Z.to_nat N)).
Proof.
  intros [_ _ Hs HN _ _]. unfold dir_offsets. rewrite Hs, Z2Nat.id by done. do 2 f_equal. unfold DIRENT_SIZE.
  replace (16 * N + 16 - 1) with (15 + N * 16) by lia. by rewrite Z.div_add by lia.
Qed.

Lemma dir_scan_all {A B} (h : Z → list Z → option A) (f : A → M kstate (option B)) (body : Z → M kstate (option B)) s I C ip K N :
  directory s I C ip K N → (∀ a s, match f a s with Ok None _ => False | _ => True end) →
  (∀ k s, 0 <= k < N → body (k * DIRENT_SIZE) s = dir_scan h f (k * DIRENT_SIZE) s) →
  ∃ s', directory s' I C ip K N ∧ only_log s s' ∧
    for_ret (dir_offsets (i_size ip)) body s =
      match first (λ k, h k (dirent_at (dbytes C ip) k)) (seqZ 0 (dir_count (dbytes C ip))) with Some a => f a s' | None => Ok None s' end.
Proof.
  intros Dr Hf Hb. pose proof (dr_N _ _ _ _ _ _ Dr) as HN.
  destruct (dir_scan_spec h f (Z.to_nat N) 0 s I C ip K N Dr ltac:(lia) ltac:(lia) Hf) as (s' & D' & O' & E').
  exists s'. split; [done|]. split; [done|]. rewrite (dbytes_count _ _ _ _ _ _ Dr), (dir_offsets_eq _ _ _ _ _ _ Dr).
  rewrite (for_ret_ext _ _ (dir_scan h f)); [by rewrite E', Z2Nat.id|].
  intros x s1 (k & -> & Hk)%list_elem_of_fmap. apply Hb. rewrite elem_of_seqZ in Hk. lia.
Qed.

(** What dirlookup() does with the entry it finds. *)
Definition found (r : option (Z * Z)) (s : kstate) : res kstate (option (nat * Z)) :=
  match r with
  | Some (inum, off) => (j ← iget 1 inum; mret (Some (j, off))) s
  | None => Ok None s
  end.

Lemma dirlookup_spec s I C ip K N name :
  directory s I C ip K N → (length name <= 64)%nat →
  ∃ s', directory s' I C ip K N ∧ only_log s s' ∧ dirlookup i name s = found (dir_find (dbytes C ip) name) s'.
Proof.
  intros Dr Hn. pose proof (gw_ip _ _ _ _ _ _ _ _ _ _ _ (dr_grow _ _ _ _ _ _ Dr)) as (Hip & Hdev & _).
  destruct (dir_scan_all (match_name name) (λ '(inum, off), j ← iget 1 inum; mret (Some (j, off)))
    (λ off, '(r, de) ← readi i off DIRENT_SIZE;
      if negb (r =? DIRENT_SIZE) then panic "dirlink read" else
      if de_inum de =? 0 then mret None else
      if namecmp name (de_name de) =? 0 then (ip ← iget 1 (de_inum de); mret (Some (ip, off))) else mret None) s I C ip K N Dr)
    as (s' & D' & O' & E').
  { intros [inum off] s1. unfold mbind, M_bind. destruct (iget 1 inum s1); exact Logic.I. }
  { intros k s1 Hk. unfold dir_scan. unfold mbind at 1 3, M_bind at 1 3. destruct (readi i _ _ s1) as [[r de] s2| | |]; [|done..].
    case_match; [done|]. unfold match_name. rewrite namecmp_eq by done. rewrite Z.div_mul by done. case_match; [done|].
    case_bool_decide; [|done]. by rewrite (Z.mul_comm k). }
  exists s'. split; [done|]. split; [done|]. unfold dirlookup. rewrite (bind_Ok _ _ _ _ _ (get_inode_eq _ _ _ Hip)), Hdev.
  rewrite (dr_type _ _ _ _ _ _ Dr), Z.eqb_refl. cbn [negb]. rewrite E'. unfold found, dir_find. by destruct (first _ _) as [[inum off]|].
Qed.

(** The search for an entry that is free. *)
Lemma dirlink_scan s I C ip K N :
  directory s I C ip K N →
  ∃ s' r, directory s' I C ip K N ∧ only_log s s' ∧
    for_ret (dir_offsets (i_size ip)) (λ off,
      '(r, de) ← readi i off DIRENT_SIZE;
      if negb (r =? DIRENT_SIZE) then panic "dirlink read" else
      mret (if de_inum de =? 0 then Some off else None)) s = Ok r s' ∧
    default (DIRENT_SIZE * ((i_size ip + DIRENT_SIZE - 1) / DIRENT_SIZE)) r = dir_free (dbytes C ip).
Proof.
  intros Dr. destruct (dir_scan_all match_free (λ off, mret (Some off))
    (λ off, '(r, de) ← readi i off DIRENT_SIZE;
      if negb (r =? DIRENT_SIZE) then panic "dirlink read" else
      mret (if de_inum de =? 0 then Some off else None)) s I C ip K N Dr) as (s' & D' & O' & E').
  { intros a s1. exact Logic.I. }
  { intros k s1 Hk. unfold dir_scan. unfold mbind at 1 2, M_bind at 1 2. destruct (readi i _ _ s1) as [[r de] s2| | |]; [|done..].
    case_match; [done|]. unfold match_free. rewrite Z.div_mul by done. case_match; [|done]. by rewrite (Z.mul_comm k). }
  exists s', (first (λ k, match_free k (dirent_at (dbytes C ip) k)) (seqZ 0 (dir_count (dbytes C ip)))). split_and!; try done.
  - rewrite E'. by destruct (first _ _).
  - unfold dir_free. f_equal. rewrite (dbytes_length _ _ _ _ _ _ Dr), (dr_size _ _ _ _ _ _ Dr). unfold DIRENT_SIZE.
    replace (16 * N + 16 - 1) with (15 + N * 16) by lia. rewrite Z.div_add by lia. by change (15 / 16) with 0.
Qed.

(** A new name is bound. *)
Lemma dirlink_new s I C ip K N name inum :
  directory s I C ip K N → (length name <= 64)%nat → 0 < inum < 65536 → dir_find (dbytes C ip) name = None →
  dinode_wf (dinode_of ip) → foreign C ip K (IBLOCK (i_inum ip) sb) → DIRENT_SIZE * (N + 1) <= MAXFILE * BSIZE →
  (cost sb I ip + 3 < cap)%nat → (2 + no_ind ip <= length (free_blocks C sb))%nat →
  ∃ s' I' C' ip' K' N', dirlink i name inum s = Ok 0 s' ∧ directory s' I' C' ip' K' N' ∧
    (∀ name', dir_find (dbytes C' ip') name' =
       if decide (cstr 14 name' = cstr 14 name) then Some (inum, dir_free (dbytes C ip)) else dir_find (dbytes C ip) name') ∧
    (∀ b, foreign C ip K b → b ≠ IBLOCK (i_inum ip) sb → C' b = C b).
Proof.
  intros Dr Hn Hi Hno Hwf Hfo HM Hc Hfr. pose proof (dr_N _ _ _ _ _ _ Dr) as HN.
  destruct (dir_find_link _ N inum name (dbytes_length _ _ _ _ _ _ Dr) HN Hi Hno) as (Hk & Hr & Hfind).
  destruct (dirlookup_spec s I C ip K N name Dr Hn) as (s1 & D1 & O1 & E1). rewrite Hno in E1. cbn [found] in E1.
  destruct (dirlink_scan s1 I C ip K N D1) as (s2 & r & D2 & O2 & E2 & Hdef). pose proof D2 as [G2 Hty Hsz _ HK HI].
  set (k := dir_free (dbytes C ip) / 16) in *. pose proof (length_mk_dirent inum name) as Hl. unfold DIRENT_SIZE in *.
  destruct (writei_grow D W L cap sb i s2 I C ip K (mk_dirent inum name) (dir_free (dbytes C ip)) 16 G2)
    as (s3 & I3 & C3 & ip3 & K3 & E3 & G3 & [X1 X2 X3 X4 X5 X6 X7 X8] & HI3); try done; try lia.
  { by rewrite Hty. } { apply mk_dirent_u8. } { change (16 / BSIZE) with 0. cbn [Z.to_nat]. lia. }
  exists s3, I3, C3, ip3, K3, (Z.max N (k + 1)). split_and!.
  - unfold dirlink. rewrite (bind_Ok _ _ _ _ _ E1).
    pose proof (gw_ip _ _ _ _ _ _ _ _ _ _ _ (dr_grow _ _ _ _ _ _ D1)) as (Hip1 & _).
    rewrite (bind_Ok _ _ _ _ _ (get_inode_eq _ _ _ Hip1)), (bind_Ok _ _ _ _ _ E2). unfold DIRENT_SIZE. rewrite Hdef.
    by rewrite (bind_Ok _ _ _ _ _ E3).
  - split; [done|by rewrite X2|rewrite X1, Hl; unfold DIRENT_SIZE; lia|lia|done|done].
  - intros name'. rewrite X6. apply Hfind.
  - intros b Hb Hne. by apply X7.
Qed.

(** C8. A directory is a map from names to inode numbers. dirlink() of a name that is not bound
    binds it, in the first free entry or in a new one at the end; from then on dirlookup()
    of that name, up to fourteen characters, finds the inode and the place of the entry, and
    of any other name finds what it found before. For a name that is bound already dirlink()
    drops the reference to the inode it found and returns -1. *)
Theorem directory_is_map s I C ip K N name inum :
  directory s I C ip K N → (length name <= 64)%nat → 0 < inum < 65536 →
  dinode_wf (dinode_of ip) → foreign C ip K (IBLOCK (i_inum ip) sb) → DIRENT_SIZE * (N + 1) <= MAXFILE * BSIZE →
  (cost sb I ip + 3 < cap)%nat → (2 + no_ind ip <= length (free_blocks C sb))%nat →
  match dir_find (dbytes C ip) name with
  | Some (n, _) => ∃ s1, only_log s s1 ∧ dirlink i name inum s = (j ← iget 1 n; iput j ;; mret (-1)) s1
  | None => ∃ s1, dirlink i name inum s = Ok 0 s1 ∧
      (∃ I1 C1 ip1 K1 N1, directory s1 I1 C1 ip1 K1 N1 ∧ ∀ b, foreign C ip K b → b ≠ IBLOCK (i_inum ip) sb → C1 b = C b) ∧
      ∀ name', (length name' <= 64)%nat → ∃ s2, only_log s1 s2 ∧
        dirlookup i name' s1 =
          found (if decide (cstr 14 name' = cstr 14 name) then Some (inum, dir_free (dbytes C ip)) else dir_find (dbytes C ip) name') s2
  end.
Proof.
  intros Dr Hn Hi Hwf Hfo HM Hc Hfr. destruct (dir_find (dbytes C ip) name) as [[n off]|] eqn:Ef.
  - destruct (dirlookup_spec s I C ip K N name Dr Hn) as (s1 & _ & O1 & E1). rewrite Ef in E1. exists s1. split; [done|].
    unfold dirlink. cbn [found] in E1. unfold mbind, M_bind in *. rewrite E1. by destruct (iget 1 n s1).
  - destruct (dirlink_new s I C ip K N name inum) as (s1 & I1 & C1 & ip1 & K1 & N1 & E1 & D1 & Hfind & Hb); try done.
    exists s1. split; [done|]. split; [by exists I1, C1, ip1, K1, N1|]. intros name' Hn'.
    destruct (dirlookup_spec s1 I1 C1 ip1 K1 N1 name' D1 Hn') as (s2 & _ & O2 & E2). exists s2. by rewrite E2, Hfind.
Qed.

End Dir.

(** A directory with the names "." and "a" and a free entry between them. *)
Section Example.
#[local] Existing Instance env_idle.

Definition dir_ip : inode := mkinode 1 1 1 2 T_DIR 0 0 1 48 (24 :: replicate 12 0).
Definition dir_disk : gmap Z (list Z) :=
  <[24 := put_list (block 0) 0 (mk_dirent 1 [46] ++ replicate 16 0 ++ mk_dirent 5 [97])]> grow_disk.
Definition dir_ex : kstate := Eval vm_compute in fs_ex dir_disk dir_ip.
Notation eD := (k_disk dir_ex).
Notation eL := (log_area (k_log dir_ex)).
Notation eC := (blk dir_ex).

Lemma dir_ex_file : file_ok eD eL grow_sb eC dir_ip 1.
Proof.
  assert (∀ bn, 0 <= bn < 1 → bn = 0) as Hbn by lia. split.
  - by rewrite MAXFILE_eq.
  - intros bn ->%Hbn. apply usedb_ok. by vm_compute.
  - intros bn bn' ->%Hbn ->%Hbn. done.
  - left. split; [unfold NDIRECT; lia|done].
  - intros bn Hr. unfold NDIRECT in Hr. assert (1 <= bn < 1 + 11) as Hr' by lia. clear Hr. revert bn Hr'.
    apply (forall_range (λ bn, file_addr eC dir_ip bn =? 0) _ 1 11); [by vm_compute|]. intros b. apply Z.eqb_eq.
Qed.

Lemma dir_ex_directory : directory eD [] eL 19 grow_sb 0 dir_ex ∅ eC dir_ip 1 3.
Proof.
  split; [|done|done|lia|unfold BSIZE; cbn; lia|by vm_compute; lia]. split; [|done|by split_and!|exact dir_ex_file|apply alloc_check; by vm_compute].
  apply (txn_check dir_ex (reverse (seq 0 30))); [split_and!; try done; vm_compute; lia|by vm_compute..].
Qed.

Lemma dir_ex_foreign : foreign eD eL grow_sb eC dir_ip 1 22.
Proof.
  split; [apply usedb_ok; by vm_compute|]. split; [done|]. intros bn Hbn. assert (bn = 0) as -> by lia. by vm_compute.
Qed.

Lemma directory_is_map_witness :
  ∃ s1, dirlink 0 [98; 98] 7 dir_ex = Ok 0 s1 ∧
    (∃ I1 C1 ip1 K1 N1, directory eD [] eL 19 grow_sb 0 s1 I1 C1 ip1 K1 N1 ∧
       ∀ b, foreign eD eL grow_sb eC dir_ip 1 b → b ≠ 22 → C1 b = eC b) ∧
    ∀ name', (length name' <= 64)%nat → ∃ s2, only_log s1 s2 ∧
      dirlookup 0 name' s1 =
        found (if decide (cstr 14 name' = cstr 14 [98; 98]) then Some (7, 16)
               else dir_find (file_range eC dir_ip 0 48) name') s2.
Proof.
  pose proof (directory_is_map eD [] eL 19 grow_sb 0 dir_ex ∅ eC dir_ip 1 3 [98; 98] 7 dir_ex_directory) as Hd.
  assert (dir_find (file_range eC dir_ip 0 (i_size dir_ip)) [98; 98] = None) as Hf by (by vm_compute).
  assert (dir_free (file_range eC dir_ip 0 (i_size dir_ip)) = 16) as Hr by (by vm_compute). rewrite Hf, Hr in Hd.
  apply Hd; clear; [by vm_compute; lia|lia| |exact dir_ex_foreign|by vm_compute|apply Nat.ltb_lt; by vm_compute|apply Nat.leb_le; by vm_compute].
  split; [by vm_compute|]. split; [by vm_compute|]. split; [by vm_compute|]. split; [by vm_compute|]. split; [by vm_compute|].
  split; [by repeat constructor|done].
Defined.

End Example.
