(* ===== verification/Mkfs.v ===== *)
(** * Mkfs: the program that builds the file system image (mkfs.c)

    The program runs on the host. Its state is the image, a map from sector numbers to
    their 512 bytes, and the counters [freeinode] and [freeblock]; what it prints is left
    out. A failed assert() and an exit(1) after perror() are [Panic]. The superblock [sb]
    is constant from the start of main() on. The host's files are arguments: a name with
    the contents, or nothing when it cannot be opened.

    iappend() appends: seen through the kernel's reading of inodes ([file_range], which
    readi() computes) a file has its old bytes and then the new ones, and the other files
    are as they were. The bitmap marks exactly the blocks in use. *)

From S2P Require Import Prelude Machine CMem DiskFmt LogSpec Inode FsSpec.
From stdpp Require Import options.

Definition NINODES : Z := 200.
Definition nbitmap : Z := FSSIZE / (BSIZE * 8) + 1.
Definition ninodeblocks : Z := NINODES / IPB + 1.
Definition nlog : Z := LOGSIZE.
Definition nmeta : Z := 2 + nlog + ninodeblocks + nbitmap.
Definition nblocks : Z := FSSIZE - nmeta.

Record mkst := mkmkst { k_img : gmap Z (list Z); k_freeinode : Z; k_freeblock : Z }.
Definition set_img (v : gmap Z (list Z)) (s : mkst) : mkst := mkmkst v (k_freeinode s) (k_freeblock s).
Definition set_freeinode (v : Z) (s : mkst) : mkst := mkmkst (k_img s) v (k_freeblock s).
Definition set_freeblock (v : Z) (s : mkst) : mkst := mkmkst (k_img s) (k_freeinode s) v.

Definition zeroes : list Z := replicate 512 0.

(** The bytes in Intel order, as a little-endian machine reads them back. *)
Definition xshort (x : Z) : Z := get16 (put16 [0; 0] 0 x) 0.
Definition xint (x : Z) : Z := get32 (put32 [0; 0; 0; 0] 0 x) 0.

Definition sb : superblock :=
  mksb (xint FSSIZE) (xint nblocks) (xint NINODES) (xint nlog) (xint 2) (xint (2 + nlog)) (xint (2 + nlog + ninodeblocks)).

(** memmove(buf, &sb, sizeof(sb)) *)
Definition put_sb (d : list Z) (x : superblock) : list Z :=
  put_words d 0 [sb_size x; sb_nblocks x; sb_ninodes x; sb_nlog x; sb_logstart x; sb_inodestart x; sb_bmapstart x].

Definition assert (b : bool) : M mkst unit := if b then skip else panic "assert".

Definition wsect (sec : Z) (buf : list Z) : M mkst unit := modify (λ s, set_img (<[sec := buf]> (k_img s)) s).
Definition rsect (sec : Z) : M mkst (list Z) :=
  img ← gets k_img;
  match img !! sec with Some b => mret b | None => panic "read" end.

Definition dinode_off (inum : Z) : Z := DINODE_SIZE * (inum mod IPB).
Definition winode (inum : Z) (ip : dinode) : M mkst unit :=
  buf ← rsect (IBLOCK inum sb);
  wsect (IBLOCK inum sb) (put_dinode buf (dinode_off inum) ip).
Definition rinode (inum : Z) : M mkst dinode :=
  buf ← rsect (IBLOCK inum sb);
  mret (get_dinode buf (dinode_off inum)).

Definition ialloc (type : Z) : M mkst Z :=
  inum ← gets k_freeinode;
  modify (set_freeinode (u32 (inum + 1))) ;;
  winode inum (mkdinode (xshort type) 0 0 (xshort 1) (xint 0) (replicate 13 0)) ;;
  mret inum.

(** freeblock++ *)
Definition newblock : M mkst Z :=
  b ← gets k_freeblock;
  modify (set_freeblock (u32 (b + 1))) ;;
  mret (xint b).

Definition set_addr (d : dinode) (i : Z) (a : Z) : dinode :=
  mkdinode (di_type d) (di_major d) (di_minor d) (di_nlink d) (di_size d) (<[Z.to_nat i := a]> (di_addrs d)).
Definition addr_of (d : dinode) (i : Z) : Z := xint (default 0 (di_addrs d !! Z.to_nat i)).

(** The block for block [fbn] of the file: the inode, and the sector. *)
Definition iblock (din : dinode) (fbn : Z) : M mkst (dinode * Z) :=
  if fbn <? NDIRECT then
    din ← (if addr_of din fbn =? 0 then b ← newblock; mret (set_addr din fbn b) else mret din);
    mret (din, addr_of din fbn)
  else
    din ← (if addr_of din NDIRECT =? 0 then b ← newblock; mret (set_addr din NDIRECT b) else mret din);
    indirect ← rsect (addr_of din NDIRECT);
    indirect ← (if get32 indirect (4 * (fbn - NDIRECT)) =? 0 then
                  b ← newblock;
                  let indirect := put32 indirect (4 * (fbn - NDIRECT)) b in
                  wsect (addr_of din NDIRECT) indirect ;;
                  mret indirect
                else mret indirect);
    mret (din, xint (get32 indirect (4 * (fbn - NDIRECT)))).

(** One round: the bytes that are left, the offset and the inode. *)
Definition iappend_body : list Z * Z * dinode → M mkst ((list Z * Z * dinode) + (Z * dinode)) := λ '(p, off, din),
  if Z.of_nat (length p) <=? 0 then mret (inr (off, din)) else
  let fbn := off / BSIZE in
  assert (fbn <? MAXFILE) ;;
  '(din, x) ← iblock din fbn;
  let n1 := Z.min (Z.of_nat (length p)) ((fbn + 1) * BSIZE - off) in
  buf ← rsect x;
  wsect x (put_list buf (off - fbn * BSIZE) (take (Z.to_nat n1) p)) ;;
  mret (inl (drop (Z.to_nat n1) p, u32 (off + n1), din)).

Definition set_size (d : dinode) (v : Z) : dinode :=
  mkdinode (di_type d) (di_major d) (di_minor d) (di_nlink d) v (di_addrs d).

Definition iappend (inum : Z) (p : list Z) : M mkst unit :=
  din ← rinode inum;
  '(off, din) ← loop (length p + 1) iappend_body (p, xint (di_size din), din);
  winode inum (set_size din (xint off)).

(** [buf[i/8] | (1 << (i%8))] for the first [used] blocks *)
Definition set_bits (used : Z) (buf : list Z) : list Z :=
  foldl (λ buf i, put_byte buf (i / 8) (Z.lor (byte_at buf (i / 8)) (Z.shiftl 1 (i mod 8)))) buf (seqZ 0 used).
Definition balloc (used : Z) : M mkst unit :=
  assert (used <? BSIZE * 8) ;;
  wsect (sb_bmapstart sb) (set_bits used zeroes).

(** A directory entry whose name strcpy() or strncpy() put into zeroed memory. *)
Definition dirent_of (inum : Z) (name : list Z) : list Z :=
  put_list (put16 (replicate 16 0) 0 (xshort inum)) 2 (take (Z.to_nat DIRSIZ) name).

(** What read(fd, buf, BSIZE) returns until the end of the file. *)
Fixpoint blocks (fuel : nat) (l : list Z) : list (list Z) :=
  match fuel, l with
  | S fuel, _ :: _ => take (Z.to_nat BSIZE) l :: blocks fuel (drop (Z.to_nat BSIZE) l)
  | _, _ => []
  end.

Definition add_file (rootino : Z) : list Z * option (list Z) → M mkst unit := λ '(name, file),
  assert (negb (bool_decide (47 ∈ name))) ;;
  match file with
  | None => panic "exit"
  | Some l =>
    let name := match name with 95 :: name' => name' | _ => name end in
    inum ← ialloc T_FILE;
    iappend rootino (dirent_of inum name) ;;
    for_each (blocks (length l) l) (iappend inum)
  end.

Definition main (files : list (list Z * option (list Z))) : M mkst unit :=
  assert (BSIZE mod DINODE_SIZE =? 0) ;;
  assert (BSIZE mod DIRENT_SIZE =? 0) ;;
  modify (set_freeblock nmeta) ;;
  for_each (seqZ 0 FSSIZE) (λ i, wsect i zeroes) ;;
  wsect 1 (put_sb zeroes sb) ;;
  rootino ← ialloc T_DIR;
  assert (rootino =? ROOTINO) ;;
  iappend rootino (dirent_of rootino [46]) ;;
  iappend rootino (dirent_of rootino [46; 46]) ;;
  for_each files (add_file rootino) ;;
  din ← rinode rootino;
  let off := xint (di_size din) in
  let off := (off / BSIZE + 1) * BSIZE in
  winode rootino (set_size din (xint off)) ;;
  b ← gets k_freeblock;
  balloc b.

(** ** The image *)

Lemma xint_u32 x : xint x = u32 x.
Proof. unfold xint. by rewrite get32_put32 by (cbn [length]; lia). Qed.

(** An inode with these addresses, for [file_addr] and [file_byte]. *)
Definition ino (l : list Z) : inode := mkinode 0 0 0 0 0 0 0 0 0 l.

(** A place where a file keeps a block number: one for each block, and one for the
    block of indirect addresses. *)
Definition slot : Type := Z * option Z.
Definition valid (x : slot) : Prop := 0 <= x.1 < NINODES ∧ match x.2 with Some bn => 0 <= bn < MAXFILE | None => True end.
Definition saddr (C : Z → list Z) (ads : Z → list Z) (x : slot) : Z :=
  match x.2 with Some bn => file_addr C (ino (ads x.1)) bn | None => ind_addr (ino (ads x.1)) end.

(** The image while it is built: [ads] and [szs] are the addresses and the sizes of the
    files, [fb] the first block that no file uses. *)
Record image (C : Z → list Z) (fb : Z) (ads : Z → list Z) (szs : Z → Z) : Prop := {
  im_len n : 0 <= n < FSSIZE → length (C n) = 512%nat;
  im_fb : nmeta <= fb <= FSSIZE;
  im_zero n : fb <= n < FSSIZE → C n = zeroes;
  im_boot : C 0 = zeroes;
  im_ads i : 0 <= i < NINODES → Forall is_u32 (ads i) ∧ length (ads i) = 13%nat;
  im_szs i : 0 <= i < NINODES → 0 <= szs i <= MAXFILE * BSIZE;
  im_used x : valid x → saddr C ads x ≠ 0 → nmeta <= saddr C ads x < fb;
  im_inj x y : valid x → valid y → saddr C ads x ≠ 0 → saddr C ads x = saddr C ads y → x = y;
  im_full i bn : 0 <= i < NINODES → 0 <= bn → bn * BSIZE < szs i → saddr C ads (i, Some bn) ≠ 0
}.

(** The bytes of the files are the same. *)
Definition same_files (C C' : Z → list Z) (ads ads' : Z → list Z) (szs : Z → Z) : Prop :=
  ∀ j k, 0 <= j < NINODES → 0 <= k < szs j → file_byte C' (ino (ads' j)) k = file_byte C (ino (ads j)) k.

Lemma block_lt k n : 0 <= k < n → 0 <= k / BSIZE ∧ k / BSIZE * BSIZE < n.
Proof. intros H. pose proof (Z.div_mod k BSIZE ltac:(done)). pose proof (Z.mod_pos_bound k BSIZE ltac:(done)). unfold BSIZE in *. lia. Qed.

(** Block [fb] goes to the slot [x], which was empty; only blocks of indirect addresses
    are written. *)
Lemma image_slot C fb ads szs C' ads' x :
  image C fb ads szs → fb < FSSIZE → valid x → saddr C ads x = 0 →
  (∀ y, valid y → saddr C' ads' y = if decide (y = x) then fb else saddr C ads y) →
  (∀ n, 0 <= n < FSSIZE → length (C' n) = 512%nat) →
  (∀ n, C' n = C n ∨ ∃ i, 0 <= i < NINODES ∧ n = saddr C ads (i, None) ∧ n ≠ 0) →
  (∀ i, 0 <= i < NINODES → Forall is_u32 (ads' i) ∧ length (ads' i) = 13%nat) →
  image C' (fb + 1) ads' szs ∧ same_files C C' ads ads' szs.
Proof.
  intros H Hfb Hx Hx0 Hs Hlen HC Hads. pose proof (im_fb _ _ _ _ H) as Hb.
  assert (∀ n, fb <= n ∨ n < nmeta → C' n = C n) as Heq.
  { intros n Hn. destruct (HC n) as [->|(i & Hi & -> & H0)]; [done|].
    pose proof (im_used _ _ _ _ H (i, None) ltac:(by split) H0). lia. }
  assert (nmeta = 59) as Hnm by done. split; [split|].
  - done.
  - lia.
  - intros n Hn. rewrite Heq by lia. apply (im_zero _ _ _ _ H). lia.
  - rewrite Heq by lia. apply (im_boot _ _ _ _ H).
  - done.
  - apply (im_szs _ _ _ _ H).
  - intros y Hy. rewrite Hs by done. case_decide; [lia|]. intros Hn%(im_used _ _ _ _ H); [lia|done].
  - intros y z Hy Hz. rewrite !Hs by done. do 2 case_decide; subst; try done.
    + intros _ E. pose proof (im_used _ _ _ _ H z Hz). lia.
    + intros Hn E. pose proof (im_used _ _ _ _ H y Hy). lia.
    + by apply H.
  - intros i bn Hi Hbn Hlt. rewrite Hs.
    + case_decide; [lia|by apply H].
    + split; [done|]. cbn. pose proof (im_szs _ _ _ _ H i Hi). unfold BSIZE in *. lia.
  - intros j k Hj Hk. destruct (block_lt k (szs j) Hk) as [Hk0 Hkl].
    pose proof (im_full _ _ _ _ H j (k / BSIZE) Hj Hk0 Hkl) as Hn.
    assert (valid (j, Some (k / BSIZE))) as Hv by (split; [done|]; cbn; pose proof (im_szs _ _ _ _ H j Hj); unfold BSIZE in *; lia).
    pose proof (Hs _ Hv) as Hss. rewrite decide_False in Hss by (intros <-; done). unfold file_byte. cbn in Hss, Hn. rewrite Hss.
    destruct (HC (file_addr C (ino (ads j)) (k / BSIZE))) as [->|(i & Hi & E & _)]; [done|].
    pose proof (im_inj _ _ _ _ H (j, Some (k / BSIZE)) (i, None) Hv ltac:(by split) Hn E). done.
Qed.

Lemma image_addr C fb ads szs i k :
  image C fb ads szs → fb < FSSIZE → 0 <= i < NINODES → 0 <= k <= NDIRECT → default 0 (ads i !! Z.to_nat k) = 0 →
  let ads' := fupd ads i (<[Z.to_nat k := fb]> (ads i)) in
  image C (fb + 1) ads' szs ∧ same_files C C ads ads' szs.
Proof.
  intros H Hfb Hi Hk H0 ads'. pose proof (im_fb _ _ _ _ H) as Hb. destruct (im_ads _ _ _ _ H i Hi) as [Hu Hl].
  set (x := (i, if decide (k = NDIRECT) then None else Some k) : slot). unfold NDIRECT in *.
  apply (image_slot C fb ads szs C ads' x); try done.
  - unfold x. split; [done|]. cbn. case_decide; [done|]. change MAXFILE with 140. lia.
  - unfold x, saddr, ind_addr, file_addr, NDIRECT. cbn. case_decide as Hc; [by subst k|]. by rewrite (proj2 (Z.ltb_lt k 12)) by lia.
  - intros [j o] [Hj Ho]. cbn in Hj, Ho. unfold saddr, ads', fupd. cbn [fst snd]. destruct (decide (j = i)) as [->|Hne].
    2:{ rewrite decide_False; [done|]. unfold x. congruence. }
    assert (∀ q, default 0 (<[Z.to_nat k := fb]> (ads i) !! q) = if decide (q = Z.to_nat k) then fb else default 0 (ads i !! q)) as Hq.
    { intros q. case_decide as Hc; [subst q; rewrite list_lookup_insert_eq by lia; done|by rewrite list_lookup_insert_ne by done]. }
    unfold x. destruct o as [bn|]; unfold file_addr, ind_addr, NDIRECT; cbn [ino i_addrs]; rewrite ?Hq.
    + destruct (Z.ltb_spec bn 12) as [Hd|Hd].
      * destruct (decide (k = 12)) as [->|Hk12]; [rewrite decide_False by lia; by rewrite decide_False|].
        destruct (decide (bn = k)) as [->|]; [by rewrite !decide_True|]. rewrite !decide_False by (lia || congruence). done.
      * rewrite (decide_False (P := (i, Some bn) = _)) by (case_decide; [done|]; intros [= ->]; lia).
        case_decide as Hc; [|done]. assert (k = 12) as -> by lia. change (Z.to_nat 12) with 12%nat in H0. rewrite H0.
        by rewrite (im_boot _ _ _ _ H), (im_zero _ _ _ _ H fb) by lia.
    + destruct (decide (k = 12)) as [->|]; [by rewrite !decide_True|]. rewrite !decide_False by (lia || congruence). done.
  - apply H.
  - intros n. by left.
  - intros j Hj. unfold ads', fupd. case_decide; [|by apply H]. split; [|by rewrite length_insert].
    apply Forall_insert; [done|]. change FSSIZE with 1000 in *. change nmeta with 59 in *. unfold is_u32. lia.
Qed.

Lemma image_entry C fb ads szs i bn :
  image C fb ads szs → fb < FSSIZE → 0 <= i < NINODES → NDIRECT <= bn < MAXFILE →
  ind_addr (ino (ads i)) ≠ 0 → file_addr C (ino (ads i)) bn = 0 →
  let a := ind_addr (ino (ads i)) in
  let C' := fupd C a (put32 (C a) (4 * (bn - NDIRECT)) fb) in
  image C' (fb + 1) ads szs ∧ same_files C C' ads ads szs.
Proof.
  intros H Hfb Hi Hbn Ha H0 a C'. pose proof (im_fb _ _ _ _ H) as Hb. change MAXFILE with 140 in *. unfold NDIRECT in *.
  pose proof (im_used _ _ _ _ H (i, None) ltac:(by split) Ha) as Hau. cbn in Hau. fold a in Hau. change nmeta with 59 in *. change FSSIZE with 1000 in *.
  pose proof (im_len _ _ _ _ H a ltac:(change FSSIZE with 1000; lia)) as Hal.
  assert (get32 (C a) (4 * (bn - 12)) = 0) as Hg by (unfold file_addr in H0; by rewrite (proj2 (Z.ltb_ge bn NDIRECT)) in H0 by (unfold NDIRECT; lia)).
  apply (image_slot C fb ads szs C' ads (i, Some bn)); try done.
  - split; [done|]. change MAXFILE with 140. cbn. lia.
  - intros [j o] [Hj Ho]. cbn in Hj, Ho. unfold saddr. cbn [fst snd]. destruct o as [b|]; [|by rewrite decide_False].
    unfold file_addr. unfold NDIRECT. destruct (Z.ltb_spec b 12) as [Hd|Hd]; [rewrite decide_False; [done|intros [= -> ->]; lia]|].
    unfold C', fupd. change MAXFILE with 140 in Ho. destruct (decide (ind_addr (ino (ads j)) = a)) as [E|E].
    + assert ((j, None) = (i, None) :> slot) as [= ->] by (apply (im_inj _ _ _ _ H); [by split|by split|cbn; by rewrite E|done]).
      destruct (decide (b = bn)) as [->|Hne].
      * rewrite decide_True by done. rewrite get32_put32 by lia. apply u32_small. unfold is_u32. lia.
      * rewrite decide_False by congruence. rewrite get32_put32_ne by lia. done.
    + rewrite decide_False; [done|]. intros [= -> ->]. done.
  - intros n Hn. unfold C', fupd. case_decide; [by rewrite length_put32|by apply H].
  - intros n. unfold C', fupd. case_decide as Hc; [right|by left]. exists i. subst n. done.
  - apply H.
Qed.

(** ** iappend *)

Definition holds (s : mkst) (C : Z → list Z) : Prop := ∀ n, 0 <= n < FSSIZE → k_img s !! n = Some (C n).

Lemma rsect_ok s C n : holds s C → 0 <= n < FSSIZE → rsect n s = Ok (C n) s.
Proof. intros H Hn. unfold rsect. rewrite (bind_Ok _ _ s (k_img s) s) by done. by rewrite H. Qed.

Lemma holds_write s C n b : holds s C → holds (set_img (<[n := b]> (k_img s)) s) (fupd C n b).
Proof.
  intros H m Hm. cbn. unfold fupd. case_decide as Hc; [subst; by rewrite lookup_insert_eq|]. rewrite lookup_insert_ne by done. by apply H.
Qed.

Lemma newblock_ok s : 0 <= k_freeblock s < FSSIZE → newblock s = Ok (k_freeblock s) (set_freeblock (k_freeblock s + 1) s).
Proof.
  change FSSIZE with 1000. intros H. unfold newblock. rewrite (bind_Ok _ _ s (k_freeblock s) s) by done.
  rewrite xint_u32, !u32_small by (unfold is_u32; lia). done.
Qed.

(** From one image to the next while file [i] gets blocks. *)
Record mkgrown (i : Z) (szs : Z → Z) (C : Z → list Z) (fb : Z) (ads : Z → list Z) (C' : Z → list Z) (fb' : Z) (ads' : Z → list Z) : Prop := {
  gr_image : image C' fb' ads' szs;
  gr_files : same_files C C' ads ads' szs;
  gr_fb : fb <= fb';
  gr_ads j : j ≠ i → ads' j = ads j;
  gr_meta n : n < nmeta → C' n = C n
}.

Lemma mkgrown_refl i szs C fb ads : image C fb ads szs → mkgrown i szs C fb ads C fb ads.
Proof. by split. Qed.

Lemma mkgrown_trans i szs C1 fb1 ads1 C2 fb2 ads2 C3 fb3 ads3 :
  mkgrown i szs C1 fb1 ads1 C2 fb2 ads2 → mkgrown i szs C2 fb2 ads2 C3 fb3 ads3 → mkgrown i szs C1 fb1 ads1 C3 fb3 ads3.
Proof.
  intros [I1 F1 B1 A1 M1] [I2 F2 B2 A2 M2]. split; [done| |lia|intros; by rewrite A2, A1|intros; by rewrite M2, M1].
  intros j k Hj Hk. by rewrite F2, F1.
Qed.

(** The fields other than the addresses. *)
Definition same_fields (d d' : dinode) : Prop :=
  di_type d' = di_type d ∧ di_major d' = di_major d ∧ di_minor d' = di_minor d ∧ di_nlink d' = di_nlink d ∧ di_size d' = di_size d.

Section Append.
Context (i : Z) (szs : Z → Z) (Hi : 0 <= i < NINODES).

Lemma addr_of_eq C fb ads din k :
  image C fb ads szs → ads i = di_addrs din → addr_of din k = default 0 (ads i !! Z.to_nat k).
Proof using Hi.
  intros H E. unfold addr_of. rewrite xint_u32, <- E. destruct (ads i !! Z.to_nat k) as [a|] eqn:Ea; [|done].
  apply u32_small. by eapply (proj1 (Forall_lookup _ _) (proj1 (im_ads _ _ _ _ H i Hi))).
Qed.

Lemma ensure_addr s C ads din k :
  holds s C → image C (k_freeblock s) ads szs → ads i = di_addrs din → k_freeblock s < FSSIZE → 0 <= k <= NDIRECT →
  ∃ din' s' ads', (if addr_of din k =? 0 then b ← newblock; mret (set_addr din k b) else mret din) s = Ok din' s' ∧
    holds s' C ∧ k_freeinode s' = k_freeinode s ∧ same_fields din din' ∧ ads' i = di_addrs din' ∧ addr_of din' k ≠ 0 ∧
    k_freeblock s' <= k_freeblock s + 1 ∧ mkgrown i szs C (k_freeblock s) ads C (k_freeblock s') ads'.
Proof using Hi.
  intros Hh H E Hfb Hk. pose proof (im_fb _ _ _ _ H) as Hb. change nmeta with 59 in Hb. destruct (Z.eqb_spec (addr_of din k) 0) as [H0|H0].
  - rewrite (bind_Ok _ _ _ _ _ (newblock_ok s ltac:(lia))). pose proof H0 as Ha. rewrite (addr_of_eq C _ ads) in Ha by done.
    destruct (image_addr C _ ads szs i k H Hfb Hi Hk Ha) as [I F].
    assert (fupd ads i (<[Z.to_nat k := k_freeblock s]> (ads i)) i = di_addrs (set_addr din k (k_freeblock s))) as E'
      by (unfold fupd; rewrite decide_True by done; by rewrite E).
    exists (set_addr din k (k_freeblock s)), (set_freeblock (k_freeblock s + 1) s), (fupd ads i (<[Z.to_nat k := k_freeblock s]> (ads i))).
    split; [done|]. split; [done|]. split; [done|]. split; [by split_and!|]. split; [done|]. split; [|split; [cbn; lia|]].
    + rewrite (addr_of_eq C _ _ _ _ I E'). unfold fupd. rewrite decide_True by done. destruct (im_ads _ _ _ _ H i Hi) as [_ Hl].
      unfold NDIRECT in Hk. rewrite list_lookup_insert_eq by lia. cbn. lia.
    + split; [done|done|cbn; lia| |done]. intros j Hj. unfold fupd. by rewrite decide_False.
  - exists din, s, ads. split; [done|]. split_and!; try done; try lia; by apply mkgrown_refl.
Qed.

Lemma iblock_spec s C ads din fbn :
  holds s C → image C (k_freeblock s) ads szs → ads i = di_addrs din → k_freeblock s + 2 <= FSSIZE → 0 <= fbn < MAXFILE →
  ∃ din' x s' C' ads', iblock din fbn s = Ok (din', x) s' ∧ holds s' C' ∧ k_freeinode s' = k_freeinode s ∧ same_fields din din' ∧
    ads' i = di_addrs din' ∧ x = file_addr C' (ino (ads' i)) fbn ∧ x ≠ 0 ∧ k_freeblock s' <= k_freeblock s + 2 ∧
    mkgrown i szs C (k_freeblock s) ads C' (k_freeblock s') ads'.
Proof using Hi.
  change MAXFILE with 140. intros Hh H E Hfb Hfbn. unfold iblock. destruct (Z.ltb_spec fbn NDIRECT) as [Hd|Hd].
  - destruct (ensure_addr s C ads din fbn Hh H E ltac:(lia) ltac:(lia)) as (d1 & s1 & ads1 & E1 & Hh1 & Hf1 & Hs1 & Ea1 & Hn1 & Hb1 & G1).
    rewrite (bind_Ok _ _ _ _ _ E1). exists d1, (addr_of d1 fbn), s1, C, ads1. split; [done|]. split_and!; try done; try lia.
    rewrite (addr_of_eq C _ ads1 _ _ (gr_image _ _ _ _ _ _ _ _ G1) Ea1). unfold file_addr.
    by rewrite (proj2 (Z.ltb_lt fbn NDIRECT)) by lia.
  - destruct (ensure_addr s C ads din NDIRECT Hh H E ltac:(lia) ltac:(done)) as (d1 & s1 & ads1 & E1 & Hh1 & Hf1 & Hs1 & Ea1 & Hn1 & Hb1 & G1).
    rewrite (bind_Ok _ _ _ _ _ E1). pose proof (gr_image _ _ _ _ _ _ _ _ G1) as I1.
    pose proof (addr_of_eq C _ ads1 _ NDIRECT I1 Ea1) as Ha1. change (Z.to_nat NDIRECT) with 12%nat in Ha1.
    change (addr_of d1 NDIRECT = ind_addr (ino (ads1 i))) in Ha1. rewrite Ha1 in *. set (a := ind_addr (ino (ads1 i))) in *.
    pose proof (im_used _ _ _ _ I1 (i, None) ltac:(by split) Hn1) as Hau. cbn in Hau. fold a in Hau. pose proof (im_fb _ _ _ _ I1) as Hb1'.
    change nmeta with 59 in *. change FSSIZE with 1000 in *.
    rewrite (bind_Ok _ _ _ _ _ (rsect_ok s1 C a Hh1 ltac:(change FSSIZE with 1000; lia))).
    assert (file_addr C (ino (ads1 i)) fbn = get32 (C a) (4 * (fbn - NDIRECT))) as Hfa
      by (unfold file_addr; by rewrite (proj2 (Z.ltb_ge fbn NDIRECT)) by lia). rewrite <- Hfa.
    destruct (Z.eqb_spec (file_addr C (ino (ads1 i)) fbn) 0) as [H0|H0].
    + rewrite (bind_Ok _ _ s1 (put32 (C a) (4 * (fbn - NDIRECT)) (k_freeblock s1))
        (set_img (<[a := put32 (C a) (4 * (fbn - NDIRECT)) (k_freeblock s1)]> (k_img s1)) (set_freeblock (k_freeblock s1 + 1) s1)))
        by (rewrite (bind_Ok _ _ _ _ _ (newblock_ok s1 ltac:(change FSSIZE with 1000; lia))); done).
      destruct (image_entry C _ ads1 szs i fbn I1 ltac:(change FSSIZE with 1000; lia) Hi ltac:(change MAXFILE with 140; lia) Hn1 H0) as [I2 F2].
      fold a in I2, F2. set (C2 := fupd C a _) in *. pose proof (im_len _ _ _ _ I1 a ltac:(change FSSIZE with 1000; lia)) as Hla.
      assert (get32 (put32 (C a) (4 * (fbn - NDIRECT)) (k_freeblock s1)) (4 * (fbn - NDIRECT)) = k_freeblock s1) as Hg.
      { unfold NDIRECT in *. rewrite get32_put32 by lia. apply u32_small. unfold is_u32. lia. }
      rewrite Hg, xint_u32, u32_small by (unfold is_u32; lia).
      eexists d1, (k_freeblock s1), _, C2, ads1. split; [done|]. split; [by apply (holds_write (set_freeblock (k_freeblock s1 + 1) s1))|]. split_and!; try done; cbn; try lia.
      * unfold file_addr. rewrite (proj2 (Z.ltb_ge fbn NDIRECT)) by lia. fold a. unfold C2, fupd. by rewrite decide_True.
      * apply (mkgrown_trans _ _ _ _ _ _ _ _ _ _ _ G1). split; [done|done|lia|done|].
        intros n Hn. change nmeta with 59 in Hn. unfold C2, fupd. rewrite decide_False by lia. done.
    + rewrite (bind_Ok _ _ s1 (C a) s1) by done. rewrite <- Hfa.
      pose proof (im_used _ _ _ _ I1 (i, Some fbn) ltac:(split; [done|]; cbn; change MAXFILE with 140; lia) H0) as Hu. cbn in Hu. change nmeta with 59 in Hu.
      rewrite xint_u32, u32_small by (unfold is_u32; lia). exists d1, (file_addr C (ino (ads1 i)) fbn), s1, C, ads1.
      split; [done|]. split_and!; try done; lia.
Qed.

End Append.

Definition set_sz (szs : Z → Z) (i n : Z) : Z → Z := λ j, if decide (j = i) then n else szs j.

Lemma in_use C fb ads szs x : image C fb ads szs → valid x → saddr C ads x ≠ 0 → 59 <= saddr C ads x < 1000.
Proof.
  intros H Hv Hn. pose proof (im_used _ _ _ _ H x Hv Hn) as Hu. pose proof (im_fb _ _ _ _ H) as Hb.
  change nmeta with 59 in *. change FSSIZE with 1000 in *. lia.
Qed.

Section Store.
Context (s : mkst) (C ads : Z → list Z) (fb : Z) (szs : Z → Z) (i : Z).
Context (Hh : holds s C) (H : image C fb ads szs) (Hi : 0 <= i < NINODES).
Let off := szs i.
Context (Hx : file_addr C (ino (ads i)) (off / BSIZE) ≠ 0) (Hoff : off < MAXFILE * BSIZE).

Lemma file_blocks_image : file_blocks (k_img s) ∅ C (λ _, False) (ino (ads i)) (off / BSIZE + 1).
Proof using All.
  pose proof (im_szs _ _ _ _ H i Hi) as Hs. fold off in Hs. pose proof (Z.div_mod off BSIZE ltac:(done)). pose proof (Z.mod_pos_bound off BSIZE ltac:(done)).
  assert (off / BSIZE < 140) as Hlt by (apply Z.div_lt_upper_bound; [done|]; change (MAXFILE * BSIZE) with (BSIZE * 140) in Hoff; done).
  assert (∀ bn, 0 <= bn < off / BSIZE + 1 → valid (i, Some bn)) as Hv by (intros bn Hbn; split; [done|]; cbn; change MAXFILE with 140; lia).
  assert (∀ bn, 0 <= bn < off / BSIZE + 1 → saddr C ads (i, Some bn) ≠ 0) as Hn.
  { intros bn Hbn. destruct (decide (bn = off / BSIZE)) as [->|]; [done|]. apply (im_full _ _ _ _ H); [done|lia|]. fold off. unfold BSIZE in *. lia. }
  assert (∀ n, 59 <= n < 1000 → is_Some (k_img s !! n) ∧ length (C n) = 512%nat) as Hd.
  { intros n Hr. split; [eexists; apply Hh|apply (im_len _ _ _ _ H)]; change FSSIZE with 1000; lia. }
  split.
  - intros bn Hbn. pose proof (in_use _ _ _ _ _ H (Hv _ Hbn) (Hn _ Hbn)) as Hu. cbn in Hu. destruct (Hd _ Hu) as [Hd1 Hd2]. specialize (Hn _ Hbn).
    split; try done; [change MAXFILE with 140; lia|]. intros Hge.
    assert (ind_addr (ino (ads i)) ≠ 0) as Hind0.
    { intros E. cbn in Hn. unfold file_addr in Hn. rewrite (proj2 (Z.ltb_ge bn NDIRECT)), E, (im_boot _ _ _ _ H) in Hn by lia.
      apply Hn. unfold get32, byte_at, zeroes. by rewrite !lookup_replicate_2 by (change MAXFILE with 140 in *; unfold NDIRECT in *; lia). }
    split; [done|]. split; [|set_solver]. apply Hd. apply (in_use _ _ _ _ (i, None) H); [by split|done].
  - intros bn bn' Hb Hb' E. pose proof (im_inj _ _ _ _ H (i, Some bn) (i, Some bn') (Hv _ Hb) (Hv _ Hb') (Hn _ Hb) E) as Hp. by injection Hp.
  - intros bn Hb E. pose proof (im_inj _ _ _ _ H (i, Some bn) (i, None) (Hv _ Hb) ltac:(by split) (Hn _ Hb) E) as Hp. done.
  - intros bn Hb. pose proof (in_use _ _ _ _ _ H (Hv _ Hb) (Hn _ Hb)) as Hu. cbn in Hu. split; [lia|tauto].
Qed.

Context (l : list Z) (Hl : Z.of_nat (length l) <= BSIZE - off mod BSIZE) (H8 : Forall is_u8 l).

Lemma image_store : let C' := file_store C (ino (ads i)) off l in
  image C' fb ads (set_sz szs i (off + Z.of_nat (length l))) ∧
  file_range C' (ino (ads i)) 0 (off + Z.of_nat (length l)) = file_range C (ino (ads i)) 0 off ++ l ∧
  (∀ j k, 0 <= j < NINODES → j ≠ i → 0 <= k < szs j → file_byte C' (ino (ads j)) k = file_byte C (ino (ads j)) k) ∧
  (∀ n, n < nmeta → C' n = C n).
Proof using All.
  intros C'. pose proof (im_szs _ _ _ _ H i Hi) as Hs. fold off in Hs. pose proof (Z.div_mod off BSIZE ltac:(done)) as Hdm.
  pose proof (Z.mod_pos_bound off BSIZE ltac:(done)) as Hmb. assert (0 <= off / BSIZE) as Hd0 by (apply Z.div_pos; lia || done).
  assert (off / BSIZE < 140) as Hlt by (apply Z.div_lt_upper_bound; [done|]; change (MAXFILE * BSIZE) with (BSIZE * 140) in Hoff; done).
  destruct (stored_one (k_img s) ∅ (λ _, False) (ino (ads i)) (off / BSIZE + 1) off l C file_blocks_image ltac:(lia) Hl) as [_ Sa Sb _].
  fold C' in Sa, Sb. set (x := file_addr C (ino (ads i)) (off / BSIZE)) in *.
  assert (valid (i, Some (off / BSIZE))) as Hv by (split; [done|]; cbn; change MAXFILE with 140; lia).
  assert (59 <= x < fb) as Hxr by (pose proof (im_used _ _ _ _ H _ Hv Hx) as Hu; change nmeta with 59 in Hu; exact Hu).
  assert (∀ n, n ≠ x → C' n = C n) as HC by (intros n Hn; unfold C', file_store, fupd; by rewrite decide_False).
  assert (∀ y, valid y → saddr C' ads y = saddr C ads y) as Hsa.
  { intros [j [bn|]] Hy; [|done]. cbn. unfold file_addr. destruct (bn <? NDIRECT); [done|]. rewrite HC; [done|]. intros E.
    assert (ind_addr (ino (ads j)) ≠ 0) as Hj0 by lia.
    pose proof (im_inj _ _ _ _ H (j, None) (i, Some (off / BSIZE)) ltac:(split; [apply Hy|done]) Hv Hj0 E). done. }
  split; [split|split; [|split]].
  - intros n Hn. unfold C', file_store, fupd. case_decide; [|by apply (im_len _ _ _ _ H)]. rewrite length_put_list. apply (im_len _ _ _ _ H).
    fold x. pose proof (im_fb _ _ _ _ H). lia.
  - apply (im_fb _ _ _ _ H).
  - intros n Hn. rewrite HC by lia. by apply (im_zero _ _ _ _ H).
  - rewrite HC by lia. apply (im_boot _ _ _ _ H).
  - apply (im_ads _ _ _ _ H).
  - intros j Hj. unfold set_sz. case_decide; [|by apply (im_szs _ _ _ _ H)]. split; [lia|]. change (MAXFILE * BSIZE) with (140 * BSIZE). unfold BSIZE in *. lia.
  - intros y Hy. rewrite Hsa by done. by apply (im_used _ _ _ _ H).
  - intros y z Hy Hz. rewrite !Hsa by done. by apply (im_inj _ _ _ _ H).
  - intros j bn Hj Hbn. unfold set_sz. intros Hlt'. assert (valid (j, Some bn)) as Hvb.
    { split; [done|]. cbn. change MAXFILE with 140. case_decide; [unfold BSIZE in *; lia|].
      pose proof (im_szs _ _ _ _ H j Hj) as Hsj. change (MAXFILE * BSIZE) with (140 * BSIZE) in Hsj. unfold BSIZE in *. lia. }
    rewrite Hsa by done. case_decide as Hc; [subst j|by apply (im_full _ _ _ _ H)]. destruct (decide (bn = off / BSIZE)) as [->|]; [done|].
    apply (im_full _ _ _ _ H); [done|done|]. fold off. unfold BSIZE in *. lia.
  - rewrite file_range_app by lia. f_equal.
    + apply list_fmap_ext. intros q k [-> Hk]%lookup_seqZ. rewrite Sb by (split; [apply Z.div_pos; lia || done|];
        apply Z.lt_succ_r, Z.div_le_mono; [done|lia]). by rewrite decide_False by lia.
    + apply list_eq. intros q. rewrite Z.add_0_l. unfold file_range. rewrite list_lookup_fmap.
      destruct (decide (q < length l)%nat) as [Hq|Hq].
      * rewrite lookup_seqZ_lt by lia. cbn. rewrite Sb.
        -- rewrite decide_True by lia. replace (Z.to_nat (off + Z.of_nat q - off)) with q by lia.
           destruct (lookup_lt_is_Some_2 l q Hq) as [z Hz]. rewrite Hz. cbn. f_equal. apply u8_small. by eapply (proj1 (Forall_lookup _ _) H8).
        -- split; [apply Z.div_pos; lia || done|]. apply Z.div_lt_upper_bound; [done|]. unfold BSIZE in *. lia.
      * rewrite lookup_seqZ_ge, lookup_ge_None_2 by lia. done.
  - intros j k Hj Hne Hk. destruct (block_lt k (szs j) Hk) as [Hk0 Hkl].
    pose proof (im_full _ _ _ _ H j (k / BSIZE) Hj Hk0 Hkl) as Hn.
    assert (valid (j, Some (k / BSIZE))) as Hvk.
    { split; [done|]; cbn. pose proof (im_szs _ _ _ _ H j Hj) as Hsj. change (MAXFILE * BSIZE) with (140 * BSIZE) in Hsj.
      change MAXFILE with 140. unfold BSIZE in *. lia. }
    pose proof (Hsa _ Hvk) as E. cbn in E, Hn. unfold file_byte. rewrite E, HC; [done|]. intros E2.
    pose proof (im_inj _ _ _ _ H (j, Some (k / BSIZE)) _ Hvk Hv Hn E2) as E3. by injection E3.
  - intros n Hn. change nmeta with 59 in Hn. apply HC. lia.
Qed.

End Store.

(** File [i] has got the bytes [l]. *)
Record appended (i : Z) (l : list Z) (s : mkst) (C ads : Z → list Z) (szs : Z → Z) (s' : mkst) (C' ads' : Z → list Z) (szs' : Z → Z) : Prop := {
  ap_holds : holds s' C';
  ap_image : image C' (k_freeblock s') ads' szs';
  ap_size : szs' i = szs i + Z.of_nat (length l);
  ap_szs j : j ≠ i → szs' j = szs j;
  ap_ads j : j ≠ i → ads' j = ads j;
  ap_file : file_range C' (ino (ads' i)) 0 (szs' i) = file_range C (ino (ads i)) 0 (szs i) ++ l;
  ap_other j k : 0 <= j < NINODES → j ≠ i → 0 <= k < szs j → file_byte C' (ino (ads' j)) k = file_byte C (ino (ads j)) k;
  ap_meta n : n < nmeta → C' n = C n;
  ap_inode : k_freeinode s' = k_freeinode s
}.

Lemma appended_trans i l1 l2 s1 C1 ads1 szs1 s2 C2 ads2 szs2 s3 C3 ads3 szs3 :
  appended i l1 s1 C1 ads1 szs1 s2 C2 ads2 szs2 → appended i l2 s2 C2 ads2 szs2 s3 C3 ads3 szs3 →
  appended i (l1 ++ l2) s1 C1 ads1 szs1 s3 C3 ads3 szs3.
Proof.
  intros [? ? S1 Z1 A1 F1 O1 M1 I1] [? ? S2 Z2 A2 F2 O2 M2 I2]. split; try done.
  - rewrite S2, S1, length_app. lia.
  - intros j Hj. by rewrite Z2, Z1.
  - intros j Hj. by rewrite A2, A1.
  - by rewrite F2, F1, (assoc_L (++)).
  - intros j k Hj Hne Hk. rewrite O2, O1; try done. by rewrite Z1.
  - intros n Hn. by rewrite M2, M1.
  - by rewrite I2.
Qed.

Lemma same_fields_trans d1 d2 d3 : same_fields d1 d2 → same_fields d2 d3 → same_fields d1 d3.
Proof. unfold same_fields. intros (?&?&?&?&?) (?&?&?&?&?). split_and!; congruence. Qed.

Section Round.
Context (i : Z) (Hi : 0 <= i < NINODES).

Lemma iappend_round s C ads szs p din :
  holds s C → image C (k_freeblock s) ads szs → ads i = di_addrs din → p ≠ [] → Forall is_u8 p →
  szs i < MAXFILE * BSIZE → k_freeblock s + 2 <= FSSIZE →
  let n1 := Z.min (Z.of_nat (length p)) (BSIZE - szs i mod BSIZE) in
  ∃ din' s' C' ads' szs', iappend_body (p, szs i, din) s = Ok (inl (drop (Z.to_nat n1) p, szs' i, din')) s' ∧
    ads' i = di_addrs din' ∧ same_fields din din' ∧ k_freeblock s' <= k_freeblock s + 2 ∧
    appended i (take (Z.to_nat n1) p) s C ads szs s' C' ads' szs'.
Proof using Hi.
  intros Hh H E Hp H8 Hoff Hfb n1. pose proof (im_szs _ _ _ _ H i Hi) as Hs. set (off := szs i) in *.
  pose proof (Z.div_mod off BSIZE ltac:(done)) as Hdm. pose proof (Z.mod_pos_bound off BSIZE ltac:(done)) as Hmb.
  assert (0 <= off / BSIZE < MAXFILE) as Hd by (split; [apply Z.div_pos; lia || done|apply Z.div_lt_upper_bound; [done|]; lia]).
  assert (0 < length p)%nat as Hlp by (destruct p; cbn; [done|lia]). assert (1 <= n1 <= Z.of_nat (length p) ∧ n1 <= BSIZE - off mod BSIZE) as [Hn1 Hn1'] by (unfold n1, BSIZE in *; lia).
  unfold iappend_body. rewrite (proj2 (Z.leb_gt (Z.of_nat (length p)) 0)) by lia. cbn zeta. rewrite (proj2 (Z.ltb_lt _ _)) by lia. cbn [assert].
  rewrite (bind_Ok _ _ s tt s) by done.
  destruct (iblock_spec i szs Hi s C ads din (off / BSIZE) Hh H E Hfb Hd) as (d1 & x & s1 & C1 & ads1 & E1 & Hh1 & Hf1 & Hs1 & Ea1 & Hx & Hx0 & Hb1 & G1).
  rewrite (bind_Ok _ _ _ _ _ E1). replace ((off / BSIZE + 1) * BSIZE - off) with (BSIZE - off mod BSIZE) by lia. fold n1.
  replace (off - off / BSIZE * BSIZE) with (off mod BSIZE) by lia. destruct G1 as [I1 F1 B1 A1 M1]. subst x.
  assert (59 <= file_addr C1 (ino (ads1 i)) (off / BSIZE) < 1000) as Hu by (apply (in_use _ _ _ _ (i, Some (off / BSIZE)) I1); [by split|done]).
  rewrite (bind_Ok _ _ _ _ _ (rsect_ok s1 C1 (file_addr C1 (ino (ads1 i)) (off / BSIZE)) Hh1 ltac:(change FSSIZE with 1000; lia))).
  assert (length (take (Z.to_nat n1) p) = Z.to_nat n1) as Hlt by (rewrite length_take; lia).
  destruct (image_store s1 C1 ads1 _ szs i Hh1 I1 Hi Hx0 Hoff (take (Z.to_nat n1) p)) as (I2 & R2 & O2 & M2);
    [rewrite Hlt; fold off; lia|by apply Forall_take|]. fold off in I2, R2, O2, M2. rewrite Hlt, Z2Nat.id in I2, R2 by lia.
  rewrite u32_small by (unfold is_u32; change (MAXFILE * BSIZE) with 71680 in *; unfold BSIZE in *; lia).
  eexists d1, _, (file_store C1 (ino (ads1 i)) off (take (Z.to_nat n1) p)), ads1, (set_sz szs i (off + n1)).
  assert (set_sz szs i (off + n1) i = off + n1) as Hsz by (unfold set_sz; by rewrite decide_True).
  rewrite Hsz. split; [done|]. split; [done|]. split; [done|]. split; [cbn; lia|]. split.
  - by apply holds_write.
  - done.
  - rewrite Hsz, Hlt. fold off. lia.
  - intros j Hj. unfold set_sz. by rewrite decide_False.
  - done.
  - rewrite Hsz, R2. f_equal. apply list_fmap_ext. intros q k [-> Hk]%lookup_seqZ. apply F1; [done|fold off; lia].
  - intros j k Hj Hne Hk. rewrite O2 by done. by apply F1.
  - intros n Hn. rewrite M2, M1 by done. done.
  - done.
Qed.

Lemma appended_nil s C ads szs : holds s C → image C (k_freeblock s) ads szs → appended i [] s C ads szs s C ads szs.
Proof. intros Hh H. split; try done; [cbn; lia|by rewrite app_nil_r]. Qed.

Lemma iappend_loop_spec fuel k : ∀ s C ads szs p din,
  holds s C → image C (k_freeblock s) ads szs → ads i = di_addrs din → Forall is_u8 p → (length p < fuel)%nat →
  szs i + Z.of_nat (length p) <= MAXFILE * BSIZE → k_freeblock s + 2 * (Z.of_nat k + 1) <= FSSIZE →
  Z.of_nat (length p) <= BSIZE - szs i mod BSIZE + BSIZE * Z.of_nat k →
  ∃ din' s' C' ads' szs', loop fuel iappend_body (p, szs i, din) s = Ok (szs' i, din') s' ∧
    ads' i = di_addrs din' ∧ same_fields din din' ∧ k_freeblock s' <= k_freeblock s + 2 * (Z.of_nat k + 1) ∧
    appended i p s C ads szs s' C' ads' szs'.
Proof using Hi.
  revert k. induction fuel as [|fuel IH]; intros k s C ads szs p din Hh H E H8 Hf Hsz Hfb Hk; [lia|]. cbn [loop].
  destruct (decide (p = [])) as [->|Hp].
  { rewrite (bind_Ok _ _ s (inr (szs i, din)) s) by done. exists din, s, C, ads, szs. split; [done|]. split; [done|].
    split; [by split_and!|]. split; [lia|by apply appended_nil]. }
  assert (0 < length p)%nat as Hlp by (destruct p; cbn; [done|lia]).
  pose proof (Z.div_mod (szs i) BSIZE ltac:(done)) as Hdm. pose proof (Z.mod_pos_bound (szs i) BSIZE ltac:(done)) as Hmb.
  destruct (iappend_round s C ads szs p din Hh H E Hp H8 ltac:(lia) ltac:(lia)) as (d1 & s1 & C1 & ads1 & szs1 & E1 & Ea1 & Hs1 & Hb1 & A1).
  rewrite (bind_Ok _ _ _ _ _ E1). cbn beta iota. set (n1 := Z.min _ _) in *. pose proof (ap_size _ _ _ _ _ _ _ _ _ _ A1) as Hsz1.
  assert (1 <= n1 <= Z.of_nat (length p)) as Hn1 by (unfold n1, BSIZE in *; lia). rewrite length_take in Hsz1.
  assert (szs1 i = szs i + n1) as Hsz2 by lia.
  assert (Z.of_nat (length (drop (Z.to_nat n1) p)) = Z.of_nat (length p) - n1) as Hld by (rewrite length_drop; lia).
  destruct (decide (n1 = Z.of_nat (length p))) as [Hall|Hmore].
  - rewrite (drop_ge p) by lia. destruct fuel as [|fuel]; [lia|]. cbn [loop]. rewrite (bind_Ok _ _ s1 (inr (szs1 i, d1)) s1) by done.
    exists d1, s1, C1, ads1, szs1. rewrite take_ge in A1 by lia. split_and!; try done. lia.
  - assert (n1 = BSIZE - szs i mod BSIZE) as Hn2 by lia. destruct k as [|k]; [unfold BSIZE in *; lia|].
    assert (szs1 i mod BSIZE = 0) as Hm0.
    { rewrite Hsz2, Hn2. replace (szs i + (BSIZE - szs i mod BSIZE)) with ((szs i / BSIZE + 1) * BSIZE) by lia. by apply Z.mod_mul. }
    destruct (IH k s1 C1 ads1 szs1 (drop (Z.to_nat n1) p) d1) as (d2 & s2 & C2 & ads2 & szs2 & E2 & Ea2 & Hs2 & Hb2 & A2); try done; try apply A1.
    + by apply Forall_drop.
    + lia.
    + lia.
    + lia.
    + rewrite Hm0. unfold BSIZE in *. lia.
    + exists d2, s2, C2, ads2, szs2. split; [done|]. split; [done|]. split; [by eapply same_fields_trans|]. split; [lia|].
      pose proof (appended_trans _ _ _ _ _ _ _ _ _ _ _ _ _ _ _ A1 A2) as A. by rewrite take_drop in A.
Qed.

End Round.

(** The dinode of file [j] in the image, and the contents of the file. *)
Definition dino (C : Z → list Z) (j : Z) : dinode := get_dinode (C (IBLOCK j sb)) (dinode_off j).
Definition contents (C : Z → list Z) (j : Z) : list Z := file_range C (ino (di_addrs (dino C j))) 0 (di_size (dino C j)).

Definition mkimage (s : mkst) (C : Z → list Z) : Prop :=
  holds s C ∧ image C (k_freeblock s) (λ j, di_addrs (dino C j)) (λ j, di_size (dino C j)) ∧
  ∀ j, 0 <= j < NINODES → dinode_wf (dino C j).

(** The blocks before the data blocks do not matter for the files, except the first. *)
Lemma image_meta C C' fb ads ads' szs szs' :
  image C fb ads szs → (∀ n, n = 0 ∨ nmeta <= n → C' n = C n) → (∀ n, length (C' n) = length (C n)) →
  (∀ j, 0 <= j < NINODES → ads' j = ads j ∧ szs' j = szs j) →
  image C' fb ads' szs' ∧ ∀ j k, 0 <= j < NINODES → 0 <= k < szs j → file_byte C' (ino (ads' j)) k = file_byte C (ino (ads j)) k.
Proof.
  intros H HC Hl He. pose proof (im_fb _ _ _ _ H) as Hb. change nmeta with 59 in *.
  assert (∀ y, valid y → saddr C' ads' y = saddr C ads y) as Hsa.
  { intros [j o] Hy. destruct (He j) as [Ej _]; [apply Hy|]. unfold saddr. cbn [fst snd]. rewrite Ej. destruct o as [bn|]; [|done].
    unfold file_addr. destruct (bn <? NDIRECT); [done|]. rewrite HC; [done|]. destruct (decide (ind_addr (ino (ads j)) = 0)); [by left|right].
    apply (in_use _ _ _ _ (j, None) H); [split; [apply Hy|done]|done]. }
  assert (∀ j bn, 0 <= j < NINODES → 0 <= bn → bn * BSIZE < szs j → valid (j, Some bn)) as Hv.
  { intros j bn Hj Hbn Hlt. split; [done|]. cbn. pose proof (im_szs _ _ _ _ H j Hj) as Hs. change (MAXFILE * BSIZE) with (140 * BSIZE) in Hs.
    change MAXFILE with 140. unfold BSIZE in *. lia. }
  split; [split|].
  - intros n Hn. rewrite Hl. by apply (im_len _ _ _ _ H).
  - done.
  - intros n Hn. rewrite HC by lia. by apply (im_zero _ _ _ _ H).
  - rewrite HC by lia. apply (im_boot _ _ _ _ H).
  - intros j Hj. destruct (He j Hj) as [-> _]. by apply (im_ads _ _ _ _ H).
  - intros j Hj. destruct (He j Hj) as [_ ->]. by apply (im_szs _ _ _ _ H).
  - intros y Hy. rewrite Hsa by done. by apply (im_used _ _ _ _ H).
  - intros y z Hy Hz. rewrite !Hsa by done. by apply (im_inj _ _ _ _ H).
  - intros j bn Hj Hbn. destruct (He j Hj) as [_ ->]. intros Hlt. rewrite Hsa by (by apply Hv). by apply (im_full _ _ _ _ H).
  - intros j k Hj Hk. destruct (block_lt k (szs j) Hk) as [Hk0 Hkl]. specialize (Hv j (k / BSIZE) Hj Hk0 Hkl).
    pose proof (Hsa _ Hv) as E. cbn in E. unfold file_byte. rewrite E, HC; [done|]. right.
    apply (in_use _ _ _ _ (j, Some (k / BSIZE)) H); [done|]. by apply (im_full _ _ _ _ H).
Qed.

Lemma iblock_range j : 0 <= j < NINODES → IBLOCK j sb = 32 + j / 8 ∧ 32 <= IBLOCK j sb < 59 ∧ dinode_off j = 64 * (j mod 8).
Proof.
  unfold NINODES. intros Hj. assert (IBLOCK j sb = u32 (j / 8 + 32)) as -> by done. pose proof (Z.div_pos j 8).
  assert (j / 8 < 25) by (apply Z.div_lt_upper_bound; lia). rewrite u32_small by (unfold is_u32; lia).
  split; [lia|]. split; [lia|done].
Qed.

(** Writing one inode changes that inode and nothing else. *)
Lemma dino_write C i d j :
  (∀ n, 0 <= n < FSSIZE → length (C n) = 512%nat) → dinode_wf d → 0 <= i < NINODES → 0 <= j < NINODES →
  dino (fupd C (IBLOCK i sb) (put_dinode (C (IBLOCK i sb)) (dinode_off i) d)) j = if decide (j = i) then d else dino C j.
Proof.
  intros HC Hd Hi Hj. destruct (iblock_range i Hi) as (Ei & Ri & Oi), (iblock_range j Hj) as (Ej & Rj & Oj).
  pose proof (HC (IBLOCK i sb) ltac:(change FSSIZE with 1000; lia)) as Hl. pose proof (Z.mod_pos_bound i 8). pose proof (Z.mod_pos_bound j 8).
  pose proof (Z.div_mod i 8). pose proof (Z.div_mod j 8). unfold dino, fupd. destruct (decide (j = i)) as [->|Hne].
  - rewrite decide_True by done. apply get_put_dinode; [done|lia|]. unfold DINODE_SIZE. lia.
  - destruct (decide (IBLOCK j sb = IBLOCK i sb)) as [E|E]; [|done]. rewrite get_put_dinode_ne; [by rewrite E|apply Hd|lia|unfold DINODE_SIZE; lia|lia|].
    unfold DINODE_SIZE. lia.
Qed.

Lemma winode_ok s C i d : holds s C → 0 <= i < NINODES →
  winode i d s = Ok tt (set_img (<[IBLOCK i sb := put_dinode (C (IBLOCK i sb)) (dinode_off i) d]> (k_img s)) s).
Proof.
  intros Hh Hi. destruct (iblock_range i Hi) as (_ & Hr & _). unfold winode.
  by rewrite (bind_Ok _ _ _ _ _ (rsect_ok s C (IBLOCK i sb) Hh ltac:(change FSSIZE with 1000; lia))).
Qed.

(** A file system whose inode [i] is written back. *)
Lemma mkimage_write s C ads szs i d :
  holds s C → image C (k_freeblock s) ads szs → 0 <= i < NINODES → dinode_wf d → ads i = di_addrs d → szs i = di_size d →
  (∀ j, 0 <= j < NINODES → j ≠ i → ads j = di_addrs (dino C j) ∧ szs j = di_size (dino C j) ∧ dinode_wf (dino C j)) →
  ∃ s' C', winode i d s = Ok tt s' ∧ k_freeblock s' = k_freeblock s ∧ k_freeinode s' = k_freeinode s ∧ mkimage s' C' ∧
    (∀ j, 0 <= j < NINODES → contents C' j = file_range C (ino (ads j)) 0 (szs j)) ∧ dino C' i = d ∧
    (∀ j, 0 <= j < NINODES → j ≠ i → dino C' j = dino C j).
Proof.
  intros Hh H Hi Hd Ea Es Hoth. rewrite (winode_ok s C i d Hh Hi). destruct (iblock_range i Hi) as (_ & Hr & _).
  set (C' := fupd C (IBLOCK i sb) (put_dinode (C (IBLOCK i sb)) (dinode_off i) d)).
  assert (∀ j, 0 <= j < NINODES → dino C' j = if decide (j = i) then d else dino C j) as Hdj
    by (intros; apply dino_write; try done; apply (im_len _ _ _ _ H)).
  assert (∀ j, 0 <= j < NINODES → di_addrs (dino C' j) = ads j ∧ di_size (dino C' j) = szs j ∧ dinode_wf (dino C' j)) as Heq.
  { intros j Hj. rewrite Hdj by done. case_decide as Hc; [by subst|]. destruct (Hoth j Hj Hc) as (-> & -> & ?). done. }
  destruct (image_meta C C' _ ads (λ j, di_addrs (dino C' j)) szs (λ j, di_size (dino C' j)) H) as [I B].
  - intros n Hn. change nmeta with 59 in Hn. unfold C', fupd. rewrite decide_False by lia. done.
  - intros n. unfold C', fupd. case_decide as Hc; [subst; apply length_put_dinode|done].
  - intros j Hj. destruct (Heq j Hj) as (? & ? & _). done.
  - eexists _, C'. split; [done|]. split; [done|]. split; [done|]. split; [split; [by apply holds_write|]; split; [done|intros; by apply Heq]|].
    split_and!; [|rewrite Hdj by done; by rewrite decide_True|intros j Hj Hne; rewrite Hdj by done; by rewrite decide_False].
    intros j Hj. destruct (Heq j Hj) as (E1 & E2 & _). unfold contents. rewrite E2. apply list_fmap_ext. intros q k [-> Hk]%lookup_seqZ.
    apply (B j); [done|lia].
Qed.

(** [k] blocks after the current one are enough for the bytes, and two more blocks of the
    image for each of them. *)
Lemma iappend_spec s C i p k :
  mkimage s C → 0 <= i < NINODES → Forall is_u8 p → di_size (dino C i) + Z.of_nat (length p) <= MAXFILE * BSIZE →
  Z.of_nat (length p) <= BSIZE - di_size (dino C i) mod BSIZE + BSIZE * Z.of_nat k → k_freeblock s + 2 * (Z.of_nat k + 1) <= FSSIZE →
  ∃ s' C', iappend i p s = Ok tt s' ∧ mkimage s' C' ∧ contents C' i = contents C i ++ p ∧
    di_size (dino C' i) = di_size (dino C i) + Z.of_nat (length p) ∧
    (∀ j, 0 <= j < NINODES → j ≠ i → contents C' j = contents C j ∧ dino C' j = dino C j) ∧
    k_freeinode s' = k_freeinode s ∧ k_freeblock s' <= k_freeblock s + 2 * (Z.of_nat k + 1).
Proof.
  intros (Hh & H & Hw) Hi H8 Hsz Hk Hfb. set (n := Z.of_nat (length p)) in *. destruct (iblock_range i Hi) as (_ & Hr & _).
  pose proof (im_szs _ _ _ _ H i Hi) as Hs0. cbn beta in Hs0. change (MAXFILE * BSIZE) with 71680 in *.
  unfold iappend, rinode. rewrite (bind_Ok _ _ s (dino C i) s)
    by (by rewrite (bind_Ok _ _ _ _ _ (rsect_ok s C (IBLOCK i sb) Hh ltac:(change FSSIZE with 1000; lia)))).
  rewrite xint_u32, u32_small by (unfold is_u32; lia).
  destruct (iappend_loop_spec i Hi (length p + 1) k s C _ _ p (dino C i) Hh H eq_refl H8)
    as (d & s1 & C1 & ads & szs & E1 & Ea & Hf & Hb & A); [lia|change (MAXFILE * BSIZE) with 71680; fold n; lia|lia|done|].
  cbn beta in E1. rewrite (bind_Ok _ _ _ _ _ E1). pose proof (ap_size _ _ _ _ _ _ _ _ _ _ A) as Hs. cbn beta in Hs. fold n in Hs.
  rewrite xint_u32, u32_small by (unfold is_u32; lia). pose proof (ap_image _ _ _ _ _ _ _ _ _ _ A) as I1.
  destruct (Hw i Hi) as (W1 & W2 & W3 & W4 & _). destruct Hf as (F1 & F2 & F3 & F4 & _). destruct (im_ads _ _ _ _ I1 i Hi) as [U1 U2].
  assert (∀ j, 0 <= j < NINODES → dino C1 j = dino C j) as Hdj.
  { intros j Hj. unfold dino. destruct (iblock_range j Hj) as (_ & Hrj & _).
    by rewrite (ap_meta _ _ _ _ _ _ _ _ _ _ A) by (change nmeta with 59; lia). }
  destruct (mkimage_write s1 C1 ads szs i (set_size d (szs i)) (ap_holds _ _ _ _ _ _ _ _ _ _ A) I1 Hi) as (s2 & C2 & E2 & B2 & N2 & M2 & R2 & D2 & O2).
  - unfold set_size, dinode_wf. cbn. rewrite F1, F2, F3, F4, <- Ea. split_and!; try done; unfold is_u32; lia.
  - done.
  - done.
  - intros j Hj Hne. rewrite Hdj by done. split; [by apply (ap_ads _ _ _ _ _ _ _ _ _ _ A)|]. split; [by apply (ap_szs _ _ _ _ _ _ _ _ _ _ A)|by apply Hw].
  - exists s2, C2. split; [done|]. split; [done|]. split; [rewrite R2 by done; apply (ap_file _ _ _ _ _ _ _ _ _ _ A)|].
    split; [by rewrite D2|]. split; [|split; [by rewrite N2, (ap_inode _ _ _ _ _ _ _ _ _ _ A)|lia]].
    intros j Hj Hne. split; [|by rewrite O2, Hdj]. rewrite R2 by done. rewrite (ap_szs _ _ _ _ _ _ _ _ _ _ A) by done.
    apply list_fmap_ext. intros q b [-> Hb']%lookup_seqZ. apply (ap_other _ _ _ _ _ _ _ _ _ _ A); [done|done|lia].
Qed.

(** ** A file of the host *)

(** The inodes from [k_freeinode] on are unused. *)
Definition unused (s : mkst) (C : Z → list Z) : Prop :=
  ∀ j, k_freeinode s <= j < NINODES → di_addrs (dino C j) = replicate 13 0 ∧ di_size (dino C j) = 0.

Lemma ialloc_spec s C type :
  mkimage s C → unused s C → 0 <= k_freeinode s < NINODES → 0 <= type < 32768 →
  ∃ s' C', ialloc type s = Ok (k_freeinode s) s' ∧ mkimage s' C' ∧ unused s' C' ∧ k_freeinode s' = k_freeinode s + 1 ∧
    k_freeblock s' = k_freeblock s ∧ contents C' (k_freeinode s) = [] ∧
    dino C' (k_freeinode s) = mkdinode type 0 0 1 0 (replicate 13 0) ∧
    (∀ j, 0 <= j < NINODES → j ≠ k_freeinode s → contents C' j = contents C j ∧ dino C' j = dino C j).
Proof.
  intros (Hh & H & Hw) Hu Hi Ht. set (i := k_freeinode s) in *. unfold ialloc. rewrite (bind_Ok _ _ s i s) by done.
  rewrite u32_small by (unfold is_u32, NINODES in *; lia). set (s1 := set_freeinode (i + 1) s). rewrite (bind_Ok _ _ s tt s1) by done.
  assert (xshort type = type) as -> by (unfold xshort; rewrite get16_put16 by (cbn [length]; lia); unfold u16; apply Z.mod_small; lia).
  change (xshort 1) with 1. change (xint 0) with 0. set (d := mkdinode type 0 0 1 0 (replicate 13 0)). destruct (Hu i) as [Ua Us]; [lia|].
  destruct (mkimage_write s1 C _ _ i d Hh H Hi) as (s2 & C2 & E2 & B2 & N2 & M2 & R2 & D2 & O2).
  - unfold dinode_wf. cbn [d di_type di_major di_minor di_nlink di_size di_addrs]. unfold s16, is_u32.
    rewrite (Z.mod_small (type + 32768)) by lia. split_and!; try done; try lia. apply Forall_replicate. unfold is_u32. lia.
  - done.
  - done.
  - intros j Hj _. split_and!; try done. by apply Hw.
  - exists s2, C2. rewrite (bind_Ok _ _ _ _ _ E2). split; [done|]. split; [done|]. split.
    { intros j Hj. rewrite N2 in Hj. cbn in Hj. rewrite O2 by lia. apply Hu. lia. }
    split; [done|]. split; [done|]. split; [|split; [done|]].
    + unfold contents. rewrite D2. done.
    + intros j Hj Hne. split; [|by apply O2]. rewrite R2 by done. done.
Qed.

Lemma concat_blocks fuel l : (length l <= fuel)%nat → concat (blocks fuel l) = l.
Proof.
  revert l. induction fuel as [|fuel IH]; intros [|x l] Hl; cbn [blocks concat length] in *; try done; [lia|].
  rewrite IH by (rewrite length_drop; cbn [length]; unfold BSIZE; lia). apply take_drop.
Qed.

Lemma blocks_nil fuel : blocks fuel [] = [].
Proof. by destruct fuel. Qed.

Lemma append_blocks i fuel : 0 <= i < NINODES → ∀ s C l,
  mkimage s C → Forall is_u8 l → (length l <= fuel)%nat → di_size (dino C i) mod BSIZE = 0 →
  di_size (dino C i) + Z.of_nat (length l) <= MAXFILE * BSIZE → k_freeblock s + 2 * ((Z.of_nat (length l) + 511) / 512) <= FSSIZE →
  ∃ s' C', for_each (blocks fuel l) (iappend i) s = Ok tt s' ∧ mkimage s' C' ∧ contents C' i = contents C i ++ l ∧
    (∀ j, 0 <= j < NINODES → j ≠ i → contents C' j = contents C j ∧ dino C' j = dino C j) ∧ k_freeinode s' = k_freeinode s ∧
    k_freeblock s' <= k_freeblock s + 2 * ((Z.of_nat (length l) + 511) / 512).
Proof.
  intros Hi. induction fuel as [|fuel IH]; intros s C l M H8 Hf Hm Hsz Hfb.
  { destruct l; [|cbn in Hf; lia]. exists s, C. rewrite app_nil_r. split_and!; try done. change ((Z.of_nat (length []) + 511) / 512) with 0. lia. }
  destruct (decide (l = [])) as [->|Hl]; [exists s, C; rewrite app_nil_r; split_and!; try done; change ((Z.of_nat (length []) + 511) / 512) with 0; lia|].
  assert (blocks (S fuel) l = take 512 l :: blocks fuel (drop 512 l)) as -> by (by destruct l). cbn [for_each].
  assert (0 < length l)%nat as Hlp by (destruct l; cbn; [done|lia]). pose proof (length_take l 512) as Htl. pose proof (length_drop l 512) as Hdl.
  assert (∀ n, 1 <= n → 1 + (n - 512 + 511) / 512 = (n + 511) / 512) as Hdiv.
  { intros n Hn. replace (n + 511) with (1 * 512 + (n - 512 + 511)) by lia. rewrite Z.div_add_l by lia. lia. }
  specialize (Hdiv (Z.of_nat (length l)) ltac:(lia)).
  assert (0 <= (Z.of_nat (length l) - 512 + 511) / 512) as Hd0 by (apply Z.div_pos; lia).
  destruct (iappend_spec s C i (take 512 l) 0 M Hi) as (s1 & C1 & E1 & M1 & R1 & S1 & O1 & N1 & B1); [by apply Forall_take|lia|unfold BSIZE in *; lia|lia|].
  rewrite (bind_Ok _ _ _ _ _ E1). destruct (decide (length l <= 512)%nat) as [Hsh|Hlong].
  - rewrite (drop_ge l) by done. rewrite blocks_nil. cbn [for_each]. exists s1, C1. split; [done|]. rewrite take_ge in R1 by done.
    split_and!; try done. lia.
  - destruct (IH s1 C1 (drop 512 l) M1) as (s2 & C2 & E2 & M2 & R2 & O2 & N2 & B2).
    + by apply Forall_drop.
    + lia.
    + rewrite S1, Htl, Nat.min_l by lia. change (Z.of_nat 512) with (1 * BSIZE). by rewrite Z_mod_plus_full.
    + lia.
    + rewrite Hdl. replace (Z.of_nat (length l - 512) + 511) with (Z.of_nat (length l) - 512 + 511) by lia. lia.
    + exists s2, C2. split; [done|]. split; [done|]. split; [by rewrite R2, R1, <- (assoc_L (++)), take_drop|].
      split; [|split; [by rewrite N2|]].
      * intros j Hj Hne. destruct (O2 j Hj Hne) as [-> ->]. by apply O1.
      * rewrite Hdl in B2. replace (Z.of_nat (length l - 512) + 511) with (Z.of_nat (length l) - 512 + 511) in B2 by lia. lia.
Qed.

Lemma length_dirent inum name : length (dirent_of inum name) = 16%nat.
Proof. unfold dirent_of. by rewrite length_put_list, length_put16. Qed.

Lemma dirent_u8 inum name : Forall is_u8 (dirent_of inum name).
Proof. unfold dirent_of. apply put_list_u8, put16_u8. apply Forall_replicate. unfold is_u8. lia. Qed.

(** C11. mkfs puts a file of the host into the image: the root directory gets one more
    entry with the file's name, without a leading underscore, and the next inode; read
    the way the kernel reads inodes, the file of that inode has exactly the bytes of the
    host's file; all other files are as they were. *)
Theorem add_file_adds s C name l :
  mkimage s C → unused s C → ROOTINO < k_freeinode s < NINODES → 47 ∉ name → Forall is_u8 l →
  Z.of_nat (length l) <= MAXFILE * BSIZE → di_size (dino C ROOTINO) mod 16 = 0 → di_size (dino C ROOTINO) + 16 <= MAXFILE * BSIZE →
  k_freeblock s + 2 * ((Z.of_nat (length l) + 511) / 512 + 1) <= FSSIZE →
  ∃ s' C', add_file ROOTINO (name, Some l) s = Ok tt s' ∧ mkimage s' C' ∧ unused s' C' ∧ k_freeinode s' = k_freeinode s + 1 ∧
    contents C' ROOTINO = contents C ROOTINO ++
      dirent_of (k_freeinode s) (match name with 95 :: name' => name' | _ => name end) ∧
    contents C' (k_freeinode s) = l ∧
    (∀ j, 0 <= j < NINODES → j ≠ ROOTINO → j ≠ k_freeinode s → contents C' j = contents C j).
Proof.
  intros M U Hi Hn H8 Hl Hr16 Hrs Hfb. set (i := k_freeinode s) in *. unfold ROOTINO in *. unfold NINODES in Hi.
  assert (0 <= (Z.of_nat (length l) + 511) / 512) as Hd0 by (apply Z.div_pos; lia).
  unfold add_file. rewrite bool_decide_eq_false_2 by done. cbn [negb assert]. rewrite (bind_Ok _ _ s tt s) by done. cbn zeta.
  destruct (ialloc_spec s C T_FILE M U) as (s1 & C1 & E1 & M1 & U1 & N1 & B1 & R1 & D1 & O1); [unfold NINODES; fold i; lia|done|]. fold i in E1, N1, R1, D1, O1.
  rewrite (bind_Ok _ _ _ _ _ E1). destruct (O1 1) as [Or Dr]; [unfold NINODES; lia|lia|].
  set (nm := match name with 95 :: name' => name' | _ => name end).
  destruct (iappend_spec s1 C1 1 (dirent_of i nm) 0 M1) as (s2 & C2 & E2 & M2 & R2 & _ & O2 & N2 & B2);
    [unfold NINODES; lia|apply dirent_u8|rewrite length_dirent, Dr; lia| |rewrite B1; lia|].
  { rewrite length_dirent, Dr. pose proof (Z.div_mod (di_size (dino C 1)) 16). pose proof (Z.mod_pos_bound (di_size (dino C 1)) BSIZE ltac:(done)).
    pose proof (Z.div_mod (di_size (dino C 1)) BSIZE ltac:(done)). unfold BSIZE in *. lia. }
  rewrite (bind_Ok _ _ _ _ _ E2). destruct (O2 i) as [Oi Di]; [unfold NINODES; lia|lia|].
  destruct (append_blocks i (length l) ltac:(unfold NINODES; lia) s2 C2 l M2 H8 ltac:(lia)) as (s3 & C3 & E3 & M3 & R3 & O3 & N3 & B3);
    [by rewrite Di, D1|rewrite Di, D1; cbn; lia|lia|].
  exists s3, C3. split; [done|]. split; [done|]. split; [|split; [by rewrite N3, N2, N1|]].
  - intros j Hj. rewrite N3, N2, N1 in Hj. unfold NINODES in Hj. destruct (O3 j) as [_ ->]; [unfold NINODES; lia|lia|].
    destruct (O2 j) as [_ ->]; [unfold NINODES; lia|lia|]. apply U1. unfold NINODES. lia.
  - destruct (O3 1) as [-> _]; [unfold NINODES; lia|lia|]. rewrite R2, Or, R3, Oi, R1. split; [done|]. split; [done|].
    intros j Hj Hne Hne'. destruct (O3 j Hj Hne') as [-> _], (O2 j Hj Hne) as [-> _]. by apply O1.
Qed.

(** ** The bitmap *)

Lemma set_bits_snoc used buf :
  0 <= used → set_bits (used + 1) buf = put_byte (set_bits used buf) (used / 8)
    (Z.lor (byte_at (set_bits used buf) (used / 8)) (Z.shiftl 1 (used mod 8))).
Proof. intros H. unfold set_bits. rewrite seqZ_app, foldl_app by lia. done. Qed.

Lemma length_set_bits used buf : length (set_bits used buf) = length buf.
Proof.
  unfold set_bits. generalize (seqZ 0 used). intros l. revert buf. induction l as [|x l IH]; intros buf; [done|].
  cbn [foldl]. by rewrite IH, length_put_byte.
Qed.

(** The bitmap that mkfs writes has the bit of every block in use set, and no other:
    the kernel's balloc() never hands out a block that mkfs gave to a file, and can use
    all the others. *)
Theorem balloc_marks_used s used :
  0 <= used < BSIZE * 8 → ∃ buf, balloc used s = Ok tt (set_img (<[sb_bmapstart sb := buf]> (k_img s)) s) ∧ length buf = 512%nat ∧
    ∀ b, 0 <= b < BPB → Z.testbit (byte_at buf (b / 8)) (b mod 8) = (b <? used).
Proof.
  intros Hu. exists (set_bits used zeroes). split; [|split; [apply length_set_bits|]].
  { unfold balloc. rewrite (proj2 (Z.ltb_lt _ _)) by lia. done. }
  change BPB with 4096. change (BSIZE * 8) with 4096 in Hu. intros b Hb. destruct Hu as [Hu0 Hu]. revert Hu.
  pattern used. apply natlike_ind; [| |done].
  - intros _. rewrite (proj2 (Z.ltb_ge b 0)) by lia. unfold byte_at, set_bits, zeroes. cbn [seqZ foldl].
    pose proof (Z.mod_pos_bound b 8). assert (b / 8 < 512) by (apply Z.div_lt_upper_bound; lia).
    change (seqZ 0 0) with (@nil Z). cbn [foldl]. rewrite lookup_replicate_2 by lia. apply Z.testbit_0_l.
  - intros n Hn IH Hlt. rewrite <- Z.add_1_r in *. specialize (IH ltac:(lia)). rewrite set_bits_snoc by done.
    pose proof (Z.div_pos b 8). pose proof (Z.div_pos n 8). assert (n / 8 < 512) by (apply Z.div_lt_upper_bound; lia).
    pose proof (Z.div_mod b 8). pose proof (Z.div_mod n 8). pose proof (Z.mod_pos_bound b 8). pose proof (Z.mod_pos_bound n 8).
    rewrite byte_at_put by (rewrite ?length_set_bits; change (length zeroes) with 512%nat; lia).
    destruct (decide (b / 8 = n / 8)) as [E|E].
    + unfold u8. rewrite Z.mod_pow2_bits_low with (n := 8) by lia. rewrite Z.lor_spec, Z.shiftl_1_l, <- E, IH.
      destruct (decide (b = n)) as [->|Hne].
      * rewrite Z.pow2_bits_true, orb_true_r by lia. symmetry. apply Z.ltb_lt. lia.
      * rewrite Z.pow2_bits_false, orb_false_r by lia. destruct (Z.ltb_spec b n), (Z.ltb_spec b (n + 1)); lia || done.
    + rewrite IH. destruct (Z.ltb_spec b n), (Z.ltb_spec b (n + 1)); try done; assert (b = n) by lia; subst; lia.
Qed.

(** The kernel's readsb() finds the superblock that main() writes. *)
Lemma superblock_roundtrip : get_sb (put_sb zeroes sb) = sb.
Proof. by vm_compute. Qed.

(** ** An image with no blocks in use *)

Definition empty_ex : mkst := mkmkst (list_to_map ((λ n, (n, zeroes)) <$> seqZ 0 FSSIZE)) 2 nmeta.

Lemma empty_dino j : 0 <= j < NINODES → dino (λ _, zeroes) j = mkdinode 0 0 0 0 0 (replicate 13 0).
Proof.
  intros Hj. destruct (iblock_range j Hj) as (_ & _ & Ho). unfold dino. rewrite Ho. pose proof (Z.mod_pos_bound j 8 ltac:(lia)) as Hm.
  assert (j mod 8 = 0 ∨ j mod 8 = 1 ∨ j mod 8 = 2 ∨ j mod 8 = 3 ∨ j mod 8 = 4 ∨ j mod 8 = 5 ∨ j mod 8 = 6 ∨ j mod 8 = 7) as Hc by lia.
  destruct Hc as [-> | [-> | [-> | [-> | [-> | [-> | [-> | ->]]]]]]]; by vm_compute.
Qed.

Lemma empty_saddr x : valid x → saddr (λ _, zeroes) (λ j, di_addrs (dino (λ _, zeroes) j)) x = 0.
Proof.
  destruct x as [j [bn|]]; intros [Hj Hb]; cbn in Hj, Hb; unfold saddr; cbn [fst snd]; rewrite empty_dino by done; [|done].
  unfold file_addr. unfold NDIRECT. change MAXFILE with 140 in Hb. cbn [ino i_addrs di_addrs]. destruct (Z.ltb_spec bn 12).
  - by rewrite lookup_replicate_2 by lia.
  - unfold get32, byte_at, zeroes. by rewrite !lookup_replicate_2 by lia.
Qed.

Lemma empty_mkimage : mkimage empty_ex (λ _, zeroes) ∧ unused empty_ex (λ _, zeroes).
Proof.
  split; [split; [|split]|].
  - intros n Hn. cbn [empty_ex k_img]. apply elem_of_list_to_map_1.
    + rewrite <- list_fmap_compose. apply NoDup_fmap_2; [by intros ?? ?|apply NoDup_seqZ].
    + apply list_elem_of_fmap. exists n. split; [done|]. by apply elem_of_seqZ.
  - split; try done.
    + intros i Hi. rewrite empty_dino by done. split; [|done]. apply Forall_replicate. unfold is_u32. lia.
    + intros i Hi. rewrite empty_dino by done. done.
    + intros x Hx. by rewrite empty_saddr.
    + intros x y Hx Hy. by rewrite empty_saddr.
    + intros i bn Hi Hbn. rewrite empty_dino by done. cbn. unfold BSIZE. lia.
  - intros j Hj. rewrite empty_dino by done. unfold dinode_wf, is_u32. split_and!; try done. apply Forall_replicate. lia.
  - intros j Hj. rewrite empty_dino by (unfold NINODES in *; cbn in Hj; lia). done.
Qed.

Lemma add_file_adds_witness :
  ∃ s' C', add_file ROOTINO ([95; 99; 97; 116], Some (replicate 7000 65)) empty_ex = Ok tt s' ∧ mkimage s' C' ∧ unused s' C' ∧ k_freeinode s' = 3 ∧
    contents C' ROOTINO = contents (λ _, zeroes) ROOTINO ++ dirent_of 2 ([99; 97; 116]) ∧ contents C' 2 = replicate 7000 65 ∧
    (∀ j, 0 <= j < NINODES → j ≠ ROOTINO → j ≠ 2 → contents C' j = contents (λ _, zeroes) j).
Proof.
  apply (add_file_adds empty_ex (λ _, zeroes) ([95; 99; 97; 116]) (replicate 7000 65)).
  - apply empty_mkimage.
  - apply empty_mkimage.
  - done.
  - apply (bool_decide_unpack _). by vm_compute.
  - apply Forall_replicate. done.
  - rewrite length_replicate. done.
  - rewrite empty_dino by done. done.
  - rewrite empty_dino by done. done.
  - rewrite length_replicate. done.
Defined.

Lemma balloc_marks_used_witness :
  ∃ buf, balloc 61 empty_ex = Ok tt (set_img (<[sb_bmapstart sb := buf]> (k_img empty_ex)) empty_ex) ∧ length buf = 512%nat ∧
    ∀ b, 0 <= b < BPB → Z.testbit (byte_at buf (b / 8)) (b mod 8) = (b <? 61).
Proof. apply (balloc_marks_used empty_ex 61). done. Defined.
