(* ===== verification/Umem.v ===== *)
(** * Umem: the memory of the current process, as the kernel reaches it

    System calls read and write user memory directly: the processor translates the
    address with the page directory in %cr3. An address that is not mapped is a page
    fault in kernel mode. *)

From S2P Require Import Prelude Machine CMem Mmu Vm.
From stdpp Require Import options.

Section Umem.
Context {E : Env}.

(** The kernel address of the byte at user address [va]. *)
Definition translate (va : Z) : K Z :=
  cr3 ← gets k_cr3;
  e ← load (p2v cr3 + 4 * PDX va);
  if negb (has e PTE_P) then fault else
  e ← load (p2v (PTE_ADDR e) + 4 * PTX va);
  if negb (has e PTE_P) then fault else
  mret (p2v (PTE_ADDR e) + va mod PGSIZE).

Definition uload8 (va : Z) : K Z := a ← translate va; gets (λ s, rd (k_mem s) a).
Definition ustore8 (va v : Z) : K unit := a ← translate va; modify (λ s, set_k_mem (wr (k_mem s) a v) s).

Fixpoint uread (va : Z) (n : nat) : K (list Z) :=
  match n with
  | O => mret []
  | S n => c ← uload8 va; l ← uread (u32 (va + 1)) n; mret (c :: l)
  end.
Fixpoint uwrite (va : Z) (l : list Z) : K unit :=
  match l with
  | [] => skip
  | c :: l => ustore8 va c ;; uwrite (u32 (va + 1)) l
  end.

Definition uload (va : Z) : K Z :=
  l ← uread va 4;
  mret (s32 (foldr (λ c r, c + 256 * r) 0 l)).
Definition ustore (va v : Z) : K unit :=
  uwrite va [u8 v; u8 (Z.shiftr v 8); u8 (Z.shiftr v 16); u8 (Z.shiftr v 24)].

End Umem.
