(* ===== verification/Pipe.v ===== *)
(** * Pipe: pipes (pipe.c)

    A pipe lives in a page of its own; [k_pipes] maps the page's address to it. The
    bytes pipewrite() takes from addr and those piperead() stores there are lists.
    pipealloc() is in File.v. *)

From S2P Require Import Prelude Machine Ring CMem Mmu Kalloc ConsOut Vm Proc.
From stdpp Require Import options.

Definition PIPESIZE : Z := 512.

Section Pipe.
Context {E : Env}.

Definition get_pipe (p : Z) : K pipe := λ s, deref (k_pipes s !! p) s.
Definition upd_pipe (p : Z) (f : pipe → pipe) : K unit :=
  modify (λ s, set_k_pipes (alter f p (k_pipes s)) s).

(** [p->data[i % PIPESIZE]] *)
Definition pi_get (x : pipe) (i : Z) : Z := rget PIPESIZE (pi_data x) i.
Definition pi_put (i c : Z) (x : pipe) : pipe := set_pi_data (rput PIPESIZE (pi_data x) i c) x.

Definition pipeclose (p : Z) (writable : Z) : K unit :=
  acquire (Lpipe p) ;;
  (if negb (writable =? 0) then
     upd_pipe p (set_pi_writeopen 0) ;;
     wakeup (Cpiper p)
   else
     upd_pipe p (set_pi_readopen 0) ;;
     wakeup (Cpipew p)) ;;
  x ← get_pipe p;
  if (pi_readopen x =? 0) && (pi_writeopen x =? 0) then
    release (Lpipe p) ;;
    modify (λ s, set_k_pipes (delete p (k_pipes s)) s) ;;
    kfree p
  else release (Lpipe p).

(** One round of [while(p->nwrite == p->nread + PIPESIZE)] and the store after it: the
    byte is stored ([true]), the reader is gone ([false]), or the round is to be
    repeated after a sleep. *)
Definition pipewrite_round (p : Z) (c : Z) : K (unit + bool) :=
  x ← get_pipe p;
  if negb (pi_nwrite x =? u32 (pi_nread x + PIPESIZE)) then
    upd_pipe p (λ x, set_pi_nwrite (u32 (pi_nwrite x + 1)) (pi_put (pi_nwrite x) c x)) ;;
    mret (inr true)
  else
  i ← curproc;
  me ← get_proc i;
  if (pi_readopen x =? 0) || negb (p_killed me =? 0) then
    release (Lpipe p) ;;
    mret (inr false)
  else
  wakeup (Cpiper p) ;;
  sleep (Cpipew p) (Some (Lpipe p)) ;;
  mret (inl tt).
Definition pipewrite_byte (p : Z) (c : Z) : K bool := loop wakeups (λ _ : unit, pipewrite_round p c) tt.

Definition pipewrite (p : Z) (addr : list Z) (n : Z) : K Z :=
  acquire (Lpipe p) ;;
  r ← for_ret (seqZ 0 n) (λ i,
    c ← deref (addr !! Z.to_nat i);
    ok ← pipewrite_byte p c;
    mret (if ok : bool then None else Some (-1)));
  match r with
  | Some z => mret z
  | None => wakeup (Cpiper p) ;; release (Lpipe p) ;; mret n
  end.

(** Wait until there is data or no writer; [false] when killed. *)
Definition piperead_wait (p : Z) : K bool :=
  loop wakeups (λ _ : unit,
    x ← get_pipe p;
    if negb ((pi_nread x =? pi_nwrite x) && negb (pi_writeopen x =? 0)) then mret (inr true) else
    i ← curproc;
    me ← get_proc i;
    if negb (p_killed me =? 0) then mret (inr false) else
    sleep (Cpiper p) (Some (Lpipe p)) ;;
    mret (inl tt)) tt.

(** [for(i = 0; i < n; i++)], in [n] rounds at most. *)
Fixpoint piperead_copy (p : Z) (n : nat) : K (list Z) :=
  match n with
  | O => mret []
  | S n =>
    x ← get_pipe p;
    if pi_nread x =? pi_nwrite x then mret [] else
    upd_pipe p (set_pi_nread (u32 (pi_nread x + 1))) ;;
    l ← piperead_copy p n;
    mret (pi_get x (pi_nread x) :: l)
  end.

(** The result and the bytes stored at addr. *)
Definition piperead (p : Z) (n : Z) : K (Z * list Z) :=
  acquire (Lpipe p) ;;
  ok ← piperead_wait p;
  if negb ok then release (Lpipe p) ;; mret (-1, []) else
  l ← piperead_copy p (Z.to_nat n);
  wakeup (Cpipew p) ;;
  release (Lpipe p) ;;
  mret (Z.of_nat (length l), l).

(** ** A pipe is a bounded queue of bytes *)

Record pipe_ok (x : pipe) (q : list Z) (R W : Z) : Prop := {
  pk_len : Z.of_nat (length (pi_data x)) = PIPESIZE;
  pk_r : pi_nread x = u32 R;
  pk_w : pi_nwrite x = u32 W;
  pk_order : 0 <= R <= W ∧ W <= R + 512;
  pk_q : q = rqueue PIPESIZE (pi_data x) R W
}.

(** Pipe [p] holds the bytes [q]; [ro] and [wo] tell whether its ends are open. *)
Definition pipe_at (s : kstate) (p : Z) (q : list Z) (ro wo : Z) : Prop :=
  ∃ x R W, k_pipes s !! p = Some x ∧ pipe_ok x q R W ∧ pi_readopen x = ro ∧ pi_writeopen x = wo.

(** Only this pipe and sleeping processes change. *)
Definition only_pipe (p : Z) (s s' : kstate) : Prop :=
  s' = set_k_pipes (k_pipes s') (set_k_procs (k_procs s') s) ∧ delete p (k_pipes s') = delete p (k_pipes s) ∧
  length (k_procs s') = length (k_procs s).

Lemma only_pipe_refl p s : only_pipe p s s.
Proof. split_and!; [by destruct s|done|done]. Qed.
Lemma only_pipe_trans p s1 s2 s3 : only_pipe p s1 s2 → only_pipe p s2 s3 → only_pipe p s1 s3.
Proof. intros (H1 & D1 & L1) (H2 & D2 & L2). split_and!; [rewrite H2, H1; rec_eq|congruence|congruence]. Qed.

Lemma get_pipe_eq s p x : k_pipes s !! p = Some x → get_pipe p s = Ok x s.
Proof. intros H. unfold get_pipe. by rewrite H. Qed.

Lemma pipe_length x q R W : pipe_ok x q R W → Z.of_nat (length q) = W - R.
Proof. intros [_ _ _ Ho ->]. rewrite length_rqueue. lia. Qed.

Lemma upd_pipe_only p f s : only_pipe p s (set_k_pipes (alter f p (k_pipes s)) s).
Proof. split_and!; [rec_eq|apply delete_alter_eq|done]. Qed.

Lemma upd_pipe_at p f s x : k_pipes s !! p = Some x → k_pipes (set_k_pipes (alter f p (k_pipes s)) s) !! p = Some (f x).
Proof. intros H. cbn. by rewrite lookup_alter_eq, H. Qed.

(** Storing a byte when the pipe is not full. *)
Lemma pipewrite_room s p q ro wo c :
  pipe_at s p q ro wo → Z.of_nat (length q) < 512 → 0 <= c < 256 →
  ∃ s', pipewrite_round p c s = Ok (inr true) s' ∧ only_pipe p s s' ∧ pipe_at s' p (q ++ [c]) ro wo ∧
    k_procs s' = k_procs s.
Proof.
  intros (x & R & W & Hx & Hok & Hro & Hwo) Hq Hc. pose proof (pipe_length _ _ _ _ Hok) as Hl.
  destruct Hok as [K1 K2 K3 K4 K5]. unfold pipewrite_round. rewrite (bind_Ok _ _ _ _ _ (get_pipe_eq _ _ _ Hx)), K3, K2, u32_add_l.
  rewrite (proj2 (Z.eqb_neq (u32 W) (u32 (R + PIPESIZE)))); [|intros H%u32_inj_near; unfold PIPESIZE in *; lia].
  cbn [negb]. unfold upd_pipe, modify, mbind, M_bind. eexists. split; [done|]. split; [apply upd_pipe_only|]. split; [|done].
  eexists _, R, (W + 1). split; [by apply upd_pipe_at|]. split; [|done].
  unfold pi_put. rewrite K3, u32_add_l, (rput_u32 PIPESIZE ltac:(done) 8388608 eq_refl).
  split; cbn; [by rewrite length_rput|done|done|lia|]. rewrite K5. symmetry.
  apply rqueue_add; [done|done|unfold PIPESIZE; lia|done].
Qed.

(** Taking bytes out. *)
Lemma piperead_copy_spec s p q ro wo n :
  pipe_at s p q ro wo →
  ∃ s', piperead_copy p n s = Ok (take n q) s' ∧ only_pipe p s s' ∧ pipe_at s' p (drop n q) ro wo.
Proof.
  revert s q. induction n as [|n IH]; intros s q Hat.
  { exists s. split; [done|]. split; [apply only_pipe_refl|done]. }
  destruct Hat as (x & R & W & Hx & Hok & Hro & Hwo). pose proof (pipe_length _ _ _ _ Hok) as Hl.
  pose proof Hok as [K1 K2 K3 K4 K5]. cbn [piperead_copy]. rewrite (bind_Ok _ _ _ _ _ (get_pipe_eq _ _ _ Hx)).
  rewrite K2, K3. destruct (Z.eqb_spec (u32 R) (u32 W)) as [He|He].
  - apply u32_inj_near in He; [|lia]. assert (q = []) as -> by (apply nil_length_inv; lia).
    exists s. split; [done|]. split; [apply only_pipe_refl|]. by exists x, R, W.
  - assert (R < W) by (destruct (decide (R = W)); [congruence|lia]).
    set (s1 := set_k_pipes (alter (set_pi_nread (u32 (u32 R + 1))) p (k_pipes s)) s).
    assert (pipe_at s1 p (rqueue PIPESIZE (pi_data x) (R + 1) W) ro wo) as A1.
    { eexists _, (R + 1), W. split; [by apply upd_pipe_at|]. split; [|done]. rewrite u32_add_l. split; cbn; (done || lia). }
    destruct (IH s1 _ A1) as (s2 & H2 & O2 & A2). exists s2.
    rewrite (bind_Ok _ _ s tt s1) by done. rewrite (bind_Ok _ _ _ _ _ H2).
    rewrite K5, (rqueue_cons PIPESIZE (pi_data x) R W) by lia. cbn [take drop]. unfold pi_get.
    rewrite (rget_u32 PIPESIZE ltac:(done) 8388608 eq_refl).
    split; [done|]. split; [eapply only_pipe_trans; [apply upd_pipe_only|done]|done].
Qed.

Lemma pipe_wakeup ch p s :
  ptable_ok s → Lptable ∉ k_held s →
  ∃ s', wakeup ch s = Ok tt s' ∧ only_pipe p s s' ∧ k_pipes s' = k_pipes s.
Proof.
  intros H1 H2. rewrite wakeup_eq by done. eexists. split; [done|]. split; [|done].
  split_and!; [rec_eq|done|cbn; by rewrite length_fmap].
Qed.

(** What pipe operations need of the rest of the state. *)
Record pipe_env (s : kstate) (p : Z) : Prop := {
  pe_lock : Lpipe p ∉ k_held s;
  pe_ptable : Lptable ∉ k_held s;
  pe_procs : ptable_ok s;
  pe_wakeups : (0 < wakeups)%nat
}.

Lemma only_pipe_held p s s' : only_pipe p s s' → k_held s' = k_held s.
Proof. by intros [-> _]. Qed.
Lemma only_pipe_procs p s s' : only_pipe p s s' → ptable_ok s → ptable_ok s'.
Proof. intros (_ & _ & H). unfold ptable_ok. congruence. Qed.
Lemma only_pipe_set_held p h s s' : only_pipe p s s' → only_pipe p (set_k_held h s) (set_k_held h s').
Proof. intros (H1 & H2 & H3). split_and!; [rewrite H1; rec_eq|done|done]. Qed.

(** The end of a pipe operation: wake the other side, release the lock. *)
Lemma pipe_finish {A} (a : A) ch p s s1 :
  pipe_env s p → only_pipe p (set_k_held ({[ Lpipe p ]} ∪ k_held s) s) s1 →
  ∃ s', (wakeup ch ;; release (Lpipe p) ;; mret a) s1 = Ok a s' ∧ only_pipe p s s' ∧ k_pipes s' = k_pipes s1.
Proof.
  intros [P1 P2 P3 P4] O1. pose proof (only_pipe_held _ _ _ O1) as Hh. cbn in Hh.
  destruct (pipe_wakeup ch p s1) as (s2 & H2 & O2 & E2);
    [by eapply only_pipe_procs|rewrite Hh; set_solver|].
  pose proof (only_pipe_held _ _ _ O2) as Hh2. rewrite (bind_Ok _ _ _ _ _ H2).
  rewrite (bind_Ok _ _ _ tt _ (release_held (Lpipe p) s2 ltac:(rewrite Hh2, Hh; set_solver))).
  eexists. split; [done|]. split; [|done]. rewrite Hh2, Hh, held_roundtrip by done.
  pose proof (only_pipe_set_held p (k_held s) _ _ (only_pipe_trans _ _ _ _ O1 O2)) as O3.
  by replace (set_k_held (k_held s) (set_k_held ({[ Lpipe p ]} ∪ k_held s) s)) with s in O3 by (by destruct s).
Qed.

(** ** A writer and the readers that make room for it

    [drains p]: while a writer sleeps on the full pipe [p], readers take some of
    the oldest bytes out of it (as piperead() does), and touch nothing else but
    the sleep and wakeup state of processes. *)
Definition drains (p : Z) : Prop :=
  ∀ s q ro wo, pipe_at s p q ro wo → length q = 512%nat →
  ∃ s' k, swtch_out s = Some s' ∧ (0 < k)%nat ∧ pipe_at s' p (drop k q) ro wo ∧ only_pipe p s s' ∧
    ∀ i me, k_procs s !! i = Some me → ∃ me', k_procs s' !! i = Some me' ∧ p_killed me' = p_killed me.

(** Process [i] is inside pipewrite(), not killed, and holds only the pipe's lock. *)
Record writing (s : kstate) (p : Z) (i : nat) : Prop := {
  wr_held : k_held s = {[ Lpipe p ]};
  wr_proc : k_proc s = Some i;
  wr_procs : ptable_ok s;
  wr_alive : ∃ me, k_procs s !! i = Some me ∧ p_killed me = 0
}.

Lemma writing_only s s' p i me' :
  writing s p i → only_pipe p s s' → k_procs s' !! i = Some me' → p_killed me' = 0 → writing s' p i.
Proof.
  intros [W1 W2 W3 _] Ho Hme Hk. pose proof (only_pipe_procs _ _ _ Ho W3). destruct Ho as (Ho & _ & _).
  split; [by rewrite Ho|by rewrite Ho|done|by exists me'].
Qed.

Lemma woken_killed ch me : p_killed (woken ch me) = p_killed me.
Proof. unfold woken. by destruct (_ && _). Qed.

(** A full pipe: the writer wakes the readers, sleeps, and finds room. *)
Lemma pipewrite_full {EO : EnvOk E} s p q ro wo i c :
  drains p → writing s p i → pipe_at s p q ro wo → ro ≠ 0 → length q = 512%nat →
  ∃ s' k, pipewrite_round p c s = Ok (inl tt) s' ∧
    (0 < k)%nat ∧ pipe_at s' p (drop k q) ro wo ∧ only_pipe p s s' ∧ writing s' p i.
Proof.
  intros Hd Hwr Hat Hro Hl. pose proof Hwr as [Hh Hc Hps (me & Hme & Hk)].
  pose proof Hat as (x & R & W & Hx & Hok & Hrx & _). apply pipe_length in Hok as Hlq. destruct Hok as [_ K2 K3 _ _].
  unfold pipewrite_round. rewrite (bind_Ok _ _ _ _ _ (get_pipe_eq _ _ _ Hx)), K3, K2, u32_add_l.
  replace W with (R + PIPESIZE) by (unfold PIPESIZE; lia). rewrite Z.eqb_refl. cbn [negb].
  rewrite (bind_Ok curproc _ s i s) by (unfold curproc; by rewrite Hc).
  rewrite (bind_Ok _ _ _ _ _ (get_proc_eq _ _ _ Hme)), Hk, Hrx, (proj2 (Z.eqb_neq _ _) Hro). cbn [orb negb Z.eqb].
  rewrite (bind_Ok _ _ _ _ _ (wakeup_eq (Cpiper p) s Hps ltac:(rewrite Hh; set_solver))).
  set (s1 := set_k_procs _ s).
  assert (k_procs s1 !! i = Some (woken (Some (Cpiper p)) me)) as Hme1 by (cbn; by rewrite list_lookup_fmap, Hme).
  unfold mbind at 1, M_bind at 1. rewrite (sleep_eq (Cpipew p) (Lpipe p) s1 i _ Hc Hme1) by done.
  set (s2 := asleep (Cpipew p) i s1). assert (pipe_at s2 p q ro wo) as Hat2 by done.
  destruct (Hd s2 q ro wo Hat2 Hl) as (s3 & k & -> & Hk0 & Hat3 & (O3 & D3 & L3) & Hkill).
  destruct (Hkill i (set_p_state SLEEPING (set_p_chan (Some (Cpipew p)) (woken (Some (Cpiper p)) me)))) as (me3 & Hme3 & Hk3).
  { unfold s2, asleep. cbn [k_procs set_k_held set_k_procs]. by rewrite list_lookup_alter_eq, Hme1. }
  set (s4 := set_k_held {[ Lpipe p ]} (set_k_procs (alter (set_p_chan None) i (k_procs s3)) s3)). exists s4, k.
  assert (only_pipe p s s4) as O4.
  { unfold s4. split_and!; [rewrite O3; unfold s2; rec_eq; by rewrite Hh|exact D3|].
    cbn. rewrite length_alter, L3. unfold s2, s1. cbn. by rewrite length_alter, length_fmap. }
  split_and!; [done..|]. apply (writing_only s s4 p i (set_p_chan None me3)); [done..| |].
  - unfold s4. cbn. by rewrite list_lookup_alter_eq, Hme3.
  - cbn. rewrite Hk3. cbn. by rewrite woken_killed.
Qed.

(** One byte, into a pipe that may be full. *)
Lemma pipewrite_byte_any {EO : EnvOk E} s p q ro wo i c :
  drains p → (1 < wakeups)%nat → writing s p i → pipe_at s p q ro wo → ro ≠ 0 → 0 <= c < 256 →
  ∃ s' r q', pipewrite_byte p c s = Ok true s' ∧ q = r ++ q' ∧ (Z.of_nat (length q) < 512 → r = []) ∧
    pipe_at s' p (q' ++ [c]) ro wo ∧ only_pipe p s s' ∧ writing s' p i.
Proof.
  intros Hd Hw Hwr Hat Hro Hc. unfold pipewrite_byte. destruct wakeups as [|[|n]]; [lia..|].
  cbn [loop]. destruct (decide (Z.of_nat (length q) < 512)) as [Hl|Hl].
  - destruct (pipewrite_room s p q ro wo c Hat Hl Hc) as (s' & H1 & O1 & A1 & P1).
    rewrite (bind_Ok _ _ _ _ _ H1). exists s', [], q. split_and!; [done..|].
    destruct (wr_alive _ _ _ Hwr) as (me & Hme & Hk). apply (writing_only s s' p i me); [done..|by rewrite P1|done].
  - assert (length q = 512%nat) as Hfull.
    { destruct Hat as (x & R & W & _ & Hok & _). apply pipe_length in Hok as Hlq. destruct Hok. lia. }
    destruct (pipewrite_full s p q ro wo i c Hd Hwr Hat Hro Hfull) as (s1 & k & H1 & Hk & A1 & O1 & W1).
    destruct (pipewrite_room s1 p _ ro wo c A1) as (s2 & H2 & O2 & A2 & P2); [rewrite length_drop; lia|done|].
    rewrite (bind_Ok _ _ _ _ _ H1), (bind_Ok _ _ _ _ _ H2).
    exists s2, (take k q), (drop k q). split_and!; [done|by rewrite take_drop|done|done|by eapply only_pipe_trans|].
    destruct (wr_alive _ _ _ W1) as (me & Hme & Hk1). apply (writing_only s1 s2 p i me); [done..|by rewrite P2|done].
Qed.

(** The whole write. What the readers took in the meantime, followed by what is now
    in the pipe, is what was in it followed by what was written. *)
Lemma pipewrite_loop {EO : EnvOk E} s p q ro wo i pre src :
  drains p → (1 < wakeups)%nat → writing s p i → pipe_at s p q ro wo → ro ≠ 0 → Forall (λ c, 0 <= c < 256) src →
  ∃ s' r q', for_ret (seqZ (Z.of_nat (length pre)) (Z.of_nat (length src))) (λ i,
          c ← deref ((pre ++ src) !! Z.to_nat i); ok ← pipewrite_byte p c;
          mret (if ok : bool then None else Some (-1))) s = Ok None s' ∧
    q ++ src = r ++ q' ∧ (Z.of_nat (length q + length src) <= 512 → r = []) ∧ (q ++ src ≠ [] → q' ≠ []) ∧
    pipe_at s' p q' ro wo ∧ only_pipe p s s' ∧ writing s' p i.
Proof.
  intros Hd Hw. revert s q pre. induction src as [|c src IH]; intros s q pre Hwr Hat Hro Hb.
  { exists s, [], q. rewrite (app_nil_r q). split_and!; try done. apply only_pipe_refl. }
  apply Forall_cons in Hb as [Hc Hb]. rewrite seqZ_cons by (simpl; lia). cbn [for_ret].
  destruct (pipewrite_byte_any s p q ro wo i c Hd Hw Hwr Hat Hro Hc) as (s1 & r1 & q1 & H1 & -> & R1 & A1 & O1 & W1).
  destruct (IH s1 (q1 ++ [c]) (pre ++ [c]) W1 A1 Hro Hb) as (s2 & r2 & q2 & H2 & Eq & R2 & N2 & A2 & O2 & W2).
  exists s2, (r1 ++ r2), q2. rewrite (bind_Ok _ _ s None s1).
  2:{ rewrite Nat2Z.id, list_lookup_middle by done. cbn [deref]. rewrite (bind_Ok (mret c) _ s c s) by done.
      by rewrite (bind_Ok _ _ _ _ _ H1). }
  rewrite length_app in H2. cbn [length] in *. rewrite <- !(assoc_L (++)) in H2, Eq. cbn [app] in Eq.
  replace (Z.succ (Z.of_nat (length pre))) with (Z.of_nat (length pre + 1)) by lia.
  replace (Z.pred (Z.of_nat (S (length src)))) with (Z.of_nat (length src)) by lia.
  split_and!; [done|by rewrite <- !(assoc_L (++)), Eq| | |done|by eapply only_pipe_trans|done].
  - intros Hf. rewrite length_app in Hf, R1. rewrite R1 in * by lia. apply R2. rewrite length_app. cbn in *. lia.
  - intros _. apply N2. by destruct q1.
Qed.

Lemma pipewrite_spec {EO : EnvOk E} s p q ro wo i me src :
  drains p → (1 < wakeups)%nat → pipe_env s p → k_held s = ∅ →
  k_proc s = Some i → k_procs s !! i = Some me → p_killed me = 0 →
  pipe_at s p q ro wo → ro ≠ 0 → Forall (λ c, 0 <= c < 256) src →
  ∃ s' r q', pipewrite p src (Z.of_nat (length src)) s = Ok (Z.of_nat (length src)) s' ∧
    q ++ src = r ++ q' ∧ (Z.of_nat (length q + length src) <= 512 → r = []) ∧ (q ++ src ≠ [] → q' ≠ []) ∧
    pipe_at s' p q' ro wo ∧ only_pipe p s s'.
Proof.
  intros Hd Hw He Hh Hc Hme Hk Hat Hro Hb. unfold pipewrite. rewrite (bind_Ok _ _ _ _ _ (acquire_free _ _ (pe_lock _ _ He))).
  set (s1 := set_k_held _ s).
  assert (writing s1 p i) as Hwr. { split; [cbn; rewrite Hh; set_solver|done|apply He|by exists me]. }
  destruct (pipewrite_loop s1 p q ro wo i [] src Hd Hw Hwr Hat Hro Hb) as (s2 & r & q' & H2 & Eq & R2 & N2 & A2 & O2 & _).
  change (Z.of_nat (length [])) with 0 in H2. rewrite (bind_Ok _ _ _ _ _ H2).
  destruct (pipe_finish (Z.of_nat (length src)) (Cpiper p) p s s2 He O2) as (s3 & H3 & O3 & E3).
  exists s3, r, q'. split_and!; try done. unfold pipe_at in *. by rewrite E3.
Qed.

Lemma piperead_spec s p q ro wo n :
  pipe_env s p → pipe_at s p q ro wo → q ≠ [] ∨ wo = 0 →
  ∃ s', piperead p n s = Ok (Z.of_nat (length (take (Z.to_nat n) q)), take (Z.to_nat n) q) s' ∧ only_pipe p s s' ∧
    pipe_at s' p (drop (Z.to_nat n) q) ro wo.
Proof.
  intros He Hat Hq. unfold piperead. rewrite (bind_Ok _ _ _ _ _ (acquire_free _ _ (pe_lock _ _ He))).
  set (s1 := set_k_held _ s).
  assert (piperead_wait p s1 = Ok true s1) as Hw.
  { destruct Hat as (x & R & W & Hx & Hok & Hro & Hwo). pose proof (pipe_length _ _ _ _ Hok) as Hl.
    pose proof (pe_wakeups _ _ He) as Hwk. unfold piperead_wait. destruct wakeups as [|m]; [lia|]. cbn [loop]. mrun.
    rewrite (get_pipe_eq s1 p x Hx). destruct Hok as [_ K2 K3 K4 _].
    destruct (negb ((pi_nread x =? pi_nwrite x) && negb (pi_writeopen x =? 0))) eqn:Hc; [done|exfalso].
    apply negb_false_iff, andb_true_iff in Hc as [Hc1%Z.eqb_eq Hc2%negb_true_iff%Z.eqb_neq].
    rewrite K2, K3 in Hc1. apply u32_inj_near in Hc1; [|lia]. destruct Hq as [Hq|Hq]; [|congruence].
    apply Hq, nil_length_inv. lia. }
  rewrite (bind_Ok _ _ _ _ _ Hw). cbn [negb].
  destruct (piperead_copy_spec s1 p q ro wo (Z.to_nat n) Hat) as (s2 & H2 & O2 & A2). rewrite (bind_Ok _ _ _ _ _ H2).
  destruct (pipe_finish (Z.of_nat (length (take (Z.to_nat n) q)), take (Z.to_nat n) q) (Cpipew p) p s s2 He O2)
    as (s3 & H3 & O3 & E3).
  exists s3. split; [done|]. split; [done|]. unfold pipe_at in *. by rewrite E3.
Qed.


End Pipe.

(** ** Witness: a reader that takes 100 bytes whenever the writer sleeps *)

Definition env_reader (p : Z) : Env := {|
  swtch_out := λ s, match piperead_copy p 100 s with Ok _ s' => Some s' | _ => None end;
  swtch_run := Some; wakeups := 2; sym_end := 0; sym_data := 0; sym_trapret := 0; sym_forkret := 0;
  sym_initcode := []
|}.

Lemma piperead_copy_only p n s l s' : piperead_copy p n s = Ok l s' → s' = set_k_pipes (k_pipes s') s.
Proof.
  revert s l. induction n as [|n IH]; intros s l H; cbn [piperead_copy] in H; [by injection H as _ <-; destruct s|].
  apply bind_Ok_inv in H as (x & s1 & Hx & H). unfold get_pipe in Hx.
  destruct (k_pipes s !! p); [|done]. injection Hx as _ <-.
  destruct (_ =? _); [by injection H as _ <-; destruct s|].
  apply bind_Ok_inv in H as ([] & s1 & Hu & H). injection Hu as <-.
  apply bind_Ok_inv in H as (l' & s2 & Hl & H). injection H as _ <-. rewrite (IH _ _ Hl). rec_eq.
Qed.

#[global] Instance env_reader_ok p : EnvOk (env_reader p).
Proof.
  split; intros s s'; cbn [swtch_out env_reader]; destruct (piperead_copy p 100 s) as [l s1| | |] eqn:E; try done;
    intros [= <-]; by rewrite (piperead_copy_only _ _ _ _ _ E).
Qed.

Lemma env_reader_drains p : @drains (env_reader p) p.
Proof.
  intros s q ro wo Hat _. destruct (piperead_copy_spec s p q ro wo 100 Hat) as (s' & H1 & O1 & A1).
  exists s', 100%nat. cbn [swtch_out env_reader]. rewrite H1. split_and!; [done|lia|done|done|].
  intros i me Hi. rewrite (piperead_copy_only _ _ _ _ _ H1). by exists me.
Qed.

Section Example.
#[local] Instance env_reader_ex : Env := env_reader 2148532224.
#[local] Instance env_reader_ex_ok : EnvOk env_reader_ex := env_reader_ok 2148532224.

(** A pipe whose counters are about to wrap around, with one byte in it. *)
Definition pipe_ex : kstate :=
  set_k_proc (Some 0%nat) (set_k_procs (<[0%nat := set_p_state RUNNING proc0]> (k_procs kstate0))
    (set_k_pipes {[ 2148532224 := mkpipe (replicate 512 65) 4294967295 0 1 1 ]} kstate0)).


End Example.
