(* ===== verification/File.v ===== *)
(** * File: the file table (file.c) and pipealloc() (pipe.c)

    Pointers to struct file are indices of ftable.file. The user buffer of a read or
    write is an address in the current process. *)

From S2P Require Import Prelude Machine CMem DiskFmt Mmu Kalloc Vm Umem Proc Bio Log Inode ConsIn Fs Pipe.
From stdpp Require Import options.

Section File.
Context {E : Env}.

Definition fileinit : K unit := initlock Lftable.

Definition filealloc : K (option nat) :=
  acquire Lftable ;;
  r ← for_ret (seq 0 (Z.to_nat NFILE)) (λ i,
    f ← get_file i;
    if f_ref f =? 0 then
      upd_file i (set_f_ref 1) ;;
      release Lftable ;;
      mret (Some i)
    else mret None);
  match r with
  | Some i => mret (Some i)
  | None => release Lftable ;; mret None
  end.

Definition filedup (i : nat) : K nat :=
  acquire Lftable ;;
  f ← get_file i;
  if f_ref f <? 1 then panic "filedup" else
  upd_file i (set_f_ref (f_ref f + 1)) ;;
  release Lftable ;;
  mret i.

Definition fileclose (i : nat) : K unit :=
  acquire Lftable ;;
  f ← get_file i;
  if f_ref f <? 1 then panic "fileclose" else
  upd_file i (set_f_ref (f_ref f - 1)) ;;
  if f_ref f - 1 >? 0 then release Lftable else
  ff ← get_file i;
  upd_file i (set_f_ref 0) ;;
  upd_file i (set_f_type FD_NONE) ;;
  release Lftable ;;
  match f_type ff with
  | FD_PIPE => pipeclose (f_pipe ff) (f_writable ff)
  | FD_INODE => begin_op ;; ip ← deref (f_ip ff); iput ip ;; end_op
  | FD_NONE => skip
  end.

(** struct stat as it is laid out in user memory. *)
Definition stat_bytes (st : stat) : list Z :=
  let d := replicate 20 0 in
  let d := put16 d 0 (st_type st) in
  let d := put32 d 4 (st_dev st) in
  let d := put32 d 8 (st_ino st) in
  let d := put16 d 12 (st_nlink st) in
  put32 d 16 (st_size st).
(** The bytes stati() assigns; the others are padding. *)
Definition ustore_stat (va : Z) (st : stat) : K unit :=
  let d := stat_bytes st in
  uwrite va (take 2 d) ;;
  uwrite (u32 (va + 4)) (take 10 (drop 4 d)) ;;
  uwrite (u32 (va + 16)) (take 4 (drop 16 d)).

Definition filestat (i : nat) (st : Z) : K Z :=
  f ← get_file i;
  match f_type f with
  | FD_INODE =>
    ilock (f_ip f) ;;
    ip ← deref (f_ip f);
    x ← stati ip;
    ustore_stat st x ;;
    iunlock (f_ip f) ;;
    mret 0
  | _ => mret (-1)
  end.

Definition fileread (i : nat) (addr n : Z) : K Z :=
  f ← get_file i;
  if f_readable f =? 0 then mret (-1) else
  match f_type f with
  | FD_PIPE =>
    '(r, l) ← piperead (f_pipe f) n;
    uwrite addr l ;;
    mret r
  | FD_INODE =>
    ilock (f_ip f) ;;
    ip ← deref (f_ip f);
    g ← get_file i;
    '(r, l) ← readi ip (f_off g) (u32 n);
    uwrite addr l ;;
    when (r >? 0) (upd_file i (λ f, set_f_off (u32 (f_off f + r)) f)) ;;
    iunlock (f_ip f) ;;
    mret r
  | FD_NONE => panic "fileread"
  end.

(** Bytes per transaction: [((LOGSIZE-1-1-2) / 2) * 512]. *)
Definition write_max : Z := (LOGSIZE - 1 - 1 - 2) / 2 * 512.

(** [while(i < n)]: each round but the last writes [write_max] bytes. *)
Definition filewrite_loop (fi ip : nat) (addr n : Z) : K Z :=
  loop (S (S (Z.to_nat (n / write_max)))) (λ i,
    if negb (i <? n) then mret (inr i) else
    let n1 := Z.min (n - i) write_max in
    begin_op ;;
    ilock (Some ip) ;;
    f ← get_file fi;
    src ← uread (u32 (addr + i)) (Z.to_nat n1);
    r ← writei ip src (f_off f) n1;
    when (r >? 0) (upd_file fi (λ f, set_f_off (u32 (f_off f + r)) f)) ;;
    iunlock (Some ip) ;;
    end_op ;;
    if r <? 0 then mret (inr i) else
    if negb (r =? n1) then panic "short filewrite" else
    mret (inl (i + r))) 0.

Definition filewrite (i : nat) (addr n : Z) : K Z :=
  f ← get_file i;
  if f_writable f =? 0 then mret (-1) else
  match f_type f with
  | FD_PIPE =>
    src ← uread addr (Z.to_nat n);
    pipewrite (f_pipe f) src n
  | FD_INODE =>
    ip ← deref (f_ip f);
    r ← filewrite_loop i ip addr n;
    mret (if r =? n then n else -1)
  | FD_NONE => panic "filewrite"
  end.

(** ** pipealloc() *)

(** [sizeof(struct spinlock)], the offset of data in struct pipe. *)
Definition PIPE_DATA : Z := 52.

(** The label bad: the page that kalloc() returned (0 for none) and the two files. *)
Definition pipealloc_bad (p : Z) (f0 f1 : option nat) : K (Z * option (nat * nat)) :=
  when (negb (p =? 0)) (kfree p) ;;
  match f0 with Some f => fileclose f | None => skip end ;;
  match f1 with Some f => fileclose f | None => skip end ;;
  mret (-1, None).

(** The result, and the read and write ends. *)
Definition pipealloc : K (Z * option (nat * nat)) :=
  f0 ← filealloc;
  match f0 with
  | None => pipealloc_bad 0 None None
  | Some f0 =>
    f1 ← filealloc;
    match f1 with
    | None => pipealloc_bad 0 (Some f0) None
    | Some f1 =>
      p ← kalloc;
      if p =? 0 then pipealloc_bad 0 (Some f0) (Some f1) else
      modify (λ s, set_k_pipes (<[p := mkpipe (bytes (k_mem s) (p + PIPE_DATA) (Z.to_nat PIPESIZE)) 0 0 1 1]>
        (k_pipes s)) s) ;;
      initlock (Lpipe p) ;;
      upd_file f0 (set_f_type FD_PIPE) ;;
      upd_file f0 (set_f_readable 1) ;;
      upd_file f0 (set_f_writable 0) ;;
      upd_file f0 (set_f_pipe p) ;;
      upd_file f1 (set_f_type FD_PIPE) ;;
      upd_file f1 (set_f_readable 0) ;;
      upd_file f1 (set_f_writable 1) ;;
      upd_file f1 (set_f_pipe p) ;;
      mret (0, Some (f0, f1))
    end
  end.

End File.
