(* ===== verification/ProcLife.v ===== *)
(** * ProcLife: the life of a process (proc.c, second part)

    userinit(), growproc(), fork(), exit(), wait() and forkret(). *)

From S2P Require Import Prelude Machine CMem DiskFmt Mmu Kalloc ConsOut Vm Umem Proc Bio Log Inode Fs Pipe File.
From stdpp Require Import options.

Definition SEG_UCODE : Z := 4.
Definition SEG_UDATA : Z := 5.
Definition DPL_USER : Z := 3.
Definition FL_IF : Z := 512.

Section ProcLife.
Context {E : Env}.

(** [safestrcpy(dst, src, 16)] of char arrays of the process table or of literals. *)
Definition name_copy (dst src : list Z) : list Z := bytes (safestrcpy (scratch dst src) 0 64 16) 0 16.

(** Store a word, or a 16-bit segment register, in the trap frame at [tf]. *)
Definition tf_put (tf o v : Z) : K unit := store (tf + o) v.
Definition tf_put16 (tf o v : Z) : K unit :=
  modify (λ s, set_k_mem (wr (wr (k_mem s) (tf + o) v) (tf + o + 1) (Z.shiftr v 8)) s).
Definition tf_get16 (tf o : Z) : K Z :=
  gets (λ s, rd (k_mem s) (tf + o) + 256 * rd (k_mem s) (tf + o + 1)).

Definition userinit : K unit :=
  r ← allocproc DEFAULT_TICKETS;
  modify (set_k_initproc r) ;;
  p ← deref r;
  pgdir ← setupkvm;
  upd_proc p (set_p_pgdir pgdir) ;;
  if pgdir =? 0 then panic "userinit: out of memory?" else
  inituvm pgdir sym_initcode ;;
  upd_proc p (set_p_sz PGSIZE) ;;
  x ← get_proc p;
  let tf := p_tf x in
  do_memset tf 0 TF_SIZE ;;
  tf_put16 tf TF_CS (Z.lor (Z.shiftl SEG_UCODE 3) DPL_USER) ;;
  tf_put16 tf TF_DS (Z.lor (Z.shiftl SEG_UDATA 3) DPL_USER) ;;
  ds ← tf_get16 tf TF_DS;
  tf_put16 tf TF_ES ds ;;
  tf_put16 tf TF_SS ds ;;
  tf_put tf TF_EFLAGS FL_IF ;;
  tf_put tf TF_ESP PGSIZE ;;
  tf_put tf TF_EIP 0 ;;
  upd_proc p (λ x, set_p_name (name_copy (p_name x) (str "initcode")) x) ;;
  cwd ← namei (str "/");
  upd_proc p (set_p_cwd cwd) ;;
  upd_proc p (set_p_state RUNNABLE).

Definition growproc (n : Z) : K Z :=
  c ← curproc;
  p ← get_proc c;
  let sz := p_sz p in
  r ← (if n >? 0 then
         sz ← allocuvm (p_pgdir p) sz (u32 (sz + n));
         mret (if sz =? 0 then None else Some sz)
       else if n <? 0 then
         sz ← deallocuvm (p_pgdir p) sz (u32 (sz + n));
         mret (if sz =? 0 then None else Some sz)
       else mret (Some sz));
  match r with
  | None => mret (-1)
  | Some sz =>
    upd_proc c (set_p_sz sz) ;;
    switchuvm c ;;
    mret 0
  end.

Definition printaProcessos (i : nat) (estado : bool) : K unit :=
  p ← get_proc i;
  if estado then cprintf (Some (str "Iniciando Id: %d Passo calculado %d" ++ [10])) [Aint (p_pid p); Aint (p_passo p)]
  else cprintf (Some (str "Finalizado - ID: %d Passo atual %d" ++ [10])) [Aint (p_pid p); Aint (p_passada p)].

(** The number of tickets fork() gives for an argument. *)
Definition tickets (stride : Z) : Z :=
  if stride =? 0 then DEFAULT_TICKETS
  else if stride <? MIN_TICKETS then MIN_TICKETS
  else if stride >? MAX_TICKETS then MAX_TICKETS
  else stride.

(** [for(i = 0; i < NOFILE; i++) if(proc->ofile[i]) np->ofile[i] = filedup(...)] *)
Definition fork_files (c np : nat) : K unit :=
  for_each (seq 0 (Z.to_nat NOFILE)) (λ i,
    p ← get_proc c;
    f ← deref (p_ofile p !! i);
    match f with
    | None => skip
    | Some f =>
      g ← filedup f;
      upd_proc np (λ x, set_p_ofile (<[i := Some g]> (p_ofile x)) x)
    end).

Definition fork (stride : Z) : K Z :=
  r ← allocproc (tickets stride);
  match r with
  | None => mret (-1)
  | Some np =>
    c ← curproc;
    p ← get_proc c;
    pgdir ← copyuvm (p_pgdir p) (p_sz p);
    upd_proc np (set_p_pgdir pgdir) ;;
    x ← get_proc np;
    if pgdir =? 0 then
      kfree (p_kstack x) ;;
      upd_proc np (set_p_kstack 0) ;;
      upd_proc np (set_p_state UNUSED) ;;
      mret (-1)
    else
    upd_proc np (set_p_sz (p_sz p)) ;;
    upd_proc np (set_p_parent (Some c)) ;;
    do_memmove (p_tf x) (p_tf p) TF_SIZE ;;
    tf_put (p_tf x) TF_EAX 0 ;;
    fork_files c np ;;
    p ← get_proc c;
    cwd ← deref (p_cwd p);
    cwd ← idup cwd;
    upd_proc np (set_p_cwd (Some cwd)) ;;
    upd_proc np (λ x, set_p_name (name_copy (p_name x) (p_name p)) x) ;;
    x ← get_proc np;
    printaProcessos np true ;;
    acquire Lptable ;;
    upd_proc np (set_p_state RUNNABLE) ;;
    release Lptable ;;
    mret (p_pid x)
  end.

(** [for(fd = 0; fd < NOFILE; fd++)] of exit(). *)
Definition exit_files (c : nat) : K unit :=
  for_each (seq 0 (Z.to_nat NOFILE)) (λ fd,
    p ← get_proc c;
    f ← deref (p_ofile p !! fd);
    match f with
    | None => skip
    | Some f =>
      fileclose f ;;
      upd_proc c (λ x, set_p_ofile (<[fd := None]> (p_ofile x)) x)
    end).

(** Pass abandoned children to init. *)
Definition exit_children (c : nat) : K unit :=
  for_each ptable_procs (λ i,
    p ← get_proc i;
    when (bool_decide (p_parent p = Some c))
      (ip ← gets k_initproc;
       upd_proc i (set_p_parent ip) ;;
       when (state_eqb (p_state p) ZOMBIE) (wakeup1 (Cproc <$> ip)))).

Definition exit {A} : K A :=
  c ← curproc;
  init ← gets k_initproc;
  if bool_decide (Some c = init) then panic "init exiting" else
  exit_files c ;;
  begin_op ;;
  p ← get_proc c;
  cwd ← deref (p_cwd p);
  iput cwd ;;
  end_op ;;
  upd_proc c (set_p_cwd None) ;;
  acquire Lptable ;;
  p ← get_proc c;
  wakeup1 (Cproc <$> p_parent p) ;;
  exit_children c ;;
  upd_proc c (set_p_state ZOMBIE) ;;
  sched ;;
  panic "zombie exit".

(** One scan of the table in wait(): the pid of a zombie child, now freed, or
    whether there are children at all. *)
Fixpoint wait_scan (l : list nat) (c : nat) (havekids : bool) : K (Z + bool) :=
  match l with
  | [] => mret (inr havekids)
  | i :: l =>
    p ← get_proc i;
    if negb (bool_decide (p_parent p = Some c)) then wait_scan l c havekids else
    if state_eqb (p_state p) ZOMBIE then
      printaProcessos i false ;;
      kfree (p_kstack p) ;;
      upd_proc i (set_p_kstack 0) ;;
      freevm (p_pgdir p) ;;
      upd_proc i (set_p_state UNUSED) ;;
      upd_proc i (set_p_pid 0) ;;
      upd_proc i (set_p_parent None) ;;
      upd_proc i (λ x, set_p_name (<[0%nat := 0]> (p_name x)) x) ;;
      upd_proc i (set_p_killed 0) ;;
      release Lptable ;;
      mret (inl (p_pid p))
    else wait_scan l c true
  end.

Definition wait : K Z :=
  acquire Lptable ;;
  loop wakeups (λ _ : unit,
    c ← curproc;
    r ← wait_scan ptable_procs c false;
    match r with
    | inl pid => mret (inr pid)
    | inr havekids =>
      p ← get_proc c;
      if negb havekids || negb (p_killed p =? 0) then
        release Lptable ;; mret (inr (-1))
      else
        sleep (Cproc c) (Some Lptable) ;; mret (inl tt)
    end) tt.

(** [first] is forkret()'s static variable. *)
Definition forkret (first : Z) : K Z :=
  release Lptable ;;
  if negb (first =? 0) then iinit ROOTDEV ;; initlog ROOTDEV ;; mret 0
  else mret first.

End ProcLife.
