(* ===== verification/Exec.v ===== *)
(** * Exec: running a program (exec.c, and loaduvm() of vm.c)

    The path is the list of its bytes, argv the list of its strings. *)

From S2P Require Import Prelude Machine CMem DiskFmt Mmu Kalloc ConsOut Vm Umem Proc Bio Log Inode Fs Pipe File ProcLife.
From stdpp Require Import options.

(** elf.h: offsets in struct elfhdr and struct proghdr. *)
Definition ELF_MAGIC : Z := 1179403647.
Definition ELF_PROG_LOAD : Z := 1.
Definition ELFHDR_SIZE : Z := 52.
Definition PROGHDR_SIZE : Z := 32.
Definition elf_magic (d : list Z) : Z := get32 d 0.
Definition elf_entry (d : list Z) : Z := get32 d 24.
Definition elf_phoff (d : list Z) : Z := get32 d 28.
Definition elf_phnum (d : list Z) : Z := get16 d 44.
Definition ph_type (d : list Z) : Z := get32 d 0.
Definition ph_off (d : list Z) : Z := get32 d 4.
Definition ph_vaddr (d : list Z) : Z := get32 d 8.
Definition ph_filesz (d : list Z) : Z := get32 d 16.
Definition ph_memsz (d : list Z) : Z := get32 d 20.

Section Exec.
Context {E : Env}.

(** [for(i = 0; i < sz; i += PGSIZE)] *)
Definition loaduvm (pgdir addr : Z) (ip : nat) (offset sz : Z) : K Z :=
  if negb (addr mod PGSIZE =? 0) then panic "loaduvm: addr must be page aligned" else
  r ← for_ret ((λ k, k * PGSIZE) <$> seqZ 0 ((sz + PGSIZE - 1) / PGSIZE)) (λ i,
    pte ← walkpgdir pgdir (u32 (addr + i)) false;
    if pte =? 0 then panic "loaduvm: address should exist" else
    e ← load pte;
    let pa := PTE_ADDR e in
    let n := if sz - i <? PGSIZE then sz - i else PGSIZE in
    '(r, l) ← readi ip (u32 (offset + i)) n;
    put_bytes (p2v pa) l ;;
    mret (if negb (r =? n) then Some (-1) else None));
  mret (default 0 r).

(** The label bad. *)
Definition exec_bad (pgdir : Z) (ip : option nat) : K Z :=
  when (negb (pgdir =? 0)) (freevm pgdir) ;;
  match ip with
  | Some ip => iunlockput ip ;; end_op
  | None => skip
  end ;;
  mret (-1).

(** Load the program headers that are left; [None] is a jump to bad. *)
Fixpoint exec_segments (n : nat) (pgdir : Z) (ip : nat) (off sz : Z) : K (option Z) :=
  match n with
  | O => mret (Some sz)
  | S n =>
    '(r, ph) ← readi ip (u32 off) PROGHDR_SIZE;
    if negb (r =? PROGHDR_SIZE) then mret None else
    let next := s32 (off + PROGHDR_SIZE) in
    if negb (ph_type ph =? ELF_PROG_LOAD) then exec_segments n pgdir ip next sz else
    if ph_memsz ph <? ph_filesz ph then mret None else
    sz ← allocuvm pgdir sz (u32 (ph_vaddr ph + ph_memsz ph));
    if sz =? 0 then mret None else
    r ← loaduvm pgdir (ph_vaddr ph) ip (ph_off ph) (ph_filesz ph);
    if r <? 0 then mret None else
    exec_segments n pgdir ip next sz
  end.

(** Push the argument strings: the stack pointer and the pointers pushed so far. *)
Fixpoint exec_args (argv : list (list Z)) (pgdir sp : Z) (ptrs : list Z) : K (option (Z * list Z)) :=
  match argv with
  | [] => mret (Some (sp, ptrs))
  | s :: argv =>
    if Z.of_nat (length ptrs) >=? MAXARG then mret None else
    let sp := Z.land (u32 (sp - (Z.of_nat (length s) + 1))) (Z.lnot 3) in
    r ← copyout pgdir sp (s ++ [0]);
    if r <? 0 then mret None else
    exec_args argv pgdir sp (ptrs ++ [sp])
  end.

Definition word_bytes (v : Z) : list Z := [u8 v; u8 (Z.shiftr v 8); u8 (Z.shiftr v 16); u8 (Z.shiftr v 24)].

(** The part of a path after its last slash. *)
Definition basename (path : list Z) : list Z :=
  foldl (λ last c, if c =? 47 then [] else last ++ [c]) [] path.

(** The stack pages and the arguments; the final sz and sp. *)
Definition exec_stack (pgdir sz : Z) (argv : list (list Z)) : K (option (Z * Z)) :=
  let sz := PGROUNDUP sz in
  sz ← allocuvm pgdir sz (u32 (sz + 2 * PGSIZE));
  if sz =? 0 then mret None else
  clearpteu pgdir (u32 (sz - 2 * PGSIZE)) ;;
  r ← exec_args argv pgdir sz [];
  match r with
  | None => mret None
  | Some (sp, ptrs) =>
    let argc := Z.of_nat (length ptrs) in
    let ustack := [4294967295; argc; u32 (sp - (argc + 1) * 4)] ++ ptrs ++ [0] in
    let sp := u32 (sp - (3 + argc + 1) * 4) in
    r ← copyout pgdir sp (ustack ≫= word_bytes);
    mret (if r <? 0 then None else Some (sz, sp))
  end.

(** Commit to the user image. *)
Definition exec_commit (path : list Z) (pgdir sz entry sp : Z) : K Z :=
  c ← curproc;
  upd_proc c (λ p, set_p_name (name_copy (p_name p) (basename path)) p) ;;
  p ← get_proc c;
  upd_proc c (set_p_pgdir pgdir) ;;
  upd_proc c (set_p_sz sz) ;;
  tf_put (p_tf p) TF_EIP entry ;;
  tf_put (p_tf p) TF_ESP sp ;;
  switchuvm c ;;
  freevm (p_pgdir p) ;;
  mret 0.

(** readi()'s result is compared as an unsigned number, so -1 passes the first test;
    the header's bytes that readi() did not store are zero here. *)
Definition exec (path : list Z) (argv : list (list Z)) : K Z :=
  begin_op ;;
  r ← namei path;
  match r with
  | None => end_op ;; mret (-1)
  | Some ip =>
    ilock (Some ip) ;;
    '(r, elf) ← readi ip 0 ELFHDR_SIZE;
    if u32 r <? ELFHDR_SIZE then exec_bad 0 (Some ip) else
    if negb (elf_magic elf =? ELF_MAGIC) then exec_bad 0 (Some ip) else
    pgdir ← setupkvm;
    if pgdir =? 0 then exec_bad 0 (Some ip) else
    r ← exec_segments (Z.to_nat (elf_phnum elf)) pgdir ip (s32 (elf_phoff elf)) 0;
    match r with
    | None => exec_bad pgdir (Some ip)
    | Some sz =>
      iunlockput ip ;;
      end_op ;;
      r ← exec_stack pgdir sz argv;
      match r with
      | None => exec_bad pgdir None
      | Some (sz, sp) => exec_commit path pgdir sz (elf_entry elf) sp
      end
    end
  end.

End Exec.
