(* ===== verification/Syscall.v ===== *)
(** * Syscall: arguments of system calls, and those about processes
    (syscall.c, sysproc.c)

    The functions that return -1 or store a value through a pointer return an
    option. A string argument is the list of its bytes. *)

From S2P Require Import Prelude Machine CMem DiskFmt Mmu Kalloc ConsOut Vm Umem Proc Bio Log Inode Fs Pipe File ProcLife Exec.
From stdpp Require Import options.

Section Syscall.
Context {E : Env}.

(** [proc->sz] *)
Definition cur_sz : K Z := c ← curproc; p ← get_proc c; mret (p_sz p).
(** A word of [proc->tf]. *)
Definition cur_tf (o : Z) : K Z := c ← curproc; p ← get_proc c; load (p_tf p + o).

Definition fetchint (addr : Z) : K (option Z) :=
  sz ← cur_sz;
  if (addr >=? sz) || (u32 (addr + 4) >? sz) then mret None else
  v ← uload addr;
  mret (Some v).

(** [for(s = *pp; s < ep; s++) if( *s == 0) return s - *pp;] *)
Fixpoint fetchstr_loop (n : nat) (s : Z) : K (option (list Z)) :=
  match n with
  | O => mret None
  | S n =>
    c ← uload8 s;
    if c =? 0 then mret (Some []) else
    r ← fetchstr_loop n (s + 1);
    mret (cons c <$> r)
  end.
Definition fetchstr (addr : Z) : K (option (list Z)) :=
  sz ← cur_sz;
  if addr >=? sz then mret None else
  fetchstr_loop (Z.to_nat (sz - addr)) addr.

Definition argint (n : Z) : K (option Z) :=
  esp ← cur_tf TF_ESP;
  fetchint (u32 (esp + 4 + 4 * n)).

Definition argptr (n size : Z) : K (option Z) :=
  r ← argint n;
  match r with
  | None => mret None
  | Some i =>
    sz ← cur_sz;
    if (u32 i >=? sz) || (u32 (u32 i + size) >? sz) then mret None else
    mret (Some (u32 i))
  end.

Definition argstr (n : Z) : K (option (list Z)) :=
  r ← argint n;
  match r with
  | None => mret None
  | Some addr => fetchstr (u32 addr)
  end.

(** ** sysproc.c *)

(** The result of argint() is not tested: without an argument fork() gets whatever
    the variable held, [junk]. *)
Definition sys_fork (junk : Z) : K Z :=
  r ← argint 0;
  fork (default junk r).

Definition sys_exit : K Z := exit.
Definition sys_wait : K Z := wait.

Definition sys_kill : K Z :=
  r ← argint 0;
  match r with
  | None => mret (-1)
  | Some pid => kill pid
  end.

Definition sys_getpid : K Z := c ← curproc; p ← get_proc c; mret (p_pid p).

Definition sys_sbrk : K Z :=
  r ← argint 0;
  match r with
  | None => mret (-1)
  | Some n =>
    addr ← cur_sz;
    g ← growproc n;
    mret (if g <? 0 then -1 else s32 addr)
  end.

(** [ticks - ticks0 < n] compares unsigned numbers. *)
Definition sys_sleep : K Z :=
  r ← argint 0;
  match r with
  | None => mret (-1)
  | Some n =>
    acquire Ltickslock ;;
    ticks0 ← gets k_ticks;
    loop wakeups (λ _ : unit,
      t ← gets k_ticks;
      if negb (u32 (t - ticks0) <? u32 n) then release Ltickslock ;; mret (inr 0) else
      c ← curproc;
      p ← get_proc c;
      if negb (p_killed p =? 0) then release Ltickslock ;; mret (inr (-1)) else
      sleep Cticks (Some Ltickslock) ;;
      mret (inl tt)) tt
  end.

Definition sys_uptime : K Z :=
  acquire Ltickslock ;;
  t ← gets k_ticks;
  release Ltickslock ;;
  mret (s32 t).

(** ** What a pointer argument may point to *)

Lemma cur_sz_eq s c p : k_proc s = Some c → k_procs s !! c = Some p → cur_sz s = Ok (p_sz p) s.
Proof.
  intros Hc Hp. unfold cur_sz, curproc, get_proc. rewrite (bind_Ok _ _ s c s) by (by rewrite Hc). rewrite (bind_Ok _ _ s p s) by (by rewrite Hp). done.
Qed.

(** The test of argptr(), [sz] being the size of the process. *)
Lemma argptr_eq s n i c p size :
  argint n s = Ok (Some i) s → k_proc s = Some c → k_procs s !! c = Some p →
  argptr n size s = Ok (if (u32 i >=? p_sz p) || (u32 (u32 i + size) >? p_sz p) then None else Some (u32 i)) s.
Proof.
  intros Hi Hc Hp. unfold argptr. rewrite (bind_Ok _ _ _ _ _ Hi), (bind_Ok _ _ _ _ _ (cur_sz_eq s c p Hc Hp)). by destruct (_ || _).
Qed.

(** C13. A pointer that argptr() accepts, for a size that is not negative, points to bytes
    that all belong to the process, none of them in the kernel: exactly the pointers
    below the process size with [size] bytes before it are accepted, and all others
    are refused. *)
Theorem argptr_checks s n i c p size :
  argint n s = Ok (Some i) s → k_proc s = Some c → k_procs s !! c = Some p → 0 <= p_sz p <= KERNBASE → 0 <= size < 2147483648 →
  argptr n size s = Ok (if decide (u32 i < p_sz p ∧ u32 i + size <= p_sz p) then Some (u32 i) else None) s.
Proof.
  intros Hi Hc Hp Hsz Hs. rewrite (argptr_eq _ _ _ _ _ _ Hi Hc Hp). unfold KERNBASE in Hsz. f_equal.
  assert (0 <= u32 i < 4294967296) as Hu by (unfold u32; apply Z.mod_pos_bound; lia). rewrite Z.geb_leb, Z.gtb_ltb.
  destruct (Z.leb_spec (p_sz p) (u32 i)); [by rewrite decide_False by lia|]. cbn [orb]. rewrite (u32_small (u32 i + size)) by (unfold is_u32; lia).
  destruct (Z.ltb_spec (p_sz p) (u32 i + size)); [by rewrite decide_False by lia|by rewrite decide_True by lia].
Qed.

(** A negative size passes the test: the sum wraps around. read() and write() hand on
    the size that the process gave, so the buffer of a read(fd, p, -1) has not been
    checked for the bytes the file system then stores into it. *)
Theorem argptr_negative_size s n i c p size :
  argint n s = Ok (Some i) s → k_proc s = Some c → k_procs s !! c = Some p → 0 <= p_sz p <= KERNBASE →
  -2147483648 <= size < 0 → - size <= u32 i < p_sz p →
  argptr n size s = Ok (Some (u32 i)) s.
Proof.
  intros Hi Hc Hp Hsz Hs Hu. rewrite (argptr_eq _ _ _ _ _ _ Hi Hc Hp). unfold KERNBASE in Hsz.
  rewrite Z.geb_leb, Z.gtb_ltb, (proj2 (Z.leb_gt _ _)) by lia. rewrite (u32_small (u32 i + size)) by (unfold is_u32; lia).
  by rewrite (proj2 (Z.ltb_ge _ _)) by lia.
Qed.

End Syscall.

(** A process of one page, at physical address 12288, whose stack holds the arguments 3,
    4000 and -1 of a system call. *)
Section Example.
#[local] Existing Instance env_idle.

Definition call_ex : kstate :=
  Eval vm_compute in
  let put m '(a, v) := write32 m a v in
  set_k_cr3 4096 (set_k_proc (Some 0%nat) (set_k_procs
    (<[0%nat := set_p_sz 4096 (set_p_tf (p2v 16384) (set_p_state RUNNING proc0))]> (k_procs kstate0))
    (set_k_mem (foldl put ∅ [(p2v 4096, 8192 + 7); (p2v 8192, 12288 + 7); (p2v 16384 + TF_ESP, 100);
      (p2v 12288 + 104, 3); (p2v 12288 + 108, 4000); (p2v 12288 + 112, 4294967295)]) kstate0))).
Definition call_proc : proc := set_p_sz 4096 (set_p_tf (p2v 16384) (set_p_state RUNNING proc0)).

Lemma argptr_checks_witness : argptr 1 96 call_ex = Ok (Some 4000) call_ex.
Proof. apply (argptr_checks call_ex 1 4000 0 call_proc 96); [by vm_compute|done|done|done|done]. Defined.

Lemma argptr_negative_size_witness : argptr 1 (-1) call_ex = Ok (Some 4000) call_ex.
Proof. apply (argptr_negative_size call_ex 1 4000 0 call_proc (-1)); [by vm_compute|done|done|done|done|done]. Defined.

End Example.
