(* ===== verification/Sysfile.v ===== *)
(** * Sysfile: the file system calls (sysfile.c) and the system call table
    (syscall.c) *)

From S2P Require Import Prelude Machine CMem DiskFmt Mmu Kalloc ConsOut Vm Umem Proc Bio Log Inode Fs Pipe File ProcLife Exec Syscall.
From stdpp Require Import options.

Section Sysfile.
Context {E : Env}.

(** The descriptor and the file. *)
Definition argfd (n : Z) : K (option (Z * nat)) :=
  r ← argint n;
  match r with
  | None => mret None
  | Some fd =>
    c ← curproc;
    p ← get_proc c;
    if (fd <? 0) || (fd >=? NOFILE) then mret None else
    f ← deref (p_ofile p !! Z.to_nat fd);
    mret ((λ f, (fd, f)) <$> f)
  end.

(** [proc->ofile[fd] = f] *)
Definition set_ofile (fd : Z) (f : option nat) : K unit :=
  c ← curproc;
  upd_proc c (λ p, set_p_ofile (<[Z.to_nat fd := f]> (p_ofile p)) p).

Definition fdalloc (f : nat) : K Z :=
  r ← for_ret (seqZ 0 NOFILE) (λ fd,
    c ← curproc;
    p ← get_proc c;
    o ← deref (p_ofile p !! Z.to_nat fd);
    match o with
    | None => set_ofile fd (Some f) ;; mret (Some fd)
    | Some _ => mret None
    end);
  mret (default (-1) r).

Definition sys_dup : K Z :=
  r ← argfd 0;
  match r with
  | None => mret (-1)
  | Some (_, f) =>
    fd ← fdalloc f;
    if fd <? 0 then mret (-1) else
    filedup f ;;
    mret fd
  end.

(** [argfd(0, 0, &f) < 0 || argint(2, &n) < 0 || argptr(1, &p, n) < 0] *)
Definition rw_args : K (option (nat * Z * Z)) :=
  r ← argfd 0;
  match r with
  | None => mret None
  | Some (_, f) =>
    n ← argint 2;
    match n with
    | None => mret None
    | Some n =>
      p ← argptr 1 n;
      mret ((λ p, (f, p, n)) <$> p)
    end
  end.

Definition sys_read : K Z :=
  r ← rw_args;
  match r with
  | None => mret (-1)
  | Some (f, p, n) => fileread f p n
  end.

Definition sys_write : K Z :=
  r ← rw_args;
  match r with
  | None => mret (-1)
  | Some (f, p, n) => filewrite f p n
  end.

Definition sys_close : K Z :=
  r ← argfd 0;
  match r with
  | None => mret (-1)
  | Some (fd, f) =>
    set_ofile fd None ;;
    fileclose f ;;
    mret 0
  end.

(** [sizeof(struct stat)] is 20. *)
Definition sys_fstat : K Z :=
  r ← argfd 0;
  match r with
  | None => mret (-1)
  | Some (_, f) =>
    st ← argptr 1 20;
    match st with
    | None => mret (-1)
    | Some st => filestat f st
    end
  end.

(** The label bad of sys_link(). *)
Definition link_bad (ip : nat) : K Z :=
  ilock (Some ip) ;;
  upd_inode ip (λ x, set_i_nlink (s16 (i_nlink x - 1)) x) ;;
  iupdate ip ;;
  iunlockput ip ;;
  end_op ;;
  mret (-1).

Definition sys_link : K Z :=
  old ← argstr 0;
  match old with
  | None => mret (-1)
  | Some old =>
    new ← argstr 1;
    match new with
    | None => mret (-1)
    | Some new =>
      begin_op ;;
      r ← namei old;
      match r with
      | None => end_op ;; mret (-1)
      | Some ip =>
        ilock (Some ip) ;;
        x ← get_inode ip;
        if i_type x =? T_DIR then iunlockput ip ;; end_op ;; mret (-1) else
        upd_inode ip (λ x, set_i_nlink (s16 (i_nlink x + 1)) x) ;;
        iupdate ip ;;
        iunlock (Some ip) ;;
        '(dp, name) ← nameiparent new (replicate 14 0);
        match dp with
        | None => link_bad ip
        | Some dp =>
          ilock (Some dp) ;;
          d ← get_inode dp;
          x ← get_inode ip;
          bad ← (if negb (i_dev d =? i_dev x) then mret true
                 else r ← dirlink dp name (i_inum x); mret (r <? 0));
          if bad : bool then iunlockput dp ;; link_bad ip else
          iunlockput dp ;;
          iput ip ;;
          end_op ;;
          mret 0
        end
      end
    end
  end.

(** [for(off=2*sizeof(de); off<dp->size; off+=sizeof(de))] *)
Definition isdirempty (dp : nat) : K bool :=
  d ← get_inode dp;
  r ← for_ret (drop 2 (dir_offsets (i_size d))) (λ off,
    '(r, de) ← readi dp off DIRENT_SIZE;
    if negb (r =? DIRENT_SIZE) then panic "isdirempty: readi" else
    mret (if negb (de_inum de =? 0) then Some false else None));
  mret (default true r).

(** The label bad of sys_unlink(). *)
Definition unlink_bad (dp : nat) : K Z := iunlockput dp ;; end_op ;; mret (-1).

Definition sys_unlink : K Z :=
  path ← argstr 0;
  match path with
  | None => mret (-1)
  | Some path =>
    begin_op ;;
    '(dp, name) ← nameiparent path (replicate 14 0);
    match dp with
    | None => end_op ;; mret (-1)
    | Some dp =>
      ilock (Some dp) ;;
      if (namecmp name (str ".") =? 0) || (namecmp name (str "..") =? 0) then unlink_bad dp else
      r ← dirlookup dp name;
      match r with
      | None => unlink_bad dp
      | Some (ip, off) =>
        ilock (Some ip) ;;
        x ← get_inode ip;
        if i_nlink x <? 1 then panic "unlink: nlink < 1" else
        full ← (if i_type x =? T_DIR then e ← isdirempty ip; mret (negb e) else mret false);
        if full : bool then iunlockput ip ;; unlink_bad dp else
        w ← writei dp (replicate 16 0) off DIRENT_SIZE;
        if negb (w =? DIRENT_SIZE) then panic "unlink: writei" else
        when (i_type x =? T_DIR)
          (upd_inode dp (λ d, set_i_nlink (s16 (i_nlink d - 1)) d) ;; iupdate dp) ;;
        iunlockput dp ;;
        upd_inode ip (λ x, set_i_nlink (s16 (i_nlink x - 1)) x) ;;
        iupdate ip ;;
        iunlockput ip ;;
        end_op ;;
        mret 0
      end
    end
  end.

(** A new inode in the locked directory [dp]. *)
Definition create_new (dp : nat) (name : list Z) (type major minor : Z) : K nat :=
  d ← get_inode dp;
  ip ← ialloc (i_dev d) type;
  ilock (Some ip) ;;
  upd_inode ip (set_i_major (s16 major)) ;;
  upd_inode ip (set_i_minor (s16 minor)) ;;
  upd_inode ip (set_i_nlink 1) ;;
  iupdate ip ;;
  x ← get_inode ip;
  when (type =? T_DIR)
    (upd_inode dp (λ d, set_i_nlink (s16 (i_nlink d + 1)) d) ;;
     iupdate dp ;;
     r ← dirlink ip (str ".") (i_inum x);
     if r <? 0 then panic "create dots" else
     r ← dirlink ip (str "..") (i_inum d);
     if r <? 0 then panic "create dots" else skip) ;;
  r ← dirlink dp name (i_inum x);
  if r <? 0 then panic "create: dirlink" else
  iunlockput dp ;;
  mret ip.

(** The inode is returned locked. *)
Definition create (path : list Z) (type major minor : Z) : K (option nat) :=
  '(dp, name) ← nameiparent path (replicate 14 0);
  match dp with
  | None => mret None
  | Some dp =>
    ilock (Some dp) ;;
    r ← dirlookup dp name;
    match r with
    | Some (ip, _) =>
      iunlockput dp ;;
      ilock (Some ip) ;;
      x ← get_inode ip;
      if (type =? T_FILE) && (i_type x =? T_FILE) then mret (Some ip) else
      iunlockput ip ;;
      mret None
    | None => ip ← create_new dp name type major minor; mret (Some ip)
    end
  end.

(** The second half of sys_open(), with the inode locked. *)
Definition open_file (ip : nat) (omode : Z) : K Z :=
  f ← filealloc;
  match f with
  | None => iunlockput ip ;; end_op ;; mret (-1)
  | Some f =>
    fd ← fdalloc f;
    if fd <? 0 then fileclose f ;; iunlockput ip ;; end_op ;; mret (-1) else
    iunlock (Some ip) ;;
    end_op ;;
    upd_file f (set_f_type FD_INODE) ;;
    upd_file f (set_f_ip (Some ip)) ;;
    upd_file f (set_f_off 0) ;;
    upd_file f (set_f_readable (if has omode O_WRONLY then 0 else 1)) ;;
    upd_file f (set_f_writable (if has omode O_WRONLY || has omode O_RDWR then 1 else 0)) ;;
    mret fd
  end.

Definition sys_open : K Z :=
  path ← argstr 0;
  match path with
  | None => mret (-1)
  | Some path =>
    m ← argint 1;
    match m with
    | None => mret (-1)
    | Some omode =>
      begin_op ;;
      if has omode O_CREATE then
        r ← create path T_FILE 0 0;
        match r with
        | None => end_op ;; mret (-1)
        | Some ip => open_file ip omode
        end
      else
        r ← namei path;
        match r with
        | None => end_op ;; mret (-1)
        | Some ip =>
          ilock (Some ip) ;;
          x ← get_inode ip;
          if (i_type x =? T_DIR) && negb (omode =? O_RDONLY) then
            iunlockput ip ;; end_op ;; mret (-1)
          else open_file ip omode
        end
    end
  end.

(** The end of sys_mkdir() and sys_mknod(). *)
Definition made (r : option nat) : K Z :=
  match r with
  | None => end_op ;; mret (-1)
  | Some ip => iunlockput ip ;; end_op ;; mret 0
  end.

Definition sys_mkdir : K Z :=
  begin_op ;;
  path ← argstr 0;
  r ← match path with None => mret None | Some path => create path T_DIR 0 0 end;
  made r.

Definition sys_mknod : K Z :=
  begin_op ;;
  path ← argstr 0;
  r ← match path with
      | None => mret None
      | Some path =>
        major ← argint 1;
        match major with
        | None => mret None
        | Some major =>
          minor ← argint 2;
          match minor with
          | None => mret None
          | Some minor => create path T_DEV (s16 major) (s16 minor)
          end
        end
      end;
  made r.

Definition sys_chdir : K Z :=
  begin_op ;;
  path ← argstr 0;
  r ← match path with None => mret None | Some path => namei path end;
  match r with
  | None => end_op ;; mret (-1)
  | Some ip =>
    ilock (Some ip) ;;
    x ← get_inode ip;
    if negb (i_type x =? T_DIR) then iunlockput ip ;; end_op ;; mret (-1) else
    iunlock (Some ip) ;;
    c ← curproc;
    p ← get_proc c;
    cwd ← deref (p_cwd p);
    iput cwd ;;
    end_op ;;
    upd_proc c (set_p_cwd (Some ip)) ;;
    mret 0
  end.

(** [for(i=0;; i++)] of sys_exec(): at most NELEM(argv) = MAXARG arguments; [None] is a
    return of -1. *)
Fixpoint exec_argv (n : nat) (uargv : Z) (i : Z) : K (option (list (list Z))) :=
  match n with
  | O => mret None
  | S n =>
    r ← fetchint (u32 (uargv + 4 * i));
    match r with
    | None => mret None
    | Some uarg =>
      if uarg =? 0 then mret (Some []) else
      s ← fetchstr (u32 uarg);
      match s with
      | None => mret None
      | Some s =>
        l ← exec_argv n uargv (i + 1);
        mret (cons s <$> l)
      end
    end
  end.

Definition sys_exec : K Z :=
  path ← argstr 0;
  match path with
  | None => mret (-1)
  | Some path =>
    uargv ← argint 1;
    match uargv with
    | None => mret (-1)
    | Some uargv =>
      argv ← exec_argv (Z.to_nat MAXARG) (u32 uargv) 0;
      match argv with
      | None => mret (-1)
      | Some argv => exec path argv
      end
    end
  end.

Definition sys_pipe : K Z :=
  fd ← argptr 0 8;
  match fd with
  | None => mret (-1)
  | Some fd =>
    '(r, ends) ← pipealloc;
    if r <? 0 then mret (-1) else
    '(rf, wf) ← deref ends;
    fd0 ← fdalloc rf;
    if fd0 <? 0 then fileclose rf ;; fileclose wf ;; mret (-1) else
    fd1 ← fdalloc wf;
    if fd1 <? 0 then set_ofile fd0 None ;; fileclose rf ;; fileclose wf ;; mret (-1) else
    ustore fd fd0 ;;
    ustore (u32 (fd + 4)) fd1 ;;
    mret 0
  end.

(** ** The table *)

Definition syscalls (junk num : Z) : option (K Z) :=
  match num with
  | 1 => Some (sys_fork junk)
  | 2 => Some sys_exit
  | 3 => Some sys_wait
  | 4 => Some sys_pipe
  | 5 => Some sys_read
  | 6 => Some sys_kill
  | 7 => Some sys_exec
  | 8 => Some sys_fstat
  | 9 => Some sys_chdir
  | 10 => Some sys_dup
  | 11 => Some sys_getpid
  | 12 => Some sys_sbrk
  | 13 => Some sys_sleep
  | 14 => Some sys_uptime
  | 15 => Some sys_open
  | 16 => Some sys_write
  | 17 => Some sys_mknod
  | 18 => Some sys_unlink
  | 19 => Some sys_link
  | 20 => Some sys_mkdir
  | 21 => Some sys_close
  | _ => None
  end.

(** [junk] is what sys_fork()'s variable holds on the stack. *)
Definition syscall (junk : Z) : K unit :=
  c ← curproc;
  eax ← cur_tf TF_EAX;
  match syscalls junk (s32 eax) with
  | Some f =>
    r ← f;
    p ← get_proc c;
    tf_put (p_tf p) TF_EAX r
  | None =>
    p ← get_proc c;
    cprintf (Some (str "%d %s: unknown sys call %d" ++ [10]))
      [Aint (p_pid p); Astr (Some (cstring (p_name p))); Aint (s32 eax)] ;;
    tf_put (p_tf p) TF_EAX (-1)
  end.

End Sysfile.
