(* ===== verification/Trap.v ===== *)
(** * Trap: traps and interrupts (trap.c)

    trap() for a trap frame at address [tf]. What the devices deliver during the
    handler is an argument; acknowledging the interrupt at the local APIC changes
    nothing the kernel can see. *)

From S2P Require Import Prelude Machine CMem DiskFmt Mmu ConsOut Vm Umem Proc Bio Log Inode Kbd ConsIn Fs Pipe File ProcLife Exec Syscall Sysfile.
From stdpp Require Import options.

Definition T_SYSCALL : Z := 64.
Definition T_IRQ0 : Z := 32.
Definition IRQ_TIMER : Z := 0.
Definition IRQ_KBD : Z := 1.
Definition IRQ_COM1 : Z := 4.
Definition IRQ_IDE : Z := 14.
Definition IRQ_SPURIOUS : Z := 31.

(** The scan codes in the keyboard controller and kbdgetc()'s shift, the bytes in the
    serial port, %cr2, and the value of sys_fork()'s variable. *)
Record events := mkevents {
  ev_kbd : list Z;
  ev_shift : Z;
  ev_serial : list Z;
  ev_cr2 : Z;
  ev_junk : Z
}.

Section Trap.
Context {E : Env}.

Definition trap_killed : K bool :=
  c ← gets k_proc;
  match c with
  | None => mret false
  | Some c => p ← get_proc c; mret (negb (p_killed p =? 0))
  end.

Definition trap_syscall (tf : Z) (ev : events) : K unit :=
  c ← curproc;
  p ← get_proc c;
  when (negb (p_killed p =? 0)) exit ;;
  upd_proc c (set_p_tf tf) ;;
  syscall (ev_junk ev) ;;
  p ← get_proc c;
  when (negb (p_killed p =? 0)) exit.

(** The switch; the result is the new shift of the keyboard driver. The lapiceoi() that
    ends the device cases writes a register of the local APIC (Devices.v), which is not
    part of this state. *)
Definition trap_dispatch (tf : Z) (ev : events) : K Z :=
  trapno ← load (tf + TF_TRAPNO);
  cpu ← gets k_cpuid;
  eip ← load (tf + TF_EIP);
  cs ← tf_get16 tf TF_CS;
  if trapno =? T_IRQ0 + IRQ_TIMER then
    when (cpu =? 0)
      (acquire Ltickslock ;;
       modify (λ s, set_k_ticks (u32 (k_ticks s + 1)) s) ;;
       wakeup Cticks ;;
       release Ltickslock) ;;
    mret (ev_shift ev)
  else if trapno =? T_IRQ0 + IRQ_IDE then mem_ideintr ;; mret (ev_shift ev)
  else if trapno =? T_IRQ0 + IRQ_IDE + 1 then mret (ev_shift ev)
  else if trapno =? T_IRQ0 + IRQ_KBD then kbdintr (ev_shift ev) (ev_kbd ev)
  else if trapno =? T_IRQ0 + IRQ_COM1 then uartintr (ev_serial ev) ;; mret (ev_shift ev)
  else if (trapno =? T_IRQ0 + 7) || (trapno =? T_IRQ0 + IRQ_SPURIOUS) then
    cprintf (Some (str "cpu%d: spurious interrupt at %x:%x" ++ [10])) [Aint cpu; Aint cs; Aint eip] ;;
    mret (ev_shift ev)
  else
    c ← gets k_proc;
    match c with
    | Some c =>
      if Z.land cs 3 =? 0 then
        cprintf (Some (str "unexpected trap %d from cpu %d eip %x (cr2=0x%x)" ++ [10]))
          [Aint trapno; Aint cpu; Aint eip; Aint (ev_cr2 ev)] ;;
        panic "trap"
      else
        p ← get_proc c;
        err ← load (tf + TF_ERR);
        cprintf (Some (str "pid %d %s: trap %d err %d on cpu %d eip 0x%x addr 0x%x--kill proc" ++ [10]))
          [Aint (p_pid p); Astr (Some (cstring (p_name p))); Aint trapno; Aint err; Aint cpu; Aint eip;
           Aint (ev_cr2 ev)] ;;
        upd_proc c (set_p_killed 1) ;;
        mret (ev_shift ev)
    | None =>
      cprintf (Some (str "unexpected trap %d from cpu %d eip %x (cr2=0x%x)" ++ [10]))
        [Aint trapno; Aint cpu; Aint eip; Aint (ev_cr2 ev)] ;;
      panic "trap"
    end.

Definition trap (tf : Z) (ev : events) : K Z :=
  trapno ← load (tf + TF_TRAPNO);
  if trapno =? T_SYSCALL then trap_syscall tf ev ;; mret (ev_shift ev) else
  shift ← trap_dispatch tf ev;
  cs ← tf_get16 tf TF_CS;
  k ← trap_killed;
  when (k && (Z.land cs 3 =? DPL_USER)) exit ;;
  c ← gets k_proc;
  run ← match c with None => mret false | Some c => p ← get_proc c; mret (state_eqb (p_state p) RUNNING) end;
  when (run && (trapno =? T_IRQ0 + IRQ_TIMER)) yield ;;
  k ← trap_killed;
  when (k && (Z.land cs 3 =? DPL_USER)) exit ;;
  mret shift.

End Trap.
