(* ===== verification/Umalloc.v ===== *)
(** * Umalloc: the user-level allocator (umalloc.c)

    The state is the process's memory at the granularity of a [Header], the variable
    [freep] and the process size, which sbrk() moves. [base] is the address of the static
    header of that name. A header outside the process is a [Fault]. The free list is
    circular and the searches start at [freep]; they take as many rounds as twice the
    headers ever written, and [hang] beyond.

    [heap] is the allocator's invariant: the free list runs through [base] and the free
    blocks in the order of their addresses, no two of them touch, and the blocks that were
    handed out are apart from them and from each other. malloc() and free() preserve it. *)

From S2P Require Import Prelude Machine Mmu.
From stdpp Require Import options.

Record header := mkheader { h_ptr : Z; h_size : Z }.
Record uheap := mkuheap { u_mem : gmap Z header; u_freep : Z; u_brk : Z }.

Definition set_freep (v : Z) (s : uheap) : uheap := mkuheap (u_mem s) v (u_brk s).
Definition set_brk (v : Z) (s : uheap) : uheap := mkuheap (u_mem s) (u_freep s) v.

Definition header_at (s : uheap) (a : Z) : header := default (mkheader 0 0) (u_mem s !! a).
Definition put_header (a : Z) (h : header) (s : uheap) : uheap := mkuheap (<[a := h]> (u_mem s)) (u_freep s) (u_brk s).

Section Malloc.
(** Where [base] is, and whether the kernel has the pages to grow from one size to
    another. *)
Context (base : Z) (pages : Z → Z → bool).

Definition hget (a : Z) : M uheap header := s ← gets id; if a + 8 <=? u_brk s then mret (header_at s a) else fault.
Definition hset_ptr (a v : Z) : M uheap unit := h ← hget a; modify (put_header a (mkheader v (h_size h))).
Definition hset_size (a v : Z) : M uheap unit := h ← hget a; modify (put_header a (mkheader (h_ptr h) v)).
Definition freep : M uheap Z := gets u_freep.

(** The system call: growproc() and the checks of allocuvm() and deallocuvm(). *)
Definition sbrk (n : Z) : M uheap Z :=
  sz ← gets u_brk;
  let newsz := u32 (sz + n) in
  if n >? 0 then
    if newsz >=? KERNBASE then mret (-1) else
    if newsz <? sz then mret sz else
    if pages sz newsz then modify (set_brk newsz) ;; mret sz else mret (-1)
  else if n <? 0 then
    let sz' := if newsz >=? sz then sz else newsz in
    if sz' =? 0 then mret (-1) else modify (set_brk sz') ;; mret sz
  else mret sz.

Definition rounds : M uheap nat := gets (λ s, (2 * size (u_mem s) + 8)%nat).

(** The header after which [bp] goes. *)
Definition free_body (bp p : Z) : M uheap (Z + Z) :=
  h ← hget p;
  if (bp >? p) && (bp <? h_ptr h) then mret (inr p) else
  if (p >=? h_ptr h) && ((bp >? p) || (bp <? h_ptr h)) then mret (inr p) else
  mret (inl (h_ptr h)).

(** Join [bp] to the block above, or link it before that. *)
Definition free_up (bp p : Z) : M uheap unit :=
  h ← hget p;
  b ← hget bp;
  if u32 (bp + 8 * h_size b) =? h_ptr h then
    n ← hget (h_ptr h);
    hset_size bp (u32 (h_size b + h_size n)) ;;
    n ← hget (h_ptr h);
    hset_ptr bp (h_ptr n)
  else hset_ptr bp (h_ptr h).

(** Join the block below to [bp], or link [bp] after that. *)
Definition free_down (bp p : Z) : M uheap unit :=
  h ← hget p;
  if u32 (p + 8 * h_size h) =? bp then
    b ← hget bp;
    hset_size p (u32 (h_size h + h_size b)) ;;
    b ← hget bp;
    hset_ptr p (h_ptr b)
  else hset_ptr p bp.

Definition free (ap : Z) : M uheap unit :=
  let bp := u32 (ap - 8) in
  p0 ← freep;
  fuel ← rounds;
  p ← loop fuel (free_body bp) p0;
  free_up bp p ;;
  free_down bp p ;;
  modify (set_freep p).

Definition morecore (nu : Z) : M uheap Z :=
  let nu := if nu <? 4096 then 4096 else nu in
  p ← sbrk (s32 (u32 (nu * 8)));
  if p =? -1 then mret 0 else
  hset_size p nu ;;
  free (p + 8) ;;
  freep.

Definition nunits (nbytes : Z) : Z := u32 (nbytes + 8 - 1) / 8 + 1.

(** The variables [prevp] and [p]; the result is the pointer returned. *)
Definition malloc_body (nunits : Z) : Z * Z → M uheap (Z * Z + Z) := λ '(prevp, p),
  h ← hget p;
  if h_size h >=? nunits then
    (if h_size h =? nunits then hset_ptr prevp (h_ptr h) ;; modify (set_freep prevp) ;; mret (inr (p + 8)) else
     hset_size p (u32 (h_size h - nunits)) ;;
     let p := u32 (p + 8 * (h_size h - nunits)) in
     hset_size p nunits ;;
     modify (set_freep prevp) ;;
     mret (inr (p + 8)))
  else
  f ← freep;
  if p =? f then
    p ← morecore nunits;
    if p =? 0 then mret (inr 0) else
    h ← hget p;
    mret (inl (p, h_ptr h))
  else mret (inl (p, h_ptr h)).

Definition malloc (nbytes : Z) : M uheap Z :=
  f ← freep;
  when (f =? 0) (modify (set_freep base) ;; hset_ptr base base ;; hset_size base 0) ;;
  prevp ← freep;
  h ← hget prevp;
  fuel ← rounds;
  loop fuel (malloc_body (nunits nbytes)) (prevp, h_ptr h).

End Malloc.

(** ** Paths of pointers *)

Definition ptr (m : gmap Z header) (a : Z) : option Z := h_ptr <$> m !! a.
Definition hsz (m : gmap Z header) (a : Z) : option Z := h_size <$> m !! a.

(** The headers after [x] are [l], in this order. *)
Fixpoint links (m : gmap Z header) (x : Z) (l : list Z) : Prop :=
  match l with [] => True | a :: l => ptr m x = Some a ∧ links m a l end.
Fixpoint lastz (x : Z) (l : list Z) : Z := match l with [] => x | a :: l => lastz a l end.

Lemma lastz_app x l1 l2 : lastz x (l1 ++ l2) = lastz (lastz x l1) l2.
Proof. revert x. by induction l1 as [|a l1 IH]; intros x; cbn. Qed.

Lemma lastz_in x l : lastz x l ∈ x :: l.
Proof. revert x. induction l as [|a l IH]; intros x; cbn; [set_solver|]. specialize (IH a). set_solver. Qed.

Lemma links_app m x l1 l2 : links m x (l1 ++ l2) ↔ links m x l1 ∧ links m (lastz x l1) l2.
Proof. revert x. induction l1 as [|a l1 IH]; intros x; cbn; [tauto|]. rewrite IH. tauto. Qed.

(** A path depends on the pointers of its headers only. *)
Lemma links_move m m' x x' l y :
  ptr m' x' = ptr m x → (∀ a, a ∈ l → ptr m' a = ptr m a) → links m x (l ++ [y]) → links m' x' (l ++ [y]).
Proof.
  revert x x'. induction l as [|a l IH]; intros x x' Hx Ha; cbn; rewrite Hx; [done|]. intros [? ?]. split; [done|].
  apply (IH a a); [apply Ha; set_solver|intros; apply Ha; set_solver|done].
Qed.

Lemma links_frame m m' x l :
  (∀ a, a ∈ x :: l → a ≠ lastz x l → ptr m' a = ptr m a) → NoDup (x :: l) → links m x l → links m' x l.
Proof.
  intros Ha Hnd Hp. destruct (decide (l = [])) as [->|Hl]; [done|].
  destruct (exists_last Hl) as (k & y & ->). rewrite lastz_app in Ha. cbn in Ha.
  rewrite app_comm_cons in Hnd. apply NoDup_app in Hnd as (_ & Hy & _).
  apply (links_move m m' x x k y); [apply Ha; [set_solver|]|intros a Hin; apply Ha; [set_solver|]|done];
    intros ->; apply (Hy y); set_solver.
Qed.

(** ** Blocks in the order of their addresses *)

Fixpoint inc (lo : Z) (l : list (Z * Z)) : Prop :=
  match l with [] => True | (a, n) :: l => lo < a ∧ 1 <= n ∧ inc (a + 8 * n) l end.
Fixpoint fin (lo : Z) (l : list (Z * Z)) : Z := match l with [] => lo | (a, n) :: l => fin (a + 8 * n) l end.

Lemma inc_app lo l1 l2 : inc lo (l1 ++ l2) ↔ inc lo l1 ∧ inc (fin lo l1) l2.
Proof. revert lo. induction l1 as [|[a n] l1 IH]; intros lo; cbn; [tauto|]. rewrite IH. tauto. Qed.
Lemma fin_app lo l1 l2 : fin lo (l1 ++ l2) = fin (fin lo l1) l2.
Proof. revert lo. by induction l1 as [|[a n] l1 IH]; intros lo; cbn. Qed.
Lemma inc_fin lo l : inc lo l → lo <= fin lo l.
Proof. revert lo. induction l as [|[a n] l IH]; intros lo; cbn; [lia|]. intros (? & ? & H%IH). lia. Qed.
Lemma inc_weaken lo lo' l : inc lo l → lo' <= lo → inc lo' l.
Proof. destruct l as [|[a n] l]; cbn; [done|]. intros (? & ? & ?) ?. split_and!; try done. lia. Qed.

Lemma inc_in lo l a n : inc lo l → (a, n) ∈ l → lo < a ∧ 1 <= n ∧ a + 8 * n <= fin lo l.
Proof.
  revert lo. induction l as [|[b k] l IH]; intros lo; cbn; [set_solver|]. intros (H1 & H2 & H3) Hin.
  pose proof (inc_fin _ _ H3). apply elem_of_cons in Hin as [[= -> ->]|Hin]; [lia|]. specialize (IH _ H3 Hin). lia.
Qed.

Lemma inc_in_addr lo l a : inc lo l → a ∈ l.*1 → lo < a < fin lo l.
Proof. intros H ([? n] & -> & Hin)%list_elem_of_fmap. cbn. pose proof (inc_in _ _ _ _ H Hin). lia. Qed.

Lemma inc_nodup lo l : inc lo l → NoDup l.*1.
Proof.
  revert lo. induction l as [|[a n] l IH]; intros lo; cbn; [constructor|]. intros (? & ? & H). apply NoDup_cons.
  split; [|by eapply IH]. intros Hin%(inc_in_addr _ _ _ H). lia.
Qed.

(** The headers in a list of blocks. *)
Fixpoint units (l : list (Z * Z)) : Z := match l with [] => 0 | (_, n) :: l => n + units l end.
Lemma units_app l1 l2 : units (l1 ++ l2) = units l1 + units l2.
Proof. induction l1 as [|[a n] l1 IH]; cbn; [done|]. rewrite IH. lia. Qed.

Definition apart (b c : Z * Z) : Prop := b.1 + 8 * b.2 <= c.1 ∨ c.1 + 8 * c.2 <= b.1.

(** Where a block goes among the others. *)
Lemma inc_place lo l a n :
  inc lo l → lo < a → 1 <= n → (∀ c, c ∈ l → apart (a, n) c) →
  ∃ l1 l2, l = l1 ++ l2 ∧ fin lo l1 <= a ∧ inc (a + 8 * n - 1) l2.
Proof.
  revert lo. induction l as [|[b k] l IH]; intros lo; cbn; intros Hi Ha Hn Hap.
  - exists [], []. cbn. split_and!; try done. lia.
  - destruct Hi as (H1 & H2 & H3). destruct (Hap (b, k)) as [H|H]; [set_solver|..]; cbn in H.
    + exists [], ((b, k) :: l). cbn. split_and!; try done; lia.
    + destruct (decide (a = b + 8 * k)) as [->|].
      * exists [(b, k)], l. cbn. split; [done|]. split; [lia|]. destruct l as [|[c j] l]; [done|]. cbn in *.
        destruct H3 as (? & ? & ?). destruct (Hap (c, j)) as [Hc|Hc]; [set_solver|..]; cbn in Hc; [split_and!; try done; lia|lia].
      * destruct (IH _ H3) as (l1 & l2 & -> & Hf & Hl2); [lia|done|intros; apply Hap; set_solver|].
        by exists ((b, k) :: l1), l2.
Qed.

(** ** The heap *)

Section Heap.
Context (base : Z).

(** [F] are the free blocks and [A] the blocks in use, each with its size in headers,
    its own header included. *)
Record heap (s : uheap) (F : list (Z * Z)) (A : gmap Z Z) : Prop := {
  hp_base : 0 < base;
  hp_brk : base + 8 <= u_brk s <= KERNBASE;
  hp_ring : links (u_mem s) base (F.*1 ++ [base]);
  hp_zero : hsz (u_mem s) base = Some 0;
  hp_size a n : (a, n) ∈ F → hsz (u_mem s) a = Some n;
  hp_inc : inc (base + 7) F;
  hp_fin : fin (base + 7) F <= u_brk s;
  hp_freep : u_freep s ∈ base :: F.*1;
  hp_used a n : A !! a = Some n → base + 8 <= a ∧ 1 <= n ∧ a + 8 * n <= u_brk s ∧ hsz (u_mem s) a = Some n;
  hp_apart a n c : A !! a = Some n → c ∈ F → apart (a, n) c;
  hp_disj a n b k : A !! a = Some n → A !! b = Some k → a ≠ b → apart (a, n) (b, k)
}.

Lemma hget_ok s a : a + 8 <= u_brk s → hget a s = Ok (header_at s a) s.
Proof. intros H. unfold hget, gets, mbind, M_bind, id. by rewrite (proj2 (Z.leb_le _ _)) by done. Qed.

Lemma hset_ptr_ok s a v : a + 8 <= u_brk s → hset_ptr a v s = Ok tt (put_header a (mkheader v (h_size (header_at s a))) s).
Proof. intros H. unfold hset_ptr. by rewrite (bind_Ok _ _ _ _ _ (hget_ok s a H)). Qed.
Lemma hset_size_ok s a v : a + 8 <= u_brk s → hset_size a v s = Ok tt (put_header a (mkheader (h_ptr (header_at s a)) v) s).
Proof. intros H. unfold hset_size. by rewrite (bind_Ok _ _ _ _ _ (hget_ok s a H)). Qed.

Lemma ptr_at s a v : ptr (u_mem s) a = Some v → h_ptr (header_at s a) = v.
Proof. unfold ptr, header_at. by destruct (u_mem s !! a); cbn; intros [=]. Qed.
Lemma hsz_at s a v : hsz (u_mem s) a = Some v → h_size (header_at s a) = v.
Proof. unfold hsz, header_at. by destruct (u_mem s !! a); cbn; intros [=]. Qed.

Lemma node_split (F : list (Z * Z)) a : a ∈ base :: F.*1 → ∃ j1 j2, F = j1 ++ j2 ∧ a = lastz base j1.*1.
Proof.
  intros [->|H]%elem_of_cons; [by exists [], F|]. apply list_elem_of_fmap in H as ([b n] & -> & Hin).
  apply list_elem_of_split in Hin as (l1 & l2 & ->). exists (l1 ++ [(b, n)]), l2. rewrite <- (assoc_L (++)). split; [done|].
  by rewrite fmap_app, lastz_app.
Qed.

Lemma lastz_fin (l : list (Z * Z)) : inc (base + 7) l → lastz base l.*1 < fin (base + 7) l.
Proof.
  destruct (decide (l = [])) as [->|Hl]; [cbn; lia|]. destruct (exists_last Hl) as (k & [y n] & ->).
  rewrite inc_app, fmap_app, lastz_app, fin_app. cbn. lia.
Qed.

Lemma ring_from m (F j1 j2 : list (Z * Z)) :
  links m base (F.*1 ++ [base]) → F = j1 ++ j2 → links m (lastz base j1.*1) (j2.*1 ++ base :: j1.*1).
Proof.
  intros Hr ->. rewrite fmap_app, <- (assoc_L (++)), links_app in Hr. destruct Hr as [H1 H2].
  change (base :: j1.*1) with ([base] ++ j1.*1). rewrite (assoc_L (++)), links_app, lastz_app. done.
Qed.

Lemma ring_next m (F j1 j2 : list (Z * Z)) :
  links m base (F.*1 ++ [base]) → F = j1 ++ j2 → ptr m (lastz base j1.*1) = Some (hd base j2.*1).
Proof. intros Hr HF. pose proof (ring_from _ _ _ _ Hr HF) as H. destruct j2 as [|[b n] j2]; apply H. Qed.

(** Where the search of free() stops. *)
Definition stopb (bp p next : Z) : bool := (bp >? p) && (bp <? next) || (p >=? next) && ((bp >? p) || (bp <? next)).

Lemma free_body_eq s bp p next :
  p + 8 <= u_brk s → ptr (u_mem s) p = Some next → free_body bp p s = Ok (if stopb bp p next then inr p else inl next) s.
Proof.
  intros Hp Hn. unfold free_body. rewrite (bind_Ok _ _ _ _ _ (hget_ok s p Hp)), (ptr_at _ _ _ Hn). unfold stopb.
  destruct (_ && (bp <? next)); [done|]. by destruct (_ && (_ || _)).
Qed.

Lemma stop_at bp n (l1 l2 : list (Z * Z)) :
  inc (base + 7) l1 → fin (base + 7) l1 <= bp → 1 <= n → inc (bp + 8 * n - 1) l2 →
  stopb bp (lastz base l1.*1) (hd base l2.*1) = true.
Proof.
  intros H1 H2 Hn H3. pose proof (lastz_fin _ H1). unfold stopb. rewrite !Z.gtb_ltb, !Z.geb_leb.
  destruct l2 as [|[b k] l2]; cbn in *; [|rewrite !(proj2 (Z.ltb_lt _ _)) by lia; done].
  apply orb_true_iff. right. apply andb_true_iff. split; [|apply orb_true_iff; left; apply Z.ltb_lt; lia].
  apply Z.leb_le. pose proof (lastz_in base l1.*1) as [->|Hin]%elem_of_cons; [lia|]. apply (inc_in_addr _ _ _ H1) in Hin. lia.
Qed.

Lemma stop_else bp n (l1 l2 j1 j2 : list (Z * Z)) :
  inc (base + 7) (l1 ++ l2) → fin (base + 7) l1 <= bp → 1 <= n → inc (bp + 8 * n - 1) l2 → l1 ++ l2 = j1 ++ j2 →
  lastz base j1.*1 ≠ lastz base l1.*1 → stopb bp (lastz base j1.*1) (hd base j2.*1) = false.
Proof.
  intros Hi H2 Hn H3 Heq Hne. assert (base < bp) as Hb by (apply inc_app in Hi as [Hi _]; pose proof (inc_fin _ _ Hi); lia).
  apply app_eq_inv in Heq as [(k & -> & ->)|(k & -> & ->)]; rewrite fmap_app, lastz_app in Hne;
    (destruct k as [|[c i] k]; [done|]); unfold stopb; rewrite !Z.gtb_ltb, !Z.geb_leb.
  - rewrite <- (assoc_L (++)), inc_app in Hi. destruct Hi as [Hi1 Hi2]. pose proof (lastz_fin _ Hi1).
    rewrite fin_app in H2. cbn in *. destruct Hi2 as (? & ? & Hi2). apply inc_app in Hi2 as [Hi2 _]. pose proof (inc_fin _ _ Hi2).
    rewrite (proj2 (Z.ltb_ge bp c)), (proj2 (Z.leb_gt c _)) by lia. by rewrite andb_false_r.
  - rewrite fmap_app, lastz_app. rewrite inc_app in H3. destruct H3 as [H3 H4]. set (p := lastz _ ((c, i) :: k).*1).
    assert (bp < p ∧ p < fin (bp + 8 * n - 1) ((c, i) :: k)) as [Hp Hpf].
    { assert (p ∈ ((c, i) :: k).*1) as Hin by (unfold p; cbn; apply lastz_in). pose proof (inc_in_addr _ _ _ H3 Hin). lia. }
    rewrite (proj2 (Z.ltb_ge p bp)) by lia. cbn [andb orb]. destruct j2 as [|[b q] j2]; cbn [hd fmap list_fmap fst] in *.
    + rewrite (proj2 (Z.ltb_ge bp base)) by lia. apply andb_false_r.
    + destruct H4 as [? _]. by rewrite (proj2 (Z.leb_gt b p)) by lia.
Qed.

Lemma free_loop s bp y l : ∀ fuel x,
  links (u_mem s) x l → y ∈ x :: l →
  (∀ a, a ∈ x :: l → a + 8 <= u_brk s ∧ ∃ next, ptr (u_mem s) a = Some next ∧ stopb bp a next = bool_decide (a = y)) →
  (length l < fuel)%nat → loop fuel (free_body bp) x s = Ok y s.
Proof.
  induction l as [|b l IH]; intros fuel x Hp Hy Ha Hf; (destruct fuel as [|fuel]; [cbn in Hf; lia|]); cbn [loop];
    destruct (Ha x) as (Hb & next & Hn & Hs); try set_solver; rewrite (bind_Ok _ _ _ _ _ (free_body_eq s bp x next Hb Hn)), Hs.
  - rewrite bool_decide_eq_true_2 by set_solver. by replace y with x by set_solver.
  - case_bool_decide as Hxy; [by subst|]. destruct Hp as [Hp1 Hp2]. rewrite Hp1 in Hn. injection Hn as [= <-].
    apply IH; [done|set_solver| |cbn in Hf; lia]. intros a Hin. apply Ha. set_solver.
Qed.

Section Inv.
Context (s : uheap) (F : list (Z * Z)) (A : gmap Z Z) (H : heap s F A).

Lemma node_bound a : a ∈ base :: F.*1 → 0 < a ∧ a + 8 <= u_brk s.
Proof using H.
  pose proof (hp_base _ _ _ H). pose proof (hp_brk _ _ _ H). pose proof (hp_fin _ _ _ H).
  intros [->|([? n] & -> & Hin)%list_elem_of_fmap]%elem_of_cons; [lia|]. cbn.
  pose proof (inc_in _ _ _ _ (hp_inc _ _ _ H) Hin). lia.
Qed.

Lemma node_nodup : NoDup (base :: F.*1).
Proof using H.
  apply NoDup_cons. split; [|eapply inc_nodup, H]. intros Hin%(inc_in_addr _ _ _ (hp_inc _ _ _ H)). lia.
Qed.

Lemma node_ptr a : a ∈ base :: F.*1 → is_Some (u_mem s !! a).
Proof using H.
  intros (j1 & j2 & HF & ->)%node_split. pose proof (ring_next _ _ _ _ (hp_ring _ _ _ H) HF) as Hn.
  unfold ptr in Hn. by destruct (u_mem s !! _).
Qed.

Lemma node_count : (length F < size (u_mem s))%nat.
Proof using H.
  assert (size (list_to_set (C := gset Z) (base :: F.*1)) <= size (dom (u_mem s)))%nat as Hsz.
  { apply subseteq_size. intros a Ha%elem_of_list_to_set. by apply elem_of_dom, node_ptr. }
  rewrite size_list_to_set, size_dom in Hsz by apply node_nodup. cbn in Hsz. rewrite length_fmap in Hsz. lia.
Qed.

(** From any header the whole list can be reached, in as many steps as it has headers. *)
Lemma ring_walk x : x ∈ base :: F.*1 → ∃ l, links (u_mem s) x (l ++ [x]) ∧ NoDup (l ++ [x]) ∧
  (∀ a, a ∈ l ++ [x] ↔ a ∈ base :: F.*1) ∧ length l = length F.
Proof using H.
  intros (j1 & j2 & HF & ->)%node_split. pose proof (ring_from _ _ _ _ (hp_ring _ _ _ H) HF) as Hp. pose proof node_nodup as Hnd.
  assert (j2.*1 ++ base :: j1.*1 ≡ₚ base :: F.*1) as Hperm by (rewrite HF, fmap_app; solve_Permutation).
  destruct (exists_last (l := j2.*1 ++ base :: j1.*1)) as (l & y & Hl); [by destruct j2|].
  assert (y = lastz base j1.*1) as ->.
  { pose proof (lastz_app base (j2.*1) (base :: j1.*1)) as E. rewrite Hl, lastz_app in E. done. }
  exists l. rewrite <- Hl. split_and!; try done; [by rewrite Hperm|intros a; by rewrite Hperm|].
  apply Permutation_length in Hperm. rewrite Hl, length_app in Hperm. cbn in Hperm. rewrite length_fmap in Hperm. lia.
Qed.

Lemma free_search bp n l1 l2 fuel :
  F = l1 ++ l2 → fin (base + 7) l1 <= bp → 1 <= n → inc (bp + 8 * n - 1) l2 → (size (u_mem s) < fuel)%nat →
  loop fuel (free_body bp) (u_freep s) s = Ok (lastz base l1.*1) s.
Proof using H.
  intros HF H1 Hn H2 Hf. pose proof node_count. destruct (ring_walk _ (hp_freep _ _ _ H)) as (l & Hp & _ & Hall & Hlen).
  apply free_loop with (l ++ [u_freep s]); [done|..].
  - apply elem_of_cons. right. apply Hall. rewrite HF, fmap_app. pose proof (lastz_in base l1.*1). set_solver.
  - intros a Hin. assert (a ∈ base :: F.*1) as Ha.
    { apply elem_of_cons in Hin as [->|Hin]; [apply H|by apply Hall]. }
    split; [by apply node_bound|]. destruct (node_split _ _ Ha) as (j1 & j2 & HF' & ->).
    exists (hd base j2.*1). split; [apply (ring_next _ F); [apply H|done]|]. pose proof (hp_inc _ _ _ H) as Hi. rewrite HF in Hi.
    case_bool_decide as Heq.
    + pose proof (ring_next _ _ _ _ (hp_ring _ _ _ H) HF') as E1. rewrite Heq, (ring_next _ _ _ _ (hp_ring _ _ _ H) HF) in E1.
      injection E1 as [= <-]. rewrite Heq. apply inc_app in Hi as [Hi _]. by eapply stop_at.
    + eapply (stop_else bp n l1 l2 j1 j2); try done. by rewrite <- HF, <- HF'.
  - rewrite length_app. cbn. lia.
Qed.

Section Free.
Context (bp n : Z) (l1 l2 : list (Z * Z)).
Context (Hbp : A !! bp = Some n) (HF : F = l1 ++ l2) (Hlo : fin (base + 7) l1 <= bp) (Hhi : inc (bp + 8 * n - 1) l2).

(** The block above is joined exactly when it touches. *)
Lemma free_up_spec : ∃ k l3,
  free_up bp (lastz base l1.*1) s = Ok tt (put_header bp (mkheader (hd base l3.*1) k) s) ∧
  k + units l3 = n + units l2 ∧ n <= k ∧ inc (bp + 8 * k) l3 ∧ fin (bp + 8 * k) l3 <= u_brk s ∧ (∀ c, c ∈ l3 → c ∈ l2) ∧ (length l3 <= length l2)%nat ∧
  (∀ m x, ptr m x = Some (hd base l3.*1) → (∀ a, a ∈ l3.*1 → ptr m a = ptr (u_mem s) a) → links m x (l3.*1 ++ [base])) ∧
  (∀ b, 1 <= b.2 → apart b (bp, n) → (∀ c, c ∈ l2 → apart b c) → apart b (bp, k)).
Proof using H Hbp HF Hlo Hhi.
  destruct (hp_used _ _ _ H _ _ Hbp) as (Hb1 & Hb2 & Hb3 & Hb4). pose proof (hp_brk _ _ _ H) as Hbrk. unfold KERNBASE in Hbrk.
  pose proof (hp_base _ _ _ H) as Hbase. assert (lastz base l1.*1 ∈ base :: F.*1) as Hp by (rewrite HF, fmap_app; pose proof (lastz_in base l1.*1); set_solver).
  unfold free_up. rewrite (bind_Ok _ _ _ _ _ (hget_ok s _ (proj2 (node_bound _ Hp)))).
  rewrite (bind_Ok _ _ _ _ _ (hget_ok s bp ltac:(lia))), (hsz_at _ _ _ Hb4).
  rewrite (ptr_at _ _ _ (ring_next _ _ _ _ (hp_ring _ _ _ H) HF)), u32_small by (unfold is_u32; lia).
  pose proof (ring_from _ _ _ _ (hp_ring _ _ _ H) HF) as Hr. change (base :: l1.*1) with ([base] ++ l1.*1) in Hr.
  rewrite (assoc_L (++)), links_app in Hr. destruct Hr as [Hr _].
  pose proof (hp_fin _ _ _ H) as Hfin. rewrite HF, fin_app in Hfin.
  destruct (Z.eqb_spec (bp + 8 * n) (hd base l2.*1)) as [E|E].
  - destruct l2 as [|[c j] l3]; cbn [hd fmap list_fmap fst] in *; [lia|]. subst c. destruct Hhi as (_ & Hj & Hi3). cbn [fin] in Hfin.
    pose proof (inc_fin _ _ Hi3). assert (bp + 8 * n + 8 <= u_brk s) as Hc by lia. cbn in Hr. destruct Hr as [_ Hr].
    rewrite (bind_Ok _ _ _ _ _ (hget_ok s _ Hc)), (hsz_at s (bp + 8 * n) j) by (apply H; rewrite HF; set_solver).
    rewrite u32_small by (unfold is_u32; lia). rewrite (bind_Ok _ _ _ _ _ (hset_size_ok s bp (n + j) ltac:(lia))).
    set (s1 := put_header bp _ s). rewrite (bind_Ok _ _ _ _ _ (hget_ok s1 (bp + 8 * n) Hc)), hset_ptr_ok by (cbn; lia).
    exists (n + j), l3. split_and!; try (cbn; lia); try set_solver.
    + f_equal. unfold s1, put_header, header_at. cbn. rewrite insert_insert_eq, lookup_insert_eq, lookup_insert_ne by lia. cbn.
      do 3 f_equal. apply ptr_at. destruct l3 as [|[d i] l3]; apply Hr.
    + by replace (bp + 8 * (n + j)) with (bp + 8 * n + 8 * j) by lia.
    + by replace (bp + 8 * (n + j)) with (bp + 8 * n + 8 * j) by lia.
    + intros m x Hx Ha. eapply (links_move _ m (bp + 8 * n) x); [|done|exact Hr]. rewrite Hx. symmetry. destruct l3 as [|[d i] l3]; apply Hr.
    + intros b Hb2' Hb Hc2. pose proof (Hc2 (bp + 8 * n, j) ltac:(set_solver)) as Hc3. unfold apart in *. cbn in *. lia.
  - exists n, l2. rewrite hset_ptr_ok by lia. split_and!; try lia; try done.
    + by rewrite (hsz_at _ _ _ Hb4).
    + destruct l2 as [|[c j] l3]; cbn in *; [done|]. split_and!; try apply Hhi. lia.
    + destruct l2 as [|[c j] l3]; cbn in *; [lia|done].
    + intros m x Hx Ha. eapply (links_move _ m (lastz base l1.*1) x); [|done|exact Hr]. rewrite Hx. symmetry. by apply (ring_next _ F); [apply H|].
Qed.

Context (k : Z) (l3 : list (Z * Z)) (Hk : n <= k) (Hi3 : inc (bp + 8 * k) l3) (Hf3 : fin (bp + 8 * k) l3 <= u_brk s).
Context (Hsub : ∀ c, c ∈ l3 → c ∈ l2).
Context (Hpath : ∀ m x, ptr m x = Some (hd base l3.*1) → (∀ a, a ∈ l3.*1 → ptr m a = ptr (u_mem s) a) → links m x (l3.*1 ++ [base])).
Context (Hap : ∀ b, 1 <= b.2 → apart b (bp, n) → (∀ c, c ∈ l2 → apart b c) → apart b (bp, k)).

(** The list after the last link, whatever was joined. *)
Lemma heap_link v h F' K :
  let m := <[lastz base l1.*1 := h]> (<[bp := mkheader v k]> (u_mem s)) in
  links m (lastz base l1.*1) (K ++ [base]) → F'.*1 = l1.*1 ++ K →
  (∀ a i, (a, i) ∈ F' → hsz m a = Some i) → (l1 = [] → h_size h = 0) → inc (base + 7) F' → fin (base + 7) F' <= u_brk s →
  (∀ b, 1 <= b.2 → apart b (bp, k) → (∀ c, c ∈ F → apart b c) → ∀ c, c ∈ F' → apart b c) →
  heap (mkuheap m (lastz base l1.*1) (u_brk s)) F' (delete bp A).
Proof using All.
  intros m H1 H2 H3 H4 H5 H6 H7. destruct (hp_used _ _ _ H _ _ Hbp) as (Hb1 & Hb2 & Hb3 & Hb4).
  pose proof (hp_inc _ _ _ H) as Hi. rewrite HF, inc_app in Hi. destruct Hi as [Hi1 _].
  assert (∀ a, a ∈ base :: l1.*1 → a ≠ bp) as Hnbp.
  { intros a [->|Ha%(inc_in_addr _ _ _ Hi1)]%elem_of_cons; lia. }
  assert (lastz base l1.*1 ≠ bp) as Hpbp by (apply Hnbp, lastz_in).
  assert (∀ a, a ∈ F.*1 → (a, default 0 (hsz (u_mem s) a)) ∈ F) as HFin.
  { intros a ([? i] & -> & Hin)%list_elem_of_fmap. cbn [fst]. by rewrite (hp_size _ _ _ H _ _ Hin). }
  split; cbn [u_mem u_freep u_brk]; try apply H; try done.
  - rewrite H2, <- (assoc_L (++)), links_app. split; [|done].
    apply (links_frame (u_mem s)).
    + intros a Ha Hne. unfold m, ptr. rewrite !lookup_insert_ne; [done|..]; [by apply not_eq_sym, Hnbp|done].
    + pose proof node_nodup as Hnd. rewrite HF, fmap_app, app_comm_cons in Hnd. by apply NoDup_app in Hnd as [? _].
    + pose proof (hp_ring _ _ _ H) as Hr. rewrite HF, fmap_app, <- (assoc_L (++)), links_app in Hr. apply Hr.
  - unfold m, hsz. destruct (decide (lastz base l1.*1 = base)) as [E|E].
    + rewrite E, lookup_insert_eq. cbn. f_equal. apply H4. destruct l1 as [|[a i] l]; [done|exfalso].
      pose proof (lastz_in a l.*1) as Hin. cbn in E. rewrite E in Hin. apply (inc_in_addr _ ((a, i) :: l) _ Hi1) in Hin. lia.
    + rewrite !lookup_insert_ne by (lia || done). apply H.
  - rewrite H2. pose proof (lastz_in base l1.*1). set_solver.
  - intros a i Ha. apply lookup_delete_Some in Ha as [Hne Ha]. destruct (hp_used _ _ _ H _ _ Ha) as (? & ? & ? & Hsz). split_and!; try done.
    unfold m, hsz. rewrite !lookup_insert_ne; [done|done|]. intros E. pose proof (lastz_in base l1.*1) as Hin. rewrite E in Hin.
    apply elem_of_cons in Hin as [->|Hin]; [lia|]. assert (a ∈ F.*1) as HinF by (rewrite HF, fmap_app; set_solver).
    pose proof (hp_apart _ _ _ H _ _ _ Ha (HFin _ HinF)) as Hapt. rewrite Hsz in Hapt. unfold apart in Hapt. cbn in Hapt. lia.
  - intros a i c Ha Hc. apply lookup_delete_Some in Ha as [Hne Ha]. destruct (hp_used _ _ _ H _ _ Ha) as (_ & Hi' & _).
    apply H7; [done| |by intros; eapply hp_apart|done]. apply Hap; [done|by eapply hp_disj|]. intros c' Hc'. eapply (hp_apart _ _ _ H); [done|]. rewrite HF. set_solver.
  - intros a i b j Ha Hb. apply lookup_delete_Some in Ha as [_ Ha], Hb as [_ Hb]. by eapply hp_disj.
Qed.

(** The header below: [base], or the last free block before [bp]. *)
Lemma below : ∃ i, 0 <= i ∧ hsz (u_mem s) (lastz base l1.*1) = Some i ∧
  lastz base l1.*1 + 8 * i <= fin (base + 7) l1 <= Z.max (lastz base l1.*1 + 8 * i) (base + 7) ∧ (l1 = [] → i = 0) ∧
  (lastz base l1.*1 + 8 * i = bp → ∃ l, l1 = l ++ [(lastz base l1.*1, i)]).
Proof using All.
  pose proof (hp_inc _ _ _ H) as Hi. rewrite HF, inc_app in Hi. destruct Hi as [Hi1 _].
  destruct (hp_used _ _ _ H _ _ Hbp) as (Hb1 & _). destruct (decide (l1 = [])) as [E|E].
  - exists 0. rewrite E. cbn. split; [lia|]. split; [apply H|]. split; [lia|]. split; [done|lia].
  - destruct (exists_last E) as (l & [q i] & ->). apply inc_app in Hi1 as [_ Hi1]. cbn in Hi1.
    rewrite fmap_app, lastz_app, fin_app. cbn. exists i. split; [lia|]. split; [apply H; rewrite HF; set_solver|].
    split; [lia|]. split; [by destruct l|by exists l].
Qed.

Lemma above a : a ∈ l3.*1 → a ≠ lastz base l1.*1 ∧ a ≠ bp.
Proof using All.
  intros Ha%(inc_in_addr _ _ _ Hi3). destruct (hp_used _ _ _ H _ _ Hbp) as (_ & Hb & _).
  pose proof (hp_inc _ _ _ H) as Hi. rewrite HF, inc_app in Hi. destruct Hi as [Hi1%lastz_fin _]. lia.
Qed.

Lemma above_ptr h v a : a ∈ l3.*1 → ptr (<[lastz base l1.*1 := h]> (<[bp := v]> (u_mem s))) a = ptr (u_mem s) a.
Proof using All. intros [? ?]%above. unfold ptr. by rewrite !lookup_insert_ne by done. Qed.

Lemma above_size h v a i : (a, i) ∈ l3 → hsz (<[lastz base l1.*1 := h]> (<[bp := v]> (u_mem s))) a = Some i.
Proof using All.
  intros Hin. destruct (above a) as [? ?]; [apply list_elem_of_fmap; by exists (a, i)|]. unfold hsz.
  rewrite !lookup_insert_ne by done. apply H. rewrite HF. set_solver.
Qed.

Lemma heap_join l i :
  l1 = l ++ [(lastz base l1.*1, i)] → lastz base l1.*1 + 8 * i = bp →
  heap (mkuheap (<[lastz base l1.*1 := mkheader (hd base l3.*1) (i + k)]> (<[bp := mkheader (hd base l3.*1) k]> (u_mem s)))
          (lastz base l1.*1) (u_brk s)) (l ++ (lastz base l1.*1, i + k) :: l3) (delete bp A).
Proof using All.
  intros Hl E. pose proof (hp_inc _ _ _ H) as Hi. rewrite HF, inc_app in Hi. destruct Hi as [Hi1 _].
  destruct (hp_used _ _ _ H _ _ Hbp) as (_ & Hb & _). rewrite Hl, inc_app in Hi1. destruct Hi1 as (Hil & Hfl & Hi' & _). apply (heap_link _ _ _ (l3.*1)); set (p := lastz base l1.*1) in *.
  - apply Hpath; [unfold ptr; by rewrite lookup_insert_eq|intros a Ha; by apply above_ptr].
  - rewrite Hl, !fmap_app, <- (assoc_L (++)). done.
  - intros a j [Hin|[[= -> ->]|Hin]%elem_of_cons]%elem_of_app; [|unfold hsz; by rewrite lookup_insert_eq|by apply above_size].
    pose proof (inc_in _ _ _ _ Hil Hin). unfold hsz. rewrite !lookup_insert_ne by lia. apply H. rewrite HF, Hl. set_solver.
  - intros E'. rewrite E' in Hl. by destruct l.
  - rewrite inc_app. cbn. replace (p + 8 * (i + k)) with (bp + 8 * k) by lia. split_and!; try done. lia.
  - rewrite fin_app. cbn. by replace (p + 8 * (i + k)) with (bp + 8 * k) by lia.
  - intros b Hb0 Hb' Hc c [Hin|[->|Hin]%elem_of_cons]%elem_of_app; [apply Hc; rewrite HF, Hl; set_solver| |apply Hc; rewrite HF; set_solver].
    assert (apart b (p, i)) as Hc' by (apply Hc; rewrite HF, Hl; set_solver). unfold apart in *. cbn in *. lia.
Qed.

Lemma heap_insert i :
  hsz (u_mem s) (lastz base l1.*1) = Some i → (l1 = [] → i = 0) → fin (base + 7) l1 < bp →
  heap (mkuheap (<[lastz base l1.*1 := mkheader bp i]> (<[bp := mkheader (hd base l3.*1) k]> (u_mem s)))
          (lastz base l1.*1) (u_brk s)) (l1 ++ (bp, k) :: l3) (delete bp A).
Proof using All.
  intros Hpi Hnil Hfl. pose proof (hp_inc _ _ _ H) as Hi. rewrite HF, inc_app in Hi. destruct Hi as [Hi1 _].
  pose proof (lastz_fin _ Hi1). destruct (hp_used _ _ _ H _ _ Hbp) as (_ & Hb & _).
  apply (heap_link _ _ _ (bp :: l3.*1)); set (p := lastz base l1.*1) in *.
  - cbn. split; [unfold ptr; by rewrite lookup_insert_eq|]. apply Hpath; [|intros a Ha; by apply above_ptr].
    unfold ptr. rewrite lookup_insert_ne by lia. by rewrite lookup_insert_eq.
  - by rewrite fmap_app.
  - intros a j [Hin|[[= -> ->]|Hin]%elem_of_cons]%elem_of_app; [| |by apply above_size].
    + pose proof (inc_in _ _ _ _ Hi1 Hin). assert (hsz (u_mem s) a = Some j) as Haj by (apply H; rewrite HF; set_solver).
      unfold hsz in *. destruct (decide (a = p)) as [->|]; [rewrite lookup_insert_eq; cbn; congruence|].
      by rewrite !lookup_insert_ne by (lia || done).
    + unfold hsz. rewrite lookup_insert_ne, lookup_insert_eq by lia. done.
  - done.
  - rewrite inc_app. cbn. split_and!; try done; lia.
  - by rewrite fin_app.
  - intros b Hb0 Hb' Hc c [Hin|[->|Hin]%elem_of_cons]%elem_of_app; [apply Hc; rewrite HF; set_solver|done|apply Hc; rewrite HF; set_solver].
Qed.

Lemma free_down_spec : ∃ s2 F',
  free_down bp (lastz base l1.*1) (put_header bp (mkheader (hd base l3.*1) k) s) = Ok tt s2 ∧
  heap (set_freep (lastz base l1.*1) s2) F' (delete bp A) ∧
  (length F' <= S (length l1 + length l3))%nat ∧ units F' = units l1 + k + units l3 ∧ (∃ c, c ∈ F' ∧ n <= c.2) ∧ u_brk s2 = u_brk s.
Proof using All.
  destruct (hp_used _ _ _ H _ _ Hbp) as (Hb1 & Hb2 & Hb3 & Hb4). pose proof (hp_brk _ _ _ H) as Hbrk. unfold KERNBASE in Hbrk.
  pose proof (inc_fin _ _ Hi3). pose proof (hp_base _ _ _ H) as Hbase. set (s1 := put_header bp _ s).
  destruct below as (i & Hi0 & Hpi & Hpf & Hnil & Hsnoc). pose proof (hp_inc _ _ _ H) as Hi. rewrite HF, inc_app in Hi.
  destruct Hi as [Hpl%lastz_fin _]. assert (lastz base l1.*1 ∈ base :: F.*1) as Hp
    by (rewrite HF, fmap_app; pose proof (lastz_in base l1.*1); set_solver). destruct (node_bound _ Hp) as [Hp0 Hpb].
  assert (header_at s1 (lastz base l1.*1) = header_at s (lastz base l1.*1)) as Hat by (unfold header_at, s1; cbn; by rewrite lookup_insert_ne by lia).
  assert (header_at s1 bp = mkheader (hd base l3.*1) k) as Hatb by (unfold header_at, s1; cbn; by rewrite lookup_insert_eq).
  unfold free_down. rewrite (bind_Ok _ _ _ _ _ (hget_ok s1 _ Hpb)), Hat, (hsz_at _ _ _ Hpi), u32_small by (unfold is_u32; lia).
  destruct (Z.eqb_spec (lastz base l1.*1 + 8 * i) bp) as [E|E].
  - destruct (Hsnoc E) as [l Hl]. rewrite (bind_Ok _ _ _ _ _ (hget_ok s1 bp ltac:(cbn; lia))), Hatb. cbn [h_size].
    rewrite u32_small by (unfold is_u32; lia). rewrite (bind_Ok _ _ _ _ _ (hset_size_ok s1 _ (i + k) Hpb)).
    set (s2 := put_header _ _ s1). rewrite (bind_Ok _ _ _ _ _ (hget_ok s2 bp ltac:(cbn; lia))), hset_ptr_ok by done.
    assert (header_at s2 bp = header_at s1 bp) as -> by (unfold header_at, s2; cbn; by rewrite lookup_insert_ne by lia).
    assert (h_size (header_at s2 (lastz base l1.*1)) = i + k) as -> by (unfold header_at, s2; cbn; by rewrite lookup_insert_eq).
    eexists _, (l ++ (lastz base l1.*1, i + k) :: l3). split; [done|]. split.
    + rewrite Hatb. unfold set_freep, s2. cbn [u_mem u_brk put_header h_ptr]. rewrite insert_insert_eq. by apply heap_join.
    + split; [rewrite Hl, !length_app; cbn; lia|]. split; [rewrite Hl, !units_app; cbn; lia|]. split; [|done]. eexists. split; [apply elem_of_app; right; left|cbn; lia].
  - rewrite hset_ptr_ok by done. rewrite Hat, (hsz_at _ _ _ Hpi). eexists _, (l1 ++ (bp, k) :: l3). split; [done|].
    split; [apply heap_insert; done || lia|]. split; [rewrite !length_app; cbn; lia|].
    split; [rewrite !units_app; cbn; lia|]. split; [|done].
    eexists. split; [apply elem_of_app; right; left|cbn; lia].
Qed.

End Free.

Lemma free_spec ap n :
  A !! (ap - 8) = Some n → ∃ s' F', free ap s = Ok tt s' ∧ heap s' F' (delete (ap - 8) A) ∧
    units F' = units F + n ∧ (length F' <= S (length F))%nat ∧ (∃ c, c ∈ F' ∧ n <= c.2) ∧ u_brk s' = u_brk s.
Proof using H.
  intros Hbp. destruct (hp_used _ _ _ H _ _ Hbp) as (Hb1 & Hb2 & Hb3 & Hb4). pose proof (hp_brk _ _ _ H) as Hbrk. unfold KERNBASE in Hbrk.
  pose proof (hp_base _ _ _ H) as Hbase. set (bp := ap - 8) in *. unfold free.
  replace (u32 (ap - 8)) with bp by (symmetry; apply u32_small; unfold is_u32; lia).
  destruct (inc_place _ F bp n (hp_inc _ _ _ H) ltac:(lia) Hb2) as (l1 & l2 & HF & Hlo & Hhi); [intros; by eapply hp_apart|].
  rewrite (bind_Ok _ _ s (u_freep s) s) by done. rewrite (bind_Ok _ _ s (2 * size (u_mem s) + 8)%nat s) by done.
  rewrite (bind_Ok _ _ _ _ _ (free_search bp n l1 l2 (2 * size (u_mem s) + 8) HF Hlo Hb2 Hhi ltac:(lia))).
  destruct (free_up_spec bp n l1 l2 Hbp HF Hlo Hhi) as (k & l3 & E1 & Hu & Hk & Hi3 & Hf3 & Hsub & Hlen & Hpath & Hap).
  rewrite (bind_Ok _ _ _ _ _ E1).
  destruct (free_down_spec bp n l1 l2 Hbp HF Hlo Hhi k l3 Hk Hi3 Hf3 Hsub Hpath Hap) as (s2 & F' & E2 & Hh & Hl' & Hu' & Hc & Hbr).
  rewrite (bind_Ok _ _ _ _ _ E2). eexists _, F'. split; [done|]. split; [done|]. rewrite HF, units_app, length_app.
  split; [lia|]. split; [lia|]. done.
Qed.

(** ** malloc *)

Section Take.
Context (j1 j2 : list (Z * Z)) (y h : Z) (HF : F = j1 ++ (y, h) :: j2).

Lemma take_facts : inc (base + 7) j1 ∧ fin (base + 7) j1 < y ∧ 1 <= h ∧ inc (y + 8 * h) j2 ∧ fin (y + 8 * h) j2 <= u_brk s ∧
  lastz base j1.*1 < fin (base + 7) j1 ∧ (∀ a n, A !! a = Some n → apart (a, n) (y, h)).
Proof using H HF.
  pose proof (hp_inc _ _ _ H) as Hi. pose proof (hp_fin _ _ _ H) as Hf. rewrite HF, inc_app in Hi. rewrite HF, fin_app in Hf.
  destruct Hi as (Hi1 & Hi2 & Hi3 & Hi4). split_and!; try done; [by apply lastz_fin|].
  intros a n Ha. eapply (hp_apart _ _ _ H); [done|]. rewrite HF. set_solver.
Qed.

(** A block that fits exactly leaves the list. *)
Lemma take_whole : heap (mkuheap (<[lastz base j1.*1 := mkheader (hd base j2.*1) (h_size (header_at s (lastz base j1.*1)))]> (u_mem s))
    (lastz base j1.*1) (u_brk s)) (j1 ++ j2) (<[y := h]> A).
Proof using H HF.
  destruct take_facts as (Hi1 & Hy & Hh & Hi2 & Hf2 & Hp & Hap). pose proof (inc_fin _ _ Hi2). pose proof (inc_fin _ _ Hi1).
  set (p := lastz base j1.*1) in *. pose proof (hp_ring _ _ _ H) as Hr. rewrite HF, fmap_app, <- (assoc_L (++)), links_app in Hr.
  destruct Hr as (Hr1 & _ & Hr2). fold p in Hr2.
  assert (∀ a, hsz (<[p := mkheader (hd base j2.*1) (h_size (header_at s p))]> (u_mem s)) a = hsz (u_mem s) a) as Hsz.
  { intros a. unfold hsz. destruct (decide (a = p)) as [->|]; [|by rewrite lookup_insert_ne].
    destruct (node_ptr p) as [x Hx]; [rewrite HF, fmap_app; pose proof (lastz_in base j1.*1); set_solver|].
    rewrite lookup_insert_eq. unfold header_at. by rewrite Hx. }
  split; cbn [u_mem u_freep u_brk]; try apply H.
  - rewrite fmap_app, <- (assoc_L (++)), links_app. split.
    + apply (links_frame (u_mem s)); [|pose proof node_nodup as Hnd; rewrite HF, fmap_app, app_comm_cons in Hnd; by apply NoDup_app in Hnd as [? _]|done].
      intros a Ha Hne. unfold ptr. by rewrite lookup_insert_ne by done.
    + eapply (links_move (u_mem s) _ y); [| |exact Hr2]; unfold ptr.
      * fold p. rewrite lookup_insert_eq. symmetry. destruct j2 as [|[b i] j3]; apply Hr2.
      * intros a Ha%(inc_in_addr _ _ _ Hi2). rewrite lookup_insert_ne; [done|]. lia.
  - rewrite Hsz. apply H.
  - intros a n Hin. rewrite Hsz. apply H. rewrite HF. set_solver.
  - apply inc_app. split; [done|]. apply (inc_weaken (y + 8 * h)); [done|lia].
  - rewrite fin_app. destruct j2 as [|[b i] j3]; cbn in *; lia.
  - rewrite fmap_app. pose proof (lastz_in base j1.*1). set_solver.
  - intros a n. rewrite Hsz, lookup_insert_Some. intros [[<- <-]|[Hne Ha]]; [|by apply H].
    split_and!; try lia. apply H. rewrite HF. set_solver.
  - intros a n c. rewrite lookup_insert_Some. intros [[<- <-]|[Hne Ha]] Hc; [|eapply (hp_apart _ _ _ H); [done|rewrite HF; set_solver]].
    destruct c as [c i]. unfold apart. cbn. apply elem_of_app in Hc as [Hc|Hc]; [pose proof (inc_in _ _ _ _ Hi1 Hc)|pose proof (inc_in _ _ _ _ Hi2 Hc)]; lia.
  - intros a n b i. rewrite !lookup_insert_Some. intros [[<- <-]|[Hne Ha]] [[<- <-]|[Hne' Hb]] Hab; try done;
      [pose proof (Hap _ _ Hb) as Hx|by apply Hap|by eapply hp_disj]. unfold apart in *. cbn in *. lia.
Qed.

(** Of a larger block the last part is handed out. *)
Lemma take_tail nu a : 1 <= nu < h → a = y + 8 * (h - nu) →
  heap (mkuheap (<[a := mkheader (h_ptr (header_at s a)) nu]> (<[y := mkheader (hd base j2.*1) (h - nu)]> (u_mem s)))
    (lastz base j1.*1) (u_brk s)) (j1 ++ (y, h - nu) :: j2) (<[a := nu]> A).
Proof using H HF.
  intros Hnu Ea. destruct take_facts as (Hi1 & Hy & Hh & Hi2 & Hf2 & Hp & Hap). pose proof (inc_fin _ _ Hi2). pose proof (inc_fin _ _ Hi1).
  set (m := <[a := _]> _).
  assert (∀ b n, (b, n) ∈ j1 ++ j2 → b ≠ y ∧ b ≠ a) as Hoth.
  { intros b n [Hb%(inc_in _ _ _ _ Hi1)|Hb%(inc_in _ _ _ _ Hi2)]%elem_of_app; lia. }
  assert (∀ b, b ∈ base :: F.*1 → ptr m b = ptr (u_mem s) b) as Hptr.
  { intros b Hb. unfold m, ptr. destruct (decide (b = y)) as [->|Hne].
    - rewrite lookup_insert_ne, lookup_insert_eq by lia. symmetry.
      assert (F = (j1 ++ [(y, h)]) ++ j2) as HF' by (by rewrite HF, <- (assoc_L (++))).
      pose proof (ring_next _ _ _ _ (hp_ring _ _ _ H) HF') as Hn. by rewrite fmap_app, lastz_app in Hn.
    - rewrite !lookup_insert_ne; [done|done|]. rewrite HF, fmap_app in Hb. apply elem_of_cons in Hb as [->|Hb]; [lia|].
      apply elem_of_app in Hb as [Hb%(inc_in_addr _ _ _ Hi1)|[->|Hb%(inc_in_addr _ _ _ Hi2)]%elem_of_cons]; lia || done. }
  assert (∀ b, b ≠ y → b ≠ a → hsz m b = hsz (u_mem s) b) as Hsz by (intros; unfold m, hsz; by rewrite !lookup_insert_ne by done).
  split; cbn [u_mem u_freep u_brk]; try apply H.
  - replace ((j1 ++ (y, h - nu) :: j2).*1) with F.*1 by (by rewrite HF, !fmap_app).
    eapply (links_move (u_mem s) m base base); [apply Hptr; left|intros; apply Hptr; by right|apply H].
  - rewrite Hsz by lia. apply H.
  - intros b n [Hb|[[= -> ->]|Hb]%elem_of_cons]%elem_of_app.
    + destruct (Hoth b n); [set_solver|]. rewrite Hsz by done. apply H. rewrite HF. set_solver.
    + unfold m, hsz. rewrite lookup_insert_ne, lookup_insert_eq by lia. done.
    + destruct (Hoth b n); [set_solver|]. rewrite Hsz by done. apply H. rewrite HF. set_solver.
  - apply inc_app. split; [done|]. cbn. split; [done|]. split; [lia|]. apply (inc_weaken (y + 8 * h)); [done|lia].
  - rewrite fin_app. cbn. destruct j2 as [|[b i] j3]; cbn in *; lia.
  - rewrite fmap_app. pose proof (lastz_in base j1.*1). set_solver.
  - intros b n. rewrite lookup_insert_Some. intros [[<- <-]|[Hne Hb]].
    + split_and!; try lia. unfold m, hsz. by rewrite lookup_insert_eq.
    + pose proof (Hap _ _ Hb) as Hx. destruct (hp_used _ _ _ H _ _ Hb) as (? & ? & ? & <-). split_and!; try done.
      apply Hsz; unfold apart in Hx; cbn in Hx; lia.
  - intros b n c. rewrite lookup_insert_Some. intros [[<- <-]|[Hne Hb]] Hc.
    + destruct c as [c i]. unfold apart. cbn. apply elem_of_app in Hc as [Hc|[[= -> ->]|Hc]%elem_of_cons];
        [pose proof (inc_in _ _ _ _ Hi1 Hc); lia|lia|pose proof (inc_in _ _ _ _ Hi2 Hc); lia].
    + apply elem_of_app in Hc as [Hc|[->|Hc]%elem_of_cons]; [eapply (hp_apart _ _ _ H); [done|rewrite HF; set_solver]| |eapply (hp_apart _ _ _ H); [done|rewrite HF; set_solver]].
      pose proof (Hap _ _ Hb) as Hx. unfold apart in *. cbn in *. lia.
  - intros b n c i. rewrite !lookup_insert_Some. intros [[<- <-]|[Hne Hb]] [[<- <-]|[Hne' Hc]] Hab; try done;
      [pose proof (Hap _ _ Hc) as Hx|pose proof (Hap _ _ Hb) as Hx|by eapply hp_disj]; unfold apart in *; cbn in *; lia.
Qed.

End Take.

Lemma node_size a : a ∈ base :: F.*1 → ∃ h, hsz (u_mem s) a = Some h.
Proof using H. intros [x Hx]%node_ptr. unfold hsz. rewrite Hx. by eexists. Qed.

Lemma first_fit nu l : (∀ a, a ∈ l → a ∈ base :: F.*1) →
  (∀ a h, a ∈ l → hsz (u_mem s) a = Some h → h < nu) ∨
  ∃ pre y h post, l = pre ++ y :: post ∧ hsz (u_mem s) y = Some h ∧ nu <= h ∧ ∀ a, a ∈ pre → ∃ h, hsz (u_mem s) a = Some h ∧ h < nu.
Proof using H.
  induction l as [|a l IH]; intros Hl; [left; set_solver|]. destruct (node_size a) as [h Hh]; [apply Hl; left|].
  destruct (decide (nu <= h)); [right; exists [], a, h, l; set_solver|].
  destruct IH as [Hs|(pre & y & i & post & -> & Hy & Hi & Hpre)]; [intros; apply Hl; by right|left|right].
  - intros b i [->|Hb]%elem_of_cons Hi; [rewrite Hh in Hi; injection Hi as [= <-]; lia|by eapply Hs].
  - exists (a :: pre), y, i, post. split_and!; try done. intros b [->|Hb]%elem_of_cons; [exists h; split; [done|lia]|by apply Hpre].
Qed.

(** The new memory, as a block in use. *)
Lemma heap_grow k h :
  1 <= k → u_brk s + 8 * k <= KERNBASE →
  heap (put_header (u_brk s) (mkheader h k) (set_brk (u_brk s + 8 * k) s)) F (<[u_brk s := k]> A).
Proof using H.
  intros Hk Hlim. pose proof (hp_brk _ _ _ H) as Hbrk. pose proof (hp_base _ _ _ H) as Hbase. pose proof (hp_fin _ _ _ H) as Hfin.
  assert (∀ a, a ∈ base :: F.*1 → a < u_brk s) as Hlt by (intros a Ha%node_bound; lia).
  assert (∀ a n, A !! a = Some n → a + 8 * n <= u_brk s ∧ 1 <= n ∧ base + 8 <= a) as HA by (intros a n Ha%(hp_used _ _ _ H); tauto).
  split; cbn [u_mem u_brk u_freep put_header set_brk]; try apply H; try lia.
  - eapply (links_move (u_mem s) _ base base); [..|apply H]; unfold ptr; [|intros a Ha]; (rewrite lookup_insert_ne; [done|]);
      [pose proof (Hlt base); set_solver by lia|pose proof (Hlt a); set_solver by lia].
  - unfold hsz. rewrite lookup_insert_ne by lia. apply H.
  - intros a n Hin. unfold hsz. rewrite lookup_insert_ne; [by apply H|]. pose proof (inc_in _ _ _ _ (hp_inc _ _ _ H) Hin). lia.
  - intros a n. rewrite lookup_insert_Some. intros [[<- <-]|[Hne Ha]]; [split_and!; try lia; unfold hsz; by rewrite lookup_insert_eq|].
    pose proof (HA _ _ Ha). split_and!; try lia. unfold hsz. rewrite lookup_insert_ne by lia. apply (hp_used _ _ _ H _ _ Ha).
  - intros a n [c i] [[<- <-]|[Hne Ha]]%lookup_insert_Some Hc; [|by eapply hp_apart].
    pose proof (inc_in _ _ _ _ (hp_inc _ _ _ H) Hc). unfold apart. cbn. lia.
  - intros a n b i. rewrite !lookup_insert_Some. intros [[<- <-]|[Hne Ha]] [[<- <-]|[Hne' Hb]] Hab; try done; [| |by eapply hp_disj];
      unfold apart; cbn; [pose proof (HA _ _ Hb)|pose proof (HA _ _ Ha)]; lia.
Qed.

Context (pages : Z → Z → bool).

Lemma sbrk_grow n : 0 < n < 2147483648 → sbrk pages n s =
  if (KERNBASE <=? u_brk s + n) || negb (pages (u_brk s) (u_brk s + n)) then Ok (-1) s else Ok (u_brk s) (set_brk (u_brk s + n) s).
Proof using H.
  intros Hn. pose proof (hp_brk _ _ _ H) as Hbrk. pose proof (hp_base _ _ _ H) as Hbase. unfold KERNBASE in *.
  unfold sbrk. rewrite (bind_Ok _ _ s (u_brk s) s) by done. cbn zeta. rewrite u32_small by (unfold is_u32; lia).
  rewrite Z.gtb_ltb, Z.geb_leb, (proj2 (Z.ltb_lt 0 n)), (proj2 (Z.ltb_ge (u_brk s + n) (u_brk s))) by lia. unfold KERNBASE.
  destruct (2147483648 <=? u_brk s + n); [done|]. by destruct (pages (u_brk s) (u_brk s + n)).
Qed.

Lemma malloc_take prevp y h nu :
  prevp ∈ base :: F.*1 → ptr (u_mem s) prevp = Some y → hsz (u_mem s) y = Some h → 1 <= nu <= h →
  ∃ a s' F', malloc_body pages nu (prevp, y) s = Ok (inr (a + 8)) s' ∧ heap s' F' (<[a := nu]> A) ∧ A !! a = None ∧ 0 < a ∧
    units F' = units F - nu.
Proof using H.
  intros Hpv Hy Hh Hnu. destruct (node_split _ _ Hpv) as (j1 & j2 & HF & ->).
  pose proof (ring_next _ _ _ _ (hp_ring _ _ _ H) HF) as Hn. rewrite Hy in Hn. injection Hn as [= ->].
  destruct j2 as [|[y h'] j2]; cbn [hd fmap list_fmap fst] in *; [rewrite (hp_zero _ _ _ H) in Hh; injection Hh as [= <-]; lia|].
  assert (h' = h) as -> by (assert (Some h' = Some h) as [=]; [rewrite <- Hh; symmetry; apply H; rewrite HF; set_solver|done]).
  destruct (take_facts _ _ _ _ HF) as (Hi1 & Hyf & _ & Hi2 & Hf2 & Hpf & Hap). pose proof (inc_fin _ _ Hi2). pose proof (inc_fin _ _ Hi1).
  pose proof (hp_brk _ _ _ H) as Hbrk. unfold KERNBASE in Hbrk. pose proof (hp_base _ _ _ H). destruct (node_bound _ Hpv) as [_ Hpb].
  assert (F = (j1 ++ [(y, h)]) ++ j2) as HF' by (by rewrite HF, <- (assoc_L (++))).
  pose proof (ring_next _ _ _ _ (hp_ring _ _ _ H) HF') as Hn. rewrite fmap_app, lastz_app in Hn. cbn in Hn.
  assert (∀ a n, A !! a = Some n → y <= a < y + 8 * h → False) as Hno.
  { intros a n Ha Hr. pose proof (Hap _ _ Ha) as Hx. destruct (hp_used _ _ _ H _ _ Ha) as (_ & ? & _). unfold apart in Hx. cbn in Hx. lia. }
  unfold malloc_body. rewrite (bind_Ok _ _ _ _ _ (hget_ok s y ltac:(lia))), (hsz_at _ _ _ Hh), (ptr_at _ _ _ Hn).
  rewrite Z.geb_leb, (proj2 (Z.leb_le nu h)) by lia. destruct (Z.eqb_spec h nu) as [<-|Hne].
  - rewrite (bind_Ok _ _ _ _ _ (hset_ptr_ok s _ (hd base j2.*1) Hpb)). eexists y, _, (j1 ++ j2). split; [done|].
    split; [by apply (take_whole j1 j2 y h HF)|]. rewrite HF, !units_app. cbn. split_and!; try lia.
    destruct (A !! y) eqn:E; [exfalso; eapply Hno; [done|lia]|done].
  - cbn zeta. rewrite (u32_small (h - nu)), (u32_small (y + 8 * (h - nu))) by (unfold is_u32; lia).
    rewrite (bind_Ok _ _ _ _ _ (hset_size_ok s y (h - nu) ltac:(lia))), (ptr_at _ _ _ Hn). set (a := y + 8 * (h - nu)). set (s1 := put_header y _ s).
    rewrite (bind_Ok _ _ _ _ _ (hset_size_ok s1 a nu ltac:(unfold a; cbn; lia))). eexists a, _, (j1 ++ (y, h - nu) :: j2). split; [done|].
    assert (header_at s1 a = header_at s a) as -> by (unfold header_at, s1; cbn; rewrite lookup_insert_ne; [done|unfold a; lia]).
    split; [by apply (take_tail j1 j2 y h HF nu a); [lia|]|]. rewrite HF, !units_app. cbn. split_and!; try (unfold a; lia).
    destruct (A !! a) eqn:E; [exfalso; eapply Hno; [done|unfold a; lia]|done].
Qed.

(** Headers that are too small are passed over. *)
Lemma malloc_skip nu y pre : ∀ prevp fuel,
  links (u_mem s) prevp (pre ++ [y]) → (∀ a, a ∈ pre → a ∈ base :: F.*1 ∧ a ≠ u_freep s ∧ ∃ h, hsz (u_mem s) a = Some h ∧ h < nu) →
  loop (length pre + fuel) (malloc_body pages nu) (prevp, hd y pre) s = loop fuel (malloc_body pages nu) (lastz prevp pre, y) s.
Proof using H.
  induction pre as [|a pre IH]; intros prevp fuel Hp Ha; [done|]. cbn [length plus loop hd lastz].
  destruct (Ha a) as (Hn & Hf & h & Hh & Hlt); [set_solver|]. destruct Hp as [_ Hp].
  assert (ptr (u_mem s) a = Some (hd y pre)) as Hptr by (destruct pre; apply Hp).
  assert (malloc_body pages nu (prevp, a) s = Ok (inl (a, hd y pre)) s) as E.
  { unfold malloc_body. rewrite (bind_Ok _ _ _ _ _ (hget_ok s a (proj2 (node_bound _ Hn)))), (hsz_at _ _ _ Hh), (ptr_at _ _ _ Hptr).
    rewrite Z.geb_leb, (proj2 (Z.leb_gt nu h)) by lia. rewrite (bind_Ok _ _ s (u_freep s) s) by done.
    apply Z.eqb_neq in Hf. by rewrite Hf. }
  rewrite (bind_Ok _ _ _ _ _ E). cbn beta iota. apply IH; [done|]. intros b Hb. apply Ha. set_solver.
Qed.

(** The search from [freep]: it ends at a block that is large enough, or comes back to
    [freep] when there is none. *)
Lemma malloc_scan nu : ∃ pre y h,
  (∀ fuel, loop (length pre + fuel) (malloc_body pages nu) (u_freep s, h_ptr (header_at s (u_freep s))) s =
           loop fuel (malloc_body pages nu) (lastz (u_freep s) pre, y) s) ∧
  (length pre <= length F)%nat ∧ lastz (u_freep s) pre ∈ base :: F.*1 ∧ ptr (u_mem s) (lastz (u_freep s) pre) = Some y ∧
  y ∈ base :: F.*1 ∧ hsz (u_mem s) y = Some h ∧ (nu <= h ∨ (h < nu ∧ y = u_freep s ∧ ∀ c, c ∈ F → c.2 < nu)).
Proof using H.
  destruct (ring_walk _ (hp_freep _ _ _ H)) as (l & Hp & Hnd & Hall & Hlen). set (f := u_freep s) in *.
  assert (∃ pre y post h, l ++ [f] = pre ++ y :: post ∧ f ∉ pre ∧ (∀ a, a ∈ pre → ∃ h, hsz (u_mem s) a = Some h ∧ h < nu) ∧
            hsz (u_mem s) y = Some h ∧ (nu <= h ∨ (h < nu ∧ y = f ∧ ∀ c, c ∈ F → c.2 < nu)))
    as (pre & y & post & h & Hsp & Hfp & Hpre & Hy & Hcase).
  { destruct (first_fit nu (l ++ [f])) as [Hs|(pre & y & h & post & E & Hy & Hh & Hpre)]; [intros; by apply Hall| |].
    - destruct (node_size f (hp_freep _ _ _ H)) as [h Hh]. exists l, f, [], h. split; [done|].
      apply NoDup_app in Hnd as (_ & Hnd & _). split_and!; [intros Hf; apply (Hnd f Hf); set_solver| |done|].
      + intros a Ha. destruct (node_size a) as [i Hi]; [apply Hall; set_solver|]. exists i. split; [done|]. apply (Hs a); set_solver.
      + right. split; [apply (Hs f); set_solver|]. split; [done|]. intros [c i] Hc. apply (Hs c); [|by apply H].
        apply Hall. right. apply list_elem_of_fmap. by exists (c, i).
    - exists pre, y, post, h. split_and!; try done; [|by left]. intros Hf. destruct (exists_last (l := y :: post)) as (k & z & Hk); [done|].
      rewrite Hk, (assoc_L (++)) in E. apply app_inj_tail in E as [-> <-]. apply NoDup_app in Hnd as (_ & Hnd & _). apply (Hnd f); set_solver. }
  rewrite Hsp in Hp, Hall. assert (links (u_mem s) f (pre ++ [y])) as Hpy.
  { change (y :: post) with ([y] ++ post) in Hp. rewrite (assoc_L (++)), links_app in Hp. apply Hp. }
  pose proof Hpy as Hpy'. apply links_app in Hpy' as [_ [Hlast _]].
  assert (ptr (u_mem s) f = Some (hd y pre)) as Hhd by (destruct pre; apply Hpy).
  exists pre, y, h. split_and!; try done.
  - intros fuel. rewrite (ptr_at _ _ _ Hhd). apply malloc_skip; [done|]. intros a Ha.
    split; [apply Hall; set_solver|]. split; [by intros ->|by apply Hpre].
  - assert (length (l ++ [f]) = length (pre ++ y :: post)) as E by (by rewrite Hsp). rewrite !length_app in E. cbn in E. lia.
  - pose proof (lastz_in f pre) as [->|Hin]%elem_of_cons; [apply H|apply Hall; set_solver].
  - apply Hall. set_solver.
Qed.

End Inv.

Context (pages : Z → Z → bool).

(** sbrk() refuses when the process would reach the kernel or there are no pages. *)
Definition refused (s : uheap) (nu : Z) : Prop :=
  let n := 8 * Z.max 4096 nu in KERNBASE <= u_brk s + n ∨ pages (u_brk s) (u_brk s + n) = false.

Lemma morecore_spec s F A nu : heap s F A → 1 <= nu → 8 * nu < 2147483648 →
  (morecore pages nu s = Ok 0 s ∧ refused s nu) ∨
  ∃ s' F', morecore pages nu s = Ok (u_freep s') s' ∧ heap s' F' A ∧ (∃ c, c ∈ F' ∧ nu <= c.2) ∧ (length F' <= S (length F))%nat.
Proof.
  intros H H1 H2. unfold morecore, refused. pose proof (hp_brk _ _ _ H) as Hbrk. pose proof (hp_base _ _ _ H). unfold KERNBASE in *.
  assert ((if nu <? 4096 then 4096 else nu) = Z.max 4096 nu) as -> by (destruct (Z.ltb_spec nu 4096); lia).
  set (k := Z.max 4096 nu). rewrite (Z.mul_comm k 8), u32_small, s32_small by (unfold is_u32; lia).
  unfold KERNBASE in *. pose proof (sbrk_grow s F A H pages (8 * k) ltac:(lia)) as Hs. unfold KERNBASE in Hs.
  destruct (Z.leb_spec 2147483648 (u_brk s + 8 * k)); cbn [orb] in Hs; [left; by rewrite (bind_Ok _ _ _ _ _ Hs); auto|].
  destruct (pages (u_brk s) (u_brk s + 8 * k)); cbn [negb] in Hs; [right|left; by rewrite (bind_Ok _ _ _ _ _ Hs); auto].
  rewrite (bind_Ok _ _ _ _ _ Hs), (proj2 (Z.eqb_neq _ _)) by lia. set (s1 := set_brk _ s).
  rewrite (bind_Ok _ _ _ _ _ (hset_size_ok s1 (u_brk s) k ltac:(cbn; lia))).
  pose proof (heap_grow s F A H k (h_ptr (header_at s1 (u_brk s))) ltac:(lia) ltac:(unfold KERNBASE; lia)) as Hg. fold s1 in Hg.
  destruct (free_spec _ _ _ Hg (u_brk s + 8) k) as (s' & F' & E & Hh & _ & Hl & Hc & _); [by rewrite Z.add_simpl_r, lookup_insert_eq|].
  rewrite (bind_Ok _ _ _ _ _ E). exists s', F'. split; [done|]. rewrite Z.add_simpl_r, delete_insert_id in Hh.
  - split; [done|]. split; [|done]. destruct Hc as (c & ? & ?). exists c. split; [done|lia].
  - destruct (A !! u_brk s) eqn:EA; [|done]. pose proof (hp_used _ _ _ H _ _ EA). lia.
Qed.
(** With a large enough block in the list the search succeeds. *)
Lemma malloc_found s F A nu fuel :
  heap s F A → 1 <= nu → (∃ c, c ∈ F ∧ nu <= c.2) → (length F < fuel)%nat →
  ∃ a s' F', loop fuel (malloc_body pages nu) (u_freep s, h_ptr (header_at s (u_freep s))) s = Ok (a + 8) s' ∧
    heap s' F' (<[a := nu]> A) ∧ A !! a = None ∧ 0 < a.
Proof.
  intros H Hnu (c & Hc & Hbig) Hf. destruct (malloc_scan _ _ _ H pages nu) as (pre & y & h & Eq & Hlen & Hlast & Hptr & Hy & Hh & Hcase).
  replace fuel with (length pre + (S (fuel - length pre - 1)))%nat by lia. rewrite Eq. cbn [loop].
  destruct Hcase as [Hbig'|(_ & _ & Hall)]; [|specialize (Hall c Hc); lia].
  destruct (malloc_take _ _ _ H pages _ _ _ nu Hlast Hptr Hh ltac:(lia)) as (a & s' & F' & E & H' & Ha & Ha0 & _).
  rewrite (bind_Ok _ _ _ _ _ E). by exists a, s', F'.
Qed.

Lemma malloc_more s F A nu x h :
  heap s F A → 1 <= nu → 8 * nu < 2147483648 → hsz (u_mem s) (u_freep s) = Some h → h < nu →
  (malloc_body pages nu (x, u_freep s) s = Ok (inr 0) s ∧ refused s nu) ∨
  ∃ s' F', malloc_body pages nu (x, u_freep s) s = Ok (inl (u_freep s', h_ptr (header_at s' (u_freep s')))) s' ∧
    heap s' F' A ∧ (∃ c, c ∈ F' ∧ nu <= c.2) ∧ (length F' <= S (length F))%nat.
Proof.
  intros H H1 H2 Hh Hlt. unfold malloc_body. rewrite (bind_Ok _ _ _ _ _ (hget_ok s _ (proj2 (node_bound _ _ _ H _ (hp_freep _ _ _ H))))).
  rewrite (hsz_at _ _ _ Hh), Z.geb_leb, (proj2 (Z.leb_gt nu h)) by lia. rewrite (bind_Ok freep _ s (u_freep s) s) by done. rewrite Z.eqb_refl.
  destruct (morecore_spec s F A nu H H1 H2) as [[E Hr]|(s' & F' & E & H' & Hc & Hl)]; rewrite (bind_Ok _ _ _ _ _ E); [by left|right].
  destruct (node_bound _ _ _ H' _ (hp_freep _ _ _ H')) as [Hf0 Hfb]. rewrite (proj2 (Z.eqb_neq _ _)) by lia.
  rewrite (bind_Ok _ _ _ _ _ (hget_ok s' _ Hfb)). by exists s', F'.
Qed.

Lemma nunits_enough nbytes : 0 <= nbytes < 2147483632 →
  1 <= nunits nbytes ∧ nbytes <= 8 * (nunits nbytes - 1) ∧ 8 * nunits nbytes < 2147483648.
Proof.
  intros Hn. unfold nunits. rewrite u32_small by (unfold is_u32; lia).
  pose proof (Z.div_mod (nbytes + 8 - 1) 8). pose proof (Z.mod_pos_bound (nbytes + 8 - 1) 8). lia.
Qed.

(** Before the first call [freep] is null. *)
Definition ready (s : uheap) (F : list (Z * Z)) (A : gmap Z Z) : Prop :=
  heap s F A ∨ (u_freep s = 0 ∧ 0 < base ∧ base + 8 <= u_brk s <= KERNBASE ∧ F = [] ∧ A = ∅).

Lemma malloc_start s F A nbytes : ready s F A → ∃ s0, heap s0 F A ∧ u_brk s0 = u_brk s ∧
  malloc base pages nbytes s = loop (2 * size (u_mem s0) + 8) (malloc_body pages (nunits nbytes))
    (u_freep s0, h_ptr (header_at s0 (u_freep s0))) s0.
Proof.
  intros Hr. assert (∃ s0, heap s0 F A ∧ u_brk s0 = u_brk s ∧
    when (u_freep s =? 0) (modify (set_freep base) ;; hset_ptr base base ;; hset_size base 0) s = Ok tt s0) as (s0 & H & Hb & E).
  { destruct Hr as [H|(Hf & H0 & Hb & -> & ->)].
    - exists s. split; [done|]. split; [done|]. destruct (node_bound _ _ _ H _ (hp_freep _ _ _ H)).
      by rewrite (proj2 (Z.eqb_neq _ _)) by lia.
    - rewrite Hf, Z.eqb_refl. cbn [when]. rewrite (bind_Ok _ _ s tt (set_freep base s)) by done.
      rewrite (bind_Ok _ _ _ _ _ (hset_ptr_ok (set_freep base s) base base ltac:(cbn; lia))), hset_size_ok by (cbn; lia).
      eexists. split; [|split; [|done]]; [|done]. unfold put_header, header_at. cbn. rewrite insert_insert_eq, lookup_insert_eq. cbn.
      split; cbn; unfold ptr, hsz; rewrite ?lookup_insert_eq; try done; try lia; set_solver. }
  exists s0. split; [done|]. split; [done|]. unfold malloc. rewrite (bind_Ok freep _ s (u_freep s) s) by done.
  rewrite (bind_Ok _ _ _ _ _ E). rewrite (bind_Ok freep _ s0 (u_freep s0) s0) by done.
  rewrite (bind_Ok _ _ _ _ _ (hget_ok s0 _ (proj2 (node_bound _ _ _ H _ (hp_freep _ _ _ H))))).
  by rewrite (bind_Ok rounds _ s0 (2 * size (u_mem s0) + 8)%nat s0) by done.
Qed.

(** C9. malloc() of less than 2147483632 bytes returns. The pointer is null only if no free block is large enough and
    the kernel refuses more memory, and then nothing has changed; otherwise it points to
    at least [nbytes] bytes behind a new header, apart from every block in use and from
    every free block. *)
Theorem malloc_fits s F A nbytes :
  ready s F A → 0 <= nbytes < 2147483632 →
  ∃ p s', malloc base pages nbytes s = Ok p s' ∧
    ((p = 0 ∧ heap s' F A ∧ (∀ c, c ∈ F → c.2 < nunits nbytes) ∧ refused s (nunits nbytes)) ∨
     (0 < p ∧ ∃ F', heap s' F' (<[p - 8 := nunits nbytes]> A) ∧ A !! (p - 8) = None ∧ nbytes <= 8 * (nunits nbytes - 1))).
Proof.
  intros Hr Hn. destruct (nunits_enough _ Hn) as (Hu1 & Hu2 & Hu3). set (nu := nunits nbytes) in *.
  destruct (malloc_start s F A nbytes Hr) as (s0 & H & Hbrk & ->). fold nu. set (fuel := (2 * size (u_mem s0) + 8)%nat).
  pose proof (node_count _ _ _ H) as Hcnt.
  destruct (decide (Exists (λ c, nu <= c.2) F)) as [Hbig%Exists_exists|Hsm].
  { destruct (malloc_found s0 F A nu fuel H Hu1 Hbig) as (a & s' & F' & -> & H' & Ha & Ha0); [unfold fuel; lia|].
    exists (a + 8), s'. split; [done|]. right. split; [lia|]. exists F'. by rewrite Z.add_simpl_r. }
  destruct (malloc_scan _ _ _ H pages nu) as (pre & y & h & Eq & Hlen & Hlast & Hptr & Hy & Hh & [Hbig|(Hlt & -> & Hall)]).
  { destruct Hsm. apply Exists_exists. apply elem_of_cons in Hy as [->|([b i] & -> & Hin)%list_elem_of_fmap].
    - rewrite (hp_zero _ _ _ H) in Hh. injection Hh as [= <-]. lia.
    - exists (b, i). split; [done|]. cbn in *. rewrite (hp_size _ _ _ H _ _ Hin) in Hh. by injection Hh as [= ->]. }
  replace fuel with (length pre + (S (fuel - length pre - 1)))%nat by (unfold fuel; lia). rewrite Eq. cbn [loop].
  destruct (malloc_more s0 F A nu (lastz (u_freep s0) pre) h H Hu1 Hu3 Hh Hlt) as [[E Hr']|(s1 & F1 & E & H1 & Hc & Hl)]; rewrite (bind_Ok _ _ _ _ _ E).
  - exists 0, s0. split; [done|]. left. split_and!; try done. unfold refused in *. by rewrite <- Hbrk.
  - cbn beta iota. destruct (malloc_found s1 F1 A nu (fuel - length pre - 1) H1 Hu1 Hc) as (a & s' & F' & -> & H' & Ha & Ha0); [unfold fuel; lia|].
    exists (a + 8), s'. split; [done|]. right. split; [lia|]. exists F'. by rewrite Z.add_simpl_r.
Qed.

(** C28. free() of a block in use returns, and gives the whole block back: the free list
    stays in the order of the addresses with a gap between any two blocks, so
    neighbours have been joined, it has gained exactly the headers of the block, and
    the other blocks in use are untouched. *)
Theorem free_gives_back s F A ap n :
  heap s F A → A !! (ap - 8) = Some n →
  ∃ s' F', free ap s = Ok tt s' ∧ heap s' F' (delete (ap - 8) A) ∧ inc (base + 7) F' ∧ units F' = units F + n ∧
    (∃ c, c ∈ F' ∧ n <= c.2).
Proof.
  intros H Hn. destruct (free_spec _ _ _ H ap n Hn) as (s' & F' & E & H' & Hu & _ & Hc & _). exists s', F'.
  split_and!; try done. apply H'.
Qed.

(** C38. A size close to 2^32 wraps around in the rounding, and malloc() hands out a single
    header with no room behind it. *)
Theorem malloc_size_wraps s F A nbytes :
  heap s F A → 4294967289 <= nbytes < 4294967296 → F ≠ [] →
  ∃ p s' F', malloc base pages nbytes s = Ok p s' ∧ 0 < p ∧ heap s' F' (<[p - 8 := 1]> A).
Proof.
  intros H Hn HF. destruct (malloc_start s F A nbytes (or_introl H)) as (s0 & H0 & _ & ->). pose proof (node_count _ _ _ H0).
  assert (nunits nbytes = 1) as ->.
  { unfold nunits, u32. rewrite <- (Z_mod_plus_full _ (-1)), Z.mod_small by lia. rewrite Z.div_small by lia. done. }
  destruct (malloc_found s0 F A 1 (2 * size (u_mem s0) + 8) H0) as (a & s' & F' & -> & H' & Ha & Ha0); [lia| |lia|].
  - destruct F as [|[c i] F1]; [done|]. exists (c, i). split; [left|]. apply (hp_inc _ _ _ H).
  - exists (a + 8), s', F'. rewrite Z.add_simpl_r. split; [done|]. split; [lia|done].
Qed.

End Heap.

(** A process of 12288 bytes whose [base] is at 8192, before and after its first call. *)
Section Example.

Definition heap0_ex : uheap := mkuheap ∅ 0 12288.
Definition first_ex : uheap :=
  Eval vm_compute in match malloc 8192 (λ _ _, true) 100 heap0_ex with Ok _ s => s | _ => heap0_ex end.

Lemma malloc_fits_witness :
  ∃ p s', malloc 8192 (λ _ _, true) 100 heap0_ex = Ok p s' ∧
    ((p = 0 ∧ heap 8192 s' [] ∅ ∧ (∀ c, c ∈ ([] : list (Z * Z)) → c.2 < nunits 100) ∧ refused (λ _ _, true) heap0_ex (nunits 100)) ∨
     (0 < p ∧ ∃ F', heap 8192 s' F' (<[p - 8 := nunits 100]> ∅) ∧ (∅ : gmap Z Z) !! (p - 8) = None ∧ 100 <= 8 * (nunits 100 - 1))).
Proof. apply (malloc_fits 8192 (λ _ _, true) heap0_ex [] ∅ 100); [right; by split_and!|done]. Defined.

Lemma first_ex_heap : heap 8192 first_ex [(12288, 4082)] {[44944 := 14]}.
Proof.
  split; try done.
  - intros a n [= -> ->]%list_elem_of_singleton. done.
  - set_solver.
  - intros a n [<- <-]%lookup_singleton_Some. by vm_compute.
  - intros a n c [<- <-]%lookup_singleton_Some ->%list_elem_of_singleton. by right.
  - intros a n b k [<- <-]%lookup_singleton_Some [<- <-]%lookup_singleton_Some. done.
Qed.

Lemma free_gives_back_witness :
  ∃ s' F', free 44952 first_ex = Ok tt s' ∧ heap 8192 s' F' (delete (44952 - 8) {[44944 := 14]}) ∧ inc (8192 + 7) F' ∧
    units F' = units [(12288, 4082)] + 14 ∧ (∃ c, c ∈ F' ∧ 14 <= c.2).
Proof. apply (free_gives_back 8192 first_ex [(12288, 4082)] {[44944 := 14]} 44952 14); [apply first_ex_heap|done]. Defined.

Lemma malloc_size_wraps_witness :
  ∃ p s' F', malloc 8192 (λ _ _, true) 4294967295 first_ex = Ok p s' ∧ 0 < p ∧ heap 8192 s' F' (<[p - 8 := 1]> {[44944 := 14]}).
Proof. apply (malloc_size_wraps 8192 (λ _ _, true) first_ex [(12288, 4082)]); [apply first_ex_heap|done|done]. Defined.

End Example.
