(* ===== verification/User.v ===== *)
(** * User: system calls as user programs see them, and the user library
    (user.h, ulib.c, printf.c)

    A program runs over any operating system that provides the class [Sys]; what a
    program relies on in the files it reads and writes is the class [Stream].
    Functions on C strings take memory and addresses, as in CMem.v; where only the
    bytes of a string matter it is a list without its NUL. *)

From S2P Require Import Prelude Machine CMem ConsOut.
From stdpp Require Import options.

(** ** System calls (user.h) *)

(** The bytes a call stores through a pointer are part of its result; a null string is
    not distinguished from one outside memory. *)
Class Sys (S : Type) := {
  sys_read : Z → Z → M S (Z * list Z);
  sys_write : Z → list Z → M S Z;
  sys_open : list Z → Z → M S Z;
  sys_close : Z → M S Z;
  sys_fstat : Z → M S (Z * (Z * Z * Z));
  sys_fork : Z → M S Z;
  sys_wait : M S Z;
  sys_exec : list Z → list (list Z) → M S Z;
  sys_kill : Z → M S Z;
  sys_link : list Z → list Z → M S Z;
  sys_unlink : list Z → M S Z;
  sys_mkdir : list Z → M S Z;
  sys_mknod : list Z → Z → Z → M S Z;
  sys_chdir : list Z → M S Z;
  sys_dup : Z → M S Z;
  sys_pipe : M S (Z * (Z * Z));
  sys_sleep : Z → M S Z
}.

(** What a program that copies bytes relies on: [inp fd] is what is left to read on a
    descriptor, [out fd] what has been written to it. A read returns as many bytes as
    there are, up to the number asked for, as readi() does on files: descriptors of pipes
    and of the console, whose reads can be short, are not streams in this sense. A write
    writes everything. *)
Class Stream (S : Type) `{Sys S} := {
  inp : Z → S → list Z;
  out : Z → S → list Z;
  read_law fd n s : 0 <= n →
    ∃ s', sys_read fd n s = Ok (Z.of_nat (length (take (Z.to_nat n) (inp fd s))), take (Z.to_nat n) (inp fd s)) s' ∧
      inp fd s' = drop (Z.to_nat n) (inp fd s) ∧ (∀ fd', out fd' s' = out fd' s);
  write_law fd l s :
    ∃ s', sys_write fd l s = Ok (Z.of_nat (length l)) s' ∧ out fd s' = out fd s ++ l ∧
      (∀ fd', fd' ≠ fd → out fd' s' = out fd' s) ∧ (∀ fd', inp fd' s' = inp fd' s)
}.

(** ** ulib.c *)

Module Ulib.

(** [while(( *s++ = *t++) != 0);] with at most [bound] rounds. *)
Fixpoint strcpy (m : gmap Z Z) (s t : Z) (bound : nat) : option (gmap Z Z) :=
  match bound with
  | O => None
  | S n =>
    let m := wr m s (rd m t) in
    if rd m s =? 0 then Some m else strcpy m (s + 1) (t + 1) n
  end.

(** On C strings as lists. *)
Fixpoint strcmp (p q : list Z) : Z :=
  match p, q with
  | a :: p', b :: q' => if a =? b then strcmp p' q' else u8 a - u8 b
  | a :: _, [] => u8 a
  | [], b :: _ => - u8 b
  | [], [] => 0
  end.

Definition memset (m : gmap Z Z) (dst c n : Z) : gmap Z Z := stosb m dst c (Z.to_nat n).

(** The rest of the string from the first [c] on. *)
Fixpoint strchr (s : list Z) (c : Z) : option (list Z) :=
  match s with
  | [] => None
  | x :: s' => if x =? c then Some s else strchr s' c
  end.

(** [n = n*10 + *s++ - '0'] in an int. *)
Fixpoint atoi_loop (s : list Z) (n : Z) : Z :=
  match s with
  | c :: s => if (48 <=? c) && (c <=? 57) then atoi_loop s (s32 (n * 10 + c - 48)) else n
  | [] => n
  end.
Definition atoi (s : list Z) : Z := atoi_loop s 0.

(** Forward only. *)
Definition memmove (m : gmap Z Z) (dst src n : Z) : gmap Z Z := copy_forward m dst src (Z.to_nat n).

Section Calls.
Context {St : Type} `{Sys St}.

(** [for(i=0; i+1 < max; )]: one byte per read. *)
Fixpoint gets_loop (n : nat) : M St (list Z) :=
  match n with
  | O => mret []
  | S n =>
    '(cc, l) ← sys_read 0 1;
    if cc <? 1 then mret [] else
    c ← deref (head l);
    if (c =? 10) || (c =? 13) then mret [c] else
    rest ← gets_loop n;
    mret (c :: rest)
  end.
(** The string stored in buf. *)
Definition gets (max : Z) : M St (list Z) := gets_loop (Z.to_nat (max - 1)).

Definition stat (n : list Z) : M St (Z * (Z * Z * Z)) :=
  fd ← sys_open n O_RDONLY;
  if fd <? 0 then mret (-1, (0, 0, 0)) else
  r ← sys_fstat fd;
  sys_close fd ;;
  mret r.

(** ** printf.c *)

Definition digits : list Z := str "0123456789ABCDEF".

Definition putc (fd c : Z) : M St unit := sys_write fd [u8 c] ;; mret tt.

Definition printint (fd xx base sgn : Z) : M St unit :=
  for_each (printint_chars digits xx base sgn) (putc fd).

(** The loop of printf(); the state '%' is the inner match. Arguments are words
    or strings, as for cprintf(). *)
Fixpoint printf (fd : Z) (fmt : list Z) (args : list carg) : M St unit :=
  match fmt with
  | [] => skip
  | c :: fmt =>
    if negb (c =? 37) then putc fd c ;; printf fd fmt args else
    match fmt with
    | [] => skip
    | c :: fmt =>
      if c =? 100 then
        match args with Aint z :: args => printint fd z 10 1 ;; printf fd fmt args | _ => fault end
      else if (c =? 120) || (c =? 112) then
        match args with Aint z :: args => printint fd z 16 0 ;; printf fd fmt args | _ => fault end
      else if c =? 115 then
        match args with
        | Astr s :: args => for_each (default (str "(null)") s) (putc fd) ;; printf fd fmt args
        | _ => fault
        end
      else if c =? 99 then
        match args with Aint z :: args => putc fd z ;; printf fd fmt args | _ => fault end
      else if c =? 37 then putc fd c ;; printf fd fmt args
      else putc fd 37 ;; putc fd c ;; printf fd fmt args
    end
  end.

End Calls.

End Ulib.

(** ** A concrete operating system: files are byte lists *)

Record ufs := mkufs { uf_in : gmap Z (list Z); uf_out : gmap Z (list Z) }.

#[global] Instance ufs_sys : Sys ufs := {|
  sys_read fd n := λ s,
    let l := take (Z.to_nat n) (default [] (uf_in s !! fd)) in
    Ok (Z.of_nat (length l), l) (mkufs (<[fd := drop (Z.to_nat n) (default [] (uf_in s !! fd))]> (uf_in s)) (uf_out s));
  sys_write fd l := λ s,
    Ok (Z.of_nat (length l)) (mkufs (uf_in s) (<[fd := default [] (uf_out s !! fd) ++ l]> (uf_out s)));
  sys_open _ _ := mret 3; sys_close _ := mret 0; sys_fstat _ := mret (-1, (0, 0, 0));
  sys_fork _ := mret (-1); sys_wait := mret (-1); sys_exec _ _ := mret (-1); sys_kill _ := mret (-1);
  sys_link _ _ := mret (-1); sys_unlink _ := mret (-1); sys_mkdir _ := mret (-1); sys_mknod _ _ _ := mret (-1);
  sys_chdir _ := mret (-1); sys_dup _ := mret (-1); sys_pipe := mret (-1, (0, 0)); sys_sleep _ := mret 0 |}.

#[global] Program Instance ufs_stream : Stream ufs := {|
  inp fd s := default [] (uf_in s !! fd); out fd s := default [] (uf_out s !! fd) |}.
Next Obligation.
  intros fd n s Hn. eexists. split; [done|]. cbn. rewrite lookup_insert_eq. done.
Qed.
Next Obligation.
  intros fd l s. eexists. split; [done|]. cbn. rewrite lookup_insert_eq. split; [done|]. split; [|done].
  intros fd' Hne. by rewrite lookup_insert_ne.
Qed.

(** ** What printf() writes *)

Fixpoint render (fmt : list Z) (args : list carg) : option (list Z) :=
  match fmt with
  | [] => Some []
  | c :: fmt =>
    if negb (c =? 37) then (u8 c ::.) <$> render fmt args else
    match fmt with
    | [] => Some []
    | c :: fmt =>
      if c =? 100 then
        match args with Aint z :: args => ((u8 <$> printint_chars Ulib.digits z 10 1) ++.) <$> render fmt args | _ => None end
      else if (c =? 120) || (c =? 112) then
        match args with Aint z :: args => ((u8 <$> printint_chars Ulib.digits z 16 0) ++.) <$> render fmt args | _ => None end
      else if c =? 115 then
        match args with Astr s :: args => ((u8 <$> default (str "(null)") s) ++.) <$> render fmt args | _ => None end
      else if c =? 99 then
        match args with Aint z :: args => (u8 z ::.) <$> render fmt args | _ => None end
      else if c =? 37 then (u8 c ::.) <$> render fmt args
      else (λ l, 37 :: u8 c :: l) <$> render fmt args
    end
  end.

Section Writes.
Context {St : Type} `{Stream St}.

(** [l] was written to [fd] and nothing else happened on any descriptor. *)
Definition wrote (fd : Z) (l : list Z) (s s' : St) : Prop :=
  out fd s' = out fd s ++ l ∧ (∀ fd', fd' ≠ fd → out fd' s' = out fd' s) ∧ (∀ fd', inp fd' s' = inp fd' s).

(** [m] returns normally, having written [l]. *)
Definition writes (fd : Z) (l : list Z) (m : M St unit) : Prop := ∀ s, ∃ s', m s = Ok tt s' ∧ wrote fd l s s'.

Lemma writes_skip fd : writes fd [] skip.
Proof. intros s. exists s. split; [done|]. split_and!; [by rewrite app_nil_r|done..]. Qed.

Lemma wrote_trans fd l1 l2 s s1 s2 : wrote fd l1 s s1 → wrote fd l2 s1 s2 → wrote fd (l1 ++ l2) s s2.
Proof.
  intros (O1 & P1 & I1) (O2 & P2 & I2). split_and!.
  - by rewrite O2, O1, <- (assoc_L (++)).
  - intros fd' Hne. by rewrite P2, P1.
  - intros fd'. by rewrite I2, I1.
Qed.

Lemma writes_seq fd l1 l2 m1 m2 : writes fd l1 m1 → writes fd l2 m2 → writes fd (l1 ++ l2) (m1 ;; m2).
Proof.
  intros H1 H2 s. destruct (H1 s) as (s1 & E1 & W1). destruct (H2 s1) as (s2 & E2 & W2).
  exists s2. rewrite (bind_Ok _ _ _ _ _ E1). split; [done|]. by eapply wrote_trans.
Qed.

Lemma writes_putc fd c : writes fd [u8 c] (Ulib.putc fd c).
Proof.
  intros s. destruct (write_law fd [u8 c] s) as (s' & E & ?). exists s'. unfold Ulib.putc.
  by rewrite (bind_Ok _ _ _ _ _ E).
Qed.

Lemma writes_chars fd l : writes fd (u8 <$> l) (for_each l (Ulib.putc fd)).
Proof.
  induction l as [|c l IH]; [apply writes_skip|]. apply (writes_seq fd [u8 c]); [apply writes_putc|done].
Qed.

Lemma writes_printf fd fmt args l : render fmt args = Some l → writes fd l (Ulib.printf fd fmt args).
Proof.
  revert args l. induction (Nat.lt_wf_0_projected (@length Z) fmt) as [fmt _ IH]. intros args l Hr.
  destruct fmt as [|c fmt]; cbn [render Ulib.printf] in *; [simplify_eq; apply writes_skip|].
  destruct (negb (c =? 37)).
  { apply fmap_Some in Hr as (l' & ? & ->). apply (writes_seq fd [u8 c]); [apply writes_putc|apply IH; [cbn; lia|done]]. }
  destruct fmt as [|d fmt]; [simplify_eq; apply writes_skip|].
  assert (∀ args l, render fmt args = Some l → writes fd l (Ulib.printf fd fmt args)) as IH'
    by (intros; apply IH; [cbn; lia|done]).
  repeat case_match; simplify_eq; apply fmap_Some in Hr as (l' & ? & ->);
    (apply writes_seq || apply (writes_seq fd [_]) || apply (writes_seq fd [37]));
    try apply (writes_seq fd [_]); auto using writes_putc, writes_chars.
  - apply (writes_putc fd 37).
Qed.

End Writes.

(** ** atoi() *)

Lemma s32_step a b : s32 (s32 a * 10 + b) = s32 (a * 10 + b).
Proof. unfold s32. Z.div_mod_to_equations. lia. Qed.

Lemma atoi_loop_digits l rest n :
  Forall (λ c, 48 <= c <= 57) l → (∀ c, head rest = Some c → ¬ 48 <= c <= 57) →
  Ulib.atoi_loop (l ++ rest) (s32 n) = s32 (foldl (λ acc c, acc * 10 + hexval c) n l).
Proof.
  intros Hl Hr. revert n. induction Hl as [|c l Hc Hl IH]; intros n; cbn [app Ulib.atoi_loop foldl].
  - destruct rest as [|c rest]; [done|]. cbn. specialize (Hr c eq_refl).
    destruct (Z.leb_spec 48 c), (Z.leb_spec c 57); try done. lia.
  - destruct (Z.leb_spec 48 c), (Z.leb_spec c 57); [|lia..]. cbn [andb]. rewrite <- IH. f_equal.
    unfold hexval. destruct (Z.leb_spec c 57); [|lia].
    replace (s32 n * 10 + c - 48) with (s32 n * 10 + (c - 48)) by lia. apply s32_step.
Qed.

Lemma digits_loop_decimal fuel x : 0 <= x → Forall (λ c, 48 <= c <= 57) (digits_loop Ulib.digits fuel x 10).
Proof.
  assert (∀ i, 0 <= i < 10 → 48 <= Ulib.digits !!! Z.to_nat i <= 57) as Hd.
  { intros i Hi. assert (i = 0 ∨ i = 1 ∨ i = 2 ∨ i = 3 ∨ i = 4 ∨ i = 5 ∨ i = 6 ∨ i = 7 ∨ i = 8 ∨ i = 9) as Hi' by lia.
    by destruct_or! Hi'; subst; vm_compute. }
  revert x. induction fuel as [|n IH]; intros x Hx; cbn [digits_loop]; [done|].
  constructor; [apply Hd, Z.mod_pos_bound; lia|]. destruct (_ =? 0); [done|]. apply IH, Z.div_pos; lia.
Qed.

Lemma ulib_digit_table : digit_table Ulib.digits.
Proof. apply digit_table_check. by vm_compute. Qed.

Lemma decimal_value x : 0 <= x < 2147483648 →
  Forall (λ c, 48 <= c <= 57) (printint_chars Ulib.digits x 10 1) ∧
  parse_digits 10 (printint_chars Ulib.digits x 10 1) = x.
Proof.
  intros Hx. unfold printint_chars. destruct (Z.ltb_spec x 0); [lia|]. cbn [Z.eqb negb andb].
  rewrite u32_small by (unfold is_u32; lia). split; [apply Forall_reverse, digits_loop_decimal; lia|].
  apply digits_loop_value; [apply ulib_digit_table|lia|]. change (2 ^ Z.of_nat 32) with 4294967296. lia.
Qed.

(** atoi() reads back what printf("%d") prints: the decimal digits of a number from 0
    to 2^31-1, followed by anything that is not a digit, give the number. *)
Theorem atoi_reads_printint (x : Z) (rest : list Z) :
  0 <= x < 2147483648 → (∀ c, head rest = Some c → ¬ 48 <= c <= 57) →
  Ulib.atoi (printint_chars Ulib.digits x 10 1 ++ rest) = x.
Proof.
  intros Hx Hr. destruct (decimal_value x Hx) as [Hd Hv].
  rewrite <- Hv at 2. unfold Ulib.atoi. change 0 with (s32 0) at 1. rewrite atoi_loop_digits by done.
  change (s32 (parse_digits 10 (printint_chars Ulib.digits x 10 1)) = parse_digits 10 (printint_chars Ulib.digits x 10 1)).
  rewrite Hv. apply s32_small. lia.
Qed.

Lemma atoi_reads_printint_witness :
  Ulib.atoi (printint_chars Ulib.digits 2147483647 10 1 ++ str " pid") = 2147483647.
Proof. apply (atoi_reads_printint 2147483647 (str " pid")); [lia|]. intros c Hc. vm_compute in Hc. injection Hc as <-. lia. Defined.
