(* ===== verification/Grep.v ===== *)
(** * Grep: the pattern matcher and the line filter of grep.c

    The matcher is compared with the meaning of a pattern as a set of strings; the
    filter, with the list of the input's lines, for input delivered as a file
    delivers it. *)

From S2P Require Import Prelude Machine CMem ConsOut User.
From stdpp Require Import options.

(** ** The matcher *)

(** matchstar(c, re, text), the matcher of re being [here]. *)
Fixpoint matchstar (c : Z) (here : list Z → bool) (text : list Z) : bool :=
  if here text then true else
  match text with
  | [] => false
  | t :: text => if (t =? c) || (c =? 46) then matchstar c here text else false
  end.

Fixpoint matchhere (re text : list Z) : bool :=
  match re with
  | [] => true
  | r0 :: re1 =>
    let next :=
      if (r0 =? 36) && bool_decide (re1 = []) then bool_decide (text = []) else
      match text with
      | [] => false
      | t :: text => if (r0 =? 46) || (r0 =? t) then matchhere re1 text else false
      end in
    match re1 with
    | r1 :: re2 => if r1 =? 42 then matchstar r0 (matchhere re2) text else next
    | [] => next
    end
  end.

(** [do{ if(matchhere(re, text)) return 1; }while( *text++ != 0)] *)
Fixpoint match_loop (re text : list Z) : bool :=
  if matchhere re text then true else
  match text with [] => false | _ :: text => match_loop re text end.

Definition match_ (re text : list Z) : bool :=
  match re with
  | r0 :: re1 => if r0 =? 94 then matchhere re1 text else match_loop re text
  | [] => match_loop re text
  end.

(** ** The filter *)

Section Filter.
Context {St : Type} `{Sys St}.

(** strchr(p, '\n') on the NUL-terminated buffer: the bytes before the newline and
    those after it. *)
Fixpoint split_nl (p : list Z) : option (list Z * list Z) :=
  match p with
  | [] => None
  | c :: p =>
    if c =? 0 then None
    else if c =? 10 then Some ([], p)
    else match split_nl p with Some (l, rest) => Some (c :: l, rest) | None => None end
  end.

(** The inner loop, from p; every round takes a newline, so the length of the buffer
    bounds it. It returns the final p. *)
Fixpoint grep_lines (n : nat) (pattern p : list Z) : M St (list Z) :=
  match n with
  | O => mret p
  | S n =>
    match split_nl p with
    | None => mret p
    | Some (line, rest) =>
      when (match_ pattern line) (sys_write 1 (line ++ [10]) ;; mret tt) ;;
      grep_lines n pattern rest
    end
  end.

(** The outer loop with at most [rounds] reads; [pend] is the buffer's first m bytes. *)
Fixpoint grep_loop (rounds : nat) (pattern : list Z) (fd : Z) (pend : list Z) : M St unit :=
  match rounds with
  | O => hang
  | S rounds =>
    '(n, l) ← sys_read fd (1024 - Z.of_nat (length pend) - 1);
    if n <=? 0 then skip else
    let buf := pend ++ l in
    p ← grep_lines (length buf) pattern buf;
    let m := if decide (length p = length buf) then [] else p in
    grep_loop rounds pattern fd m
  end.
Definition grep (rounds : nat) (pattern : list Z) (fd : Z) : M St unit := grep_loop rounds pattern fd [].

(** [argv] without the program's name. *)
Fixpoint grep_files (rounds : nat) (pattern : list Z) (argv : list (list Z)) : M St unit :=
  match argv with
  | [] => skip
  | a :: argv =>
    fd ← sys_open a 0;
    if fd <? 0 then Ulib.printf 1 (str "grep: cannot open %s" ++ [10]) [Astr (Some a)] else
    grep rounds pattern fd ;;
    sys_close fd ;;
    grep_files rounds pattern argv
  end.
Definition grep_main (rounds : nat) (argv : list (list Z)) : M St unit :=
  match argv with
  | [] => Ulib.printf 2 (str "usage: grep pattern [file ...]" ++ [10]) []
  | [pattern] => grep rounds pattern 0
  | pattern :: files => grep_files rounds pattern files
  end.

End Filter.

(** ** Meaning of patterns *)

(** A character of the pattern, alone or under a star. *)
Inductive item := One (c : Z) | Many (c : Z).

(** The items of a pattern and whether it ends in an anchor. *)
Fixpoint items (re : list Z) : list item * bool :=
  match re with
  | [] => ([], false)
  | c :: re1 =>
    let next := if decide (c = 36 ∧ re1 = []) then ([], true) else ((One c) :: (items re1).1, (items re1).2) in
    match re1 with
    | r1 :: re2 => if decide (r1 = 42) then (Many c :: (items re2).1, (items re2).2) else next
    | [] => next
    end
  end.

Definition accepts (c t : Z) : Prop := c = 46 ∨ c = t.

Inductive lang : list item → list Z → Prop :=
  | lang_nil : lang [] []
  | lang_one c its t s : accepts c t → lang its s → lang (One c :: its) (t :: s)
  | lang_many c its s1 s2 : Forall (accepts c) s1 → lang its s2 → lang (Many c :: its) (s1 ++ s2).

(** A text has a match of the pattern where its beginning and end allow one. *)
Definition has_match (re text : list Z) : Prop :=
  let front := bool_decide (head re = Some 94) in
  let '(its, back) := items (if front then tail re else re) in
  ∃ pre mid post, text = pre ++ mid ++ post ∧ lang its mid ∧
    (front = true → pre = []) ∧ (back = true → post = []).

(** The complete lines of a byte sequence, and what follows the last newline. *)
Fixpoint lines_of (l : list Z) : list (list Z) * list Z :=
  match l with
  | [] => ([], [])
  | c :: l =>
    let '(ls, t) := lines_of l in
    if decide (c = 10) then ([] :: ls, t) else
    match ls with [] => ([], c :: t) | x :: ls => ((c :: x) :: ls, t) end
  end.

(** ** Proofs about the matcher *)

Lemma matchstar_spec c here text :
  matchstar c here text = true ↔ ∃ s1 s2, text = s1 ++ s2 ∧ Forall (accepts c) s1 ∧ here s2 = true.
Proof.
  induction text as [|t text IH]; cbn [matchstar].
  - split.
    + destruct (here []) eqn:E; [|done]. by exists [], [].
    + intros (s1 & s2 & Heq & _ & Hh). destruct s1, s2; try done. by rewrite Hh.
  - destruct (here (t :: text)) eqn:E.
    + split; [by exists [], (t :: text)|done].
    + transitivity (accepts c t ∧ ∃ s1 s2, text = s1 ++ s2 ∧ Forall (accepts c) s1 ∧ here s2 = true).
      * rewrite <- IH. unfold accepts. destruct (Z.eqb_spec t c), (Z.eqb_spec c 46); cbn [orb]; naive_solver.
      * split.
        -- intros (? & s1 & s2 & -> & ? & ?). exists (t :: s1), s2. split_and!; auto.
        -- intros ([|x s1] & s2 & Heq & Hall & Hs2); cbn in Heq; simplify_eq/=; [congruence|].
           inversion_clear Hall. split; [done|]. by exists s1, s2.
Qed.

Lemma lang_many_inv c its s :
  lang (Many c :: its) s ↔ ∃ s1 s2, s = s1 ++ s2 ∧ Forall (accepts c) s1 ∧ lang its s2.
Proof.
  split.
  - inversion 1; subst. eauto.
  - intros (? & ? & -> & ? & ?). by constructor.
Qed.

Lemma lang_one_inv c its s :
  lang (One c :: its) s ↔ ∃ t s', s = t :: s' ∧ accepts c t ∧ lang its s'.
Proof.
  split.
  - inversion 1; subst. eauto.
  - intros (? & ? & -> & ? & ?). by constructor.
Qed.

(** A match at the beginning of the text. *)
Definition here_spec (re text : list Z) : Prop :=
  ∃ mid post, text = mid ++ post ∧ lang (items re).1 mid ∧ ((items re).2 = true → post = []).

Lemma here_one c re1 text :
  ¬ (c = 36 ∧ re1 = []) → (∀ r1 re2, re1 = r1 :: re2 → r1 ≠ 42) →
  here_spec (c :: re1) text ↔ ∃ t text', text = t :: text' ∧ accepts c t ∧ here_spec re1 text'.
Proof.
  intros Hd Hs. unfold here_spec.
  assert (items (c :: re1) = (One c :: (items re1).1, (items re1).2)) as ->.
  { cbn [items]. destruct re1 as [|r1 re2]; [by rewrite decide_False by naive_solver|].
    rewrite decide_False by (by eapply Hs). by rewrite decide_False by naive_solver. }
  cbn [fst snd]. setoid_rewrite lang_one_inv. split.
  - intros (? & post & -> & (t & s' & -> & Ha & Hl) & Hp). exists t, (s' ++ post). split_and!; [done..|].
    by exists s', post.
  - intros (t & ? & -> & Ha & s' & post & -> & Hl & Hp). exists (t :: s'), post. naive_solver.
Qed.

Lemma here_many c re2 text :
  here_spec (c :: 42 :: re2) text ↔ ∃ s1 s2, text = s1 ++ s2 ∧ Forall (accepts c) s1 ∧ here_spec re2 s2.
Proof.
  unfold here_spec. cbn [items]. rewrite decide_True by done. cbn [fst snd]. setoid_rewrite lang_many_inv. split.
  - intros (? & post & -> & (s1 & s2 & -> & Ha & Hl) & Hp). exists s1, (s2 ++ post).
    rewrite (assoc_L (++)). split_and!; [done..|]. by exists s2, post.
  - intros (s1 & ? & -> & Ha & s2 & post & -> & Hl & Hp). exists (s1 ++ s2), post. rewrite (assoc_L (++)). naive_solver.
Qed.

Lemma here_end text : here_spec [36] text ↔ text = [].
Proof.
  unfold here_spec. cbn. split.
  - intros (mid & post & -> & Hl & ->); [|done]. by inversion Hl.
  - intros ->. exists [], []. by repeat constructor.
Qed.

Lemma here_nil text : here_spec [] text.
Proof. exists [], text. by repeat constructor. Qed.

Lemma matchhere_next c re1 text :
  (∀ t, matchhere re1 t = true ↔ here_spec re1 t) → (∀ r1 re2, re1 = r1 :: re2 → r1 ≠ 42) →
  (if (c =? 36) && bool_decide (re1 = []) then bool_decide (text = []) else
   match text with
   | [] => false
   | t :: text => if (c =? 46) || (c =? t) then matchhere re1 text else false
   end) = true ↔ here_spec (c :: re1) text.
Proof.
  intros IH Hs. destruct (decide (c = 36 ∧ re1 = [])) as [[-> ->]|Hd].
  - rewrite here_end. cbn. by rewrite bool_decide_eq_true.
  - rewrite here_one by done.
    assert ((c =? 36) && bool_decide (re1 = []) = false) as ->.
    { destruct (Z.eqb_spec c 36); [|done]. case_bool_decide; naive_solver. }
    destruct text as [|t text]; [split; [done|naive_solver]|].
    transitivity (accepts c t ∧ here_spec re1 text); [|naive_solver].
    rewrite <- IH. unfold accepts. destruct (Z.eqb_spec c 46), (Z.eqb_spec c t); cbn [orb]; naive_solver.
Qed.

Lemma matchhere_spec re text : matchhere re text = true ↔ here_spec re text.
Proof.
  revert text. induction (Nat.lt_wf_0_projected (@length Z) re) as [re _ IH]. intros text.
  destruct re as [|c re1]; cbn [matchhere]; [split; [intros; apply here_nil|done]|].
  assert (∀ t, matchhere re1 t = true ↔ here_spec re1 t) as IH1 by (intros; apply IH; cbn; lia).
  destruct re1 as [|r1 re2]; [by apply matchhere_next|].
  destruct (Z.eqb_spec r1 42) as [->|Hne]; [|apply matchhere_next; naive_solver].
  rewrite here_many, matchstar_spec. setoid_rewrite IH; [done|cbn; lia].
Qed.

Lemma match_loop_spec re text : match_loop re text = true ↔ ∃ pre rest, text = pre ++ rest ∧ here_spec re rest.
Proof.
  induction text as [|t text IH]; cbn [match_loop].
  - destruct (matchhere re []) eqn:E.
    + apply matchhere_spec in E. split; [by exists [], []|done].
    + split; [done|]. intros (pre & rest & Heq & Hh). destruct pre, rest; try done.
      apply matchhere_spec in Hh. congruence.
  - destruct (matchhere re (t :: text)) eqn:E.
    + apply matchhere_spec in E. split; [by exists [], (t :: text)|done].
    + rewrite IH. split.
      * intros (pre & rest & -> & ?). by exists (t :: pre), rest.
      * intros ([|x pre] & rest & Heq & Hh); cbn in Heq; simplify_eq/=; [|by exists pre, rest].
        apply matchhere_spec in Hh. congruence.
Qed.

(** C29. grep's matcher decides the meaning of its patterns: match() returns true exactly
    when some part of the text belongs to the language of the pattern's items, at the
    beginning of the text if the pattern starts with ^, at its end if it ends in $. *)
Theorem match_decides (re text : list Z) : match_ re text = true ↔ has_match re text.
Proof.
  unfold match_, has_match. destruct re as [|r0 re1]; cbn [head tail].
  - rewrite match_loop_spec. unfold here_spec. cbn. naive_solver.
  - destruct (Z.eqb_spec r0 94) as [->|Hne].
    + rewrite bool_decide_eq_true_2 by done. rewrite matchhere_spec. unfold here_spec.
      destruct (items re1) as [its back]. cbn [fst snd]. split.
      * intros (mid & post & ? & ? & ?). exists [], mid, post. naive_solver.
      * intros (pre & mid & post & -> & ? & Hp & ?). rewrite Hp by done. by exists mid, post.
    + rewrite bool_decide_eq_false_2 by naive_solver. rewrite match_loop_spec. unfold here_spec.
      destruct (items (r0 :: re1)) as [its back]. cbn [fst snd]. naive_solver.
Qed.

(** ** Proofs about the filter *)

Definition plain (l : list Z) : Prop := Forall (λ c, c ≠ 0) l.
Definition emit (pattern : list Z) (ls : list (list Z)) : list Z :=
  concat ((λ l, l ++ [10]) <$> filter (λ l, match_ pattern l = true) ls).

Lemma lines_of_app x y :
  lines_of (x ++ y) = ((lines_of x).1 ++ (lines_of ((lines_of x).2 ++ y)).1, (lines_of ((lines_of x).2 ++ y)).2).
Proof.
  induction x as [|c x IH]; [by cbn; destruct (lines_of y)|]. cbn [app lines_of].
  rewrite IH. destruct (lines_of x) as [ls t]. cbn [fst snd].
  destruct (decide (c = 10)) as [->|Hne]; [done|].
  destruct ls as [|l ls]; cbn [app fst snd]; [|done].
  cbn [lines_of]. destruct (lines_of (t ++ y)) as [ls' t']. cbn [fst snd].
  rewrite decide_False by done. by destruct ls'.
Qed.

Lemma lines_of_cons c l : lines_of (c :: l) =
  (if decide (c = 10) then ([] :: (lines_of l).1, (lines_of l).2) else
   match (lines_of l).1 with [] => ([], c :: (lines_of l).2) | x :: ls => ((c :: x) :: ls, (lines_of l).2) end).
Proof. cbn [lines_of]. by destruct (lines_of l). Qed.

Lemma split_nl_lines p : plain p →
  match split_nl p with
  | None => lines_of p = ([], p)
  | Some (l, rest) => lines_of p = (l :: (lines_of rest).1, (lines_of rest).2) ∧
      (length rest < length p)%nat ∧ plain rest
  end.
Proof.
  induction p as [|c p IH]; intros Hp; [done|]. cbn [split_nl]. inversion_clear Hp as [|? ? Hc Hp']. specialize (IH Hp').
  rewrite lines_of_cons. destruct (Z.eqb_spec c 0); [done|]. destruct (Z.eqb_spec c 10) as [->|Hne].
  { rewrite decide_True by done. cbn [length]. split_and!; [done|lia|done]. }
  rewrite decide_False by done. destruct (split_nl p) as [[l rest]|]; cbn [length].
  - destruct IH as (-> & ? & ?). cbn [fst snd]. split_and!; [done|lia|done].
  - by rewrite IH.
Qed.

Lemma lines_of_tail p : plain p → plain (lines_of p).2 ∧ lines_of (lines_of p).2 = ([], (lines_of p).2) ∧
  ((lines_of p).1 = [] → (lines_of p).2 = p) ∧ ((lines_of p).1 ≠ [] → (length (lines_of p).2 < length p)%nat).
Proof.
  induction p as [|c p IH]; intros Hp; [done|]. inversion_clear Hp as [|? ? Hc Hp'].
  destruct (IH Hp') as (H1 & H2 & H3 & H4). rewrite lines_of_cons.
  assert (length (lines_of p).2 ≤ length p)%nat as Hle.
  { destruct (lines_of p).1; [rewrite H3 by done; lia|]. specialize (H4 ltac:(done)). lia. }
  case_decide as Hd; [cbn [fst snd length]; split_and!; try done; lia|].
  destruct (lines_of p).1 as [|x ls] eqn:E; cbn [fst snd length].
  - split_and!; try done; [by constructor| |by intros; rewrite H3].
    rewrite lines_of_cons, decide_False, H2 by done. done.
  - split_and!; try done. lia.
Qed.

Section FilterProofs.
Context {St : Type} `{Stream St}.

Lemma grep_lines_spec pattern n p (s : St) :
  plain p → (length p ≤ n)%nat →
  ∃ s', grep_lines n pattern p s = Ok (lines_of p).2 s' ∧
    out 1 s' = out 1 s ++ emit pattern (lines_of p).1 ∧ (∀ fd, inp fd s' = inp fd s).
Proof.
  revert p s. induction n as [|n IH]; intros p s Hp Hn; cbn [grep_lines].
  - destruct p; [|cbn in Hn; lia]. exists s. by rewrite app_nil_r.
  - pose proof (split_nl_lines p Hp) as Hs. destruct (split_nl p) as [[l rest]|].
    2:{ rewrite Hs. exists s. by rewrite app_nil_r. }
    destruct Hs as (-> & Hlt & Hr). cbn [fst snd]. unfold emit, when. rewrite filter_cons.
    destruct (match_ pattern l) eqn:E.
    + rewrite decide_True by done. destruct (write_law 1 (l ++ [10]) s) as (s1 & Hw & Ho & _ & Hi).
      destruct (IH rest s1 Hr ltac:(lia)) as (s' & Hg & Ho' & Hi').
      rewrite (bind_Ok _ _ s tt s1) by (by rewrite (bind_Ok _ _ _ _ _ Hw)). exists s'.
      split_and!; [done| |by intros; rewrite Hi', Hi].
      cbn [fmap list_fmap concat]. by rewrite Ho', Ho, <- (assoc_L (++)).
    + rewrite decide_False by done. rewrite (bind_Ok _ _ s tt s) by done. apply IH; [done|lia].
Qed.

(** Every complete line fits in the buffer with its newline. *)
Definition lines_fit (l : list Z) : Prop := Forall (λ x, length x ≤ 1022)%nat (lines_of l).1.

(** A buffer with no newline is the whole input, or no line follows. *)
Lemma no_line_in_buffer buf rest :
  lines_of buf = ([], buf) → lines_fit (buf ++ rest) → (rest ≠ [] → length buf = 1023%nat) →
  (lines_of (buf ++ rest)).1 = [] ∧ (lines_of rest).1 = [].
Proof.
  intros Hb Hf Hlen. cut ((lines_of (buf ++ rest)).1 = []).
  { intros Hn. split; [done|]. clear -Hn. revert Hn. induction buf as [|c buf IH]; [done|].
    cbn [app]. rewrite lines_of_cons. case_decide; [done|]. destruct (lines_of (buf ++ rest)).1; [auto|done]. }
  destruct rest as [|r rest]; [by rewrite app_nil_r, Hb|]. specialize (Hlen ltac:(done)). revert Hf. unfold lines_fit.
  assert (length buf > 1022)%nat as Hgt by lia. clear Hlen.
  assert (∀ k, length buf > k → (lines_of (buf ++ r :: rest)).1 = [] ∨
    ∃ x ls, (lines_of (buf ++ r :: rest)).1 = x :: ls ∧ length x > k)%nat as Hk.
  { clear Hgt. induction buf as [|c buf IH]; intros k Hk; cbn [length app] in *; [lia|].
    rewrite lines_of_cons in Hb |- *. case_decide; [by destruct (lines_of buf)|].
    destruct (lines_of buf) as [[|] t] eqn:E; cbn [fst snd] in Hb; [|done]. injection Hb as ->.
    destruct k as [|k].
    - destruct (lines_of (buf ++ r :: rest)).1 as [|x ls]; [by left|right]. cbn. eexists _, _. split; [done|]. cbn. lia.
    - destruct (IH eq_refl k ltac:(lia)) as [-> | (x & ls & -> & ?)]; [by left|right].
      eexists _, _. split; [done|]. cbn. lia. }
  destruct (Hk 1022%nat Hgt) as [-> | (x & ls & -> & ?)]; [done|]. inversion_clear 1. lia.
Qed.

Lemma emit_app pattern l1 l2 : emit pattern (l1 ++ l2) = emit pattern l1 ++ emit pattern l2.
Proof. unfold emit. by rewrite filter_app, fmap_app, concat_app. Qed.

Lemma lines_fit_tail x y : lines_fit (x ++ y) → lines_fit ((lines_of x).2 ++ y).
Proof. unfold lines_fit. rewrite lines_of_app. cbn [fst]. by intros [_ ?]%Forall_app. Qed.

Lemma grep_loop_spec pattern fd rounds pend (s : St) :
  plain (pend ++ inp fd s) → lines_of pend = ([], pend) → (length pend ≤ 1022)%nat →
  lines_fit (pend ++ inp fd s) → (length (inp fd s) < rounds)%nat →
  ∃ s', grep_loop rounds pattern fd pend s = Ok tt s' ∧
    out 1 s' = out 1 s ++ emit pattern (lines_of (pend ++ inp fd s)).1.
Proof.
  revert pend s. induction rounds as [|rounds IH]; intros pend s Hp Hn Hl Hf Hr; [lia|]. cbn [grep_loop].
  set (k := 1024 - Z.of_nat (length pend) - 1).
  destruct (read_law fd k s ltac:(lia)) as (s1 & Hrd & Hi & Ho). rewrite (bind_Ok _ _ _ _ _ Hrd). cbn beta iota.
  pose proof (take_drop (Z.to_nat k) (inp fd s)) as Heq.
  assert (drop (Z.to_nat k) (inp fd s) ≠ [] → length (take (Z.to_nat k) (inp fd s)) = Z.to_nat k) as Hk.
  { rewrite length_take. destruct (decide (length (inp fd s) ≤ Z.to_nat k)%nat); [by rewrite drop_ge by done|lia]. }
  assert (length (take (Z.to_nat k) (inp fd s)) ≤ Z.to_nat k)%nat as Hlek by (rewrite length_take; lia).
  generalize dependent (take (Z.to_nat k) (inp fd s)). generalize dependent (drop (Z.to_nat k) (inp fd s)).
  intros rest Hi l Hrd Heq Hk Hlek. rewrite <- Heq in *. rewrite length_app in Hr. clear Heq.
  destruct (Z.leb_spec (Z.of_nat (length l)) 0) as [Hz|Hz].
  { assert (rest = []) as -> by (destruct rest; [done|]; specialize (Hk ltac:(done)); lia).
    destruct l; [|cbn in Hz; lia]. exists s1. rewrite Ho, !app_nil_r, Hn. by rewrite app_nil_r. }
  rewrite (assoc_L (++)) in Hp, Hf |- *. apply Forall_app in Hp as [Hpb Hpr].
  destruct (grep_lines_spec pattern (length (pend ++ l)) (pend ++ l) s1 Hpb ltac:(done)) as (s2 & Hg & Ho2 & Hi2).
  rewrite (bind_Ok _ _ _ _ _ Hg). destruct (lines_of_tail (pend ++ l) Hpb) as (Ht1 & Ht2 & Ht3 & Ht4).
  destruct (decide ((lines_of (pend ++ l)).1 = [])) as [Hnone|Hsome].
  - rewrite decide_True by (by rewrite Ht3).
    destruct (no_line_in_buffer (pend ++ l) rest) as [Hz1 Hz2];
      [rewrite Ht3 in Ht2 by done; done|done|rewrite length_app; intros Hne; specialize (Hk Hne); lia|].
    destruct (IH [] s2) as (s' & Hs' & Ho'); [by rewrite Hi2, Hi|done|cbn; lia| | |].
    + unfold lines_fit. cbn [app]. by rewrite Hi2, Hi, Hz2.
    + rewrite Hi2, Hi. lia.
    + exists s'. split; [done|]. cbn [app] in Ho'. by rewrite Ho', Hi2, Hi, Hz1, Hz2, Ho2, Hnone, Ho, !app_nil_r.
  - specialize (Ht4 Hsome). rewrite decide_False by lia.
    destruct (IH (lines_of (pend ++ l)).2 s2) as (s' & Hs' & Ho').
    + rewrite Hi2, Hi. by apply Forall_app.
    + done.
    + assert (length (pend ++ l) ≤ 1023)%nat; [|lia]. rewrite length_app. lia.
    + rewrite Hi2, Hi. by apply lines_fit_tail.
    + rewrite Hi2, Hi. lia.
    + exists s'. split; [done|]. rewrite Ho', Ho2, Ho, Hi2, Hi, (lines_of_app (pend ++ l) rest). cbn [fst].
      by rewrite emit_app, (assoc_L (++)).
Qed.

End FilterProofs.

(** C36. On a file whose bytes are not NUL and whose lines fit in the buffer, with
    reads that return all the bytes asked for as long as there are as many (files, not
    pipes or the console), grep() terminates and writes to descriptor 1 exactly the
    newline-terminated lines that match the pattern, in order, each with its newline, also
    where a 1023-byte read ends in the middle of a line. With short reads this fails, as
    shown below. *)
Theorem grep_prints_matching_lines {St : Type} `{Stream St} (pattern : list Z) (fd : Z) (rounds : nat) (s : St) :
  plain (inp fd s) → lines_fit (inp fd s) → (length (inp fd s) < rounds)%nat →
  ∃ s', grep rounds pattern fd s = Ok tt s' ∧
    out 1 s' = out 1 s ++ emit pattern (lines_of (inp fd s)).1.
Proof. intros. apply (grep_loop_spec pattern fd rounds []); try done. cbn. lia. Qed.

Definition grep_input : list Z :=
  str "init" ++ [10] ++ str "acid" ++ [10] ++ str "abbbd" ++ [10] ++ str "last".

Lemma grep_prints_matching_lines_witness :
  ∃ s', grep 40 (str "ab*.*d$") 3 (mkufs {[3 := grep_input]} ∅) = Ok tt s' ∧
    out 1 s' = str "acid" ++ [10] ++ str "abbbd" ++ [10].
Proof.
  destruct (grep_prints_matching_lines (str "ab*.*d$") 3 40 (mkufs {[3 := grep_input]} ∅)) as (s' & Hs & Ho).
  - by apply (bool_decide_unpack _); vm_compute.
  - by apply (bool_decide_unpack _); vm_compute.
  - by apply (bool_decide_unpack _); vm_compute.
  - exists s'. split; [done|]. rewrite Ho. by vm_compute.
Defined.

(** ** Reads that return less than asked for *)

(** A descriptor whose reads return the chunks of a list, one each, as a pipe or the
    console does. *)
Record chunks := mkchunks { ch_in : list (list Z); ch_out : list Z }.

#[global] Instance chunks_sys : Sys chunks := {|
  sys_read _ n := λ s,
    match ch_in s with
    | [] => Ok (0, []) s
    | l :: ls =>
      if decide (Z.of_nat (length l) <= n) then Ok (Z.of_nat (length l), l) (mkchunks ls (ch_out s))
      else Ok (n, take (Z.to_nat n) l) (mkchunks (drop (Z.to_nat n) l :: ls) (ch_out s))
    end;
  sys_write _ l := λ s, Ok (Z.of_nat (length l)) (mkchunks (ch_in s) (ch_out s ++ l));
  sys_open _ _ := mret 3; sys_close _ := mret 0; sys_fstat _ := mret (-1, (0, 0, 0));
  sys_fork _ := mret (-1); sys_wait := mret (-1); sys_exec _ _ := mret (-1); sys_kill _ := mret (-1);
  sys_link _ _ := mret (-1); sys_unlink _ := mret (-1); sys_mkdir _ := mret (-1); sys_mknod _ _ _ := mret (-1);
  sys_chdir _ := mret (-1); sys_dup _ := mret (-1); sys_pipe := mret (-1, (0, 0)); sys_sleep _ := mret 0 |}.

Lemma split_nl_none p : plain p → 10 ∉ p → split_nl p = None.
Proof.
  induction p as [|c p IH]; intros Hp Hn; [done|]. inversion_clear Hp. cbn [split_nl].
  apply not_elem_of_cons in Hn as [? ?]. destruct (Z.eqb_spec c 0); [done|].
  destruct (Z.eqb_spec c 10); [lia|]. by rewrite IH.
Qed.

Lemma split_nl_one p : plain p → 10 ∉ p → split_nl (p ++ [10]) = Some (p, []).
Proof.
  induction p as [|c p IH]; intros Hp Hn; [done|]. inversion_clear Hp. cbn [split_nl app].
  apply not_elem_of_cons in Hn as [? ?]. destruct (Z.eqb_spec c 0); [done|].
  destruct (Z.eqb_spec c 10); [lia|]. by rewrite IH.
Qed.

Lemma grep_lines_none pattern p (s : chunks) :
  plain p → 10 ∉ p → grep_lines (length p) pattern p s = Ok p s.
Proof. intros. destruct p as [|c p]; [done|]. cbn [length grep_lines]. by rewrite split_nl_none. Qed.

Lemma grep_lines_one pattern p (s : chunks) :
  plain p → 10 ∉ p →
  grep_lines (length (p ++ [10])) pattern (p ++ [10]) s =
  Ok [] (mkchunks (ch_in s) (ch_out s ++ if match_ pattern p then p ++ [10] else [])).
Proof.
  intros. rewrite length_app, Nat.add_1_r. cbn [grep_lines]. rewrite split_nl_one by done.
  unfold when. destruct s as [i o]. destruct (match_ pattern p); cbn [ch_in ch_out].
  - rewrite (bind_Ok _ _ _ tt (mkchunks i (o ++ p ++ [10]))) by done. by destruct (length p).
  - rewrite (bind_Ok _ _ _ tt (mkchunks i o)) by done. rewrite app_nil_r. by destruct (length p).
Qed.

Lemma grep_loop_read rounds pattern l ls o :
  l ≠ [] → (length l <= 1023)%nat →
  grep_loop (S rounds) pattern 0 [] (mkchunks (l :: ls) o) =
  (p ← grep_lines (length l) pattern l;
   grep_loop rounds pattern 0 (if decide (length p = length l) then [] else p)) (mkchunks ls o).
Proof.
  intros Hne Hl. cbn [grep_loop length].
  rewrite (bind_Ok _ _ _ (Z.of_nat (length l), l) (mkchunks ls o)) by (cbn; by rewrite decide_True by lia).
  cbn beta iota. destruct (Z.leb_spec (Z.of_nat (length l)) 0); [|done]. destruct l; [done|cbn in *; lia].
Qed.

(** grep() forgets the beginning of a line when a read ends before its newline and
    brought no newline of its own: for every line (not empty, without newline or NUL)
    that arrives in two reads, only the second part is searched and printed. *)
Theorem grep_forgets_first_part (pattern first second o : list Z) :
  first ≠ [] → (length first <= 1023)%nat → (length second < 1023)%nat →
  plain (first ++ second) → 10 ∉ first → 10 ∉ second →
  grep 3 pattern 0 (mkchunks [first; second ++ [10]] o) =
  Ok tt (mkchunks [] (o ++ if match_ pattern second then second ++ [10] else [])).
Proof.
  intros Hne H1 H2 [Hp1 Hp2]%Forall_app Hn1 Hn2. unfold grep.
  rewrite grep_loop_read by (rewrite ?length_app; cbn [length]; lia || done).
  rewrite (bind_Ok _ _ _ first (mkchunks [second ++ [10]] o)) by (by apply grep_lines_none).
  rewrite decide_True by done. rewrite grep_loop_read.
  2:{ intros [? ?]%app_eq_nil. done. }
  2:{ rewrite length_app. cbn [length]. lia. }
  rewrite (bind_Ok _ _ _ [] (mkchunks [] (o ++ if match_ pattern second then second ++ [10] else [])))
    by (by apply grep_lines_one).
  rewrite decide_False by (rewrite length_app; cbn [length]; lia). done.
Qed.

Lemma grep_forgets_first_part_witness :
  grep 3 (str "^b") 0 (mkchunks [str "a"; str "b" ++ [10]] []) = Ok tt (mkchunks [] (str "b" ++ [10])).
Proof.
  apply (grep_forgets_first_part (str "^b") (str "a") (str "b") []);
    try (by apply (bool_decide_unpack _); vm_compute); vm_compute; lia.
Defined.
