(* ===== verification/Utils.v ===== *)
(** * Utils: the small user programs (cat.c, wc.c, echo.c, ls.c, kill.c, ln.c, mkdir.c,
    rm.c, init.c, zombie.c, teste.c, stressfs.c, forktest.c)

    [argv] is the argument vector without the program's name. Returning from a [main]
    is exit(); an inner function that may exit returns [false] when it did. A program
    is one process: fork() returns in it as in a parent or as in a child, and exec()
    returns only when it fails. Loops that end with the input, or with the children to
    wait for, take a bound on their rounds and [hang] beyond it. *)

From S2P Require Import Prelude Machine CMem DiskFmt ConsOut User.
From stdpp Require Import options.

Section Programs.
Context {St : Type} `{Sys St}.

(** ** cat.c *)

Fixpoint cat_loop (rounds : nat) (fd : Z) : M St Z :=
  match rounds with
  | O => hang
  | S rounds =>
    '(n, l) ← sys_read fd 512;
    if n <=? 0 then mret n else
    sys_write 1 l ;;
    cat_loop rounds fd
  end.
Definition cat (rounds : nat) (fd : Z) : M St bool :=
  n ← cat_loop rounds fd;
  if n <? 0 then Ulib.printf 1 (str "cat: read error" ++ [10]) [] ;; mret false else mret true.

Fixpoint cat_files (rounds : nat) (argv : list (list Z)) : M St unit :=
  match argv with
  | [] => skip
  | a :: argv =>
    fd ← sys_open a 0;
    if fd <? 0 then Ulib.printf 1 (str "cat: cannot open %s" ++ [10]) [Astr (Some a)] else
    go ← cat rounds fd;
    if negb go then skip else
    sys_close fd ;;
    cat_files rounds argv
  end.
Definition cat_main (rounds : nat) (argv : list (list Z)) : M St unit :=
  match argv with
  | [] => cat rounds 0 ;; skip
  | _ => cat_files rounds argv
  end.

(** ** wc.c *)

(** The counters l, w and c and the flag inword. *)
Record wcount := mkwc { wc_l : Z; wc_w : Z; wc_c : Z; wc_in : bool }.

Definition wc_step (k : wcount) (b : Z) : wcount :=
  let c := s32 (wc_c k + 1) in
  let l := if b =? 10 then s32 (wc_l k + 1) else wc_l k in
  match Ulib.strchr [32; 13; 9; 10; 11] b with
  | Some _ => mkwc l (wc_w k) c false
  | None => if wc_in k then mkwc l (wc_w k) c true else mkwc l (s32 (wc_w k + 1)) c true
  end.

Fixpoint wc_loop (rounds : nat) (fd : Z) (k : wcount) : M St (Z * wcount) :=
  match rounds with
  | O => hang
  | S rounds =>
    '(n, l) ← sys_read fd 512;
    if n <=? 0 then mret (n, k) else
    wc_loop rounds fd (fold_left wc_step l k)
  end.
Definition wc (rounds : nat) (fd : Z) (name : list Z) : M St bool :=
  '(n, k) ← wc_loop rounds fd (mkwc 0 0 0 false);
  if n <? 0 then Ulib.printf 1 (str "wc: read error" ++ [10]) [] ;; mret false else
  Ulib.printf 1 (str "%d %d %d %s" ++ [10]) [Aint (wc_l k); Aint (wc_w k); Aint (wc_c k); Astr (Some name)] ;;
  mret true.

Fixpoint wc_files (rounds : nat) (argv : list (list Z)) : M St unit :=
  match argv with
  | [] => skip
  | a :: argv =>
    fd ← sys_open a 0;
    if fd <? 0 then Ulib.printf 1 (str "wc: cannot open %s" ++ [10]) [Astr (Some a)] else
    go ← wc rounds fd a;
    if negb go then skip else
    sys_close fd ;;
    wc_files rounds argv
  end.
Definition wc_main (rounds : nat) (argv : list (list Z)) : M St unit :=
  match argv with
  | [] => wc rounds 0 [] ;; skip
  | _ => wc_files rounds argv
  end.

(** ** echo.c *)

Fixpoint echo_main (argv : list (list Z)) : M St unit :=
  match argv with
  | [] => skip
  | a :: argv =>
    let sep := match argv with [] => [10] | _ => [32] end in
    Ulib.printf 1 (str "%s%s") [Astr (Some a); Astr (Some sep)] ;;
    echo_main argv
  end.

(** ** kill.c, ln.c, mkdir.c, rm.c *)

Definition kill_main (argv : list (list Z)) : M St unit :=
  match argv with
  | [] => Ulib.printf 2 (str "usage: kill pid..." ++ [10]) []
  | _ => for_each argv (λ a, sys_kill (Ulib.atoi a) ;; skip)
  end.

Definition ln_main (argv : list (list Z)) : M St unit :=
  match argv with
  | [old; new] =>
    r ← sys_link old new;
    when (r <? 0) (Ulib.printf 2 (str "link %s %s: failed" ++ [10]) [Astr (Some old); Astr (Some new)])
  | _ => Ulib.printf 2 (str "Usage: ln old new" ++ [10]) []
  end.

Fixpoint mkdir_files (argv : list (list Z)) : M St unit :=
  match argv with
  | [] => skip
  | a :: argv =>
    r ← sys_mkdir a;
    if r <? 0 then Ulib.printf 2 (str "mkdir: %s failed to create" ++ [10]) [Astr (Some a)]
    else mkdir_files argv
  end.
Definition mkdir_main (argv : list (list Z)) : M St unit :=
  match argv with
  | [] => Ulib.printf 2 (str "Usage: mkdir files..." ++ [10]) []
  | _ => mkdir_files argv
  end.

Fixpoint rm_files (argv : list (list Z)) : M St unit :=
  match argv with
  | [] => skip
  | a :: argv =>
    r ← sys_unlink a;
    if r <? 0 then Ulib.printf 2 (str "rm: %s failed to delete" ++ [10]) [Astr (Some a)]
    else rm_files argv
  end.
Definition rm_main (argv : list (list Z)) : M St unit :=
  match argv with
  | [] => Ulib.printf 2 (str "Usage: rm files..." ++ [10]) []
  | _ => rm_files argv
  end.

(** ** ls.c *)

(** The part of a path after its last slash. *)
Fixpoint lastname (path : list Z) : list Z :=
  match path with
  | [] => []
  | c :: path' => if bool_decide (47 ∈ path') then lastname path' else if c =? 47 then path' else path
  end.

(** fmtname() pads short names with blanks in a static buffer of DIRSIZ+1 bytes. *)
Definition fmtname (path : list Z) : list Z :=
  let p := lastname path in
  if DIRSIZ <=? Z.of_nat (length p) then p
  else p ++ replicate (Z.to_nat (DIRSIZ - Z.of_nat (length p))) 32.

(** A NUL-terminated string in a byte array. *)
Fixpoint cstring (l : list Z) : list Z :=
  match l with [] => [] | c :: l => if c =? 0 then [] else c :: cstring l end.

Definition ls_line (name : list Z) (st : Z * Z * Z) : M St unit :=
  let '(type, ino, size) := st in
  Ulib.printf 1 (str "%s %d %d %d" ++ [10]) [Astr (Some (fmtname name)); Aint type; Aint ino; Aint size].

(** The loop on directory entries; [buf] is the path with its slash. *)
Fixpoint ls_entries (rounds : nat) (fd : Z) (buf : list Z) : M St unit :=
  match rounds with
  | O => hang
  | S rounds =>
    '(n, de) ← sys_read fd 16;
    if negb (n =? 16) then skip else
    if de_inum de =? 0 then ls_entries rounds fd buf else
    let name := buf ++ cstring (de_name de) in
    '(r, st) ← Ulib.stat name;
    (if r <? 0 then Ulib.printf 1 (str "ls: cannot stat %s" ++ [10]) [Astr (Some name)] else ls_line name st) ;;
    ls_entries rounds fd buf
  end.

Definition ls (rounds : nat) (path : list Z) : M St unit :=
  fd ← sys_open path 0;
  if fd <? 0 then Ulib.printf 2 (str "ls: cannot open %s" ++ [10]) [Astr (Some path)] else
  '(r, st) ← sys_fstat fd;
  if r <? 0 then Ulib.printf 2 (str "ls: cannot stat %s" ++ [10]) [Astr (Some path)] ;; sys_close fd ;; skip else
  let type := st.1.1 in
  (if type =? T_FILE then ls_line path st
   else if type =? T_DIR then
     if 512 <? Z.of_nat (length path) + 1 + DIRSIZ + 1 then Ulib.printf 1 (str "ls: path too long" ++ [10]) []
     else ls_entries rounds fd (path ++ [47])
   else skip) ;;
  sys_close fd ;;
  skip.

Definition ls_main (rounds : nat) (argv : list (list Z)) : M St unit :=
  match argv with
  | [] => ls rounds (str ".")
  | _ => for_each argv (ls rounds)
  end.

(** ** init.c *)

(** [while((wpid=wait()) >= 0 && wpid != pid) printf(1, "zombie!\n");] *)
Fixpoint init_wait (rounds : nat) (pid : Z) : M St unit :=
  match rounds with
  | O => hang
  | S rounds =>
    wpid ← sys_wait;
    if (0 <=? wpid) && negb (wpid =? pid) then
      Ulib.printf 1 (str "zombie!" ++ [10]) [] ;; init_wait rounds pid
    else skip
  end.

(** [for(;;)], for the first [shells] rounds. *)
Fixpoint init_loop (shells rounds : nat) : M St unit :=
  match shells with
  | O => hang
  | S shells =>
    Ulib.printf 1 (str "init: starting sh" ++ [10]) [] ;;
    pid ← sys_fork 0;
    if pid <? 0 then Ulib.printf 1 (str "init: fork failed" ++ [10]) [] else
    if pid =? 0 then
      sys_exec (str "sh") [str "sh"] ;;
      Ulib.printf 1 (str "init: exec sh failed" ++ [10]) []
    else
      init_wait rounds pid ;;
      init_loop shells rounds
  end.

Definition init_main (shells rounds : nat) : M St unit :=
  fd ← sys_open (str "console") O_RDWR;
  when (fd <? 0) (sys_mknod (str "console") 1 1 ;; sys_open (str "console") O_RDWR ;; skip) ;;
  sys_dup 0 ;;
  sys_dup 0 ;;
  init_loop shells rounds.

(** ** zombie.c and teste.c *)

Definition zombie_main : M St unit :=
  pid ← sys_fork 0;
  when (0 <? pid) (sys_sleep 5 ;; skip).

(** loop() of teste.c: two counting loops, without other effect. *)
Definition teste_spin : Z := N.iter 112345678 (λ i, s32 (i - 1)) (N.iter 112345678 (λ i, s32 (i - 1)) 0).

(** [for (i=1;i<=N;i++)]; [false] in a child, which spins and exits. *)
Fixpoint teste_forks (ks : list Z) : M St bool :=
  match ks with
  | [] => mret true
  | i :: ks =>
    pid ← sys_fork (Z.quot 1000 i);
    if pid =? 0 then (let _ := teste_spin in mret false) else teste_forks ks
  end.

(** [while(1){ pid=wait(); if(pid<0) break; }] *)
Fixpoint wait_all (rounds : nat) : M St unit :=
  match rounds with
  | O => hang
  | S rounds => pid ← sys_wait; if pid <? 0 then skip else wait_all rounds
  end.

Definition teste_main (rounds : nat) : M St unit :=
  parent ← teste_forks (seqZ 1 6);
  when parent (wait_all rounds).

(** ** stressfs.c *)

(** The value of i after the loop that forks. *)
Fixpoint stressfs_forks (n : nat) (i : Z) : M St Z :=
  match n with
  | O => mret i
  | S n => pid ← sys_fork 0; if 0 <? pid then mret i else stressfs_forks n (i + 1)
  end.

Definition stressfs_main : M St unit :=
  Ulib.printf 1 (str "stressfs starting" ++ [10]) [] ;;
  let data := replicate 512 97 in
  i ← stressfs_forks 4 0;
  Ulib.printf 1 (str "write %d" ++ [10]) [Aint i] ;;
  let path := str "stressfs" ++ [48 + i] in
  fd ← sys_open path (Z.lor O_CREATE O_RDWR);
  for_each (seqZ 0 20) (λ _, sys_write fd data ;; skip) ;;
  sys_close fd ;;
  Ulib.printf 1 (str "read" ++ [10]) [] ;;
  fd ← sys_open path O_RDONLY;
  for_each (seqZ 0 20) (λ _, sys_read fd 512 ;; skip) ;;
  sys_close fd ;;
  sys_wait ;;
  skip.

(** ** forktest.c, with its own printf() *)

Definition forktest_printf (fd : Z) (s : list Z) : M St unit := sys_write fd s ;; skip.

(** The number of children, [None] in a child. *)
Fixpoint forktest_forks (k : nat) (n : Z) : M St (option Z) :=
  match k with
  | O => mret (Some n)
  | S k =>
    pid ← sys_fork 0;
    if pid <? 0 then mret (Some n) else
    if pid =? 0 then mret None else
    forktest_forks k (n + 1)
  end.

(** [for(; n > 0; n--)]: false when wait() stopped early. *)
Fixpoint forktest_waits (n : nat) : M St bool :=
  match n with
  | O => mret true
  | S n => r ← sys_wait; if r <? 0 then mret false else forktest_waits n
  end.

Definition forktest : M St unit :=
  forktest_printf 1 (str "fork test" ++ [10]) ;;
  on ← forktest_forks 1000 0;
  match on with
  | None => skip
  | Some n =>
    if n =? 1000 then forktest_printf 1 (str "fork claimed to work N times!" ++ [10]) else
    all ← forktest_waits (Z.to_nat n);
    if negb all then forktest_printf 1 (str "wait stopped early" ++ [10]) else
    r ← sys_wait;
    if negb (r =? -1) then forktest_printf 1 (str "wait got too many" ++ [10]) else
    forktest_printf 1 (str "fork test OK" ++ [10])
  end.

End Programs.

(** ** cat copies *)

Section Copies.
Context {St : Type} `{Stream St}.

(** A read of 512 bytes splits the input: nothing when it is at its end, otherwise a
    first part that is not empty. *)
Lemma read_512 fd (s : St) :
  ∃ l rest s', sys_read fd 512 s = Ok (Z.of_nat (length l), l) s' ∧ inp fd s = l ++ rest ∧
    inp fd s' = rest ∧ (∀ fd', out fd' s' = out fd' s) ∧ (l = [] → rest = []).
Proof.
  destruct (read_law fd 512 s ltac:(lia)) as (s' & E & I & O).
  exists (take (Z.to_nat 512) (inp fd s)), (drop (Z.to_nat 512) (inp fd s)), s'.
  split_and!; [done|by rewrite take_drop|done|done|]. destruct (inp fd s); [done|]. done.
Qed.

Lemma cat_loop_spec rounds fd (s : St) :
  (length (inp fd s) < rounds)%nat →
  ∃ s', cat_loop rounds fd s = Ok 0 s' ∧ out 1 s' = out 1 s ++ inp fd s ∧
    (∀ fd', fd' ≠ 1 → out fd' s' = out fd' s).
Proof.
  revert s. induction rounds as [|rounds IH]; intros s Hr; [lia|]. cbn [cat_loop].
  destruct (read_512 fd s) as (l & rest & s1 & E & Hs & I & O & Hl). rewrite (bind_Ok _ _ _ _ _ E). cbn beta iota.
  rewrite Hs in Hr |- *. destruct l as [|c l].
  { exists s1. rewrite Hl by done. split_and!; [done|by rewrite O, app_nil_r|done]. }
  rewrite (proj2 (Z.leb_gt _ 0)) by (cbn [length]; lia).
  destruct (write_law 1 (c :: l) s1) as (s2 & E2 & O2 & P2 & I2). rewrite (bind_Ok _ _ _ _ _ E2).
  destruct (IH s2) as (s' & E' & O' & P').
  { rewrite I2, I. rewrite length_app in Hr. cbn in Hr. lia. }
  exists s'. split_and!; [done| |intros fd' Hne; by rewrite P', P2, O].
  by rewrite O', O2, O, I2, I, <- (assoc_L (++)).
Qed.

(** cat() copies: it terminates, and it writes to descriptor 1 what was left to read,
    byte for byte, and nothing elsewhere. *)
Theorem cat_copies (rounds : nat) (fd : Z) (s : St) :
  (length (inp fd s) < rounds)%nat →
  ∃ s', cat rounds fd s = Ok true s' ∧ out 1 s' = out 1 s ++ inp fd s ∧
    (∀ fd', fd' ≠ 1 → out fd' s' = out fd' s).
Proof.
  intros Hr. destruct (cat_loop_spec rounds fd s Hr) as (s' & E & ?). exists s'. unfold cat.
  by rewrite (bind_Ok _ _ _ _ _ E).
Qed.

(** ** wc counts *)

Definition white (c : Z) : bool := bool_decide (c ∈ [32; 13; 9; 10; 11]).

(** The maximal runs of bytes that are not white. *)
Fixpoint words (l : list Z) : list (list Z) :=
  match l with
  | [] => []
  | c :: l =>
    if white c then words l else
    match l with
    | d :: _ => if white d then [c] :: words l else
        match words l with w :: ws => (c :: w) :: ws | [] => [[c]] end
    | [] => [[c]]
    end
  end.

Definition starts_word (l : list Z) : bool := match l with c :: _ => negb (white c) | [] => false end.

Lemma strchr_white c : Ulib.strchr [32; 13; 9; 10; 11] c = None ↔ white c = false.
Proof.
  unfold white. rewrite bool_decide_eq_false. cbn [Ulib.strchr].
  destruct (Z.eqb_spec 32 c), (Z.eqb_spec 13 c), (Z.eqb_spec 9 c), (Z.eqb_spec 10 c), (Z.eqb_spec 11 c); set_solver.
Qed.

Lemma length_words_cons c l :
  length (words (c :: l)) =
  (length (words l) + if white c then 0 else if starts_word l then 0 else 1)%nat.
Proof.
  cbn [words]. destruct (white c); [lia|]. destruct l as [|d l]; [done|]. cbn [starts_word].
  destruct (white d) eqn:E; cbn [negb length]; [lia|].
  destruct (words (d :: l)) as [|w ws] eqn:Ew; [|cbn; lia]. exfalso. cbn [words] in Ew. rewrite E in Ew.
  repeat case_match; done.
Qed.

Definition newlines (l : list Z) : Z := Z.of_nat (length (filter (λ c, c = 10) l)).

Lemma newlines_cons c l : newlines (c :: l) = (if c =? 10 then 1 else 0) + newlines l.
Proof.
  unfold newlines. rewrite filter_cons. destruct (Z.eqb_spec c 10); [rewrite decide_True by done|rewrite decide_False by done];
    cbn [length]; lia.
Qed.

(** From inside a word, the run that continues it is not a new word. *)
Lemma wc_fold l k :
  0 <= wc_l k → 0 <= wc_w k → 0 <= wc_c k →
  wc_l k + Z.of_nat (length l) < 2147483648 → wc_w k + Z.of_nat (length l) < 2147483648 →
  wc_c k + Z.of_nat (length l) < 2147483648 →
  ∃ b, fold_left wc_step l k =
    mkwc (wc_l k + newlines l) (wc_w k + Z.of_nat (length (words l)) - if wc_in k && starts_word l then 1 else 0)
      (wc_c k + Z.of_nat (length l)) b.
Proof.
  revert k. induction l as [|c l IH]; intros k Hl Hw Hc Hl' Hw' Hc'; cbn [fold_left].
  { exists (wc_in k). destruct k as [kl kw kc ki]. change (newlines []) with 0. cbn. rewrite andb_false_r. f_equal; lia. }
  cbn [length] in *. rewrite Nat2Z.inj_succ in *. rewrite length_words_cons, newlines_cons.
  assert (wc_step k c = mkwc (wc_l k + if c =? 10 then 1 else 0)
    (wc_w k + if white c || wc_in k then 0 else 1) (wc_c k + 1) (negb (white c))) as ->.
  { unfold wc_step. rewrite (s32_small (wc_c k + 1)), (s32_small (wc_l k + 1)), (s32_small (wc_w k + 1)) by lia.
    destruct (Ulib.strchr _ c) eqn:E.
    - destruct (white c) eqn:Ew; [|by apply strchr_white in Ew; rewrite E in Ew]. cbn. destruct (c =? 10); f_equal; lia.
    - apply strchr_white in E. rewrite E. cbn. destruct (wc_in k), (c =? 10); f_equal; lia. }
  destruct (IH (mkwc (wc_l k + if c =? 10 then 1 else 0)
    (wc_w k + if white c || wc_in k then 0 else 1) (wc_c k + 1) (negb (white c)))) as (b & ->);
    cbn [wc_l wc_w wc_c wc_in]; try (destruct (c =? 10), (white c), (wc_in k); cbn; lia).
  exists b. cbn [starts_word]. f_equal; [lia| |lia].
  destruct (white c), (wc_in k), (starts_word l); cbn [negb andb orb]; lia.
Qed.

Lemma wc_loop_spec rounds fd k (s : St) :
  (length (inp fd s) < rounds)%nat →
  ∃ s', wc_loop rounds fd k s = Ok (0, fold_left wc_step (inp fd s) k) s' ∧ (∀ fd', out fd' s' = out fd' s).
Proof.
  revert k s. induction rounds as [|rounds IH]; intros k s Hr; [lia|]. cbn [wc_loop].
  destruct (read_512 fd s) as (l & rest & s1 & E & Hs & I & O & Hl). rewrite (bind_Ok _ _ _ _ _ E). cbn beta iota.
  rewrite Hs in Hr |- *. destruct l as [|c l].
  { exists s1. by rewrite Hl. }
  rewrite (proj2 (Z.leb_gt _ 0)) by (cbn [length]; lia).
  destruct (IH (fold_left wc_step (c :: l) k) s1) as (s' & E' & O').
  { rewrite I. rewrite length_app in Hr. cbn in Hr. lia. }
  exists s'. rewrite fold_left_app, <- I. split; [done|]. intros fd'. by rewrite O', O.
Qed.

(** The decimal digits printf writes for a count. *)
Definition dec (x : Z) : list Z := u8 <$> printint_chars Ulib.digits x 10 1.

(** wc() counts: for an input of less than 2^31 bytes it terminates and prints the
    number of newlines, of maximal runs of non-white bytes and of bytes, then the name,
    whatever the reads' boundaries cut apart. *)
Theorem wc_counts (rounds : nat) (fd : Z) (name : list Z) (s : St) :
  (length (inp fd s) < rounds)%nat → Z.of_nat (length (inp fd s)) < 2147483648 →
  ∃ s', wc rounds fd name s = Ok true s' ∧
    out 1 s' = out 1 s ++ dec (newlines (inp fd s)) ++ [32] ++ dec (Z.of_nat (length (words (inp fd s)))) ++ [32] ++
      dec (Z.of_nat (length (inp fd s))) ++ [32] ++ (u8 <$> name) ++ [10].
Proof.
  intros Hr Hlen. unfold wc. destruct (wc_loop_spec rounds fd (mkwc 0 0 0 false) s Hr) as (s1 & E & O).
  destruct (wc_fold (inp fd s) (mkwc 0 0 0 false)) as (b & Hf); cbn [wc_l wc_w wc_c]; try lia.
  rewrite (bind_Ok _ _ _ _ _ E), Hf. cbn beta iota. cbn [wc_l wc_w wc_c wc_in andb Z.ltb Z.compare].
  edestruct (writes_printf 1 (str "%d %d %d %s" ++ [10])
    [Aint (0 + newlines (inp fd s)); Aint (0 + Z.of_nat (length (words (inp fd s))) - 0);
     Aint (0 + Z.of_nat (length (inp fd s))); Astr (Some name)]) as (s2 & E2 & O2 & _); [reflexivity|].
  rewrite (bind_Ok _ _ _ _ _ E2). exists s2. split; [done|].
  rewrite O2, O, Z.sub_0_r, !Z.add_0_l. done.
Qed.

End Copies.

Lemma cat_copies_witness :
  ∃ s', cat 10 3 (mkufs {[3 := str "xv6"]} ∅) = Ok true s' ∧ out 1 s' = str "xv6".
Proof.
  destruct (cat_copies 10 3 (mkufs {[3 := str "xv6"]} ∅)) as (s' & E & O & _); [vm_compute; lia|].
  exists s'. split; [done|]. rewrite O. by vm_compute.
Defined.

Lemma wc_counts_witness :
  ∃ s', wc 30 3 (str "f") (mkufs {[3 := str "two words" ++ [10; 9] ++ str "x"]} ∅) = Ok true s' ∧
    out 1 s' = str "1 3 12 f" ++ [10].
Proof.
  destruct (wc_counts 30 3 (str "f") (mkufs {[3 := str "two words" ++ [10; 9] ++ str "x"]} ∅)) as (s' & E & O);
    [vm_compute; lia|by vm_compute|].
  exists s'. split; [done|]. rewrite O. by vm_compute.
Defined.
