(* ===== verification/Sh.v ===== *)
(** * Sh: the shell (sh.c)

    A command line is the list [buf] of its bytes without the NUL; pointers into it are
    offsets, and [es] is the offset of the NUL. The parsing functions run in the monad
    over the offset [*ps]; the shell's panic() is the monad's, printed by parsecmd().
    Commands keep, as the code does, the offsets where each word begins and ends until
    nulterminate() cuts the buffer. Recursion that is not structural has fuel. *)

From S2P Require Import Prelude Machine CMem ConsOut User.
From stdpp Require Import options.

Definition MAXARGS : nat := 10.

(** The five kinds of struct cmd; a word is the pair of offsets q and eq. *)
Inductive cmd :=
  | EXEC (argv : list (nat * nat))
  | REDIR (sub : cmd) (file : nat * nat) (mode fd : Z)
  | PIPE (left right : cmd)
  | LIST (left right : cmd)
  | BACK (sub : cmd).

Definition whitespace : list Z := [32; 9; 13; 10; 11].
Definition symbols : list Z := str "<|>&;()".
Definition in_set (set : list Z) (c : Z) : bool :=
  match Ulib.strchr set c with Some _ => true | None => false end.

(** ** Parsing *)

Section Parser.
Variable buf : list Z.

Definition es : nat := length buf.
Definition chr (s : nat) : Z := default 0 (buf !! s).

(** [while(s < es && strchr(whitespace, *s)) s++;] *)
Fixpoint skip_loop (n s : nat) : nat :=
  match n with
  | O => s
  | S n => if in_set whitespace (chr s) then skip_loop n (S s) else s
  end.
Definition skip_white (s : nat) : nat := skip_loop (es - s) s.

(** [while(s < es && !strchr(whitespace, *s) && !strchr(symbols, *s)) s++;] *)
Fixpoint word_loop (n s : nat) : nat :=
  match n with
  | O => s
  | S n => if negb (in_set whitespace (chr s)) && negb (in_set symbols (chr s)) then word_loop n (S s) else s
  end.
Definition word_end (s : nat) : nat := word_loop (es - s) s.

(** The switch of gettoken(): the token's kind and its end. *)
Definition scan (s : nat) : Z * nat :=
  let c := chr s in
  if c =? 0 then (c, s)
  else if (c =? 124) || (c =? 40) || (c =? 41) || (c =? 59) || (c =? 38) || (c =? 60) then (c, S s)
  else if c =? 62 then if chr (S s) =? 62 then (43, S (S s)) else (c, S s)
  else (97, word_end s).

(** gettoken(): the kind, and the offsets q and eq. *)
Definition gettoken : M nat (Z * (nat * nat)) := λ s,
  let q := skip_white s in
  let '(ret, eq) := scan q in
  Ok (ret, (q, eq)) (skip_white eq).

Definition peek (toks : list Z) : M nat bool := λ s,
  let s := skip_white s in
  Ok (negb (chr s =? 0) && in_set toks (chr s)) s.

(** The redirections put around a command so far, innermost first: parseexec() goes on
    filling the execcmd inside the redircmds it has. *)
Definition redirs : Type := list ((nat * nat) * Z * Z).
Definition wrap (c : cmd) (r : redirs) : cmd := fold_left (λ c '(w, mode, fd), REDIR c w mode fd) r c.

Fixpoint parseredirs (fuel : nat) (r : redirs) : M nat redirs :=
  match fuel with
  | O => hang
  | S n =>
    more ← peek (str "<>");
    if negb more then mret r else
    '(tok, _) ← gettoken;
    '(kind, w) ← gettoken;
    if negb (kind =? 97) then panic "missing file for redirection" else
    parseredirs n (if tok =? 60 then r ++ [(w, O_RDONLY, 0)]
      else if tok =? 62 then r ++ [(w, Z.lor O_WRONLY O_CREATE, 1)]
      else if tok =? 43 then r ++ [(w, Z.lor O_WRONLY O_CREATE, 1)]
      else r)
  end.

(** The loop of parseexec() on arguments. *)
Fixpoint parseargs (fuel : nat) (argv : list (nat * nat)) (r : redirs) : M nat cmd :=
  match fuel with
  | O => hang
  | S n =>
    stop ← peek (str "|)&;");
    if (stop : bool) then mret (wrap (EXEC argv) r) else
    '(tok, w) ← gettoken;
    if tok =? 0 then mret (wrap (EXEC argv) r) else
    if negb (tok =? 97) then panic "syntax" else
    let argv := argv ++ [w] in
    if (MAXARGS <=? length argv)%nat then panic "too many args" else
    r ← parseredirs n r;
    parseargs n argv r
  end.

(** [while(peek(ps, es, "&"))] *)
Fixpoint parseback (fuel : nat) (c : cmd) : M nat cmd :=
  match fuel with
  | O => hang
  | S n =>
    more ← peek (str "&");
    if negb more then mret c else
    gettoken ;;
    parseback n (BACK c)
  end.

Fixpoint parseline (fuel : nat) : M nat cmd :=
  match fuel with
  | O => hang
  | S n =>
    c ← parsepipe n;
    c ← parseback n c;
    more ← peek (str ";");
    if negb more then mret c else
    gettoken ;;
    r ← parseline n;
    mret (LIST c r)
  end
with parsepipe (fuel : nat) : M nat cmd :=
  match fuel with
  | O => hang
  | S n =>
    c ← parseexec n;
    more ← peek (str "|");
    if negb more then mret c else
    gettoken ;;
    r ← parsepipe n;
    mret (PIPE c r)
  end
with parseexec (fuel : nat) : M nat cmd :=
  match fuel with
  | O => hang
  | S n =>
    block ← peek (str "(");
    if (block : bool) then parseblock n else
    r ← parseredirs n [];
    parseargs n [] r
  end
with parseblock (fuel : nat) : M nat cmd :=
  match fuel with
  | O => hang
  | S n =>
    open ← peek (str "(");
    if negb open then panic "parseblock" else
    gettoken ;;
    c ← parseline n;
    close ← peek (str ")");
    if negb close then panic "syntax - missing )" else
    gettoken ;;
    r ← parseredirs n [];
    mret (wrap c r)
  end.

End Parser.

(** ** nulterminate *)

(** [*eq = 0]; at the end of the line there is a NUL already. *)
Definition cut (w : nat * nat) (buf : list Z) : list Z := <[w.2 := 0]> buf.

Fixpoint nulterminate (c : cmd) (buf : list Z) : list Z :=
  match c with
  | EXEC argv => fold_left (λ b w, cut w b) argv buf
  | REDIR c w _ _ => cut w (nulterminate c buf)
  | PIPE l r => nulterminate r (nulterminate l buf)
  | LIST l r => nulterminate r (nulterminate l buf)
  | BACK c => nulterminate c buf
  end.

(** The string at an offset. *)
Fixpoint until_nul (l : list Z) : list Z :=
  match l with [] => [] | c :: l => if c =? 0 then [] else c :: until_nul l end.
Definition string_at (buf : list Z) (w : nat * nat) : list Z := until_nul (drop w.1 buf).

(** ** Running commands *)

Section Run.
Context {St : Type} `{Sys St}.

(** panic(), after which the shell exits. *)
Definition sh_panic (s : list Z) : M St unit := Ulib.printf 2 (str "%s" ++ [10]) [Astr (Some s)].

(** [None] when fork() failed and panic() was called. *)
Definition fork1 : M St (option Z) :=
  pid ← sys_fork 0;
  if pid =? -1 then sh_panic (str "fork") ;; mret None else mret (Some pid).

Definition fork_then (child parent : M St unit) : M St unit :=
  opid ← fork1;
  match opid with
  | None => skip
  | Some pid => if pid =? 0 then child else parent
  end.

Definition call (m : M St Z) : M St unit := m ;; skip.

(** runcmd() on a command whose words are in [buf]; it ends in exit(). *)
Fixpoint runcmd (buf : list Z) (c : cmd) : M St unit :=
  match c with
  | EXEC argv =>
    match string_at buf <$> argv with
    | [] => skip
    | a :: _ as args =>
      call (sys_exec a args) ;;
      Ulib.printf 2 (str "exec %s failed" ++ [10]) [Astr (Some a)]
    end
  | REDIR sub w mode fd =>
    call (sys_close fd) ;;
    r ← sys_open (string_at buf w) mode;
    if r <? 0 then Ulib.printf 2 (str "open %s failed" ++ [10]) [Astr (Some (string_at buf w))] else
    runcmd buf sub
  | LIST l r =>
    fork_then (runcmd buf l) (call sys_wait ;; runcmd buf r)
  | PIPE l r =>
    '(ok, (p0, p1)) ← sys_pipe;
    if ok <? 0 then sh_panic (str "pipe") else
    fork_then
      (call (sys_close 1) ;; call (sys_dup p1) ;; call (sys_close p0) ;; call (sys_close p1) ;; runcmd buf l)
      (fork_then
        (call (sys_close 0) ;; call (sys_dup p0) ;; call (sys_close p0) ;; call (sys_close p1) ;; runcmd buf r)
        (call (sys_close p0) ;; call (sys_close p1) ;; call sys_wait ;; call sys_wait))
  | BACK sub => fork_then (runcmd buf sub) skip
  end.

(** parsecmd(): the command and the buffer cut by nulterminate(), or [None] when the
    shell has panicked. The fuel bounds every chain of calls (see [parse_total]). *)
Definition parsecmd (buf : list Z) : M St (option (cmd * list Z)) :=
  match parseline buf (4 * length buf + 8) 0%nat with
  | Ok c s =>
    let s := skip_white buf s in
    if decide (s = es buf) then mret (Some (c, nulterminate c buf)) else
    Ulib.printf 2 (str "leftovers: %s" ++ [10]) [Astr (Some (drop s buf))] ;;
    sh_panic (str "syntax") ;;
    mret None
  | Panic msg => sh_panic (str msg) ;; mret None
  | Fault => fault
  | Hang => hang
  end.

(** getcmd(buf, 100): the line, [None] at end of file. *)
Definition getcmd : M St (option (list Z)) :=
  Ulib.printf 2 (str "$ ") [] ;;
  l ← Ulib.gets 100;
  mret (match until_nul l with [] => None | s => Some s end).

(** The descriptors below 3 are opened on the console. *)
Fixpoint open_console (rounds : nat) : M St unit :=
  match rounds with
  | O => hang
  | S n =>
    fd ← sys_open (str "console") O_RDWR;
    if fd <? 0 then skip else
    if 3 <=? fd then call (sys_close fd) else
    open_console n
  end.

(** The command loop, for the first [lines] lines. *)
Fixpoint sh_loop (lines : nat) : M St unit :=
  match lines with
  | O => hang
  | S n =>
    ol ← getcmd;
    match ol with
    | None => skip
    | Some buf =>
      if bool_decide (take 3 buf = str "cd ") then
        let dir := drop 3 (take (length buf - 1) buf) in
        r ← sys_chdir dir;
        when (r <? 0) (Ulib.printf 2 (str "cannot cd %s" ++ [10]) [Astr (Some dir)]) ;;
        sh_loop n
      else
        fork_then
          (oc ← parsecmd buf;
           match oc with Some (c, buf) => runcmd buf c | None => skip end)
          (call sys_wait ;; sh_loop n)
    end
  end.

Definition sh_main (rounds lines : nat) : M St unit := open_console rounds ;; sh_loop lines.

End Run.

(** ** Words and termination *)

(** A byte of a word. *)
Definition wordchar (c : Z) : bool :=
  negb (c =? 0) && negb (in_set whitespace c) && negb (in_set symbols c).

Fixpoint words_of (c : cmd) : list (nat * nat) :=
  match c with
  | EXEC argv => argv
  | REDIR c w _ _ => words_of c ++ [w]
  | PIPE l r => words_of l ++ words_of r
  | LIST l r => words_of l ++ words_of r
  | BACK c => words_of c
  end.

(** A computation that returns or panics, and satisfies [Q] if it returns. *)
Definition safe {A} (m : M nat A) (Q : A → nat → Prop) (s : nat) : Prop :=
  match m s with Ok a s' => Q a s' | Panic _ => True | _ => False end.

Lemma safe_bind {A B} (m : M nat A) (f : A → M nat B) Q s :
  safe m (λ a, safe (f a) Q) s → safe (m ≫= f) Q s.
Proof. unfold safe, mbind, M_bind. by destruct (m s). Qed.

Lemma safe_wand {A} (m : M nat A) (P Q : A → nat → Prop) s :
  safe m P s → (∀ a s', P a s' → Q a s') → safe m Q s.
Proof. unfold safe. destruct (m s); auto. Qed.

Section Termination.
Variable buf : list Z.
Hypothesis Hplain : Forall (λ c, c ≠ 0) buf.

(** A maximal run of word bytes. *)
Definition is_word (w : nat * nat) : Prop :=
  (w.1 < w.2 ≤ es buf)%nat ∧ (∀ i, (w.1 ≤ i < w.2)%nat → wordchar (chr buf i) = true) ∧
  wordchar (chr buf w.2) = false.

Lemma chr_nonzero s : (s < es buf)%nat ↔ chr buf s ≠ 0.
Proof using Hplain.
  unfold chr, es. split.
  - intros [x Hx]%lookup_lt_is_Some. rewrite Hx. eapply Forall_lookup_1 in Hplain; [exact Hplain|done].
  - intros Hc. destruct (decide (s < length buf)%nat); [done|]. rewrite lookup_ge_None_2 in Hc by lia. done.
Qed.

Lemma skip_loop_range n s : (s ≤ skip_loop buf n s ≤ s + n)%nat.
Proof. revert s. induction n as [|n IH]; intros s; cbn [skip_loop]; [lia|]. destruct (in_set _ _); [specialize (IH (S s))|]; lia. Qed.

Lemma skip_white_range s : (s ≤ es buf)%nat → (s ≤ skip_white buf s ≤ es buf)%nat.
Proof. intros. pose proof (skip_loop_range (es buf - s) s). unfold skip_white. lia. Qed.

Lemma skip_loop_stops n s : (skip_loop buf n s < s + n)%nat → in_set whitespace (chr buf (skip_loop buf n s)) = false.
Proof.
  revert s. induction n as [|n IH]; intros s Hs; cbn [skip_loop] in *; [lia|].
  destruct (in_set whitespace (chr buf s)) eqn:E; [apply IH; lia|done].
Qed.

Lemma skip_white_stops s : (s ≤ es buf)%nat → (skip_white buf s < es buf)%nat →
  in_set whitespace (chr buf (skip_white buf s)) = false.
Proof. intros. apply skip_loop_stops. unfold skip_white in *. lia. Qed.

Lemma word_loop_spec n s :
  (s + n ≤ es buf)%nat →
  (s ≤ word_loop buf n s ≤ s + n)%nat ∧ (∀ i, (s ≤ i < word_loop buf n s)%nat → wordchar (chr buf i) = true) ∧
  ((word_loop buf n s < s + n)%nat → wordchar (chr buf (word_loop buf n s)) = false).
Proof using Hplain.
  revert s. induction n as [|n IH]; intros s Hn; cbn [word_loop]; [split_and!; intros; lia|].
  destruct (negb _ && negb _) eqn:E.
  - destruct (IH (S s) ltac:(lia)) as (H1 & H2 & H3). split_and!; [lia..| |intros; apply H3; lia].
    intros i Hi. destruct (decide (i = s)) as [->|]; [|apply H2; lia]. unfold wordchar.
    assert (chr buf s ≠ 0) by (apply chr_nonzero; lia). destruct (Z.eqb_spec (chr buf s) 0); done.
  - split_and!; [lia..|intros; lia|]. intros _. unfold wordchar. by rewrite <- andb_assoc, E, andb_false_r.
Qed.

Lemma scan_spec s :
  (s ≤ es buf)%nat → ((s < es buf)%nat → in_set whitespace (chr buf s) = false) →
  (s ≤ (scan buf s).2 ≤ es buf)%nat ∧ ((scan buf s).1 ≠ 0 → (s < (scan buf s).2)%nat) ∧
  ((scan buf s).1 = 97 → is_word (s, (scan buf s).2)).
Proof using Hplain.
  intros Hs Hw. unfold scan. destruct (Z.eqb_spec (chr buf s) 0) as [E|E]; [cbn; split_and!; [lia..|]; rewrite E; done|].
  assert (s < es buf)%nat as Hlt by (by apply chr_nonzero).
  destruct (((((chr buf s =? 124) || (chr buf s =? 40)) || (chr buf s =? 41)) || (chr buf s =? 59)) || (chr buf s =? 38) ||
    (chr buf s =? 60)) eqn:E1; [cbn; split_and!; [lia..|intros Ha; by rewrite Ha in E1]|].
  destruct (Z.eqb_spec (chr buf s) 62) as [E2|E2].
  { destruct (Z.eqb_spec (chr buf (S s)) 62) as [E3|E3]; cbn; [|rewrite E2; split_and!; [lia..|done]].
    assert (S s < es buf)%nat by (apply chr_nonzero; lia). split_and!; [lia..|done]. }
  cbn [fst snd]. unfold word_end. destruct (word_loop_spec (es buf - s) s ltac:(lia)) as (H1 & H2 & H3).
  assert (in_set symbols (chr buf s) = false) as Hsym.
  { rewrite !orb_false_iff in E1. destruct_and! E1. unfold in_set, symbols. change (str "<|>&;()") with [60; 124; 62; 38; 59; 40; 41].
    cbn [Ulib.strchr]. rewrite !(Z.eqb_sym _ (chr buf s)). repeat case_match; try done; lia. }
  assert (s < word_loop buf (es buf - s) s)%nat as Hadv.
  { destruct (es buf - s)%nat as [|n] eqn:En; [lia|]. cbn [word_loop]. rewrite (Hw Hlt), Hsym. cbn [negb andb].
    destruct (word_loop_spec n (S s) ltac:(lia)) as (? & _). lia. }
  split_and!; [lia..|intros _]. split_and!; cbn [fst snd]; [lia..|done|].
  destruct (decide (word_loop buf (es buf - s) s < es buf)%nat) as [Hl|Hl]; [apply H3; lia|].
  unfold wordchar. destruct (Z.eqb_spec (chr buf (word_loop buf (es buf - s) s)) 0) as [|Hn]; [done|].
  apply chr_nonzero in Hn. lia.
Qed.

Lemma skip_white_idem s : (s ≤ es buf)%nat → skip_white buf (skip_white buf s) = skip_white buf s.
Proof.
  intros Hs. pose proof (skip_white_range s Hs). unfold skip_white at 1.
  destruct (es buf - skip_white buf s)%nat as [|n] eqn:E; [done|]. cbn [skip_loop].
  by rewrite skip_white_stops by lia.
Qed.

Lemma scan_nonzero s : chr buf s ≠ 0 → (scan buf s).1 ≠ 0.
Proof.
  unfold scan. destruct (Z.eqb_spec (chr buf s) 0); [done|]. repeat case_match; cbn; done.
Qed.

Lemma gettoken_safe s :
  (s ≤ es buf)%nat →
  safe (gettoken buf) (λ '(tok, w) s', (s ≤ s' ≤ es buf)%nat ∧ (tok ≠ 0 → (s < s')%nat) ∧
    (chr buf (skip_white buf s) ≠ 0 → (s < s')%nat) ∧ (tok = 97 → is_word w)) s.
Proof using Hplain.
  intros Hs. unfold safe, gettoken. pose proof (skip_white_range s Hs) as Hq.
  destruct (scan_spec (skip_white buf s) ltac:(lia)) as (H1 & H2 & H3); [intros; by apply skip_white_stops|].
  pose proof (scan_nonzero (skip_white buf s)) as Hz.
  destruct (scan buf (skip_white buf s)) as [ret eq]. cbn [fst snd] in *.
  pose proof (skip_white_range eq ltac:(lia)). split_and!; [lia..| | |done]; intros ?; naive_solver lia.
Qed.

Lemma peek_safe toks s :
  (s ≤ es buf)%nat →
  safe (peek buf toks) (λ b s', (s ≤ s' ≤ es buf)%nat ∧ (b = true → chr buf (skip_white buf s') ≠ 0)) s.
Proof.
  intros Hs. unfold safe, peek. pose proof (skip_white_range s Hs). split; [lia|].
  rewrite skip_white_idem by done. destruct (Z.eqb_spec (chr buf (skip_white buf s)) 0); done.
Qed.

Definition good (c : cmd) : Prop := Forall is_word (words_of c).
Definition good_redirs (r : redirs) : Prop := Forall (λ x, is_word x.1.1) r.

Lemma good_wrap c r : good c → good_redirs r → good (wrap c r).
Proof.
  intros Hc Hr. revert c Hc. induction Hr as [|[[w mode] fd] r Hw Hr IH]; intros c Hc; [done|]. cbn [wrap fold_left].
  apply IH. unfold good. cbn [words_of]. apply Forall_app. split; [done|]. by apply Forall_singleton.
Qed.

(** What a parsing function at [s] may return. *)
Definition after (s : nat) (c : cmd) (s' : nat) : Prop := (s ≤ s' ≤ es buf)%nat ∧ good c.

Lemma parseredirs_safe n r s :
  (s ≤ es buf)%nat → (es buf - s + 1 ≤ n)%nat → good_redirs r →
  safe (parseredirs buf n r) (λ r' s', (s ≤ s' ≤ es buf)%nat ∧ good_redirs r') s.
Proof using Hplain.
  revert r s. induction n as [|n IH]; intros r s Hs Hn Hr; [lia|]. cbn [parseredirs].
  apply safe_bind. eapply safe_wand; [by apply peek_safe|]. intros [] s1 [H1 Hp]; [|cbn; done].
  apply safe_bind. eapply safe_wand; [apply gettoken_safe; lia|]. intros [tok w0] s2 (H2 & _ & Hadv & _).
  apply safe_bind. eapply safe_wand; [apply gettoken_safe; lia|]. intros [kind w] s3 (H3 & _ & _ & Hw).
  specialize (Hadv (Hp eq_refl)). destruct (Z.eqb_spec kind 97); [|done]. cbn [negb].
  assert (∀ mode fd, good_redirs (r ++ [(w, mode, fd)])) as Hgr.
  { intros. apply Forall_app. split; [done|]. by apply Forall_singleton, Hw. }
  eapply safe_wand; [apply IH; [lia|lia|repeat case_match; auto]|]. intros ? ? [? ?]. split; [lia|done].
Qed.

Lemma parseargs_safe n argv r s :
  (s ≤ es buf)%nat → (es buf - s + 2 ≤ n)%nat → Forall is_word argv → good_redirs r →
  safe (parseargs buf n argv r) (after s) s.
Proof using Hplain.
  revert argv r s. induction n as [|n IH]; intros argv r s Hs Hn Ha Hr; [lia|]. cbn [parseargs].
  apply safe_bind. eapply safe_wand; [by apply peek_safe|]. intros b s1 [H1 _].
  destruct b; [split; [lia|by apply good_wrap]|].
  apply safe_bind. eapply safe_wand; [apply gettoken_safe; lia|]. intros [tok w] s2 (H2 & Hadv & _ & Hw).
  destruct (Z.eqb_spec tok 0); [split; [lia|by apply good_wrap]|]. specialize (Hadv ltac:(done)).
  destruct (Z.eqb_spec tok 97); [|done]. cbn [negb]. case_match; [done|].
  apply safe_bind. eapply safe_wand; [apply parseredirs_safe; [lia|lia|done]|]. intros r' s3 [H3 Hr'].
  eapply safe_wand; [apply IH; [lia|lia| |done]|].
  - apply Forall_app. split; [done|]. by apply Forall_singleton, Hw.
  - intros ? ? [? ?]. split; [lia|done].
Qed.

Lemma parseback_safe n c s :
  (s ≤ es buf)%nat → (es buf - s + 1 ≤ n)%nat → good c → safe (parseback buf n c) (after s) s.
Proof using Hplain.
  revert c s. induction n as [|n IH]; intros c s Hs Hn Hc; [lia|]. cbn [parseback].
  apply safe_bind. eapply safe_wand; [by apply peek_safe|]. intros [] s1 [H1 Hp]; [|cbn; done].
  apply safe_bind. eapply safe_wand; [apply gettoken_safe; lia|]. intros [tok w0] s2 (H2 & _ & Hadv & _).
  specialize (Hadv (Hp eq_refl)). eapply safe_wand; [by apply IH; [lia|lia|]|]. intros ? ? [? ?]. split; [lia|done].
Qed.

(** Each call has fuel for the bytes that are left. *)
Lemma parse_safe n s :
  (s ≤ es buf)%nat →
  ((4 * (es buf - s) + 8 ≤ n)%nat → safe (parseline buf n) (after s) s) ∧
  ((4 * (es buf - s) + 7 ≤ n)%nat → safe (parsepipe buf n) (after s) s) ∧
  ((4 * (es buf - s) + 6 ≤ n)%nat → safe (parseexec buf n) (after s) s) ∧
  ((4 * (es buf - s) + 5 ≤ n)%nat → safe (parseblock buf n) (after s) s).
Proof using Hplain.
  revert s. induction n as [|n IH]; intros s Hs; [lia|]. split_and!; intros Hn; cbn [parseline parsepipe parseexec parseblock].
  - apply safe_bind. eapply safe_wand; [apply IH; lia|]. intros c s1 [H1 Hc].
    apply safe_bind. eapply safe_wand; [apply parseback_safe; [lia|lia|done]|]. intros c' s2 [H2 Hc'].
    apply safe_bind. eapply safe_wand; [apply peek_safe; lia|]. intros [] s3 [H3 Hp]; [|split; [lia|done]].
    apply safe_bind. eapply safe_wand; [apply gettoken_safe; lia|]. intros [tok w0] s4 (H4 & _ & Hadv & _).
    specialize (Hadv (Hp eq_refl)).
    apply safe_bind. eapply safe_wand; [apply IH; lia|]. intros r s5 [H5 Hr]. split; [lia|]. by apply Forall_app.
  - apply safe_bind. eapply safe_wand; [apply IH; lia|]. intros c s1 [H1 Hc].
    apply safe_bind. eapply safe_wand; [apply peek_safe; lia|]. intros [] s3 [H3 Hp]; [|split; [lia|done]].
    apply safe_bind. eapply safe_wand; [apply gettoken_safe; lia|]. intros [tok w0] s4 (H4 & _ & Hadv & _).
    specialize (Hadv (Hp eq_refl)).
    apply safe_bind. eapply safe_wand; [apply IH; lia|]. intros r s5 [H5 Hr]. split; [lia|]. by apply Forall_app.
  - apply safe_bind. eapply safe_wand; [by apply peek_safe|]. intros [] s1 [H1 Hp].
    { eapply safe_wand; [apply IH; lia|]. intros ? ? [? ?]. split; [lia|done]. }
    apply safe_bind. eapply safe_wand; [apply parseredirs_safe; [lia|lia|constructor]|]. intros r s2 [H2 Hr].
    eapply safe_wand; [apply parseargs_safe; [lia|lia|constructor|done]|]. intros ? ? [? ?]. split; [lia|done].
  - apply safe_bind. eapply safe_wand; [by apply peek_safe|]. intros [] s1 [H1 Hp]; [|done]. cbn [negb].
    apply safe_bind. eapply safe_wand; [apply gettoken_safe; lia|]. intros [tok w0] s2 (H2 & _ & Hadv & _).
    specialize (Hadv (Hp eq_refl)).
    apply safe_bind. eapply safe_wand; [apply IH; lia|]. intros c s3 [H3 Hc].
    apply safe_bind. eapply safe_wand; [apply peek_safe; lia|]. intros [] s4 [H4 _]; [|done]. cbn [negb].
    apply safe_bind. eapply safe_wand; [apply gettoken_safe; lia|]. intros [tok' w'] s5 (H5 & _).
    apply safe_bind. eapply safe_wand; [apply parseredirs_safe; [lia|lia|constructor]|]. intros r s6 [H6 Hr].
    split; [lia|]. by apply good_wrap.
Qed.

End Termination.

(** ** Cutting the buffer *)

Lemma nulterminate_cuts c b : nulterminate c b = fold_left (λ b w, cut w b) (words_of c) b.
Proof.
  revert b. induction c as [argv|c IH w mode fd|l IHl r IHr|l IHl r IHr|c IH]; intros b; cbn [nulterminate words_of];
    rewrite ?fold_left_app; cbn [fold_left]; by rewrite ?IHr, ?IHl, ?IH.
Qed.

Lemma cuts_lookup ws b i :
  fold_left (λ b w, cut w b) ws b !! i =
  if decide (i ∈ ws.*2 ∧ (i < length b)%nat) then Some 0 else b !! i.
Proof.
  revert b. induction ws as [|w ws IH]; intros b; cbn [fold_left fmap list_fmap].
  - rewrite decide_False; [done|]. set_solver.
  - rewrite IH. unfold cut. rewrite length_insert. destruct (decide (i = w.2)) as [->|Hne].
    + destruct (decide (w.2 < length b)%nat).
      * rewrite (decide_True (P := _ ∈ w.2 :: _ ∧ _)) by set_solver. rewrite list_lookup_insert_eq by done. by destruct (decide _).
      * rewrite !decide_False by tauto. rewrite list_insert_ge by lia. done.
    + rewrite list_lookup_insert_ne by done. destruct (decide _) as [[? ?]|Hn], (decide _) as [[? ?]|Hn']; set_solver.
Qed.

Lemma until_nul_run l n :
  Forall (λ c, c ≠ 0) (take n l) → (l !! n = Some 0 ∨ l !! n = None) → until_nul l = take n l.
Proof.
  revert n. induction l as [|c l IH]; intros [|n] Ha Hn; cbn in *; try done; [|inversion_clear Ha].
  - destruct Hn as [[= ->]|]; done.
  - destruct (Z.eqb_spec c 0); [done|]. by rewrite (IH n).
Qed.

(** Inside a word no word ends; at its end the buffer has a NUL. *)
Lemma string_at_word buf ws w :
  Forall (λ c, c ≠ 0) buf → Forall (is_word buf) ws → w ∈ ws →
  string_at (fold_left (λ b w, cut w b) ws buf) w = take (w.2 - w.1) (drop w.1 buf).
Proof.
  intros Hp Hws Hw. set (b := fold_left _ ws buf).
  assert (is_word buf w) as (Hr & Hin & Hend) by (by eapply Forall_forall in Hws). unfold es in *.
  assert (∀ i, (w.1 ≤ i < w.2)%nat → b !! i = buf !! i) as Hsame.
  { intros i Hi. unfold b. rewrite cuts_lookup, decide_False; [done|].
    intros [(w' & -> & Hw')%list_elem_of_fmap _]. eapply Forall_forall in Hws as (_ & _ & He); [|done].
    by rewrite Hin in He. }
  unfold string_at. rewrite (until_nul_run _ (w.2 - w.1)).
  - apply list_eq. intros i. destruct (decide (i < w.2 - w.1)%nat); [|rewrite !lookup_take_ge by lia; done].
    rewrite !lookup_take_lt, !lookup_drop by lia. apply Hsame. lia.
  - apply Forall_lookup. intros i x. intros [Hi Hlt]%lookup_take_Some. rewrite lookup_drop in Hi.
    rewrite Hsame in Hi by lia. by eapply Forall_lookup_1 in Hp.
  - rewrite lookup_drop. replace (w.1 + (w.2 - w.1))%nat with w.2 by lia. unfold b. rewrite cuts_lookup.
    destruct (decide (w.2 < length buf)%nat).
    + rewrite decide_True; [by left|]. split; [|done]. by apply list_elem_of_fmap_2.
    + rewrite decide_False by tauto. right. apply lookup_ge_None_2. lia.
Qed.

(** The text of a word in the line that was read. *)
Definition word_text (buf : list Z) (w : nat * nat) : list Z := take (w.2 - w.1) (drop w.1 buf).

Lemma word_text_chars buf w : is_word buf w →
  word_text buf w ≠ [] ∧ Forall (λ c, wordchar c = true) (word_text buf w).
Proof.
  intros (Hr & Hin & _). unfold word_text, es in *. split.
  - intros Hn%(f_equal length). rewrite length_take, length_drop in Hn. cbn in Hn. lia.
  - apply Forall_lookup. intros i x [Hi Hlt]%lookup_take_Some. rewrite lookup_drop in Hi.
    specialize (Hin (w.1 + i)%nat ltac:(lia)). unfold chr in Hin. by rewrite Hi in Hin.
Qed.

Section ParseCmd.
Context {St : Type} `{Stream St}.

Lemma writes_sh_panic s : writes 2 ((u8 <$> s) ++ [10]) (sh_panic (St := St) s).
Proof. unfold sh_panic. apply writes_printf. done. Qed.

(** C30. The shell's parser always comes to an end: on every line without NUL bytes,
    parsecmd() either prints an error on descriptor 2, touching nothing else, or returns a
    command without any output. In the command every word is a maximal run of characters
    that are neither white space nor symbols, and after nulterminate() its pointer reads
    back as exactly that run: cutting one word never damages another. *)
Theorem parsecmd_words (buf : list Z) (s : St) :
  Forall (λ c, c ≠ 0) buf →
  ∃ r s', parsecmd buf s = Ok r s' ∧
    match r with
    | None => ∃ msg, wrote 2 msg s s' ∧ msg ≠ []
    | Some (c, buf') => s' = s ∧
        Forall (λ w, is_word buf w ∧ string_at buf' w = word_text buf w ∧ string_at buf' w ≠ [] ∧
          Forall (λ c, wordchar c = true) (string_at buf' w)) (words_of c)
    end.
Proof.
  intros Hp. unfold parsecmd. destruct (parse_safe buf Hp (4 * length buf + 8) 0) as [Hs _]; [unfold es; lia|].
  specialize (Hs ltac:(unfold es; lia)). unfold safe in Hs.
  destruct (parseline buf _ 0%nat) as [c s1|msg| |]; [|clear Hs|done..].
  - destruct Hs as [Hr Hg]. destruct (decide _) as [Hes|Hes].
    + eexists _, s. split; [done|]. split; [done|]. unfold good in Hg. apply Forall_forall. intros w Hw.
      assert (is_word buf w) as Hword by (by eapply Forall_forall in Hg).
      rewrite nulterminate_cuts, string_at_word by done. split; [done|]. split; [done|]. by apply word_text_chars.
    + destruct (writes_printf 2 (str "leftovers: %s" ++ [10]) [Astr (Some (drop (skip_white buf s1) buf))] _ eq_refl s)
        as (s2 & E2 & W2). rewrite (bind_Ok _ _ _ _ _ E2).
      destruct (writes_sh_panic (str "syntax") s2) as (s3 & E3 & W3). rewrite (bind_Ok _ _ _ _ _ E3).
      eexists _, s3. split; [done|]. eexists. split; [by eapply wrote_trans|]. by intros [? ?]%app_eq_nil.
  - destruct (writes_sh_panic (str msg) s) as (s3 & E3 & W3). rewrite (bind_Ok _ _ _ _ _ E3).
    eexists _, s3. split; [done|]. eexists. split; [done|]. by intros [? ?]%app_eq_nil.
Qed.

End ParseCmd.

Lemma parsecmd_words_witness :
  ∃ r s', parsecmd (str "(ls;cat<a)>b|wc") (mkufs ∅ ∅) = Ok r s' ∧
    match r with
    | None => ∃ msg, wrote 2 msg (mkufs ∅ ∅) s' ∧ msg ≠ []
    | Some (c, buf') => s' = mkufs ∅ ∅ ∧
        Forall (λ w, is_word (str "(ls;cat<a)>b|wc") w ∧ string_at buf' w = word_text (str "(ls;cat<a)>b|wc") w ∧
          string_at buf' w ≠ [] ∧ Forall (λ c, wordchar c = true) (string_at buf' w)) (words_of c)
    end.
Proof.
  apply (parsecmd_words (str "(ls;cat<a)>b|wc") (mkufs ∅ ∅)). by apply (bool_decide_unpack _); vm_compute.
Defined.
