(* ===== verification/ShGrammar.v ===== *)
(** * ShGrammar: the language of the shell

    The grammar sh.c parses, its tokens, and the proof that a line written with them is
    parsed into the command it describes. *)

From S2P Require Import Prelude Machine CMem ConsOut User Sh.
From stdpp Require Import options.

(** ** Grammar *)

Inductive rkind := Rin | Rout | Rapp.
Definition srd : Type := rkind * list Z.

(** A line is pipelines, each sent to the background by any number of ampersands and
    separated by semicolons; a pipeline is commands; a command is words and redirections,
    or a line in parentheses. *)
Inductive sline :=
  | Lend (p : spipe) (amps : nat)
  | Lseq (p : spipe) (amps : nat) (l : sline)
with spipe :=
  | Pone (u : sunit)
  | Pmore (u : sunit) (p : spipe)
with sunit :=
  | Uexec (rds : list srd) (args : list (list Z * list srd))
  | Ublock (l : sline) (rds : list srd).

Scheme sline_mind := Induction for sline Sort Prop
  with spipe_mind := Induction for spipe Sort Prop
  with sunit_mind := Induction for sunit Sort Prop.
Combined Scheme shell_ind from sline_mind, spipe_mind, sunit_mind.

(** At most nine arguments. *)
Fixpoint args_fit (l : sline) : Prop :=
  match l with Lend p _ => pargs_fit p | Lseq p _ l => pargs_fit p ∧ args_fit l end
with pargs_fit (p : spipe) : Prop :=
  match p with Pone u => uargs_fit u | Pmore u p => uargs_fit u ∧ pargs_fit p end
with uargs_fit (u : sunit) : Prop :=
  match u with Uexec _ args => (length args < MAXARGS)%nat | Ublock l _ => args_fit l end.

(** ** Tokens *)

Inductive token := Tsym (c : Z) | Tapp | Tword (w : list Z).

Definition tok_text (t : token) : list Z :=
  match t with Tsym c => [c] | Tapp => [62; 62] | Tword w => w end.
Definition tok_kind (t : token) : Z :=
  match t with Tsym c => c | Tapp => 43 | Tword _ => 97 end.
Definition tok_ok (t : token) : Prop :=
  match t with
  | Tsym c => c ∈ symbols
  | Tapp => True
  | Tword w => w ≠ [] ∧ Forall (λ c, wordchar c = true) w
  end.

Definition rd_toks (r : srd) : list token :=
  [match r.1 with Rin => Tsym 60 | Rout => Tsym 62 | Rapp => Tapp end; Tword r.2].
Definition arg_toks (a : list Z * list srd) : list token := Tword a.1 :: concat (rd_toks <$> a.2).

Fixpoint line_toks (l : sline) : list token :=
  match l with
  | Lend p n => pipe_toks p ++ replicate n (Tsym 38)
  | Lseq p n l => pipe_toks p ++ replicate n (Tsym 38) ++ Tsym 59 :: line_toks l
  end
with pipe_toks (p : spipe) : list token :=
  match p with
  | Pone u => unit_toks u
  | Pmore u p => unit_toks u ++ Tsym 124 :: pipe_toks p
  end
with unit_toks (u : sunit) : list token :=
  match u with
  | Uexec rds args => concat (rd_toks <$> rds) ++ concat (arg_toks <$> args)
  | Ublock l rds => Tsym 40 :: line_toks l ++ Tsym 41 :: concat (rd_toks <$> rds)
  end.

(** A token with the white space that follows it. *)
Notation spaced := (token * list Z)%type.
Definition spaced_ok (t : spaced) : Prop :=
  tok_ok t.1 ∧ t.2 ≠ [] ∧ Forall (λ c, c ∈ whitespace) t.2.
Definition written (ts : list spaced) : list Z := concat ((λ t, tok_text t.1 ++ t.2) <$> ts).

(** ** Commands with their words as strings *)

Inductive tcmd :=
  | TEXEC (argv : list (list Z))
  | TREDIR (sub : tcmd) (file : list Z) (mode fd : Z)
  | TPIPE (l r : tcmd)
  | TLIST (l r : tcmd)
  | TBACK (sub : tcmd).

(** The meaning of a redirection. *)
Definition rd_mode (k : rkind) : Z * Z :=
  match k with Rin => (O_RDONLY, 0) | _ => (Z.lor O_WRONLY O_CREATE, 1) end.
Definition twrap (c : tcmd) (rds : list srd) : tcmd :=
  fold_left (λ c r, TREDIR c r.2 (rd_mode r.1).1 (rd_mode r.1).2) rds c.

Fixpoint line_cmd (l : sline) : tcmd :=
  match l with
  | Lend p n => Nat.iter n TBACK (pipe_cmd p)
  | Lseq p n l => TLIST (Nat.iter n TBACK (pipe_cmd p)) (line_cmd l)
  end
with pipe_cmd (p : spipe) : tcmd :=
  match p with
  | Pone u => unit_cmd u
  | Pmore u p => TPIPE (unit_cmd u) (pipe_cmd p)
  end
with unit_cmd (u : sunit) : tcmd :=
  match u with
  | Uexec rds args => twrap (TEXEC (fst <$> args)) (rds ++ concat (snd <$> args))
  | Ublock l rds => twrap (line_cmd l) rds
  end.

(** A command read with [text] for its words. *)
Fixpoint read_cmd (text : nat * nat → list Z) (c : cmd) : tcmd :=
  match c with
  | EXEC argv => TEXEC (text <$> argv)
  | REDIR c w mode fd => TREDIR (read_cmd text c) (text w) mode fd
  | PIPE l r => TPIPE (read_cmd text l) (read_cmd text r)
  | LIST l r => TLIST (read_cmd text l) (read_cmd text r)
  | BACK c => TBACK (read_cmd text c)
  end.

(** ** The scanner on written tokens *)

Lemma in_set_spec set c : in_set set c = true ↔ c ∈ set.
Proof.
  unfold in_set. induction set as [|x set IH]; cbn [Ulib.strchr]; [set_solver|].
  destruct (Z.eqb_spec x c) as [->|Hne]; [set_solver|]. rewrite IH. set_solver.
Qed.

Lemma in_set_false set c : in_set set c = false ↔ c ∉ set.
Proof. rewrite <- in_set_spec. by destruct (in_set set c). Qed.

Lemma symbols_cases c : c ∈ symbols → c = 60 ∨ c = 124 ∨ c = 62 ∨ c = 38 ∨ c = 59 ∨ c = 40 ∨ c = 41.
Proof. change symbols with [60; 124; 62; 38; 59; 40; 41]. set_solver. Qed.

Lemma wordchar_spec c : wordchar c = true ↔ c ≠ 0 ∧ c ∉ whitespace ∧ c ∉ symbols.
Proof. unfold wordchar. rewrite !andb_true_iff, !negb_true_iff, !in_set_false, Z.eqb_neq. tauto. Qed.

(** The first byte of a token. *)
Lemma tok_text_head t : tok_ok t → ∃ c l, tok_text t = c :: l ∧ c ∉ whitespace ∧ c ≠ 0 ∧
  (∀ set : list Z, (∀ x, x ∈ set → x ∈ symbols) →
    (c ∈ set ↔ match t with Tsym c => c ∈ set | Tapp => 62 ∈ set | Tword _ => False end)).
Proof.
  destruct t as [c| |w]; cbn [tok_ok tok_text].
  - intros Hc%symbols_cases. exists c, []. split_and!; [done| |lia|done]. destruct_or! Hc; subst; vm_compute; set_solver.
  - intros _. exists 62, [62]. split_and!; [done| |done|done]. unfold whitespace. set_solver.
  - intros [Hne Hw]. destruct w as [|c l]; [done|]. inversion_clear Hw as [|? ? Hc _].
    apply wordchar_spec in Hc as (? & ? & ?). exists c, l. split_and!; try done. naive_solver.
Qed.

Lemma written_head ts c l : Forall spaced_ok ts → written ts = c :: l → c ∉ whitespace.
Proof.
  intros Hok Hw. destruct ts as [|[t w] ts]; [done|]. inversion_clear Hok as [|? ? [Ht _] _].
  destruct (tok_text_head t Ht) as (c' & l' & E & ? & _). unfold written in Hw. cbn in Hw. rewrite E in Hw. cbn in Hw.
  by simplify_eq.
Qed.

Section Scanner.
Variable buf : list Z.

Lemma chr_app pre rest : buf = pre ++ rest → chr buf (length pre) = default 0 (head rest).
Proof. intros ->. unfold chr. rewrite lookup_app_r by lia. rewrite Nat.sub_diag. by destruct rest. Qed.

Lemma skip_white_run pre w rest :
  buf = pre ++ w ++ rest → Forall (λ c, c ∈ whitespace) w → (∀ c l, rest = c :: l → c ∉ whitespace) →
  skip_white buf (length pre) = (length pre + length w)%nat.
Proof.
  intros Hb Hw Hr. unfold skip_white, es. rewrite Hb at 2. rewrite !length_app.
  replace (length pre + (length w + length rest) - length pre)%nat with (length w + length rest)%nat by lia.
  revert pre Hb. induction Hw as [|c w Hc Hw IH]; intros pre Hb; cbn [length app Nat.add] in *.
  - rewrite Nat.add_0_r. destruct rest as [|c rest]; [done|]. cbn [length skip_loop]. rewrite (chr_app pre _ Hb). cbn [head from_option id].
    specialize (Hr c rest eq_refl). apply in_set_false in Hr. by rewrite Hr.
  - cbn [skip_loop]. rewrite (chr_app pre _ Hb). cbn [head from_option id]. apply in_set_spec in Hc as ->.
    specialize (IH (pre ++ [c])). rewrite length_app, Nat.add_1_r in IH. rewrite IH; [lia|].
    by rewrite <- (assoc_L (++)).
Qed.

Lemma word_end_run pre w rest :
  buf = pre ++ w ++ rest → Forall (λ c, wordchar c = true) w →
  (∀ c l, rest = c :: l → wordchar c = false ∧ c ≠ 0) →
  word_end buf (length pre) = (length pre + length w)%nat.
Proof.
  intros Hb Hw Hr. unfold word_end, es. rewrite Hb at 2. rewrite !length_app.
  replace (length pre + (length w + length rest) - length pre)%nat with (length w + length rest)%nat by lia.
  revert pre Hb. induction Hw as [|c w Hc Hw IH]; intros pre Hb; cbn [length app Nat.add] in *.
  - rewrite Nat.add_0_r. destruct rest as [|c rest]; [done|]. cbn [length word_loop]. rewrite (chr_app pre _ Hb). cbn [head from_option id].
    destruct (Hr c rest eq_refl) as [Hf Hz]. unfold wordchar in Hf. apply Z.eqb_neq in Hz. rewrite Hz in Hf. cbn [negb andb] in Hf.
    by rewrite Hf.
  - cbn [word_loop]. rewrite (chr_app pre _ Hb). cbn [head from_option id]. unfold wordchar in Hc. apply andb_true_iff in Hc as [[_ H1]%andb_true_iff H2].
    rewrite H1, H2. cbn [andb]. specialize (IH (pre ++ [c])). rewrite length_app, Nat.add_1_r in IH. rewrite IH; [lia|].
    by rewrite <- (assoc_L (++)).
Qed.

(** At offset [s], white space and then the tokens [ts] are what is left. *)
Definition at_ (s : nat) (ts : list spaced) : Prop :=
  Forall spaced_ok ts ∧ ∃ pre w, buf = pre ++ w ++ written ts ∧ Forall (λ c, c ∈ whitespace) w ∧ s = length pre.

Lemma skip_white_at s ts : at_ s ts →
  ∃ pre, buf = pre ++ written ts ∧ skip_white buf s = length pre ∧ at_ (length pre) ts.
Proof.
  intros (Hok & pre & w & Hb & Hw & ->). exists (pre ++ w). rewrite <- (assoc_L (++)). split_and!; [done| |].
  - rewrite (skip_white_run pre w (written ts)), length_app; try done. intros c l. by apply written_head.
  - split; [done|]. exists (pre ++ w), []. rewrite <- (assoc_L (++)). split_and!; done.
Qed.

Definition starts (set : list Z) (ts : list spaced) : bool :=
  match ts with
  | (Tsym c, _) :: _ => in_set set c
  | (Tapp, _) :: _ => in_set set 62
  | _ => false
  end.

Lemma peek_at set s ts :
  at_ s ts → (∀ x, x ∈ set → x ∈ symbols) →
  ∃ s', peek buf set s = Ok (starts set ts) s' ∧ at_ s' ts.
Proof.
  intros Hat Hset. destruct (skip_white_at s ts Hat) as (pre & Hb & Hs & Hat'). exists (length pre).
  split; [|done]. unfold peek. rewrite Hs. f_equal. rewrite (chr_app _ _ Hb).
  destruct Hat as [Hok _]. destruct ts as [|[t w] ts]; [done|]. inversion_clear Hok as [|? ? [Ht _] _].
  destruct (tok_text_head t Ht) as (c & l & E & _ & Hz & Hin). specialize (Hin set Hset).
  unfold written. cbn [fmap list_fmap concat fst snd]. rewrite E. cbn [app head from_option id].
  apply Z.eqb_neq in Hz. rewrite Hz. cbn [negb andb starts]. apply eq_true_iff_eq. rewrite in_set_spec, Hin.
  destruct t; cbn [starts]; rewrite ?in_set_spec; done.
Qed.

Lemma chr_snd pre c rest : buf = pre ++ c :: rest → chr buf (S (length pre)) = default 0 (head rest).
Proof. intros Hb. replace (S (length pre)) with (length (pre ++ [c])) by (rewrite length_app; cbn; lia). apply chr_app. by rewrite <- (assoc_L (++)). Qed.

Lemma whitespace_not c : c ∈ whitespace → c ≠ 0 ∧ wordchar c = false ∧ c ≠ 62.
Proof.
  intros Hc. unfold wordchar. assert (in_set whitespace c = true) as -> by (by apply in_set_spec).
  rewrite andb_false_r. unfold whitespace in Hc. split_and!; [|done|]; set_solver.
Qed.

Lemma scan_at pre t w rest :
  buf = pre ++ tok_text t ++ w ++ rest → spaced_ok (t, w) →
  scan buf (length pre) = (tok_kind t, (length pre + length (tok_text t))%nat).
Proof.
  intros Hb (Ht & Hne & Hw). destruct w as [|x w]; [done|]. inversion_clear Hw as [|? ? Hx Hw'].
  destruct (whitespace_not x Hx) as (Hx0 & Hxw & Hx62). cbn [fst snd app] in *. unfold scan.
  destruct t as [c| |v]; cbn [tok_text tok_kind tok_ok app length] in *; rewrite (chr_app _ _ Hb); cbn [head from_option id].
  - rewrite (chr_snd pre c _ Hb), Nat.add_1_r. cbn [head from_option id]. apply Z.eqb_neq in Hx62.
    apply symbols_cases in Ht. destruct_or! Ht; subst c; cbn; rewrite ?Hx62; done.
  - rewrite (chr_snd pre 62 _ Hb). cbn. by rewrite Nat.add_comm.
  - destruct Ht as [Hv Hw]. destruct v as [|c v]; [done|]. cbn [app head from_option id].
    assert (wordchar c = true) as Hc by (by inversion Hw). apply wordchar_spec in Hc as (Hc0 & _ & Hcs).
    change symbols with [60; 124; 62; 38; 59; 40; 41] in Hcs. rewrite !not_elem_of_cons in Hcs. destruct_and! Hcs.
    destruct (Z.eqb_spec c 0), (Z.eqb_spec c 124), (Z.eqb_spec c 40), (Z.eqb_spec c 41), (Z.eqb_spec c 59),
      (Z.eqb_spec c 38), (Z.eqb_spec c 60), (Z.eqb_spec c 62); try done. cbn [orb]. f_equal.
    apply (word_end_run pre (c :: v) (x :: w ++ rest)); [done|done|]. intros ? ? [= <- <-]. done.
Qed.

Lemma gettoken_at s t w ts :
  at_ s ((t, w) :: ts) →
  ∃ v s', gettoken buf s = Ok (tok_kind t, v) s' ∧ at_ s' ts ∧ word_text buf v = tok_text t.
Proof.
  intros Hat. destruct (skip_white_at s _ Hat) as (pre & Hb & Hs & _). destruct Hat as [Hok _].
  inversion_clear Hok as [|? ? Htw Hts]. unfold written in Hb. cbn [fmap list_fmap concat fst snd] in Hb.
  rewrite <- (assoc_L (++)) in Hb. fold (written ts) in Hb.
  unfold gettoken. rewrite Hs, (scan_at pre t w (written ts)) by done. eexists _, _. split; [done|]. split.
  - split; [done|]. exists ((pre ++ tok_text t) ++ w), []. rewrite <- !(assoc_L (++)). split_and!; [done|done|].
    rewrite <- length_app. rewrite (skip_white_run (pre ++ tok_text t) w (written ts)), <- length_app; try done.
    + by rewrite (assoc_L (++)).
    + by rewrite <- (assoc_L (++)).
    + apply Htw.
    + intros c l. by apply written_head.
  - unfold word_text. cbn [fst snd]. rewrite Hb, Nat.add_comm, Nat.add_sub, drop_app_length, take_app_length. done.
Qed.

Lemma gettoken_end s : at_ s [] → ∃ v s', gettoken buf s = Ok (0, v) s' ∧ at_ s' [].
Proof.
  intros Hat. destruct (skip_white_at s _ Hat) as (pre & Hb & Hs & Hat'). unfold gettoken. rewrite Hs. unfold scan.
  rewrite (chr_app _ _ Hb). cbn. eexists _, _. split; [done|].
  destruct (skip_white_at _ _ Hat') as (pre' & Hb' & -> & Hat''). done.
Qed.

End Scanner.

(** ** The parser on written tokens *)

Section Parse.
Variable buf : list Z.
Notation text := (word_text buf).

Lemma peek_in set s ts :
  at_ buf s ts → forallb (in_set symbols) set = true →
  ∃ s', peek buf set s = Ok (starts set ts) s' ∧ at_ buf s' ts.
Proof.
  intros Hat Hset. apply peek_at; [done|]. intros x Hx. apply in_set_spec.
  rewrite forallb_forall in Hset. apply Hset. by apply list_elem_of_In.
Qed.

(** One call of peek() or gettoken() at the head of a computation, from [Hat : at_ _ s ts]. *)
Ltac peek_tac Hat :=
  let s' := fresh "s" in let E := fresh "E" in let H := fresh "Hat" in
  match goal with |- context [(peek buf ?set ≫= _) ?s] =>
    destruct (peek_in set s _ Hat ltac:(by vm_compute)) as (s' & E & H);
    rewrite (bind_Ok _ _ _ _ _ E); clear Hat E; rename H into Hat end.
Ltac token_tac Hat v Hv :=
  let s' := fresh "s" in let E := fresh "E" in let H := fresh "Hat" in
  match type of Hat with at_ _ _ ((?t, ?w) :: ?ts) =>
    destruct (gettoken_at buf _ t w ts Hat) as (v & s' & E & H & Hv);
    rewrite (bind_Ok _ _ _ _ _ E); clear Hat E; rename H into Hat; cbn [tok_text tok_kind] in Hv |- *; cbn beta iota end.

Definition rd_read (x : (nat * nat) * Z * Z) : list Z * Z * Z := (text x.1.1, x.1.2, x.2).
Definition rd_means (r : srd) : list Z * Z * Z := (r.2, (rd_mode r.1).1, (rd_mode r.1).2).

Lemma read_wrap c r rds : rd_read <$> r = rd_means <$> rds → read_cmd text (wrap c r) = twrap (read_cmd text c) rds.
Proof.
  revert c rds. induction r as [|[[w mode] fd] r IH]; intros c [|rd rds] Heq; try done.
  cbn [fmap list_fmap] in Heq. injection Heq as Hrd1 Hrd2 Hrd3 Heq. cbn [wrap fold_left twrap].
  change (read_cmd text (wrap (REDIR c w mode fd) r) = twrap (TREDIR (read_cmd text c) rd.2 (rd_mode rd.1).1 (rd_mode rd.1).2) rds).
  rewrite (IH _ rds Heq). cbn [read_cmd]. cbn [fst snd] in *. by rewrite Hrd1, Hrd2, Hrd3.
Qed.

Lemma parseredirs_at n r rds ts k s :
  fst <$> ts = concat (rd_toks <$> rds) → at_ buf s (ts ++ k) → starts (str "<>") k = false → (length rds < n)%nat →
  ∃ rs s', parseredirs buf n r s = Ok (r ++ rs) s' ∧ at_ buf s' k ∧ rd_read <$> rs = rd_means <$> rds.
Proof.
  revert n r ts s. induction rds as [|[kd f] rds IH]; intros n r ts s Hts Hat Hk Hn;
    (destruct n as [|n]; [lia|]); cbn [parseredirs].
  { apply fmap_nil_inv in Hts as ->. cbn [app] in Hat. peek_tac Hat. rewrite Hk. cbn [negb].
    exists [], s0. by rewrite app_nil_r. }
  cbn [fmap list_fmap concat rd_toks app fst snd] in Hts.
  apply fmap_cons_inv in Hts as ([t1 w1] & ts1 & Ht1 & Hts & ->). symmetry in Hts.
  apply fmap_cons_inv in Hts as ([t2 w2] & ts2 & Ht2 & Hts & ->). cbn [fst] in Ht1, Ht2. subst t1 t2. cbn [app] in Hat.
  peek_tac Hat. replace (starts (str "<>") _) with true by (by destruct kd). cbn [negb].
  token_tac Hat v0 Hv0. token_tac Hat v Hv. cbn [negb Z.eqb Pos.eqb length] in *.
  destruct (IH n (r ++ [(v, (rd_mode kd).1, (rd_mode kd).2)]) ts2 s2) as (rs & s' & E & Hat' & Hrs); [done|done|done|lia|].
  exists ((v, (rd_mode kd).1, (rd_mode kd).2) :: rs), s'. split_and!; [|done|].
  - rewrite <- (assoc_L (++)) in E. cbn [app] in E. rewrite <- E. by destruct kd.
  - cbn [fmap list_fmap]. rewrite Hrs. unfold rd_read, rd_means. cbn [fst snd]. by rewrite Hv.
Qed.

(** A command ends here. *)
Definition ends (set : list Z) (k : list spaced) : Prop := k = [] ∨ starts set k = true.

Lemma ends_starts set set' k :
  ends set k → forallb (λ c, negb (in_set set' c)) set = true → starts set' k = false.
Proof.
  intros [-> |Hs] Hd; [done|]. rewrite forallb_forall in Hd. setoid_rewrite <- list_elem_of_In in Hd.
  destruct k as [|[[c| |w] ws] k]; cbn [starts] in *; try done; apply in_set_spec, Hd in Hs; by apply negb_true_iff.
Qed.

Lemma ends_weaken set set' k :
  ends set k → forallb (in_set set') set = true → ends set' k.
Proof.
  intros [-> |Hs] Hd; [by left|]. right. rewrite forallb_forall in Hd. setoid_rewrite <- list_elem_of_In in Hd.
  destruct k as [|[[c| |w] ws] k]; cbn [starts] in *; try done; by apply in_set_spec, Hd in Hs.
Qed.

Lemma starts_args set args ts k :
  fst <$> ts = concat (arg_toks <$> args) → starts set k = false → starts set (ts ++ k) = false.
Proof.
  intros Hts Hk. destruct args as [|a args]; [by apply fmap_nil_inv in Hts as ->|].
  cbn [fmap list_fmap concat arg_toks app] in Hts. apply fmap_cons_inv in Hts as ([t w] & ? & Ht & _ & ->). cbn in Ht. by subst t.
Qed.

Lemma length_rd_toks rds : length (concat (rd_toks <$> rds)) = (2 * length rds)%nat.
Proof. induction rds as [|r rds IH]; [done|]. cbn [fmap list_fmap concat]. rewrite length_app, IH. cbn. lia. Qed.

Lemma parseargs_at n argv r args ts k s :
  fst <$> ts = concat (arg_toks <$> args) → at_ buf s (ts ++ k) → ends (str "|)&;") k →
  (length argv + length args < MAXARGS)%nat → (length ts + 2 ≤ n)%nat →
  ∃ vs rs s', parseargs buf n argv r s = Ok (wrap (EXEC (argv ++ vs)) (r ++ rs)) s' ∧ at_ buf s' k ∧
    text <$> vs = fst <$> args ∧ rd_read <$> rs = rd_means <$> concat (snd <$> args).
Proof.
  revert n argv r ts s. induction args as [|[a rds] args IH]; intros n argv r ts s Hts Hat Hk Hm Hn;
    (destruct n as [|n]; [lia|]); cbn [parseargs].
  { apply fmap_nil_inv in Hts as ->. cbn [app] in Hat. exists [], []. rewrite !app_nil_r. peek_tac Hat.
    destruct Hk as [-> | ->]; [|by exists s0]. cbn [starts].
    destruct (gettoken_end buf _ Hat) as (v & s1 & E & Hat1). rewrite (bind_Ok _ _ _ _ _ E). by exists s1. }
  cbn [fmap list_fmap concat arg_toks app fst snd] in Hts.
  apply fmap_cons_inv in Hts as ([t w] & ts1 & Ht & Hts & ->). symmetry in Hts. cbn [fst] in Ht. subst t.
  apply fmap_app_inv in Hts as (ts2 & ts3 & Hts2 & Hts3 & ->). cbn [app] in Hat.
  peek_tac Hat. cbn [starts]. token_tac Hat v Hv. cbn [Z.eqb Pos.eqb negb length] in *.
  destruct (Nat.leb_spec MAXARGS (length (argv ++ [v]))) as [Hl|Hl]; [rewrite length_app in Hl; cbn in Hl; lia|].
  rewrite <- (assoc_L (++)) in Hat. pose proof (f_equal length Hts2) as Hlen. rewrite length_rd_toks, length_fmap in Hlen.
  rewrite length_app in Hn.
  destruct (parseredirs_at n r rds ts2 (ts3 ++ k) s1) as (rs & s2 & E & Hat2 & Hrs); [done|done| |lia|].
  { eapply starts_args; [done|]. by eapply ends_starts. }
  rewrite (bind_Ok _ _ _ _ _ E).
  destruct (IH n (argv ++ [v]) (r ++ rs) ts3 s2) as (vs & rs' & s3 & E3 & Hat3 & Hvs & Hrs'); [done|done|done| |lia|].
  { rewrite length_app. cbn. lia. }
  exists (v :: vs), (rs ++ rs'), s3. split_and!; [|done| |].
  - rewrite E3, <- !(assoc_L (++)). done.
  - cbn [fmap list_fmap fst tok_text] in *. by rewrite Hv, Hvs.
  - cbn [fmap list_fmap snd concat]. by rewrite !fmap_app, Hrs, Hrs'.
Qed.

Lemma parseback_at n c m ts k s :
  fst <$> ts = replicate m (Tsym 38) → at_ buf s (ts ++ k) → starts (str "&") k = false → (m < n)%nat →
  ∃ s', parseback buf n c s = Ok (Nat.iter m BACK c) s' ∧ at_ buf s' k.
Proof.
  revert n c ts s. induction m as [|m IH]; intros n c ts s Hts Hat Hk Hn; (destruct n as [|n]; [lia|]); cbn [parseback].
  { apply fmap_nil_inv in Hts as ->. cbn [app] in Hat. peek_tac Hat. rewrite Hk. by exists s0. }
  cbn [replicate] in Hts. apply fmap_cons_inv in Hts as ([t w] & ts1 & Ht & Hts & ->). symmetry in Hts. cbn [fst] in Ht. subst t.
  cbn [app] in Hat. peek_tac Hat. cbn [starts]. change (in_set (str "&") 38) with true. cbn [negb]. token_tac Hat v Hv.
  destruct (IH n (BACK c) ts1 s1) as (s' & E & Hat'); [done|done|done|lia|]. exists s'. split; [|done]. rewrite E. f_equal.
  by rewrite <- Nat.iter_succ_r.
Qed.

Lemma read_back m c : read_cmd text (Nat.iter m BACK c) = Nat.iter m TBACK (read_cmd text c).
Proof. induction m as [|m IH]; [done|]. rewrite !Nat.iter_succ. cbn [read_cmd]. by rewrite IH. Qed.

(** What parsing [toks] before [k] with [fuel] must give. *)
Definition parses (parse : nat → M nat cmd) (toks : list token) (stop : list Z) (extra : nat) (t : tcmd) : Prop :=
  ∀ n ts k s, fst <$> ts = toks → at_ buf s (ts ++ k) → ends stop k → (4 * length ts + extra ≤ n)%nat →
    ∃ c s', parse n s = Ok c s' ∧ at_ buf s' k ∧ read_cmd text c = t.

Lemma parses_exec rds args :
  (length args < MAXARGS)%nat →
  parses (parseexec buf) (unit_toks (Uexec rds args)) (str "|)&;") 6 (unit_cmd (Uexec rds args)).
Proof.
  intros Hm n ts k s Hts Hat Hk Hn. cbn [unit_toks] in Hts. apply fmap_app_inv in Hts as (ts1 & ts2 & Hts1 & Hts2 & ->).
  destruct n as [|n]; [lia|]. cbn [parseexec]. rewrite <- (assoc_L (++)) in Hat. rewrite length_app in Hn.
  pose proof (f_equal length Hts1) as Hlen. rewrite length_rd_toks, length_fmap in Hlen.
  assert (∀ set, forallb (λ c, negb (in_set set c)) (str "|)&;") = true → starts set (ts2 ++ k) = false) as Hst.
  { intros set Hset. eapply starts_args; [done|]. by eapply ends_starts. }
  assert (starts (str "(") (ts1 ++ ts2 ++ k) = false) as Hno.
  { destruct rds as [|[kd f] rds]; [symmetry in Hts1; apply fmap_nil_inv in Hts1 as ->; by apply Hst|].
    cbn [fmap list_fmap concat rd_toks app fst snd] in Hts1. symmetry in Hts1.
    apply fmap_cons_inv in Hts1 as ([t w] & ? & Ht & _ & ->). cbn [fst] in Ht. subst t. by destruct kd. }
  peek_tac Hat. rewrite Hno.
  destruct (parseredirs_at n [] rds ts1 (ts2 ++ k) s0) as (rs & s2 & E & Hat2 & Hrs); [done|done|by apply Hst|lia|].
  rewrite (bind_Ok _ _ _ _ _ E).
  destruct (parseargs_at n [] ([] ++ rs) args ts2 k s2) as (vs & rs' & s3 & E3 & Hat3 & Hvs & Hrs'); [done|done|done|done|lia|].
  eexists _, s3. split; [exact E3|]. split; [done|]. cbn [app unit_cmd]. rewrite (read_wrap _ _ (rds ++ concat (snd <$> args))).
  - cbn [read_cmd]. by rewrite Hvs.
  - by rewrite !fmap_app, Hrs, Hrs'.
Qed.

Lemma parses_block l rds :
  parses (parseline buf) (line_toks l) (str ")") 8 (line_cmd l) →
  parses (parseexec buf) (unit_toks (Ublock l rds)) (str "|)&;") 6 (unit_cmd (Ublock l rds)).
Proof.
  intros IH n ts k s Hts Hat Hk Hn. cbn [unit_toks] in Hts.
  apply fmap_cons_inv in Hts as ([t1 w1] & ts1 & Ht1 & Hts & ->). symmetry in Hts. cbn [fst] in Ht1. subst t1.
  apply fmap_app_inv in Hts as (ts2 & ts3 & Hts2 & Hts3 & ->). symmetry in Hts3.
  apply fmap_cons_inv in Hts3 as ([t4 w4] & ts4 & Ht4 & Hts4 & ->). cbn [fst] in Ht4. subst t4.
  cbn [length app] in *. rewrite length_app in Hn. cbn [length] in Hn. rewrite <- (assoc_L (++)) in Hat. cbn [app] in Hat.
  pose proof (f_equal length Hts4) as Hlen. rewrite length_rd_toks, length_fmap in Hlen.
  destruct n as [|[|n]]; [lia..|]. cbn [parseexec parseblock]. peek_tac Hat. change (starts (str "(") _) with true. cbn beta iota.
  peek_tac Hat. change (starts (str "(") _) with true. cbn [negb]. token_tac Hat v Hv.
  destruct (IH n ts2 ((Tsym 41, w4) :: ts4 ++ k) s2) as (c & s3 & E3 & Hat3 & Hc); [done|done|by right|lia|].
  rewrite (bind_Ok _ _ _ _ _ E3). peek_tac Hat3. change (starts (str ")") _) with true. cbn [negb]. token_tac Hat3 v' Hv'.
  destruct (parseredirs_at n [] rds ts4 k s5) as (rs & s6 & E6 & Hat6 & Hrs); [done|done|by eapply ends_starts|lia|].
  rewrite (bind_Ok _ _ _ _ _ E6). eexists _, s6. split; [done|]. split; [done|]. cbn [app unit_cmd].
  by rewrite (read_wrap _ _ rds), Hc.
Qed.

Lemma parses_pone u :
  parses (parseexec buf) (unit_toks u) (str "|)&;") 6 (unit_cmd u) →
  parses (parsepipe buf) (pipe_toks (Pone u)) (str ")&;") 7 (pipe_cmd (Pone u)).
Proof.
  intros IH n ts k s Hts Hat Hk Hn. destruct n as [|n]; [lia|]. cbn [parsepipe pipe_toks pipe_cmd] in *.
  destruct (IH n ts k s Hts Hat) as (c & s1 & E & Hat1 & Hc); [by eapply ends_weaken|lia|].
  rewrite (bind_Ok _ _ _ _ _ E). peek_tac Hat1. rewrite (ends_starts _ _ _ Hk) by done. by exists c, s0.
Qed.

Lemma parses_pmore u p :
  parses (parseexec buf) (unit_toks u) (str "|)&;") 6 (unit_cmd u) →
  parses (parsepipe buf) (pipe_toks p) (str ")&;") 7 (pipe_cmd p) →
  parses (parsepipe buf) (pipe_toks (Pmore u p)) (str ")&;") 7 (pipe_cmd (Pmore u p)).
Proof.
  intros IHu IHp n ts k s Hts Hat Hk Hn. destruct n as [|n]; [lia|]. cbn [parsepipe pipe_toks pipe_cmd] in *.
  apply fmap_app_inv in Hts as (ts1 & ts2 & Hts1 & Hts2 & ->). symmetry in Hts2.
  apply fmap_cons_inv in Hts2 as ([t w] & ts3 & Ht & Hts3 & ->). cbn [fst] in Ht. subst t.
  rewrite length_app in Hn. cbn [length] in Hn. rewrite <- (assoc_L (++)) in Hat. cbn [app] in Hat.
  destruct (IHu n ts1 ((Tsym 124, w) :: ts3 ++ k) s) as (c & s1 & E & Hat1 & Hc); [done|done|by right|lia|].
  rewrite (bind_Ok _ _ _ _ _ E). peek_tac Hat1. change (starts (str "|") _) with true. cbn [negb]. token_tac Hat1 v Hv.
  destruct (IHp n ts3 k s2) as (c' & s3 & E3 & Hat3 & Hc'); [done|done|done|lia|].
  rewrite (bind_Ok _ _ _ _ _ E3). eexists _, s3. split; [done|]. split; [done|]. cbn [read_cmd]. by rewrite Hc, Hc'.
Qed.

(** The beginning of a line: a pipeline and its ampersands. *)
Lemma parse_backs p m n ts k s :
  parses (parsepipe buf) (pipe_toks p) (str ")&;") 7 (pipe_cmd p) →
  fst <$> ts = pipe_toks p ++ replicate m (Tsym 38) → at_ buf s (ts ++ k) → ends (str ");") k → (4 * length ts + 7 ≤ n)%nat →
  ∃ c c' s' s'', parsepipe buf n s = Ok c s' ∧ parseback buf n c s' = Ok c' s'' ∧ at_ buf s'' k ∧
    read_cmd text c' = Nat.iter m TBACK (pipe_cmd p).
Proof.
  intros IH Hts Hat Hk Hn. apply fmap_app_inv in Hts as (ts1 & ts2 & Hts1 & Hts2 & ->).
  rewrite length_app in Hn. rewrite <- (assoc_L (++)) in Hat.
  pose proof (f_equal length Hts2) as Hlen. rewrite length_replicate, length_fmap in Hlen.
  destruct (IH n ts1 (ts2 ++ k) s) as (c & s1 & E & Hat1 & Hc); [done|done| |lia|].
  { destruct m as [|m]; [symmetry in Hts2; apply fmap_nil_inv in Hts2 as ->; by eapply ends_weaken|]. right.
    cbn [replicate] in Hts2. symmetry in Hts2. apply fmap_cons_inv in Hts2 as ([t w] & ? & Ht & _ & ->). cbn in Ht. by subst t. }
  destruct (parseback_at n c m ts2 k s1) as (s2 & E2 & Hat2); [done|done|by eapply ends_starts|lia|].
  exists c, (Nat.iter m BACK c), s1, s2. split_and!; [done..|]. by rewrite read_back, Hc.
Qed.

Lemma parses_lend p m :
  parses (parsepipe buf) (pipe_toks p) (str ")&;") 7 (pipe_cmd p) →
  parses (parseline buf) (line_toks (Lend p m)) (str ")") 8 (line_cmd (Lend p m)).
Proof.
  intros IH n ts k s Hts Hat Hk Hn. destruct n as [|n]; [lia|]. cbn [parseline line_toks line_cmd] in *.
  destruct (parse_backs p m n ts k s) as (c & c' & s1 & s2 & E1 & E2 & Hat2 & Hc); [done|done|done|by eapply ends_weaken|lia|].
  rewrite (bind_Ok _ _ _ _ _ E1), (bind_Ok _ _ _ _ _ E2). peek_tac Hat2. rewrite (ends_starts _ _ _ Hk) by done.
  by exists c', s0.
Qed.

Lemma parses_lseq p m l :
  parses (parsepipe buf) (pipe_toks p) (str ")&;") 7 (pipe_cmd p) →
  parses (parseline buf) (line_toks l) (str ")") 8 (line_cmd l) →
  parses (parseline buf) (line_toks (Lseq p m l)) (str ")") 8 (line_cmd (Lseq p m l)).
Proof.
  intros IHp IHl n ts k s Hts Hat Hk Hn. destruct n as [|n]; [lia|]. cbn [parseline line_toks line_cmd] in *.
  rewrite (assoc_L (++)) in Hts. apply fmap_app_inv in Hts as (ts1 & ts2 & Hts1 & Hts2 & ->). symmetry in Hts1, Hts2.
  apply fmap_cons_inv in Hts2 as ([t w] & ts3 & Ht & Hts3 & ->). cbn [fst] in Ht. subst t.
  rewrite length_app in Hn. cbn [length] in Hn. rewrite <- (assoc_L (++)) in Hat. cbn [app] in Hat.
  destruct (parse_backs p m n ts1 ((Tsym 59, w) :: ts3 ++ k) s) as (c & c' & s1 & s2 & E1 & E2 & Hat2 & Hc); [done|done|done|by right|lia|].
  rewrite (bind_Ok _ _ _ _ _ E1), (bind_Ok _ _ _ _ _ E2). peek_tac Hat2. change (starts (str ";") _) with true. cbn [negb].
  token_tac Hat2 v Hv. destruct (IHl n ts3 k s3) as (r & s4 & E4 & Hat4 & Hr); [done|done|done|lia|].
  rewrite (bind_Ok _ _ _ _ _ E4). eexists _, s4. split; [done|]. split; [done|]. cbn [read_cmd]. by rewrite Hc, Hr.
Qed.

Lemma parses_all :
  (∀ l, args_fit l → parses (parseline buf) (line_toks l) (str ")") 8 (line_cmd l)) ∧
  (∀ p, pargs_fit p → parses (parsepipe buf) (pipe_toks p) (str ")&;") 7 (pipe_cmd p)) ∧
  (∀ u, uargs_fit u → parses (parseexec buf) (unit_toks u) (str "|)&;") 6 (unit_cmd u)).
Proof.
  apply shell_ind; cbn [args_fit pargs_fit uargs_fit].
  - intros p IH m Hf. apply parses_lend. auto.
  - intros p IHp m l IHl [? ?]. apply parses_lseq; auto.
  - intros u IH ?. apply parses_pone. auto.
  - intros u IHu p IHp [? ?]. apply parses_pmore; auto.
  - intros. by apply parses_exec.
  - intros l IH rds ?. apply parses_block. auto.
Qed.

End Parse.

(** ** Properties *)

Lemma written_plain ts : Forall spaced_ok ts → Forall (λ c, c ≠ 0) (written ts).
Proof.
  induction 1 as [|[t w] ts (Ht & _ & Hw) Hts IH]; [constructor|]. unfold written. cbn [fmap list_fmap concat fst snd].
  rewrite !Forall_app. split_and!; [| |exact IH]; cbn [fst snd] in *.
  - destruct t as [c| |v]; cbn [tok_text tok_ok] in *.
    + apply Forall_singleton. apply symbols_cases in Ht. lia.
    + by repeat constructor.
    + destruct Ht as [_ Hv]. eapply Forall_impl; [exact Hv|]. cbn. intros c Hc%wordchar_spec. tauto.
  - eapply Forall_impl; [exact Hw|]. cbn. intros c Hc. by apply whitespace_not.
Qed.

Lemma read_cmd_ext text text' c : (∀ w, w ∈ words_of c → text w = text' w) → read_cmd text c = read_cmd text' c.
Proof.
  induction c as [argv|c IH w mode fd|l IHl r IHr|l IHl r IHr|c IH]; cbn [words_of read_cmd]; intros Hw.
  - f_equal. apply list_fmap_ext. intros i w Hi. apply Hw. by eapply list_elem_of_lookup_2.
  - rewrite IH by set_solver. f_equal. set_solver.
  - f_equal; [apply IHl|apply IHr]; set_solver.
  - f_equal; [apply IHl|apply IHr]; set_solver.
  - f_equal. auto.
Qed.

(** C12. The shell reads every line of its language as the command it describes: for a
    line of the grammar (pipelines, background, lists, parentheses, redirections, at most
    nine arguments per command), written with any white space before and at least one
    white character after each token, parsecmd() returns, without output, a command
    whose words, read from the buffer after nulterminate(), make up exactly the tree of
    that line. *)
Theorem parsecmd_roundtrip {St : Type} `{Sys St} (l : sline) (lead : list Z) (ts : list spaced) (s : St) :
  fst <$> ts = line_toks l → args_fit l → Forall spaced_ok ts → Forall (λ c, c ∈ whitespace) lead →
  ∃ c buf', parsecmd (lead ++ written ts) s = Ok (Some (c, buf')) s ∧ read_cmd (string_at buf') c = line_cmd l.
Proof.
  intros Hts Hf Hok Hlead. set (buf := lead ++ written ts).
  assert (Forall (λ c, c ≠ 0) buf) as Hp.
  { apply Forall_app. split; [|by apply written_plain]. eapply Forall_impl; [exact Hlead|]. cbn. intros c Hc. by apply whitespace_not. }
  assert (at_ buf 0 (ts ++ [])) as Hat by (rewrite app_nil_r; split; [done|]; by exists [], lead).
  assert (length ts ≤ length buf)%nat as Hlen.
  { unfold buf. rewrite length_app. clear -Hok. induction Hok as [|[t w] ts (_ & Hw & _) _ IH]; [cbn; lia|].
    unfold written in *. cbn [fmap list_fmap concat length fst snd] in *. rewrite !length_app. destruct w; [done|]. cbn [length]. lia. }
  destruct (parses_all buf) as (Hl & _ & _).
  destruct (Hl l Hf (4 * length buf + 8)%nat ts [] 0%nat Hts Hat) as (c & s' & E & Hat' & Hc); [by left|lia|].
  destruct (parse_safe buf Hp (4 * length buf + 8) 0) as [Hs _]; [unfold es; lia|].
  specialize (Hs ltac:(unfold es; lia)). unfold safe in Hs. rewrite E in Hs. destruct Hs as [_ Hg].
  exists c, (nulterminate c buf). unfold parsecmd. rewrite E.
  destruct (skip_white_at buf s' [] Hat') as (pre & Hpre & -> & _).
  rewrite decide_True by (unfold es; by rewrite Hpre, app_nil_r). split; [done|].
  rewrite <- Hc. apply read_cmd_ext. intros w Hw. rewrite nulterminate_cuts. by apply string_at_word.
Qed.

Definition line_ex : sline :=
  Lseq (Pmore (Uexec [] [(str "grep", []); (str "a*", [(Rin, str "f")])]) (Pone (Uexec [] [(str "wc", [(Rapp, str "o")])]))) 1
    (Lend (Pone (Ublock (Lend (Pone (Uexec [(Rout, str "g")] [(str "ls", [])])) 0) [])) 0).

Lemma parsecmd_roundtrip_witness :
  ∃ c buf', parsecmd ([9] ++ written ((λ t, (t, [32])) <$> line_toks line_ex)) (mkufs ∅ ∅) =
    Ok (Some (c, buf')) (mkufs ∅ ∅) ∧ read_cmd (string_at buf') c = line_cmd line_ex.
Proof.
  apply (parsecmd_roundtrip line_ex [9] ((λ t, (t, [32])) <$> line_toks line_ex) (mkufs ∅ ∅)).
  - by vm_compute.
  - vm_compute. lia.
  - repeat constructor; vm_compute; try done; set_solver.
  - repeat constructor; vm_compute; set_solver.
Defined.
